(** * PDF-Master-pro: the Office-to-PDF extraction and painting pipeline

    A shallow embedding of the layout and painting code of the PowerPoint
    converter (the [PowerPointToPDF] component) and of the style merge of the
    Word converter ([src/pages/tools/WordToPDF.tsx]), with the properties the
    specification states about them.

    Conventions of the embedding.
    - A JavaScript [number] is an exact rational ([Q]), except where the
      code reads a number off a text with [parseInt] and computes with it
      (the sizes and positions in EMU, the numbers of the slide files):
      there every result is the double next to the exact value
      ([toDouble]).  NaN is [None]; infinities are outside the model.
      Equality of numbers is [Qeq] ([==]).
    - A JavaScript string is a [string] of 8-bit code units.
    - The jsPDF document is a list of pages, each page the list of the
      calls issued on it, in order.  The drawing primitives of jsPDF reject
      only arguments that are not numbers: on rational arguments they
      return, and a colour setter given a channel that is NaN throws
      ([pdfSetColor]).  Loading an image and [addImage] may fail, and so
      may the slide parser and the text and shape painters, which are
      parameters of the model ([Env]) and range over all behaviours; the
      shape painter itself is modelled against a jsPDF in which any call
      may throw. *)

From Stdlib Require Import QArith Qminmax Qround Qpower Qabs Lqa Lia ZArith.
From Stdlib Require Import List String Ascii Bool Arith.
From Stdlib Require Import Permutation Sorted.
Import ListNotations.

Local Open Scope Q_scope.

(** ** JavaScript values *)

Module JS.

(** [a || d] on numbers: [0] is falsy. *)
Definition orNum (a d : Q) : Q := if Qeq_bool a 0 then d else a.

(** [a > b] and [a <= b] as the code tests them. *)
Definition gt (a b : Q) : bool := negb (Qle_bool a b).
Definition le (a b : Q) : bool := Qle_bool a b.
Definition lt (a b : Q) : bool := negb (Qle_bool b a).
Definition ge (a b : Q) : bool := Qle_bool b a.

(** [s || d] on strings: the empty string is falsy. *)
Definition orStr (s d : string) : string :=
  match s with EmptyString => d | _ => s end.

Definition truthyStr (s : string) : bool :=
  match s with EmptyString => false | _ => true end.

Definition truthyOpt (s : option string) : bool :=
  match s with Some s' => truthyStr s' | None => false end.

(** [v || d] on an optional number: [undefined] and [0] are falsy. *)
Definition orNumOpt (v : option Q) (d : Q) : Q :=
  match v with Some a => orNum a d | None => d end.

Definition truthyNumOpt (v : option Q) : bool :=
  match v with Some a => negb (Qeq_bool a 0) | None => false end.

(** A thrown value, kept as its message. *)
Inductive Outcome (A : Type) : Type :=
| Ok (a : A)
| Throw (message : string).
Arguments Ok {A} a.
Arguments Throw {A} message.

(** *** Strings *)

Local Open Scope char_scope.

(** The white space of [String.prototype.trim] and of the regular
    expression class [\s], among 8-bit code units. *)
Definition isWhiteSpace (c : ascii) : bool :=
  let n := nat_of_ascii c in
  ((9 <=? n) && (n <=? 13) || (n =? 32) || (n =? 160))%nat.

Fixpoint trimStart (s : string) : string :=
  match s with
  | String c s' => if isWhiteSpace c then trimStart s' else s
  | EmptyString => EmptyString
  end.

Fixpoint rev_append (s acc : string) : string :=
  match s with
  | String c s' => rev_append s' (String c acc)
  | EmptyString => acc
  end.

Definition reverse (s : string) : string := rev_append s EmptyString.

Definition trim (s : string) : string :=
  reverse (trimStart (reverse (trimStart s))).

(** [s.substring(0, n)] is [substring 0 n s]; [s.substring(n)] is: *)
Definition substringFrom (n : nat) (s : string) : string :=
  substring n (String.length s - n) s.

Definition lowerChar (c : ascii) : ascii :=
  let n := nat_of_ascii c in
  if ((65 <=? n) && (n <=? 90))%nat then ascii_of_nat (n + 32) else c.

Fixpoint toLowerCase (s : string) : string :=
  match s with
  | String c s' => String (lowerChar c) (toLowerCase s')
  | EmptyString => EmptyString
  end.

Definition startsWith (s p : string) : bool := prefix p s.

Fixpoint includes (s p : string) : bool :=
  prefix p s ||
  match s with
  | String _ s' => includes s' p
  | EmptyString => false
  end.

(** [s.replace('#', '')]: the first ['#'] is removed. *)
Fixpoint removeFirstHash (s : string) : string :=
  match s with
  | String c s' => if Ascii.eqb c "#" then s' else String c (removeFirstHash s')
  | EmptyString => EmptyString
  end.

(** [text.split(/\s+/)]. *)
Fixpoint splitWhiteSpace (s : string) (token : string) (inGap : bool) : list string :=
  match s with
  | EmptyString => [reverse token]
  | String c s' =>
      if isWhiteSpace c then
        if inGap then splitWhiteSpace s' token true
        else reverse token :: splitWhiteSpace s' EmptyString true
      else splitWhiteSpace s' (String c token) false
  end.

Definition split_ws (s : string) : list string :=
  splitWhiteSpace s EmptyString false.

(** *** [parseInt] *)

Definition digitValue (c : ascii) : option Z :=
  let n := nat_of_ascii c in
  if ((48 <=? n) && (n <=? 57))%nat then Some (Z.of_nat (n - 48))
  else if ((97 <=? n) && (n <=? 102))%nat then Some (Z.of_nat (n - 87))
  else if ((65 <=? n) && (n <=? 70))%nat then Some (Z.of_nat (n - 55))
  else None.

Definition digitIn (radix : Z) (c : ascii) : option Z :=
  match digitValue c with
  | Some d => if (d <? radix)%Z then Some d else None
  | None => None
  end.

(** The longest prefix of digits, read in [radix]; [None] when it is
    empty. *)
Fixpoint readDigits (radix : Z) (s : string) (acc : option Z) : option Z :=
  match s with
  | String c s' =>
      match digitIn radix c with
      | Some d =>
          readDigits radix s'
            (Some (match acc with Some a => a * radix + d | None => d end)%Z)
      | None => acc
      end
  | EmptyString => acc
  end.

Definition stripHexPrefix (s : string) : string :=
  match s with
  | String "0" (String "x" s') => s'
  | String "0" (String "X" s') => s'
  | _ => s
  end.

(** [parseInt(s, radix)] for radix 10 and 16; [None] is NaN. *)
Definition parseIntRadix (radix : Z) (s : string) : option Z :=
  let s1 := trimStart s in
  let '(negative, s2) :=
    match s1 with
    | String "-" s' => (true, s')
    | String "+" s' => (false, s')
    | _ => (false, s1)
    end in
  let s3 := if (radix =? 16)%Z then stripHexPrefix s2 else s2 in
  match readDigits radix s3 None with
  | Some v => Some (if negative then (- v)%Z else v)
  | None => None
  end.

(** *** Numbers that are rounded

    Where the code reads a number off a text and divides it, the result
    is the double next to the exact value.  [toDouble] rounds a rational
    to 53 significant bits, to the nearest, ties to the even one; it has
    no largest and no smallest double, so it is the rounding of the code
    for results between 2^-1022 and 2^1024 in absolute value. *)

(** The integer next to [y], the even one of two that are as near. *)
Definition roundHalfEven (y : Q) : Z :=
  let f := Qfloor y in
  match Qcompare (y - inject_Z f) (1 # 2) with
  | Lt => f
  | Gt => (f + 1)%Z
  | Eq => if Z.even f then f else (f + 1)%Z
  end.

(** The exponent [e] with [2^e <= x < 2^(e+1)], for a positive [x]. *)
Definition binade (x : Q) : Z :=
  let e0 := (Z.log2 (Qnum x) - Z.log2 (Zpos (Qden x)))%Z in
  if Qle_bool (2 ^ e0) x then e0 else (e0 - 1)%Z.

Definition roundPositive (x : Q) : Q :=
  let k := (52 - binade x)%Z in
  inject_Z (roundHalfEven (x * 2 ^ k)) / 2 ^ k.

Definition toDouble (x : Q) : Q :=
  match Qcompare x 0 with
  | Eq => 0
  | Gt => roundPositive x
  | Lt => - roundPositive (- x)
  end.

(** Half the distance from 1 to the next double, 2^-53. *)
Definition unitRoundoff : Q := 1 # 9007199254740992.

(** [parseInt(s)] without a radix: the integer the text starts with, read
    in base 16 after [0x] and in base 10 otherwise; [None] is NaN. *)
Definition integerOf (s : string) : option Z :=
  let s1 := trimStart s in
  let s2 :=
    match s1 with
    | String "-" s' => s'
    | String "+" s' => s'
    | _ => s1
    end in
  if prefix "0x" s2 || prefix "0X" s2 then parseIntRadix 16 s else parseIntRadix 10 s.

(** The number [parseInt] returns: the double next to that integer. *)
Definition parseInt (s : string) : option Q :=
  match integerOf s with
  | Some n => Some (toDouble (inject_Z n))
  | None => None
  end.

(** [String(n)] of a natural number (template literals). *)
Fixpoint digitsOf (fuel n : nat) (acc : string) : string :=
  match fuel with
  | O => acc
  | S fuel' =>
      let acc' := String (ascii_of_nat (48 + n mod 10)) acc in
      if (n <? 10)%nat then acc' else digitsOf fuel' (n / 10) acc'
  end.

Definition natToString (n : nat) : string := digitsOf (S n) n EmptyString.

(** [Array.prototype.sort(compare)], which the language specifies as a
    stable sort: an element goes before the first later element that the
    comparator does not put before it. *)
Fixpoint insertSorted {A : Type} (compare : A -> A -> Q) (a : A) (l : list A) : list A :=
  match l with
  | [] => [a]
  | b :: l' => if le (compare a b) 0 then a :: l else b :: insertSorted compare a l'
  end.

Definition sort {A : Type} (compare : A -> A -> Q) (l : list A) : list A :=
  fold_right (insertSorted compare) [] l.

End JS.

(** ** The PowerPoint converter *)

Module PowerPointToPDF.

Import JS.

Record PresentationMetadata := {
  slideCount : nat;
  title : option string;
  author : option string;
  slideWidth : Q;
  slideHeight : Q
}.

Record ShadowStyle := {
  shadow_offsetX : Q;
  shadow_offsetY : Q;
  shadow_blur : Q;
  shadow_color : string
}.

(** [ElementStyle]: every field is optional. *)
Record ElementStyle := {
  fontFamily : option string;
  fontSize : option Q;
  fontWeight : option string;
  fontStyle : option string;
  color : option string;
  backgroundColor : option string;
  borderColor : option string;
  borderWidth : option Q;
  borderStyle : option string;
  borderRadius : option Q;
  opacity : option Q;
  rotation : option Q;
  shadow : option ShadowStyle;
  textAlign : option string;
  verticalAlign : option string;
  textShadow : option string;
  boxShadow : option string;
  textDecoration : option string
}.

(** The object literal [{}]. *)
Definition noStyle : ElementStyle :=
  {| fontFamily := None; fontSize := None; fontWeight := None; fontStyle := None;
     color := None; backgroundColor := None; borderColor := None;
     borderWidth := None; borderStyle := None; borderRadius := None;
     opacity := None; rotation := None; shadow := None; textAlign := None;
     verticalAlign := None; textShadow := None; boxShadow := None;
     textDecoration := None |}.

Record Position := {
  pos_x : Q;
  pos_y : Q;
  pos_width : Q;
  pos_height : Q
}.

Inductive ElementType := text | image | shape | chart | table.

Record TableCell := {
  cell_text : string;
  cell_style : option ElementStyle
}.

Record TableRow := { cells : list TableCell }.

(** [content: any], as the extractors build it and the painters cast it. *)
Inductive Content :=
| TextContent (text : string) (style : option ElementStyle)
| ImageContent (src : string) (alt : option string)
| ShapeContent (shapeType : option string) (cornerRadius : option Q)
| TableContent (rows : list TableRow).

Record SlideElement := {
  el_id : string;
  el_type : ElementType;
  el_position : Position;
  zIndex : Q;
  el_content : Content;
  el_style : ElementStyle
}.

Record SlideData := {
  slide_id : string;
  slide_title : option string;
  layout : string;
  slide_backgroundColor : option string;
  backgroundImage : option string;
  elements : list SlideElement;
  notes : option string;
  hidden : option bool
}.

Record PresentationData := {
  slides : list SlideData;
  metadata : PresentationMetadata
}.

Inductive PageSize := A4 | Letter | Legal | A3 | Custom.
Inductive Orientation := portrait | landscape.

Record ConversionSettings := {
  quality : Q;
  pageSize : PageSize;
  orientation : Orientation;
  includeHiddenSlides : bool;
  compression : bool;
  includeImages : bool;
  watermark : option string;
  dpi : Q
}.

(** *** Unit conversion *)

(** [extractMetadata]: [parseInt(cx) / 12700], a division of doubles;
    [None] is NaN. *)
Definition slideSizeFromEmu (cx : string) : option Q :=
  match parseInt cx with
  | Some emu => Some (toDouble (emu / 12700))
  | None => None
  end.

(** The slide size of [extractMetadata]; [slideSizeMatch] holds the two
    attribute values the expression captures, and is [None] when it does
    not match. *)
Definition extractSlideSize (slideSizeMatch : option (string * string))
    : option Q * option Q :=
  match slideSizeMatch with
  | Some (cx, cy) => (slideSizeFromEmu cx, slideSizeFromEmu cy)
  | None => (Some 720, Some 540)
  end.

(** [extractElementPosition]: [parseInt(v) / 914400 * 96], a division and
    a multiplication of doubles. *)
Definition positionFromEmu (v : string) : option Q :=
  match parseInt v with
  | Some emu => Some (toDouble (toDouble (emu / 914400) * 96))
  | None => None
  end.

(** The object [extractElementPosition] returns: each number may be
    NaN. *)
Record PixelPosition := {
  px_x : option Q;
  px_y : option Q;
  px_width : option Q;
  px_height : option Q
}.

(** [extractElementPosition]; [transformMatch] holds the four attribute
    values the expression captures, and is [None] when it does not match
    (the function then returns null). *)
Definition extractElementPosition
    (transformMatch : option (string * string * string * string))
    : option PixelPosition :=
  match transformMatch with
  | Some (offX, offY, extCx, extCy) =>
      Some {| px_x := positionFromEmu offX;
              px_y := positionFromEmu offY;
              px_width := positionFromEmu extCx;
              px_height := positionFromEmu extCy |}
  | None => None
  end.

(** *** Page dimensions ([convertPowerPointToPDF], first part) *)

Definition contentMargin : Q := 20.

Definition dpiScale (s : ConversionSettings) : Q := dpi s / 72.

(** The [switch] on [pageSize]. *)
Definition basePdfSize (s : ConversionSettings) : Q * Q :=
  match pageSize s with
  | A4 => (595 * dpiScale s, 842 * dpiScale s)
  | Letter => (612 * dpiScale s, 792 * dpiScale s)
  | Legal => (612 * dpiScale s, 1008 * dpiScale s)
  | A3 => (842 * dpiScale s, 1191 * dpiScale s)
  | Custom => (842 * dpiScale s, 595 * dpiScale s)
  end.

(** [if (orientation === 'landscape') [w, h] = [h, w]]. *)
Definition adjustForOrientation (o : Orientation) (wh : Q * Q) : Q * Q :=
  match o with
  | landscape => (snd wh, fst wh)
  | portrait => wh
  end.

(** The fit of the slide's aspect ratio into the base page. *)
Definition fitPage (basePdfWidth basePdfHeight slideAspectRatio : Q) : Q * Q :=
  let pageAspectRatio := basePdfWidth / basePdfHeight in
  if gt slideAspectRatio pageAspectRatio then
    let availableWidth := basePdfWidth - contentMargin * 2 in
    let scaledHeight := availableWidth / slideAspectRatio in
    if le scaledHeight (basePdfHeight - contentMargin * 2)
    then (basePdfWidth, scaledHeight + contentMargin * 2)
    else (basePdfWidth, basePdfHeight)
  else
    let availableHeight := basePdfHeight - contentMargin * 2 in
    let scaledWidth := availableHeight * slideAspectRatio in
    if le scaledWidth (basePdfWidth - contentMargin * 2)
    then (scaledWidth + contentMargin * 2, basePdfHeight)
    else (basePdfWidth, basePdfHeight).

Definition canvasWidth (m : PresentationMetadata) : Q := orNum (slideWidth m) 1280.
Definition canvasHeight (m : PresentationMetadata) : Q := orNum (slideHeight m) 720.

(** [(pdfWidth, pdfHeight)] as passed to [new jsPDF] and [addPage]. *)
Definition pdfPageSize (s : ConversionSettings) (m : PresentationMetadata) : Q * Q :=
  let slideAspectRatio := canvasWidth m / canvasHeight m in
  let base := adjustForOrientation (orientation s) (basePdfSize s) in
  fitPage (fst base) (snd base) slideAspectRatio.

(** The variant the specification rules out: fit first, swap afterwards. *)
Definition pdfPageSizeSwapAfter (s : ConversionSettings) (m : PresentationMetadata) : Q * Q :=
  let slideAspectRatio := canvasWidth m / canvasHeight m in
  let base := basePdfSize s in
  adjustForOrientation (orientation s) (fitPage (fst base) (snd base) slideAspectRatio).

(** *** Element placement ([renderElementToPDF], lines before the dispatch) *)

Record Placement := {
  scale : Q;
  scaledSlideWidth : Q;
  scaledSlideHeight : Q;
  offsetX : Q;
  offsetY : Q;
  place_x : Q;
  place_y : Q;
  place_width : Q;
  place_height : Q
}.

Definition placement (p : Position)
    (contentWidth contentHeight slideW slideH margin : Q) : Placement :=
  let scaleX := contentWidth / slideW in
  let scaleY := contentHeight / slideH in
  let scale := Qmin scaleX scaleY in
  let scaledSlideWidth := slideW * scale in
  let scaledSlideHeight := slideH * scale in
  let offsetX := (contentWidth - scaledSlideWidth) / 2 in
  let offsetY := (contentHeight - scaledSlideHeight) / 2 in
  {| scale := scale;
     scaledSlideWidth := scaledSlideWidth;
     scaledSlideHeight := scaledSlideHeight;
     offsetX := offsetX;
     offsetY := offsetY;
     place_x := margin + offsetX + pos_x p * scale;
     place_y := margin + offsetY + pos_y p * scale;
     place_width := pos_width p * scale;
     place_height := pos_height p * scale |}.

(** The content area [renderSlideToPDF] derives from the page. *)
Definition contentArea (pdfWidth pdfHeight : Q) : Q * Q :=
  (pdfWidth - contentMargin * 2, pdfHeight - contentMargin * 2).

(** Placement of an element for a conversion run. *)
Definition placementFor (s : ConversionSettings) (m : PresentationMetadata)
    (p : Position) : Placement :=
  let page := pdfPageSize s m in
  let area := contentArea (fst page) (snd page) in
  placement p (fst area) (snd area) (canvasWidth m) (canvasHeight m) contentMargin.

(** *** The jsPDF surface *)

Inductive RectStyle := F | D | FD.

Record HTMLImageElement := {
  img_src : string;
  img_width : Q;
  img_height : Q
}.

(** A call on the [pdf] object that draws or changes how later calls
    draw.  Colour channels that come from [parseInt] may be NaN ([None]). *)
Inductive PdfOp :=
| pdf_setFillColor (r g b : option Z)
| pdf_setFillColorCss (c : string)
| pdf_setDrawColor (r g b : option Z)
| pdf_setTextColor (r g b : option Z)
| pdf_setLineWidth (w : Q)
| pdf_setFontSize (size : Q)
| pdf_rect (x y w h : Q) (style : RectStyle)
| pdf_line (x1 y1 x2 y2 : Q)
| pdf_text (s : string) (x y : Q) (align : option string) (angle : option Q)
| pdf_addImage (img : HTMLImageElement) (format : string) (x y w h : Q)
| pdf_saveGraphicsState
| pdf_restoreGraphicsState
| pdf_setGState (opacity : Q).

(** The part of the jsPDF state the code reads back. *)
Record PdfState := {
  currentFontSize : Q;
  currentFont : string
}.

Definition applyOp (op : PdfOp) (st : PdfState) : PdfState :=
  match op with
  | pdf_setFontSize size => {| currentFontSize := size; currentFont := currentFont st |}
  | _ => st
  end.

(** A painting computation: from the current state, the calls it issued
    on the current page, the state it leaves, and its result or the
    exception it threw. *)
Definition Paint (A : Type) : Type := PdfState -> list PdfOp * PdfState * Outcome A.

Definition ret {A : Type} (a : A) : Paint A := fun st => ([], st, Ok a).

Definition throw {A : Type} (message : string) : Paint A :=
  fun st => ([], st, Throw message).

Definition bind {A B : Type} (m : Paint A) (k : A -> Paint B) : Paint B :=
  fun st =>
    let '(o1, st1, r1) := m st in
    match r1 with
    | Ok a => let '(o2, st2, r2) := k a st1 in (o1 ++ o2, st2, r2)
    | Throw e => (o1, st1, Throw e)
    end.

(** [try { body } catch (e) { handler }]. *)
Definition tryCatch {A : Type} (body : Paint A) (handler : string -> Paint A) : Paint A :=
  fun st =>
    let '(o1, st1, r1) := body st in
    match r1 with
    | Ok a => (o1, st1, Ok a)
    | Throw e => let '(o2, st2, r2) := handler e st1 in (o1 ++ o2, st2, r2)
    end.

Definition emit (op : PdfOp) : Paint unit :=
  fun st => ([op], applyOp op st, Ok tt).

Definition getFontSize : Paint Q := fun st => ([], st, Ok (currentFontSize st)).

(** [pdf.setTextColor(r, g, b)] and [pdf.setDrawColor(r, g, b)] where the
    channels come from [parseInt]: jsPDF throws when one of them is NaN. *)
Definition pdfSetColor (setColor : option Z -> option Z -> option Z -> PdfOp)
    (r g b : option Z) : Paint unit :=
  match r, g, b with
  | Some _, Some _, Some _ => emit (setColor r g b)
  | _, _, _ => throw "Invalid argument passed to jsPDF"
  end.

Definition liftOutcome {A : Type} (r : Outcome A) : Paint A :=
  fun st => ([], st, r).

Declare Scope paint_scope.
Delimit Scope paint_scope with paint.
Notation "x <- m ;; k" := (bind m (fun x => k))
  (at level 61, m at next level, right associativity) : paint_scope.
Notation "m ;; k" := (bind m (fun _ => k))
  (at level 61, right associativity) : paint_scope.
Local Open Scope paint_scope.

(** [for (let i = start; i < l.length; i++) body(i, l[i])]. *)
Fixpoint forEachFrom {A : Type} (i : nat) (l : list A) (body : nat -> A -> Paint unit)
    : Paint unit :=
  match l with
  | [] => ret tt
  | a :: l' => body i a ;; forEachFrom (S i) l' body
  end.

Definition forEach {A : Type} (l : list A) (body : A -> Paint unit) : Paint unit :=
  forEachFrom 0 l (fun _ a => body a).

Definition ofNat (n : nat) : Q := inject_Z (Z.of_nat n).

(** What fires first on an [Image] after its [src] is set, and after how
    many milliseconds. *)
Inductive ImageEvent :=
| onload (after : Q) (img : HTMLImageElement)
| onerror (after : Q).

(** The browser and jsPDF as the converter sees them, and the parts of the
    converter that are taken as given: the slide parser and the text and
    shape painters, each free to throw. *)
Record Env := {
  splitTextToSize : PdfState -> string -> Q -> list string;
  imageEvent : string -> ImageEvent;
  addImageAccepts : HTMLImageElement -> string -> bool;
  renderTextElement :
    SlideElement -> Q -> Q -> Q -> Q -> ConversionSettings -> Paint unit;
  renderShapeElement : SlideElement -> Q -> Q -> Q -> Q -> Paint unit;
  parseSlideXml : string -> string -> nat -> Outcome SlideData
}.

Definition pdfSplitTextToSize (E : Env) (s : string) (maxWidth : Q) : Paint (list string) :=
  fun st => ([], st, Ok (splitTextToSize E st s maxWidth)).

(** [pdf.addImage], which throws on an image it cannot encode. *)
Definition pdfAddImage (E : Env) (img : HTMLImageElement) (format : string)
    (x y w h : Q) : Paint unit :=
  if addImageAccepts E img format then emit (pdf_addImage img format x y w h)
  else throw "addImage".

(** *** Images *)

(** [loadImageWithTimeout]: the promise settles with whichever of the
    image's event and the timer comes first; at equal times the timer,
    which was set first. *)
Definition loadImageWithTimeout (E : Env) (src : string) (timeout : Q)
    : Outcome HTMLImageElement :=
  match imageEvent E src with
  | onload after img =>
      if lt after timeout then Ok img else Throw "Image load timeout"
  | onerror after =>
      if lt after timeout then Throw "Image load failed" else Throw "Image load timeout"
  end.

(** The loop over the wrapped lines of the placeholder's message. *)
Fixpoint placeholderLines (lines : list string) (i : nat)
    (x y width height textStartY lineHeight : Q) : Paint unit :=
  match lines with
  | [] => ret tt
  | l :: lines' =>
      if (i <? 3)%nat then
        let lineY := textStartY + ofNat i * lineHeight in
        (if lt lineY (y + height - 5)
         then emit (pdf_text l (x + width / 2) lineY (Some "center"%string) None)
         else ret tt) ;;
        placeholderLines lines' (S i) x y width height textStartY lineHeight
      else ret tt
  end.

Definition renderImagePlaceholder (E : Env) (x y width height : Q) (message : string)
    : Paint unit :=
  emit (pdf_setFillColor (Some 248%Z) (Some 249%Z) (Some 250%Z)) ;;
  emit (pdf_setDrawColor (Some 220%Z) (Some 220%Z) (Some 220%Z)) ;;
  emit (pdf_setLineWidth 1) ;;
  emit (pdf_rect x y width height FD) ;;
  emit (pdf_setDrawColor (Some 200%Z) (Some 200%Z) (Some 200%Z)) ;;
  emit (pdf_setLineWidth 0.5) ;;
  emit (pdf_line x y (x + width) (y + height)) ;;
  emit (pdf_line (x + width) y x (y + height)) ;;
  let iconSize := Qmin width height * 0.3 in
  let iconX := x + (width - iconSize) / 2 in
  let iconY := y + (height - iconSize) / 2 in
  emit (pdf_setFillColor (Some 220%Z) (Some 220%Z) (Some 220%Z)) ;;
  emit (pdf_rect iconX iconY iconSize (iconSize * 0.7) F) ;;
  emit (pdf_setTextColor (Some 120%Z) (Some 120%Z) (Some 120%Z)) ;;
  emit (pdf_setFontSize (Qmax 8 (Qmin 12 (width / 15)))) ;;
  lines <- pdfSplitTextToSize E message (width - 10) ;;
  size <- getFontSize ;;
  let lineHeight := size * 1.2 in
  let textStartY := iconY + iconSize + lineHeight in
  placeholderLines lines 0 x y width height textStartY lineHeight.

Definition contentSrc (c : Content) : string :=
  match c with ImageContent src _ => src | _ => EmptyString end.

Definition contentAlt (c : Content) : option string :=
  match c with ImageContent _ alt => alt | _ => None end.

Definition imageFormatOf (src : string) : string :=
  let s := toLowerCase src in
  if includes s ".png" || includes s "data:image/png" then "PNG"
  else if includes s ".webp" then "WEBP"
  else if includes s ".gif" then "GIF"
  else "JPEG".

(** The three channels [parseInt(c.substr(i, 2), 16)] of a colour. *)
Definition hexChannel (c : string) (i : nat) : option Z :=
  parseIntRadix 16 (substring i 2 c).

Definition imageBorder (element : SlideElement)
    (renderX renderY renderWidth renderHeight : Q) : Paint unit :=
  match borderWidth (el_style element), borderColor (el_style element) with
  | Some bw, Some bc =>
      if negb (Qeq_bool bw 0) && truthyStr bc then
        let c := removeFirstHash bc in
        if (String.length c =? 6)%nat then
          pdfSetColor pdf_setDrawColor (hexChannel c 0) (hexChannel c 2) (hexChannel c 4) ;;
          emit (pdf_setLineWidth bw) ;;
          emit (pdf_rect renderX renderY renderWidth renderHeight D)
        else ret tt
      else ret tt
  | _, _ => ret tt
  end.

Definition renderImageElement (E : Env) (element : SlideElement)
    (x y width height : Q) : Paint unit :=
  let src := contentSrc (el_content element) in
  let alt := contentAlt (el_content element) in
  if negb (truthyStr src) then
    renderImagePlaceholder E x y width height "No image source"
  else
    tryCatch
      (img <- liftOutcome (loadImageWithTimeout E src 10000) ;;
       if Qeq_bool (img_width img) 0 || Qeq_bool (img_height img) 0 then
         throw "Invalid image dimensions"
       else
         let imgAspectRatio := img_width img / img_height img in
         let elementAspectRatio := width / height in
         let '(w0, h0, x0, y0) :=
           if gt (Qabs (imgAspectRatio - elementAspectRatio)) 0.01 then
             if gt imgAspectRatio elementAspectRatio then
               let renderHeight := width / imgAspectRatio in
               (width, renderHeight, x, y + (height - renderHeight) / 2)
             else
               let renderWidth := height * imgAspectRatio in
               (renderWidth, height, x + (width - renderWidth) / 2, y)
           else (width, height, x, y) in
         let renderWidth := Qmax 1 (Qmin w0 width) in
         let renderHeight := Qmax 1 (Qmin h0 height) in
         let renderX := Qmax x (Qmin x0 (x + width - renderWidth)) in
         let renderY := Qmax y (Qmin y0 (y + height - renderHeight)) in
         let imageFormat := imageFormatOf src in
         added <-
           tryCatch
             (pdfAddImage E img imageFormat renderX renderY renderWidth renderHeight ;;
              ret true)
             (fun _ =>
                tryCatch
                  (pdfAddImage E img "JPEG" renderX renderY renderWidth renderHeight ;;
                   ret true)
                  (fun _ =>
                     renderImagePlaceholder E x y width height
                       "Image format not supported" ;;
                     ret false)) ;;
         if added : bool then imageBorder element renderX renderY renderWidth renderHeight
         else ret tt)
      (fun _ =>
         renderImagePlaceholder E x y width height
           (match alt with
            | Some a => orStr a "Image failed to load"
            | None => "Image failed to load"%string
            end)).

(** *** Tables *)

(** The loop over the wrapped lines of a cell. *)
Fixpoint cellLines (lines : list string) (i : nat)
    (cellX rowY rowHeight lineHeight : Q) : Paint unit :=
  match lines with
  | [] => ret tt
  | l :: lines' =>
      if (Z.of_nat i <? Qfloor (rowHeight / lineHeight))%Z then
        emit (pdf_text l (cellX + 5) (rowY + (ofNat i + 1) * lineHeight) None None) ;;
        cellLines lines' (S i) cellX rowY rowHeight lineHeight
      else ret tt
  end.

(** The body of the loop over the cells of a row. *)
Definition renderCell (E : Env) (settings : ConversionSettings) (cell : TableCell)
    (cellX rowY colWidth rowHeight : Q) : Paint unit :=
  emit (pdf_rect cellX rowY colWidth rowHeight D) ;;
  if truthyStr (trim (cell_text cell)) then
    let cellStyle := match cell_style cell with Some st => st | None => noStyle end in
    let size := Qmax 8 (orNumOpt (fontSize cellStyle) 10 * quality settings) in
    emit (pdf_setFontSize size) ;;
    match color cellStyle with
    | Some (String _ _ as col) =>
        let c := removeFirstHash col in
        pdfSetColor pdf_setTextColor (hexChannel c 0) (hexChannel c 2) (hexChannel c 4)
    | _ => emit (pdf_setTextColor (Some 0%Z) (Some 0%Z) (Some 0%Z))
    end ;;
    lines <- pdfSplitTextToSize E (cell_text cell) (colWidth - 10) ;;
    cellLines lines 0 cellX rowY rowHeight (size * 1.2)
  else ret tt.

Definition renderTableElement (E : Env) (element : SlideElement)
    (x y width height : Q) (settings : ConversionSettings) : Paint unit :=
  match el_content element with
  | TableContent ((firstRow :: _) as rows) =>
      let rowHeight := height / ofNat (List.length rows) in
      let colWidth := width / orNum (ofNat (List.length (cells firstRow))) 1 in
      emit (pdf_setDrawColor (Some 0%Z) (Some 0%Z) (Some 0%Z)) ;;
      emit (pdf_setLineWidth 0.5) ;;
      forEachFrom 0 rows (fun rowIndex row =>
        let rowY := y + ofNat rowIndex * rowHeight in
        forEachFrom 0 (cells row) (fun colIndex cell =>
          let cellX := x + ofNat colIndex * colWidth in
          renderCell E settings cell cellX rowY colWidth rowHeight))
  | _ => ret tt
  end.

(** *** Text wrapping: the fallback of [renderTextElement] *)

Section FallbackWrap.

Variable getTextWidth : string -> Q.
Variable availableWidth : Q.

(** The inner [while (charCount <= remainingWord.length)]: the count at
    which it stops. *)
Fixpoint scanChars (steps : nat) (remainingWord : string) (charCount : nat) : nat :=
  match steps with
  | O => charCount
  | S steps' =>
      if (charCount <=? String.length remainingWord)%nat then
        if gt (getTextWidth (substring 0 charCount remainingWord)) availableWidth
        then charCount
        else scanChars steps' remainingWord (S charCount)
      else charCount
  end.

(** [lineToAdd] of one round of the outer loop. *)
Definition lineToAdd (remainingWord : string) : string :=
  let charCount := scanChars (S (String.length remainingWord)) remainingWord 1 in
  substring 0 (Nat.max 1 (charCount - 1)) remainingWord.

(** The outer [while (remainingWord.length > 0)]; [None] when the
    rounds allowed are used up before it ends. *)
Fixpoint breakWord (rounds : nat) (remainingWord : string) (lines : list string)
    : option (list string) :=
  if (0 <? String.length remainingWord)%nat then
    match rounds with
    | O => None
    | S rounds' =>
        let l := lineToAdd remainingWord in
        breakWord rounds' (substringFrom (String.length l) remainingWord) (lines ++ [l])
    end
  else Some lines.

(** The loop over the words. *)
Fixpoint wrapWords (words : list string) (currentLine : string) (lines : list string)
    : option (list string) :=
  match words with
  | [] => Some (if truthyStr currentLine then lines ++ [currentLine] else lines)
  | word :: words' =>
      let testLine :=
        if truthyStr currentLine then (currentLine ++ " " ++ word)%string else word in
      if le (getTextWidth testLine) availableWidth then wrapWords words' testLine lines
      else if truthyStr currentLine then wrapWords words' word (lines ++ [currentLine])
      else
        match breakWord (String.length word) word lines with
        | Some lines' => wrapWords words' EmptyString lines'
        | None => None
        end
  end.

Definition wrapFallback (content : string) : option (list string) :=
  wrapWords (split_ws content) EmptyString [].

End FallbackWrap.

(** *** Slides *)

(** [(a.zIndex || 0) - (b.zIndex || 0)]. *)
Definition zKey (e : SlideElement) : Q := orNum (zIndex e) 0.

Definition compareZIndex (a b : SlideElement) : Q := zKey a - zKey b.

Definition sortedElements (slide : SlideData) : list SlideElement :=
  sort compareZIndex (elements slide).

Definition renderElementToPDF (E : Env) (element : SlideElement)
    (contentWidth contentHeight slideW slideH : Q)
    (settings : ConversionSettings) (margin : Q) : Paint unit :=
  let P := placement (el_position element) contentWidth contentHeight slideW slideH margin in
  let x := place_x P in
  let y := place_y P in
  let width := place_width P in
  let height := place_height P in
  let maxX := margin + contentWidth in
  let maxY := margin + contentHeight in
  if ge x maxX || ge y maxY || le (x + width) margin || le (y + height) margin then
    ret tt
  else
    let clippedWidth := Qmin width (maxX - x) in
    let clippedHeight := Qmin height (maxY - y) in
    match el_type element with
    | text => renderTextElement E element x y clippedWidth clippedHeight settings
    | image =>
        if includeImages settings
        then renderImageElement E element x y clippedWidth clippedHeight
        else ret tt
    | shape => renderShapeElement E element x y clippedWidth clippedHeight
    | table => renderTableElement E element x y clippedWidth clippedHeight settings
    | chart => ret tt
    end.

(** The background image is awaited without a timer. *)
Definition loadImage (E : Env) (src : string) : Outcome HTMLImageElement :=
  match imageEvent E src with
  | onload _ img => Ok img
  | onerror _ => Throw "error"
  end.

(** The background colour of [renderSlideToPDF]. *)
Definition paintBackgroundColor (slide : SlideData) (pdfWidth pdfHeight : Q)
    : Paint unit :=
  match slide_backgroundColor slide with
  | Some (String _ _ as c) =>
      emit (pdf_setFillColorCss c) ;; emit (pdf_rect 0 0 pdfWidth pdfHeight F)
  | _ => ret tt
  end.

(** The background image of [renderSlideToPDF]. *)
Definition paintBackgroundImage (E : Env) (slide : SlideData)
    (pdfWidth pdfHeight : Q) (settings : ConversionSettings) : Paint unit :=
  let contentWidth := pdfWidth - contentMargin * 2 in
  let contentHeight := pdfHeight - contentMargin * 2 in
  match backgroundImage slide with
  | Some (String _ _ as src) =>
      if includeImages settings then
        tryCatch
          (img <- liftOutcome (loadImage E src) ;;
           pdfAddImage E img "JPEG" contentMargin contentMargin contentWidth contentHeight)
          (fun _ => ret tt)
      else ret tt
  | _ => ret tt
  end.

Definition renderSlideToPDF (E : Env) (slide : SlideData)
    (pdfWidth pdfHeight slideW slideH : Q) (settings : ConversionSettings) : Paint unit :=
  let contentWidth := pdfWidth - contentMargin * 2 in
  let contentHeight := pdfHeight - contentMargin * 2 in
  paintBackgroundColor slide pdfWidth pdfHeight ;;
  paintBackgroundImage E slide pdfWidth pdfHeight settings ;;
  forEach (sortedElements slide) (fun element =>
    renderElementToPDF E element contentWidth contentHeight slideW slideH settings
      contentMargin).

Definition addWatermark (watermarkText : string) (pdfWidth pdfHeight : Q) : Paint unit :=
  tryCatch
    (emit pdf_saveGraphicsState ;;
     emit (pdf_setGState 0.1) ;;
     emit (pdf_setTextColor (Some 128%Z) (Some 128%Z) (Some 128%Z)) ;;
     emit (pdf_setFontSize 48) ;;
     emit (pdf_text watermarkText (pdfWidth / 2) (pdfHeight / 2)
             (Some "center"%string) (Some 45)) ;;
     emit pdf_restoreGraphicsState)
    (fun _ => ret tt).

(** *** The document and the conversion loop *)

(** [pages]: the pages already left behind, in order; [page]: the calls
    on the page being drawn. *)
Record Pdf := {
  pages : list (list PdfOp);
  page : list PdfOp;
  pdfState : PdfState
}.

(** [new jsPDF(...)]: a document with one empty page. *)
Definition newPdf : Pdf :=
  {| pages := []; page := [];
     pdfState := {| currentFontSize := 16; currentFont := "helvetica" |} |}.

Definition addPage (pdf : Pdf) : Pdf :=
  {| pages := pages pdf ++ [page pdf]; page := []; pdfState := pdfState pdf |}.

Definition allPages (pdf : Pdf) : list (list PdfOp) := pages pdf ++ [page pdf].

Definition getNumberOfPages (pdf : Pdf) : nat := List.length (allPages pdf).

Definition runOnPage {A : Type} (m : Paint A) (pdf : Pdf) : Pdf * Outcome A :=
  let '(o, st, r) := m (pdfState pdf) in
  ({| pages := pages pdf; page := page pdf ++ o; pdfState := st |}, r).

Definition errorPlaceholder (pdfWidth pdfHeight : Q) (slideIndex : nat) : Paint unit :=
  emit (pdf_setFillColor (Some 245%Z) (Some 245%Z) (Some 245%Z)) ;;
  emit (pdf_rect 0 0 pdfWidth pdfHeight F) ;;
  emit (pdf_setTextColor (Some 100%Z) (Some 100%Z) (Some 100%Z)) ;;
  emit (pdf_setFontSize 16) ;;
  emit (pdf_text ("Error rendering slide " ++ natToString (slideIndex + 1))
          (pdfWidth / 2) (pdfHeight / 2) (Some "center"%string) None).

(** The [try] block of one slide. *)
Definition renderSlideAndWatermark (E : Env) (settings : ConversionSettings)
    (pdfWidth pdfHeight slideW slideH : Q) (slide : SlideData) : Paint unit :=
  renderSlideToPDF E slide pdfWidth pdfHeight slideW slideH settings ;;
  match watermark settings with
  | Some (String _ _ as w) => addWatermark w pdfWidth pdfHeight
  | _ => ret tt
  end.

(** The [try]/[catch] of one slide. *)
Definition paintSlide (E : Env) (settings : ConversionSettings)
    (pdfWidth pdfHeight slideW slideH : Q) (slideIndex : nat) (slide : SlideData)
    : Paint unit :=
  tryCatch
    (renderSlideAndWatermark E settings pdfWidth pdfHeight slideW slideH slide)
    (fun _ => errorPlaceholder pdfWidth pdfHeight slideIndex).

(** The inner loop, over the slides of one chunk. *)
Fixpoint processChunk (E : Env) (settings : ConversionSettings)
    (pdfWidth pdfHeight slideW slideH : Q) (chunkStart i : nat)
    (chunk : list SlideData) (pdf : Pdf) : Outcome Pdf :=
  match chunk with
  | [] => Ok pdf
  | slide :: chunk' =>
      let slideIndex := (chunkStart + i)%nat in
      let pdf1 := if (0 <? slideIndex)%nat then addPage pdf else pdf in
      match runOnPage
              (paintSlide E settings pdfWidth pdfHeight slideW slideH slideIndex slide)
              pdf1 with
      | (pdf2, Ok _) =>
          processChunk E settings pdfWidth pdfHeight slideW slideH chunkStart (S i)
            chunk' pdf2
      | (_, Throw e) => Throw e
      end
  end.

Definition chunkSize : nat := 5.

(** [l.slice(start, stop)] for [start <= stop]. *)
Definition slice {A : Type} (start stop : nat) (l : list A) : list A :=
  firstn (stop - start) (skipn start l).

(** The outer loop, [for (chunkStart = 0; chunkStart < totalSlides;
    chunkStart += chunkSize)]; [None] when the rounds allowed are used up
    before it ends. *)
Fixpoint processChunks (rounds : nat) (E : Env) (settings : ConversionSettings)
    (pdfWidth pdfHeight slideW slideH : Q) (slidesToProcess : list SlideData)
    (chunkStart : nat) (pdf : Pdf) : option (Outcome Pdf) :=
  let totalSlides := List.length slidesToProcess in
  if (chunkStart <? totalSlides)%nat then
    match rounds with
    | O => None
    | S rounds' =>
        let chunkEnd := Nat.min (chunkStart + chunkSize) totalSlides in
        let chunk := slice chunkStart chunkEnd slidesToProcess in
        match processChunk E settings pdfWidth pdfHeight slideW slideH chunkStart 0
                chunk pdf with
        | Ok pdf' =>
            processChunks rounds' E settings pdfWidth pdfHeight slideW slideH
              slidesToProcess (chunkStart + chunkSize) pdf'
        | Throw e => Some (Throw e)
        end
    end
  else Some (Ok pdf).

(** [!slide.hidden]. *)
Definition notHidden (slide : SlideData) : bool :=
  match hidden slide with Some b => negb b | None => true end.

Definition slidesToProcess (settings : ConversionSettings) (data : PresentationData)
    : list SlideData :=
  filter (fun slide => includeHiddenSlides settings || notHidden slide) (slides data).

(** [convertPowerPointToPDF], up to the document it hands to the download:
    [Throw] is what its outer [catch] receives. *)
Definition convertPowerPointToPDF (E : Env) (presentationData : option PresentationData)
    (settings : ConversionSettings) : option (Outcome Pdf) :=
  match presentationData with
  | None => Some (Throw "No presentation data available")
  | Some data =>
      match slides data with
      | [] => Some (Throw "No presentation data available")
      | _ :: _ =>
          let slideW := canvasWidth (metadata data) in
          let slideH := canvasHeight (metadata data) in
          let size := pdfPageSize settings (metadata data) in
          let todo := slidesToProcess settings data in
          processChunks (List.length todo) E settings (fst size) (snd size)
            slideW slideH todo 0 newPdf
      end
  end.

(** *** Extraction of the slides ([extractPresentationData]) *)

Definition errorTextElement : SlideElement :=
  {| el_id := "error-text";
     el_type := text;
     el_position := {| pos_x := 50; pos_y := 200; pos_width := 620; pos_height := 100 |};
     zIndex := 1;
     el_content := TextContent "Error loading slide content" None;
     el_style :=
       {| fontFamily := None; fontSize := Some 24; fontWeight := None; fontStyle := None;
          color := Some "#ff0000"%string; backgroundColor := None; borderColor := None;
          borderWidth := None; borderStyle := None; borderRadius := None;
          opacity := None; rotation := None; shadow := None;
          textAlign := Some "center"%string;
          verticalAlign := None; textShadow := None; boxShadow := None;
          textDecoration := None |} |}.

Definition fallbackSlide (slideNumber : nat) : SlideData :=
  {| slide_id := "slide-" ++ natToString slideNumber;
     slide_title := Some ("Slide " ++ natToString slideNumber)%string;
     layout := "blank";
     slide_backgroundColor := None;
     backgroundImage := None;
     elements := [errorTextElement];
     notes := None;
     hidden := None |}.

(** The loop over the slide files; [zipText] is [zip.files[f].asText()],
    and the arguments of [parseSlideXml] that do not change between slides
    (the archive, the media, layout and theme tables, the metadata) are
    part of the environment. *)
Fixpoint extractSlides (E : Env) (zipText : string -> string)
    (slideFiles : list string) (i : nat) : list SlideData :=
  match slideFiles with
  | [] => []
  | slideFile :: rest =>
      let slideXml := zipText slideFile in
      let slideNumber := (i + 1)%nat in
      match parseSlideXml E slideXml slideFile slideNumber with
      | Ok slideData => slideData
      | Throw _ => fallbackSlide slideNumber
      end :: extractSlides E zipText rest (S i)
  end.

(** *** Vocabulary of the statements *)

(** The calls [renderImagePlaceholder] issues before the text loop. *)
Definition placeholderFrame (x y width height : Q) : list PdfOp :=
  let iconSize := Qmin width height * 0.3 in
  let iconX := x + (width - iconSize) / 2 in
  let iconY := y + (height - iconSize) / 2 in
  [ pdf_setFillColor (Some 248%Z) (Some 249%Z) (Some 250%Z);
    pdf_setDrawColor (Some 220%Z) (Some 220%Z) (Some 220%Z);
    pdf_setLineWidth 1;
    pdf_rect x y width height FD;
    pdf_setDrawColor (Some 200%Z) (Some 200%Z) (Some 200%Z);
    pdf_setLineWidth 0.5;
    pdf_line x y (x + width) (y + height);
    pdf_line (x + width) y x (y + height);
    pdf_setFillColor (Some 220%Z) (Some 220%Z) (Some 220%Z);
    pdf_rect iconX iconY iconSize (iconSize * 0.7) F;
    pdf_setTextColor (Some 120%Z) (Some 120%Z) (Some 120%Z);
    pdf_setFontSize (Qmax 8 (Qmin 12 (width / 15))) ].

(** The message [renderImageElement] passes to the placeholder when the
    image does not load. *)
Definition placeholderMessage (element : SlideElement) : string :=
  match contentSrc (el_content element) with
  | EmptyString => "No image source"
  | String _ _ =>
      match contentAlt (el_content element) with
      | Some a => orStr a "Image failed to load"
      | None => "Image failed to load"
      end
  end.

(** The image of an element does not load: it has no source, or the promise
    of [loadImageWithTimeout] rejects (error event, or timer first). *)
Definition imageLoadFails (E : Env) (element : SlideElement) : Prop :=
  contentSrc (el_content element) = EmptyString \/
  exists message : string,
    loadImageWithTimeout E (contentSrc (el_content element)) 10000 = Throw message.

Definition isText (op : PdfOp) : bool :=
  match op with pdf_text _ _ _ _ _ => true | _ => false end.

(** The three channels read off a colour are numbers. *)
Definition channelsAreNumbers (c : string) : bool :=
  match hexChannel c 0, hexChannel c 2, hexChannel c 4 with
  | Some _, Some _, Some _ => true
  | _, _, _ => false
  end.

(** The colour [renderTableElement] sets for a cell, if it sets one, has
    three channels that are numbers. *)
Definition cellColourIsHex (cell : TableCell) : bool :=
  if truthyStr (trim (cell_text cell)) then
    match cell_style cell with
    | Some style =>
        match color style with
        | Some (String _ _ as col) => channelsAreNumbers (removeFirstHash col)
        | _ => true
        end
    | None => true
    end
  else true.

Definition tableColoursAreHex (rows : list TableRow) : bool :=
  forallb (fun row => forallb cellColourIsHex (cells row)) rows.

(** The colour [renderImageElement] sets for the border of an image, if
    it sets one, has three channels that are numbers. *)
Definition borderColourIsHex (element : SlideElement) : bool :=
  match borderWidth (el_style element), borderColor (el_style element) with
  | Some bw, Some bc =>
      if negb (Qeq_bool bw 0) && truthyStr bc then
        let c := removeFirstHash bc in
        if (String.length c =? 6)%nat then channelsAreNumbers c else true
      else true
  | _, _ => true
  end.

Definition isRect (op : PdfOp) : bool :=
  match op with pdf_rect _ _ _ _ _ => true | _ => false end.

(** One border per cell of a row, at the places the loop of
    [renderTableElement] computes. *)
Fixpoint rowBorders (x rowY colWidth rowHeight : Q) (colIndex : nat)
    (row : list TableCell) : list PdfOp :=
  match row with
  | [] => []
  | _ :: row' =>
      pdf_rect (x + ofNat colIndex * colWidth) rowY colWidth rowHeight D
      :: rowBorders x rowY colWidth rowHeight (S colIndex) row'
  end.

Fixpoint tableBorders (x y colWidth rowHeight : Q) (rowIndex : nat)
    (rows : list TableRow) : list PdfOp :=
  match rows with
  | [] => []
  | row :: rows' =>
      rowBorders x (y + ofNat rowIndex * rowHeight) colWidth rowHeight 0 (cells row)
      ++ tableBorders x y colWidth rowHeight (S rowIndex) rows'
  end.

(** The calls of the [catch] block of a slide. *)
Definition errorPage (pdfWidth pdfHeight : Q) (slideIndex : nat) : list PdfOp :=
  [ pdf_setFillColor (Some 245%Z) (Some 245%Z) (Some 245%Z);
    pdf_rect 0 0 pdfWidth pdfHeight F;
    pdf_setTextColor (Some 100%Z) (Some 100%Z) (Some 100%Z);
    pdf_setFontSize 16;
    pdf_text ("Error rendering slide " ++ natToString (slideIndex + 1))
      (pdfWidth / 2) (pdfHeight / 2) (Some "center"%string) None ].

(** The page a slide leaves: what its [try] block drew, followed by the
    error page when the block threw. *)
Definition pageOf (E : Env) (settings : ConversionSettings)
    (pdfWidth pdfHeight slideW slideH : Q) (slideIndex : nat) (slide : SlideData)
    (st : PdfState) : list PdfOp :=
  match renderSlideAndWatermark E settings pdfWidth pdfHeight slideW slideH slide st with
  | (o, _, Ok _) => o
  | (o, _, Throw _) => o ++ errorPage pdfWidth pdfHeight slideIndex
  end.

(** The two nested loops of the conversion read as one loop over the
    slides, [slideIndex] counting from the first. *)
Fixpoint processSlides (E : Env) (settings : ConversionSettings)
    (pdfWidth pdfHeight slideW slideH : Q) (slideIndex : nat)
    (todo : list SlideData) (pdf : Pdf) : Outcome Pdf :=
  match todo with
  | [] => Ok pdf
  | slide :: todo' =>
      let pdf1 := if (0 <? slideIndex)%nat then addPage pdf else pdf in
      match runOnPage
              (paintSlide E settings pdfWidth pdfHeight slideW slideH slideIndex slide)
              pdf1 with
      | (pdf2, Ok _) =>
          processSlides E settings pdfWidth pdfHeight slideW slideH (S slideIndex)
            todo' pdf2
      | (_, Throw e) => Throw e
      end
  end.

(** The result of a computation that runs after the calls [o1]. *)
Definition after {A : Type} (o1 : list PdfOp) (res : list PdfOp * PdfState * Outcome A)
    : list PdfOp * PdfState * Outcome A :=
  let '(o2, st2, r2) := res in (o1 ++ o2, st2, r2).

(** The lines of a wrapped word, put back together. *)
Definition joined (pieces : list string) : string :=
  fold_right String.append EmptyString pieces.

(** The number is a number, and is [exact] up to [roundings] roundings:
    no further from it than [roundings] times 2^-53 of it. *)
Definition within (roundings exact : Q) (number : option Q) : Prop :=
  exists v : Q,
    number = Some v /\
    Qabs (v - exact) <= Qabs exact * (roundings * unitRoundoff).

(** *** Example inputs *)

(** The settings the component starts with. *)
Definition defaultSettings : ConversionSettings :=
  {| quality := 1.5; pageSize := A4; orientation := landscape;
     includeHiddenSlides := false; compression := true; includeImages := true;
     watermark := None; dpi := 150 |}.

(** A 4:3 presentation of ten slides. *)
Definition exampleMetadata : PresentationMetadata :=
  {| slideCount := 10; title := None; author := None;
     slideWidth := 720; slideHeight := 540 |}.

Definition examplePosition : Position :=
  {| pos_x := 10; pos_y := 20; pos_width := 400; pos_height := 100 |}.

Definition textElement (id content : string) : SlideElement :=
  {| el_id := id; el_type := text; el_position := examplePosition; zIndex := 1;
     el_content := TextContent content None; el_style := noStyle |}.

(** A text element that starts inside the 720 wide canvas and ends 280
    outside it. *)
Definition overflowingElement : SlideElement :=
  {| el_id := "text-0"; el_type := text;
     el_position := {| pos_x := 600; pos_y := 20; pos_width := 400; pos_height := 100 |};
     zIndex := 1; el_content := TextContent "Hello" None; el_style := noStyle |}.

Definition imageElement (src : string) (alt : option string) : SlideElement :=
  {| el_id := "image-0"; el_type := image; el_position := examplePosition; zIndex := 1;
     el_content := ImageContent src alt; el_style := noStyle |}.

Definition cellOf (content : string) : TableCell :=
  {| cell_text := content; cell_style := None |}.

(** A table whose second row has one cell more than its first. *)
Definition raggedTable : SlideElement :=
  {| el_id := "table-0"; el_type := table; el_position := examplePosition; zIndex := 1;
     el_content :=
       TableContent [ {| cells := [cellOf "A"] |};
                      {| cells := [cellOf "B"; cellOf "C"] |} ];
     el_style := noStyle |}.

(** A style with a text colour and a border. *)
Definition framedStyle : ElementStyle :=
  {| fontFamily := None; fontSize := None; fontWeight := None; fontStyle := None;
     color := Some "#336699"%string; backgroundColor := None;
     borderColor := Some "#336699"%string; borderWidth := Some 2;
     borderStyle := None; borderRadius := None;
     opacity := None; rotation := None; shadow := None; textAlign := None;
     verticalAlign := None; textShadow := None; boxShadow := None;
     textDecoration := None |}.

Definition colouredCell (content : string) : TableCell :=
  {| cell_text := content; cell_style := Some framedStyle |}.

(** The same table with a text colour in every cell. *)
Definition colouredTable : SlideElement :=
  {| el_id := "table-1"; el_type := table; el_position := examplePosition; zIndex := 1;
     el_content :=
       TableContent [ {| cells := [colouredCell "A"] |};
                      {| cells := [colouredCell "B"; colouredCell "C"] |} ];
     el_style := noStyle |}.

(** An image with a border. *)
Definition framedImageElement (src : string) : SlideElement :=
  {| el_id := "image-1"; el_type := image; el_position := examplePosition; zIndex := 1;
     el_content := ImageContent src None; el_style := framedStyle |}.

(** Slide [n] of the example; the text painter of [exampleEnv] throws on
    the element of slide 3. *)
Definition exampleSlide (n : nat) : SlideData :=
  {| slide_id := "slide-" ++ natToString n;
     slide_title := None;
     layout := "blank";
     slide_backgroundColor := None;
     backgroundImage := None;
     elements := [textElement (if (n =? 3)%nat then "boom" else "text-0") "Hello"];
     notes := None;
     hidden := None |}.

(** An environment in which text is never wrapped, every image loads after
    twenty seconds, slide 7 does not parse and the text painter throws on the
    element named boom. *)
Definition exampleEnv : Env :=
  {| splitTextToSize := fun _ s _ => [s];
     imageEvent := fun src =>
       onload 20000 {| img_src := src; img_width := 100; img_height := 50 |};
     addImageAccepts := fun _ _ => true;
     renderTextElement := fun element x y _ _ _ =>
       if String.eqb (el_id element) "boom" then throw "boom"
       else emit (pdf_text "Hello" x y None None);
     renderShapeElement := fun _ _ _ _ _ => ret tt;
     parseSlideXml := fun _ _ n =>
       if (n =? 7)%nat then Throw "corrupt" else Ok (exampleSlide n) |}.

Definition tenSlideFiles : list string :=
  map (fun n => "ppt/slides/slide" ++ natToString n ++ ".xml")%string (seq 1 10).

Definition tenSlides : PresentationData :=
  {| slides := extractSlides exampleEnv (fun f => f) tenSlideFiles 0;
     metadata := exampleMetadata |}.

(** A font in which every character is six units wide. *)
Definition sixPerChar (s : string) : Q := 6 * ofNat (String.length s).

Fixpoint repeatChar (c : ascii) (n : nat) : string :=
  match n with
  | O => EmptyString
  | S n' => String c (repeatChar c n')
  end.

End PowerPointToPDF.

(** ** The Word converter: styles of nested markup *)

Module WordToPDF.

Import JS.

Local Open Scope string_scope.

(** An RGB colour; a channel computed from a NaN [parseInt] is [None]. *)
Record Color := {
  r : option Q;
  g : option Q;
  b : option Q
}.

Definition rgb (r g b : Q) : Color := {| r := Some r; g := Some g; b := Some b |}.

Definition black : Color := rgb 0 0 0.

Record TextStyle := {
  bold : bool;
  italic : bool;
  underline : bool;
  color : Color;
  fontSize : Q;
  fontFamily : string;
  strikethrough : option bool;
  highlight : option Color;
  subscript : option bool;
  superscript : option bool;
  lineHeight : option Q;
  letterSpacing : option Q;
  textAlign : option string
}.

(** *** [parseColor] *)

(** [parseInt(s, 16) / 255]. *)
Definition channel (radix : Z) (s : string) : option Q :=
  match parseIntRadix radix s with
  | Some v => Some (inject_Z v / 255)
  | None => None
  end.

Definition twice (s : string) (i : nat) : string :=
  match get i s with
  | Some c => String c (String c EmptyString)
  | None => EmptyString
  end.

(** The branch for [#rgb] and [#rrggbb]. *)
Definition parseHex (colorStr : string) : option Color :=
  if startsWith colorStr "#" then
    let hex := substringFrom 1 colorStr in
    if (String.length hex =? 3)%nat then
      Some {| r := channel 16 (twice hex 0);
              g := channel 16 (twice hex 1);
              b := channel 16 (twice hex 2) |}
    else if (String.length hex =? 6)%nat then
      Some {| r := channel 16 (substring 0 2 hex);
              g := channel 16 (substring 2 2 hex);
              b := channel 16 (substring 4 2 hex) |}
    else None
  else None.

Definition isDigit (c : ascii) : bool :=
  let n := nat_of_ascii c in ((48 <=? n) && (n <=? 57))%nat.

(** The longest run of digits at the head of [s], and what follows it. *)
Fixpoint takeDigits (s : string) : string * string :=
  match s with
  | String c s' =>
      if isDigit c then let '(d, rest) := takeDigits s' in (String c d, rest)
      else (EmptyString, s)
  | EmptyString => (EmptyString, EmptyString)
  end.

(** One group [(\d+)] followed by the character [stop]. *)
Definition digitsThen (stop : ascii) (s : string) : option (string * string) :=
  match takeDigits s with
  | (String _ _ as d, String c rest) =>
      if Ascii.eqb c stop then Some (d, rest) else None
  | _ => None
  end.

(** [/rgb\((\d+),\s*(\d+),\s*(\d+)\)/] matched at the head of [s]. *)
Definition matchRgbAt (s : string) : option (string * string * string) :=
  if prefix "rgb(" s then
    match digitsThen "," (substringFrom 4 s) with
    | Some (d1, s1) =>
        match digitsThen "," (trimStart s1) with
        | Some (d2, s2) =>
            match digitsThen ")" (trimStart s2) with
            | Some (d3, _) => Some (d1, d2, d3)
            | None => None
            end
        | None => None
        end
    | None => None
    end
  else None.

(** [colorStr.match(...)]: the first position where the pattern matches. *)
Fixpoint matchRgb (s : string) : option (string * string * string) :=
  match matchRgbAt s with
  | Some m => Some m
  | None =>
      match s with
      | String _ s' => matchRgb s'
      | EmptyString => None
      end
  end.

Definition parseRgb (colorStr : string) : option Color :=
  if startsWith colorStr "rgb" then
    match matchRgb colorStr with
    | Some (d1, d2, d3) =>
        Some {| r := channel 10 d1; g := channel 10 d2; b := channel 10 d3 |}
    | None => None
    end
  else None.

Definition namedColors : list (string * Color) :=
  [ ("black", rgb 0 0 0); ("white", rgb 1 1 1); ("red", rgb 1 0 0);
    ("green", rgb 0 0.5 0); ("blue", rgb 0 0 1); ("yellow", rgb 1 1 0);
    ("cyan", rgb 0 1 1); ("magenta", rgb 1 0 1); ("gray", rgb 0.5 0.5 0.5);
    ("grey", rgb 0.5 0.5 0.5); ("darkblue", rgb 0 0 0.5);
    ("darkgreen", rgb 0 0.5 0); ("darkred", rgb 0.5 0 0);
    ("lightgray", rgb 0.8 0.8 0.8); ("lightgrey", rgb 0.8 0.8 0.8);
    ("orange", rgb 1 0.5 0); ("purple", rgb 0.5 0 0.5); ("pink", rgb 1 0.75 0.8) ].

Fixpoint lookup (table : list (string * Color)) (key : string) : option Color :=
  match table with
  | [] => None
  | (k, v) :: table' => if String.eqb k key then Some v else lookup table' key
  end.

Definition parseColor (colorStr : string) : Color :=
  if negb (truthyStr colorStr) then black
  else
    match parseHex colorStr with
    | Some c => c
    | None =>
        match parseRgb colorStr with
        | Some c => c
        | None =>
            match lookup namedColors (toLowerCase colorStr) with
            | Some c => c
            | None => black
            end
        end
    end.

(** *** The colour [getTextStyle] gives an element *)

(** What [getTextStyle] reads to find the colour: [computedStyle?.color]
    ([None] when there is no computed style) and [element.style.color]. *)
Record ElementColors := {
  computedStyle_color : option string;
  style_color : string
}.

(** [computedStyle?.color || style.color]: the colour the markup gives the
    element, empty when it gives none. *)
Definition declaredColor (e : ElementColors) : string :=
  match computedStyle_color e with
  | Some (String _ _ as c) => c
  | _ => style_color e
  end.

(** The [color] field of [getTextStyle(element)]. *)
Definition getTextStyle_color (e : ElementColors) : Color :=
  parseColor (orStr (declaredColor e) "black").

(** *** The merge of [processNode] *)

(** [c.r !== 0 || c.g !== 0 || c.b !== 0]. *)
Definition nonZero (v : option Q) : bool :=
  match v with Some q => negb (Qeq_bool q 0) | None => true end.

Definition notBlack (c : Color) : bool := nonZero (r c) || nonZero (g c) || nonZero (b c).

(** [a || b] on optional values. *)
Definition orBoolOpt (a b : option bool) : option bool :=
  match a with Some true => a | _ => b end.

Definition orColorOpt (a b : option Color) : option Color :=
  match a with Some _ => a | None => b end.

Definition orQOpt (a b : option Q) : option Q :=
  match a with
  | Some q => if Qeq_bool q 0 then b else a
  | None => b
  end.

Definition orStrOpt (a b : option string) : option string :=
  match a with Some (String _ _) => a | _ => b end.

Definition effectiveStyle (currentStyle : TextStyle) (inheritedStyle : option TextStyle)
    : TextStyle :=
  match inheritedStyle with
  | Some inheritedStyle =>
      {| bold := bold currentStyle || bold inheritedStyle;
         italic := italic currentStyle || italic inheritedStyle;
         underline := underline currentStyle || underline inheritedStyle;
         strikethrough :=
           orBoolOpt (strikethrough currentStyle) (strikethrough inheritedStyle);
         color :=
           if notBlack (color currentStyle) then color currentStyle
           else color inheritedStyle;
         fontSize :=
           if negb (Qeq_bool (fontSize currentStyle) 12) then fontSize currentStyle
           else fontSize inheritedStyle;
         fontFamily :=
           if negb (String.eqb (fontFamily currentStyle) "Arial")
           then fontFamily currentStyle
           else fontFamily inheritedStyle;
         highlight := orColorOpt (highlight currentStyle) (highlight inheritedStyle);
         subscript := orBoolOpt (subscript currentStyle) (subscript inheritedStyle);
         superscript := orBoolOpt (superscript currentStyle) (superscript inheritedStyle);
         lineHeight := orQOpt (lineHeight currentStyle) (lineHeight inheritedStyle);
         letterSpacing :=
           orQOpt (letterSpacing currentStyle) (letterSpacing inheritedStyle);
         textAlign := orStrOpt (textAlign currentStyle) (textAlign inheritedStyle) |}
  | None => currentStyle
  end.

(** *** Vocabulary of the statements *)

Definition sameChannel (a b : option Q) : Prop :=
  match a, b with
  | Some p, Some q => p == q
  | None, None => True
  | _, _ => False
  end.

(** Two colours with equal channels (as numbers). *)
Definition sameColor (c d : Color) : Prop :=
  sameChannel (r c) (r d) /\ sameChannel (g c) (g d) /\ sameChannel (b c) (b d).

(** What [getTextStyle] returns for an element that sets nothing but,
    possibly, its colour. *)
Definition plainStyle (c : Color) : TextStyle :=
  {| bold := false; italic := false; underline := false; color := c;
     fontSize := 12; fontFamily := "Arial"; strikethrough := None; highlight := None;
     subscript := None; superscript := None; lineHeight := None;
     letterSpacing := None; textAlign := None |}.

(** *** Example inputs *)

(** An element whose markup sets the colour black. *)
Definition blackChild : ElementColors :=
  {| computedStyle_color := None; style_color := "#000000" |}.

(** An element whose markup sets the colour red. *)
Definition redChild : ElementColors :=
  {| computedStyle_color := None; style_color := "#ff0000" |}.

Definition redParent : TextStyle := plainStyle (rgb 1 0 0).

Definition blueParent : TextStyle := plainStyle (rgb 0 0 1).

End WordToPDF.

(** ** More of the language *)

Module JSMore.

Import JS.

(** [s.endsWith(suffix)]. *)
Definition endsWith (s suffix : string) : bool :=
  (String.length suffix <=? String.length s)%nat &&
  String.eqb (substringFrom (String.length s - String.length suffix) s) suffix.

(** A text without its white space: what wrapping must leave as it is. *)
Fixpoint withoutWhiteSpace (s : string) : string :=
  match s with
  | String c s' => if isWhiteSpace c then withoutWhiteSpace s' else String c (withoutWhiteSpace s')
  | EmptyString => EmptyString
  end.

End JSMore.

(** ** More of the PowerPoint converter *)

Module PowerPointToPDFMore.

Import JS JSMore PowerPointToPDF.
Local Open Scope paint_scope.

(** The [switch (element.type)] at the end of [renderElementToPDF]. *)
Definition dispatchElement (E : Env) (settings : ConversionSettings)
    (element : SlideElement) (x y clippedWidth clippedHeight : Q) : Paint unit :=
  match el_type element with
  | text => renderTextElement E element x y clippedWidth clippedHeight settings
  | image =>
      if includeImages settings
      then renderImageElement E element x y clippedWidth clippedHeight
      else ret tt
  | shape => renderShapeElement E element x y clippedWidth clippedHeight
  | table => renderTableElement E element x y clippedWidth clippedHeight settings
  | chart => ret tt
  end.

(** *** The slide files of the archive ([extractPresentationData]) *)

(** The class [\d] of a regular expression. *)
Definition isDecimalDigit (c : ascii) : bool :=
  let n := nat_of_ascii c in ((48 <=? n) && (n <=? 57))%nat.

(** The longest prefix of decimal digits, and what follows it. *)
Fixpoint leadingDigits (s : string) : string * string :=
  match s with
  | String c s' =>
      if isDecimalDigit c then
        let '(digits, rest) := leadingDigits s' in (String c digits, rest)
      else (EmptyString, s)
  | EmptyString => (EmptyString, EmptyString)
  end.

(** [/slide(\d+)\.xml$/] tried at the start of [s]: the digits captured. *)
Definition matchSlideNumberAt (s : string) : option string :=
  if prefix "slide" s then
    let '(digits, rest) := leadingDigits (substringFrom 5 s) in
    if truthyStr digits && String.eqb rest ".xml" then Some digits else None
  else None.

(** [filename.match(/slide(\d+)\.xml$/)?.[1]]: the first place, from the
    left, at which the expression matches. *)
Fixpoint matchSlideNumber (s : string) : option string :=
  match matchSlideNumberAt s with
  | Some digits => Some digits
  | None =>
      match s with
      | String _ s' => matchSlideNumber s'
      | EmptyString => None
      end
  end.

(** [a.match(/slide(\d+)\.xml$/)?.[1] || '0']. *)
Definition slideDigits (filename : string) : string :=
  match matchSlideNumber filename with
  | Some digits => orStr digits "0"
  | None => "0"%string
  end.

(** [parseInt(a.match(/slide(\d+)\.xml$/)?.[1] || '0')]; [None] is NaN. *)
Definition slideNumber (filename : string) : option Q :=
  parseInt (slideDigits filename).

(** The comparator of the sort, [aNum - bNum], a difference of doubles;
    [sort] reads NaN as 0. *)
Definition compareSlideFiles (a b : string) : Q :=
  match slideNumber a, slideNumber b with
  | Some aNum, Some bNum => toDouble (aNum - bNum)
  | _, _ => 0
  end.

Definition isSlideFile (filename : string) : bool :=
  startsWith filename "ppt/slides/slide" && endsWith filename ".xml".

(** [slideFiles], from the names of the archive in the archive's order. *)
Definition slideFilesOf (filenames : list string) : list string :=
  sort compareSlideFiles (filter isSlideFile filenames).

(** The name under which PowerPoint stores slide [n]. *)
Definition slidePath (n : nat) : string :=
  "ppt/slides/slide" ++ natToString n ++ ".xml".

(** The number a slide file is sorted by. *)
Definition slideKey (filename : string) : Q :=
  match slideNumber filename with Some n => n | None => 0 end.

(** The integer written in the name of a slide file has at most 20
    significant digits.  For these [parseInt] gives the double next to the
    integer; for longer ones the language leaves the digits after the 20th
    to the implementation, and beyond the doubles the result is Infinity. *)
Definition atMostTwentyDigits (filename : string) : bool :=
  match integerOf (slideDigits filename) with
  | Some n => (n <? 10 ^ 20)%Z
  | None => true
  end.

(** The entries of an archive of the examples: slides 10 and 2, two slides
    whose numbers 2^53 + 1 and 2^53 are the same double, and an entry that
    is no slide. *)
Definition exampleEntries : list string :=
  [ "ppt/slides/slide10.xml"; "ppt/slides/slide9007199254740993.xml";
    "ppt/slides/_rels/slide2.xml.rels"; "ppt/slides/slide2.xml";
    "ppt/slides/slide9007199254740992.xml" ]%string.

(** *** The element extractors of [parseSlideXml] *)

(** What the loops of the extractors see of one match of their regular
    expression: the result of [extractElementPosition] ([None] is null)
    and of the other helpers called on it. *)
Record TextBoxMatch := {
  box_position : option Position;
  box_text : string;
  box_style : ElementStyle
}.

Record PictureMatch := {
  pic_position : option Position;
  pic_embed : option string
}.

Record ShapeMatch := {
  shape_position : option Position;
  shape_shapeType : string;
  shape_style : ElementStyle
}.

Record TableMatch := {
  frame_position : option Position;
  frame_rows : list TableRow
}.

(** The loop of [extractTextElements], [elementIndex] being the counter. *)
Fixpoint extractTextElementsFrom (elementIndex : nat) (textBoxes : list TextBoxMatch)
    : list SlideElement :=
  match textBoxes with
  | [] => []
  | textBox :: rest =>
      match box_position textBox with
      | None => extractTextElementsFrom elementIndex rest
      | Some position =>
          if negb (truthyStr (trim (box_text textBox))) then
            extractTextElementsFrom elementIndex rest
          else
            {| el_id := "text-" ++ natToString elementIndex;
               el_type := text;
               el_position := position;
               zIndex := ofNat (S elementIndex);
               el_content := TextContent (box_text textBox) (Some (box_style textBox));
               el_style := box_style textBox |}
            :: extractTextElementsFrom (S elementIndex) rest
      end
  end.

Definition extractTextElements (textBoxes : list TextBoxMatch) : list SlideElement :=
  extractTextElementsFrom 0 textBoxes.

(** The loop of [extractImageElements]; [relTarget] is the target the
    relationships file gives for an id, [mediaMap] the map of
    [extractMediaFiles]. *)
Fixpoint extractImageElementsFrom (relTarget mediaMap : string -> option string)
    (elementIndex : nat) (images : list PictureMatch) : list SlideElement :=
  match images with
  | [] => []
  | picture :: rest =>
      match pic_position picture, pic_embed picture with
      | Some position, Some relId =>
          match relTarget relId with
          | Some target =>
              match mediaMap target with
              | Some imageSrc =>
                  if truthyStr imageSrc then
                    {| el_id := "image-" ++ natToString elementIndex;
                       el_type := PowerPointToPDF.image;
                       el_position := position;
                       zIndex := ofNat (S elementIndex);
                       el_content := ImageContent imageSrc (Some target);
                       el_style := noStyle |}
                    :: extractImageElementsFrom relTarget mediaMap (S elementIndex) rest
                  else extractImageElementsFrom relTarget mediaMap elementIndex rest
              | None => extractImageElementsFrom relTarget mediaMap elementIndex rest
              end
          | None => extractImageElementsFrom relTarget mediaMap elementIndex rest
          end
      | _, _ => extractImageElementsFrom relTarget mediaMap elementIndex rest
      end
  end.

Definition extractImageElements (relTarget mediaMap : string -> option string)
    (images : list PictureMatch) : list SlideElement :=
  extractImageElementsFrom relTarget mediaMap 0 images.

(** The loop of [extractShapeElements]. *)
Fixpoint extractShapeElementsFrom (elementIndex : nat) (shapes : list ShapeMatch)
    : list SlideElement :=
  match shapes with
  | [] => []
  | sp :: rest =>
      match shape_position sp with
      | None => extractShapeElementsFrom elementIndex rest
      | Some position =>
          {| el_id := "shape-" ++ natToString elementIndex;
             el_type := PowerPointToPDF.shape;
             el_position := position;
             zIndex := ofNat (S elementIndex);
             el_content := ShapeContent (Some (shape_shapeType sp)) None;
             el_style := shape_style sp |}
          :: extractShapeElementsFrom (S elementIndex) rest
      end
  end.

Definition extractShapeElements (shapes : list ShapeMatch) : list SlideElement :=
  extractShapeElementsFrom 0 shapes.

(** The loop of [extractTableElements]. *)
Fixpoint extractTableElementsFrom (elementIndex : nat) (tables : list TableMatch)
    : list SlideElement :=
  match tables with
  | [] => []
  | frame :: rest =>
      match frame_position frame with
      | None => extractTableElementsFrom elementIndex rest
      | Some position =>
          {| el_id := "table-" ++ natToString elementIndex;
             el_type := PowerPointToPDF.table;
             el_position := position;
             zIndex := ofNat (S elementIndex);
             el_content := TableContent (frame_rows frame);
             el_style := noStyle |}
          :: extractTableElementsFrom (S elementIndex) rest
      end
  end.

Definition extractTableElements (tables : list TableMatch) : list SlideElement :=
  extractTableElementsFrom 0 tables.

(** [elements] as [parseSlideXml] fills it: text boxes, then pictures,
    then shapes, then tables. *)
Definition parseSlideElements (relTarget mediaMap : string -> option string)
    (textBoxes : list TextBoxMatch) (images : list PictureMatch)
    (shapes : list ShapeMatch) (tables : list TableMatch) : list SlideElement :=
  extractTextElements textBoxes
  ++ extractImageElements relTarget mediaMap images
  ++ extractShapeElements shapes
  ++ extractTableElements tables.

(** *** Vocabulary of the statements *)

(** The elements of a list are numbered from [start]: the one at place
    [k] has the id [kind-(start+k)], the z-index [start + k + 1] and the
    given type. *)
Definition numberedFrom (kind : string) (type : ElementType) (start : nat)
    (l : list SlideElement) : Prop :=
  forall (k : nat) (e : SlideElement),
    nth_error l k = Some e ->
    el_id e = (kind ++ "-" ++ natToString (start + k))%string /\
    zIndex e = ofNat (S (start + k)) /\
    el_type e = type.

(** The element at place [k] of a list, if any. *)
Definition pick {A : Type} (k : nat) (l : list A) : list A :=
  match nth_error l k with Some e => [e] | None => [] end.

(** One element of each list in turn: the first of each, then the second
    of each, and so on until all are used up. *)
Definition roundRobin {A : Type} (groups : list (list A)) : list A :=
  flat_map (fun k => flat_map (pick k) groups)
    (seq 0 (fold_right Nat.max 0%nat (map (@List.length A) groups))).

(** The place a z-index of the extractors stands for: [k] for [k + 1]. *)
Definition indexOf (q : Q) : option nat :=
  let n := Z.to_nat (Qfloor q) in
  if Qeq_bool q (ofNat n) && (0 <? n)%nat then Some (n - 1)%nat else None.


(** A string of decimal digits only. *)
Fixpoint allDecimalDigits (s : string) : bool :=
  match s with
  | String c s' => isDecimalDigit c && allDecimalDigits s'
  | EmptyString => true
  end.


(** A slide with two text boxes, a picture and a shape, the second text
    box blank. *)
Definition exampleTextBoxes : list TextBoxMatch :=
  [ {| box_position := Some examplePosition; box_text := "Title"; box_style := noStyle |};
    {| box_position := Some examplePosition; box_text := "  "; box_style := noStyle |};
    {| box_position := Some examplePosition; box_text := "Body"; box_style := noStyle |} ].

Definition examplePictures : list PictureMatch :=
  [ {| pic_position := Some examplePosition; pic_embed := Some "rId2"%string |} ].

Definition exampleShapes : list ShapeMatch :=
  [ {| shape_position := Some examplePosition; shape_shapeType := "rect";
       shape_style := noStyle |} ].

Definition exampleRelTarget (relId : string) : option string :=
  if String.eqb relId "rId2" then Some "image1.png"%string else None.

Definition exampleMediaMap (target : string) : option string :=
  if String.eqb target "image1.png" then Some "blob:image1"%string else None.

Definition extractedSlide : SlideData :=
  {| slide_id := "slide-1";
     slide_title := None;
     layout := "blank";
     slide_backgroundColor := None;
     backgroundImage := None;
     elements :=
       parseSlideElements exampleRelTarget exampleMediaMap
         exampleTextBoxes examplePictures exampleShapes [];
     notes := None;
     hidden := None |}.

(** *** The text painter *)

Module TextPainter.

(** What [fontMap\[key\]] can give: one of the map's font names, or, for
    the two lower-case keys every object inherits, a value that is not a
    string. *)
Inductive FontValue :=
| FontName (name : string)
| InheritedProperty (key : string).

(** jsPDF as the text painter sees it: [setFont], [splitTextToSize] and
    [text] may throw, and what [setFont] does to the state is left open. *)
Record TextEnv := {
  setFont : FontValue -> string -> PdfState -> Outcome PdfState;
  splitTextToSizeOrThrow : PdfState -> string -> Q -> Outcome (list string);
  getTextWidth : PdfState -> string -> Q;
  textThrows : PdfState -> string -> Q -> Q -> bool
}.

Definition pdfSetFont (J : TextEnv) (font : FontValue) (variant : string) : Paint unit :=
  fun st =>
    match setFont J font variant st with
    | Ok st' => ([], st', Ok tt)
    | Throw e => ([], st, Throw e)
    end.

Definition pdfSplitTextToSizeOrThrow (J : TextEnv) (s : string) (maxWidth : Q)
    : Paint (list string) :=
  fun st => ([], st, splitTextToSizeOrThrow J st s maxWidth).

Definition pdfGetTextWidth (J : TextEnv) (s : string) : Paint Q :=
  fun st => ([], st, Ok (getTextWidth J st s)).

(** [pdf.text(s, x, y, { align })]. *)
Definition pdfText (J : TextEnv) (s : string) (x y : Q) (align : string) : Paint unit :=
  fun st =>
    if textThrows J st s x y then ([], st, Throw "text")
    else emit (pdf_text s x y (Some align) None) st.

Definition orOpt {A : Type} (b a : option A) : option A :=
  match b with Some v => Some v | None => a end.

(** [{ ...a, ...b }]. *)
Definition mergeStyle (a b : ElementStyle) : ElementStyle :=
  {| fontFamily := orOpt (fontFamily b) (fontFamily a);
     fontSize := orOpt (fontSize b) (fontSize a);
     fontWeight := orOpt (fontWeight b) (fontWeight a);
     fontStyle := orOpt (fontStyle b) (fontStyle a);
     color := orOpt (color b) (color a);
     backgroundColor := orOpt (backgroundColor b) (backgroundColor a);
     borderColor := orOpt (borderColor b) (borderColor a);
     borderWidth := orOpt (borderWidth b) (borderWidth a);
     borderStyle := orOpt (borderStyle b) (borderStyle a);
     borderRadius := orOpt (borderRadius b) (borderRadius a);
     opacity := orOpt (opacity b) (opacity a);
     rotation := orOpt (rotation b) (rotation a);
     shadow := orOpt (shadow b) (shadow a);
     textAlign := orOpt (textAlign b) (textAlign a);
     verticalAlign := orOpt (verticalAlign b) (verticalAlign a);
     textShadow := orOpt (textShadow b) (textShadow a);
     boxShadow := orOpt (boxShadow b) (boxShadow a);
     textDecoration := orOpt (textDecoration b) (textDecoration a) |}.

(** [v === s] for an optional string. *)
Definition isStr (v : option string) (s : string) : bool :=
  match v with Some v' => String.eqb v' s | None => false end.

Definition fontMap : list (string * string) :=
  [ ("arial", "helvetica"); ("times", "times"); ("courier", "courier");
    ("calibri", "helvetica"); ("georgia", "times"); ("verdana", "helvetica");
    ("tahoma", "helvetica") ]%string.

Fixpoint ownProperty (table : list (string * string)) (key : string) : option string :=
  match table with
  | [] => None
  | (k, v) :: table' => if String.eqb k key then Some v else ownProperty table' key
  end.

(** [fontMap\[fontFamily.toLowerCase()\] || 'helvetica']. *)
Definition mappedFontOf (fontFamily : string) : FontValue :=
  let key := toLowerCase fontFamily in
  match ownProperty fontMap key with
  | Some name => FontName name
  | None =>
      if String.eqb key "constructor" || String.eqb key "__proto__"
      then InheritedProperty key
      else FontName "helvetica"
  end.

(** [fontSize], from the style, the box and the quality setting. *)
Definition textFontSize (style : ElementStyle) (width height : Q)
    (conversionSettings : ConversionSettings) : Q :=
  let baseFontSize := orNumOpt (fontSize style) 12 in
  let fontSizeScale := Qmin (Qmin (width / 200) (height / 50)) 1.5 in
  Qmax 8 (Qmin 48 (baseFontSize * fontSizeScale * quality conversionSettings)).

Definition textAlignOf (style : ElementStyle) : string :=
  (if isStr (textAlign style) "center" then "center"
   else if isStr (textAlign style) "right" then "right"
   else if isStr (textAlign style) "justify" then "justify"
   else "left")%string.

Definition textPadding (fontSize : Q) : Q := Qmax 3 (fontSize * 0.2).

(** The lines of the fallback wrap, which always ends. *)
Definition wrapFallbackLines (getTextWidth : string -> Q) (availableWidth : Q)
    (content : string) : list string :=
  match wrapFallback getTextWidth availableWidth content with
  | Some lines => lines
  | None => []
  end.

(** [startY], by the vertical alignment. *)
Definition textStartY (style : ElementStyle) (y height lineHeight : Q) (lineCount : nat)
    : Q :=
  let totalTextHeight := ofNat lineCount * lineHeight in
  if isStr (verticalAlign style) "middle" then
    y + (height - totalTextHeight) / 2 + lineHeight
  else if isStr (verticalAlign style) "bottom" then
    y + height - totalTextHeight + lineHeight
  else y + lineHeight.

Definition textLineX (align : string) (x width padding : Q) : Q :=
  if String.eqb align "center" then x + width / 2
  else if String.eqb align "right" then x + width - padding
  else x + padding.

(** The [try] block of one line. *)
Definition drawTextLine (J : TextEnv) (style : ElementStyle) (line : string)
    (lineX lineY : Q) (align : string) : Paint unit :=
  (if truthyOpt (textShadow style) then
     emit (pdf_setTextColor (Some 200%Z) (Some 200%Z) (Some 200%Z)) ;;
     pdfText J line (lineX + 1) (lineY + 1) align ;;
     match color style with
     | Some (String _ _ as col) =>
         let c := removeFirstHash col in
         emit (pdf_setTextColor (hexChannel c 0) (hexChannel c 2) (hexChannel c 4))
     | _ => ret tt
     end
   else ret tt) ;;
  pdfText J line lineX lineY align ;;
  if isStr (textDecoration style) "underline" then
    textWidth <- pdfGetTextWidth J line ;;
    let underlineX :=
      if String.eqb align "center" then lineX - textWidth / 2
      else if String.eqb align "right" then lineX - textWidth
      else lineX in
    emit (pdf_setLineWidth 0.5) ;;
    emit (pdf_line underlineX (lineY + 2) (underlineX + textWidth) (lineY + 2))
  else ret tt.

(** The loop over the lines, from line [i] on. *)
Fixpoint drawTextLines (J : TextEnv) (style : ElementStyle) (lines : list string)
    (i : nat) (x y width height padding lineHeight startY : Q) (align : string)
    : Paint unit :=
  match lines with
  | [] => ret tt
  | line :: lines' =>
      let lineY := startY + ofNat i * lineHeight in
      if gt lineY (y + height - lineHeight * 0.5) then ret tt
      else
        let lineX := textLineX align x width padding in
        tryCatch (drawTextLine J style line lineX lineY align) (fun _ => ret tt) ;;
        drawTextLines J style lines' (S i) x y width height padding lineHeight startY align
  end.

(** The block that sets the text colour. *)
Definition setTextColorOf (style : ElementStyle) : Paint unit :=
  match color style with
  | Some (String _ _ as col) =>
      tryCatch
        (let c := removeFirstHash col in
         if (String.length c =? 6)%nat then
           emit (pdf_setTextColor (hexChannel c 0) (hexChannel c 2) (hexChannel c 4))
         else emit (pdf_setTextColor (Some 0%Z) (Some 0%Z) (Some 0%Z)))
        (fun _ => emit (pdf_setTextColor (Some 0%Z) (Some 0%Z) (Some 0%Z)))
  | _ => emit (pdf_setTextColor (Some 0%Z) (Some 0%Z) (Some 0%Z))
  end.

(** The block that fills the box with the background colour. *)
Definition drawTextBackground (style : ElementStyle) (x y width height : Q) : Paint unit :=
  match backgroundColor style with
  | Some (String _ _ as bg) =>
      tryCatch
        (let bgColor := removeFirstHash bg in
         if (String.length bgColor =? 6)%nat then
           emit (pdf_setFillColor (hexChannel bgColor 0) (hexChannel bgColor 2)
                   (hexChannel bgColor 4)) ;;
           emit (pdf_rect x y width height F)
         else ret tt)
        (fun _ => ret tt)
  | _ => ret tt
  end.

(** The [try]/[catch] that gives the lines: [splitTextToSize], or the
    fallback wrap measured in the state of that moment. *)
Definition textLinesOf (J : TextEnv) (content : string) (availableWidth : Q)
    : Paint (list string) :=
  tryCatch (pdfSplitTextToSizeOrThrow J content availableWidth)
    (fun _ => fun st =>
       ([], st, Ok (wrapFallbackLines (getTextWidth J st) availableWidth content))).

Definition renderTextElement (J : TextEnv) (element : SlideElement)
    (x y width height : Q) (conversionSettings : ConversionSettings) : Paint unit :=
  match el_content element with
  | TextContent content contentStyle =>
      let style :=
        mergeStyle (el_style element)
          (match contentStyle with Some s => s | None => noStyle end) in
      if negb (truthyStr content) || String.eqb (trim content) "" then ret tt
      else
        let fontFamily :=
          match fontFamily style with Some f => orStr f "Arial" | None => "Arial"%string end in
        let fontSize := textFontSize style width height conversionSettings in
        let fontWeight :=
          (if isStr (fontWeight style) "bold" then "bold" else "normal")%string in
        let fontStyle :=
          (if isStr (fontStyle style) "italic" then "italic" else "normal")%string in
        let mappedFont := mappedFontOf fontFamily in
        let fontVariant :=
          ((if String.eqb fontStyle "italic" then "italic" else "")
           ++ (if String.eqb fontWeight "bold" then "bold" else ""))%string in
        tryCatch (pdfSetFont J mappedFont (orStr fontVariant "normal"))
          (fun _ => pdfSetFont J (FontName "helvetica") "normal") ;;
        emit (pdf_setFontSize fontSize) ;;
        setTextColorOf style ;;
        drawTextBackground style x y width height ;;
        let align := textAlignOf style in
        let padding := textPadding fontSize in
        let availableWidth := Qmax fontSize (width - padding * 2) in
        if le availableWidth fontSize then ret tt
        else
          lines <- textLinesOf J content availableWidth ;;
          let lineHeight := fontSize * 1.4 in
          let startY := textStartY style y height lineHeight (List.length lines) in
          drawTextLines J style lines 0 x y width height padding lineHeight startY align
  | _ => ret tt
  end.

(** *** Vocabulary of the statements *)

(** The calls that draw text, among the calls issued. *)
Definition textCalls (ops : list PdfOp) : list PdfOp := filter isText ops.

(** The style the painter works with. *)
Definition textStyleOf (element : SlideElement) : ElementStyle :=
  match el_content element with
  | TextContent _ contentStyle =>
      mergeStyle (el_style element)
        (match contentStyle with Some s => s | None => noStyle end)
  | _ => el_style element
  end.

Definition textOf (element : SlideElement) : string :=
  match el_content element with
  | TextContent content _ => content
  | _ => EmptyString
  end.

(** One call of [text] per line, line [i] first, each a line height
    below the one before. *)
Fixpoint textCallsAt (lines : list string) (i : nat) (lineX startY lineHeight : Q)
    (align : string) : list PdfOp :=
  match lines with
  | [] => []
  | line :: lines' =>
      pdf_text line lineX (startY + ofNat i * lineHeight) (Some align) None
      :: textCallsAt lines' (S i) lineX startY lineHeight align
  end.

(** A computation that leaves the state as it is and whose calls of
    [text] all satisfy [T], whether it returns or throws. *)
Definition behaves {A : Type} (T : PdfOp -> Prop) (m : Paint A) (st : PdfState) : Prop :=
  exists o r, m st = (o, st, r) /\ forall op, In op o -> isText op = true -> T op.


End TextPainter.

(** A jsPDF without font metrics for [splitTextToSize], in which every
    character is six units wide. *)
Definition exampleTextEnv : TextPainter.TextEnv :=
  {| TextPainter.setFont := fun _ _ st => Ok st;
     TextPainter.splitTextToSizeOrThrow := fun _ _ _ => Throw "no font metrics";
     TextPainter.getTextWidth := fun _ s => sixPerChar s;
     TextPainter.textThrows := fun _ _ _ _ => false |}.

(** A jsPDF whose [splitTextToSize] gives four lines whatever the text. *)
Definition fourLinesEnv : TextPainter.TextEnv :=
  {| TextPainter.setFont := fun _ _ st => Ok st;
     TextPainter.splitTextToSizeOrThrow :=
       fun _ _ _ => Ok ["one"; "two"; "three"; "four"]%string;
     TextPainter.getTextWidth := fun _ s => sixPerChar s;
     TextPainter.textThrows := fun _ _ _ _ => false |}.

(** The style of a text aligned to the bottom of its box. *)
Definition bottomStyle : ElementStyle :=
  {| fontFamily := None; fontSize := None; fontWeight := None; fontStyle := None;
     color := None; backgroundColor := None; borderColor := None;
     borderWidth := None; borderStyle := None; borderRadius := None;
     opacity := None; rotation := None; shadow := None; textAlign := None;
     verticalAlign := Some "bottom"%string; textShadow := None; boxShadow := None;
     textDecoration := None |}.

(** *** Vocabulary of the statements on the slide background *)

(** The slide with [backgroundImage] left out. *)
Definition withoutBackgroundImage (slide : SlideData) : SlideData :=
  {| slide_id := slide_id slide;
     slide_title := slide_title slide;
     layout := layout slide;
     slide_backgroundColor := slide_backgroundColor slide;
     backgroundImage := None;
     elements := elements slide;
     notes := notes slide;
     hidden := hidden slide |}.

(** The background image cannot be put on the page: it does not load, or
    [pdf.addImage] refuses it as a JPEG. *)
Definition backgroundImageFails (E : Env) (src : string) : Prop :=
  match imageEvent E src with
  | onerror _ => True
  | onload _ img => addImageAccepts E img "JPEG" = false
  end.

(** A slide with a background image and one text element. *)
Definition slideWithBackground : SlideData :=
  {| slide_id := "slide1";
     slide_title := None;
     layout := "";
     slide_backgroundColor := Some "#ffffff"%string;
     backgroundImage := Some "media/missing.png"%string;
     elements := [textElement "text-0" "Hello"];
     notes := None;
     hidden := None |}.

(** The environment of the examples, but no image loads. *)
Definition brokenImagesEnv : Env :=
  {| splitTextToSize := splitTextToSize exampleEnv;
     imageEvent := fun _ => onerror 5;
     addImageAccepts := addImageAccepts exampleEnv;
     renderTextElement := renderTextElement exampleEnv;
     renderShapeElement := renderShapeElement exampleEnv;
     parseSlideXml := parseSlideXml exampleEnv |}.

(** *** The shape painter *)

Module ShapePainter.

(** A call of [renderShapeElement] on the [pdf] object: one the other
    painters make too, or one of its own. *)
Inductive ShapeCall :=
| call (op : PdfOp)
| pdf_setLineDashPattern (dashArray : list Q) (dashPhase : Q)
| pdf_circle (x y r : Q) (style : RectStyle)
| pdf_ellipse (x y rx ry : Q) (style : RectStyle)
| pdf_roundedRect (x y w h rx ry : Q) (style : RectStyle)
| pdf_triangle (x1 y1 x2 y2 x3 y3 : Q) (style : RectStyle)
| pdf_lines (lines : list (Q * Q)) (x y : Q) (scale : Q * Q) (style : RectStyle)
    (closed : bool).

(** jsPDF as the shape painter sees it: any call may throw. *)
Record ShapeEnv := { callThrows : ShapeCall -> bool }.

(** A run of statements: the calls made and how the run ended. *)
Definition Draw (A : Type) : Type := (list ShapeCall * Outcome A)%type.

Definition done {A : Type} (a : A) : Draw A := ([], Ok a).

Definition andThen {A B : Type} (m : Draw A) (k : A -> Draw B) : Draw B :=
  match m with
  | (o1, Ok a) => let '(o2, r) := k a in (o1 ++ o2, r)
  | (o1, Throw e) => (o1, Throw e)
  end.

(** [try { body } catch (e) { handler }]. *)
Definition orElse {A : Type} (body : Draw A) (handler : string -> Draw A) : Draw A :=
  match body with
  | (o1, Ok a) => (o1, Ok a)
  | (o1, Throw e) => let '(o2, r) := handler e in (o1 ++ o2, r)
  end.

(** [try { body } finally { cleanup }]: the clean-up runs however the body
    ended, and what it throws replaces the body's outcome. *)
Definition finally {A : Type} (body : Draw A) (cleanup : Draw unit) : Draw A :=
  let '(o1, r1) := body in
  let '(o2, r2) := cleanup in
  (o1 ++ o2, match r2 with Ok _ => r1 | Throw e => Throw e end).

(** [try { body } catch { }]: the calls made before the exception stay. *)
Definition swallow (body : Draw unit) : list ShapeCall := fst body.

Definition pdfCall (J : ShapeEnv) (c : ShapeCall) : Draw unit :=
  if callThrows J c then ([], Throw "jsPDF") else ([c], Ok tt).

Definition contentShapeType (c : Content) : option string :=
  match c with ShapeContent shapeType _ => shapeType | _ => None end.

Definition contentCornerRadius (c : Content) : option Q :=
  match c with ShapeContent _ cornerRadius => cornerRadius | _ => None end.

(** [style.opacity && style.opacity < 1]. *)
Definition translucent (style : ElementStyle) : bool :=
  match opacity style with
  | Some o => negb (Qeq_bool o 0) && lt o 1
  | None => false
  end.

(** The block that sets the fill colour: its calls, and [hasFill]. *)
Definition setShapeFill (J : ShapeEnv) (style : ElementStyle) : list ShapeCall * bool :=
  match backgroundColor style with
  | Some (String _ _ as backgroundColor) =>
      let color := removeFirstHash backgroundColor in
      if (6 <=? String.length color)%nat then
        let setFillColor :=
          call (pdf_setFillColor (hexChannel color 0) (hexChannel color 2)
                  (hexChannel color 4)) in
        if callThrows J setFillColor then ([], false)
        else
          (setFillColor ::
           swallow
             (if translucent style then
                andThen (pdfCall J (call pdf_saveGraphicsState)) (fun _ =>
                  match opacity style with
                  | Some o => pdfCall J (call (pdf_setGState o))
                  | None => done tt
                  end)
              else done tt),
           true)
      else ([], false)
  | _ => ([], false)
  end.

(** [style.borderStyle === name]. *)
Definition borderStyleIs (style : ElementStyle) (name : string) : bool :=
  match borderStyle style with
  | Some s => String.eqb s name
  | None => false
  end.

(** The block that sets the border: its calls, and [hasBorder]. *)
Definition setShapeBorder (J : ShapeEnv) (style : ElementStyle)
    : list ShapeCall * bool :=
  match borderColor style, borderWidth style with
  | Some (String _ _ as borderColor), Some borderWidth =>
      if negb (Qeq_bool borderWidth 0) then
        let color := removeFirstHash borderColor in
        if (6 <=? String.length color)%nat then
          match
            andThen
              (pdfCall J
                 (call (pdf_setDrawColor (hexChannel color 0) (hexChannel color 2)
                          (hexChannel color 4))))
              (fun _ => pdfCall J (call (pdf_setLineWidth (Qmax 0.1 borderWidth))))
          with
          | (o, Throw _) => (o, false)
          | (o, Ok _) =>
              (o ++
               swallow
                 (if borderStyleIs style "dashed" then
                    pdfCall J (pdf_setLineDashPattern [3; 3] 0)
                  else if borderStyleIs style "dotted" then
                    pdfCall J (pdf_setLineDashPattern [1; 2] 0)
                  else done tt),
               true)
          end
        else ([], false)
      else ([], false)
  | _, _ => ([], false)
  end.

Definition drawStyleOf (hasFill hasBorder : bool) : RectStyle :=
  if hasFill && hasBorder then FD else if hasFill then F else D.

(** [pdf.triangle] for the fill, then for the border. *)
Definition fillAndOutline (J : ShapeEnv) (hasFill hasBorder : bool)
    (x1 y1 x2 y2 x3 y3 : Q) : Draw unit :=
  andThen (if hasFill then pdfCall J (pdf_triangle x1 y1 x2 y2 x3 y3 F) else done tt)
    (fun _ => if hasBorder then pdfCall J (pdf_triangle x1 y1 x2 y2 x3 y3 D) else done tt).

(** The [switch (shapeType.toLowerCase())]. *)
Definition drawShape (J : ShapeEnv) (shapeType : string) (cornerRadius : option Q)
    (hasFill hasBorder : bool) (x y width height : Q) : Draw unit :=
  let drawStyle := drawStyleOf hasFill hasBorder in
  let kind := toLowerCase shapeType in
  if String.eqb kind "circle" || String.eqb kind "ellipse" then
    let centerX := x + width / 2 in
    let centerY := y + height / 2 in
    let radiusX := width / 2 in
    let radiusY := height / 2 in
    if Qeq_bool radiusX radiusY then pdfCall J (pdf_circle centerX centerY radiusX drawStyle)
    else pdfCall J (pdf_ellipse centerX centerY radiusX radiusY drawStyle)
  else if String.eqb kind "roundedrectangle" || String.eqb kind "rounded-rectangle" then
    let cornerRadius :=
      Qmin (orNumOpt cornerRadius (Qmin width height * 0.1)) (Qmin width height / 2) in
    pdfCall J (pdf_roundedRect x y width height cornerRadius cornerRadius drawStyle)
  else if String.eqb kind "triangle" then
    fillAndOutline J hasFill hasBorder
      (x + width / 2) y x (y + height) (x + width) (y + height)
  else if String.eqb kind "diamond" then
    let top := (x + width / 2, y) in
    let right := (x + width, y + height / 2) in
    let bottom := (x + width / 2, y + height) in
    let left := (x, y + height / 2) in
    pdfCall J
      (pdf_lines
         [ (fst right - fst top, snd right - snd top);
           (fst bottom - fst right, snd bottom - snd right);
           (fst left - fst bottom, snd left - snd bottom);
           (fst top - fst left, snd top - snd left) ]
         (fst top) (snd top) (1, 1) drawStyle true)
  else if String.eqb kind "arrow" then
    let arrowBodyHeight := height * 0.6 in
    let arrowBodyY := y + (height - arrowBodyHeight) / 2 in
    let arrowHeadWidth := width * 0.3 in
    andThen
      (pdfCall J
         (call (pdf_rect x arrowBodyY (width - arrowHeadWidth) arrowBodyHeight drawStyle)))
      (fun _ =>
         fillAndOutline J hasFill hasBorder
           (x + width - arrowHeadWidth) y (x + width) (y + height / 2)
           (x + width - arrowHeadWidth) (y + height))
  else if String.eqb kind "line" then
    pdfCall J (call (pdf_line x y (x + width) (y + height)))
  else
    pdfCall J (call (pdf_rect x y width height drawStyle)).

(** The shadow: a grey rectangle of the size of the box, moved down and
    to the right, drawn after the shape. *)
Definition drawShadow (J : ShapeEnv) (style : ElementStyle) (x y width height : Q)
    : Draw unit :=
  if truthyOpt (boxShadow style) then
    andThen (pdfCall J (call pdf_saveGraphicsState)) (fun _ =>
    andThen (pdfCall J (call (pdf_setGState 0.3))) (fun _ =>
    andThen (pdfCall J (call (pdf_setFillColor (Some 100%Z) (Some 100%Z) (Some 100%Z))))
      (fun _ =>
    let shadowOffset := Qmin width height * 0.02 in
    andThen
      (pdfCall J (call (pdf_rect (x + shadowOffset) (y + shadowOffset) width height F)))
      (fun _ =>
    pdfCall J (call pdf_restoreGraphicsState)))))
  else done tt.

(** The [finally] block. *)
Definition resetShapeState (J : ShapeEnv) (style : ElementStyle) : Draw unit :=
  andThen (pdfCall J (pdf_setLineDashPattern [] 0)) (fun _ =>
    if translucent style then pdfCall J (call pdf_restoreGraphicsState) else done tt).

Definition renderShapeElement (J : ShapeEnv) (element : SlideElement)
    (x y width height : Q) : Draw unit :=
  let style := el_style element in
  let shapeType :=
    match contentShapeType (el_content element) with
    | Some s => orStr s "rectangle"
    | None => "rectangle"%string
    end in
  let '(fillCalls, hasFill) := setShapeFill J style in
  let '(borderCalls, hasBorder) := setShapeBorder J style in
  let drawStyle := drawStyleOf hasFill hasBorder in
  let '(calls, r) :=
    finally
      (orElse
         (andThen
            (drawShape J shapeType (contentCornerRadius (el_content element))
               hasFill hasBorder x y width height)
            (fun _ => drawShadow J style x y width height))
         (fun _ => pdfCall J (call (pdf_rect x y width height drawStyle))))
      (resetShapeState J style) in
  (fillCalls ++ borderCalls ++ calls, r).

(** **** Vocabulary of the statements *)

Definition isSave (c : ShapeCall) : bool :=
  match c with call pdf_saveGraphicsState => true | _ => false end.

Definition isRestore (c : ShapeCall) : bool :=
  match c with call pdf_restoreGraphicsState => true | _ => false end.

Definition count (p : ShapeCall -> bool) (calls : list ShapeCall) : nat :=
  List.length (filter p calls).

(** A fill colour the painter accepts: six characters or more once the
    first [#] is removed. *)
Definition hasFillColour (style : ElementStyle) : bool :=
  match backgroundColor style with
  | Some c => (6 <=? String.length (removeFirstHash c))%nat
  | None => false
  end.

(** The corners of the area a call paints: of the rectangle around a
    circle or an ellipse, of a rectangle, of a triangle, the ends of a
    line, and the corners a path of relative moves goes through. *)
Fixpoint pathFrom (x y : Q) (moves : list (Q * Q)) : list (Q * Q) :=
  match moves with
  | [] => []
  | (dx, dy) :: moves' => (x + dx, y + dy) :: pathFrom (x + dx) (y + dy) moves'
  end.

Definition cornersOf (c : ShapeCall) : list (Q * Q) :=
  match c with
  | call (pdf_rect x y w h _) => [(x, y); (x + w, y + h)]
  | call (pdf_line x1 y1 x2 y2) => [(x1, y1); (x2, y2)]
  | call _ => []
  | pdf_setLineDashPattern _ _ => []
  | pdf_circle x y r _ => [(x - r, y - r); (x + r, y + r)]
  | pdf_ellipse x y rx ry _ => [(x - rx, y - ry); (x + rx, y + ry)]
  | pdf_roundedRect x y w h _ _ _ => [(x, y); (x + w, y + h)]
  | pdf_triangle x1 y1 x2 y2 x3 y3 _ => [(x1, y1); (x2, y2); (x3, y3)]
  | pdf_lines moves x y (sx, sy) _ _ =>
      (x, y) :: pathFrom x y (map (fun m => (fst m * sx, snd m * sy)) moves)
  end.

Definition insideBox (x y width height : Q) (c : ShapeCall) : Prop :=
  Forall (fun p => x <= fst p <= x + width /\ y <= snd p <= y + height) (cornersOf c).

End ShapePainter.

(** jsPDF when no call throws. *)
Definition quietShapeEnv : ShapePainter.ShapeEnv :=
  {| ShapePainter.callThrows := fun _ => false |}.

(** jsPDF when the graphics state was never saved: only
    [restoreGraphicsState] throws. *)
Definition unsavedShapeEnv : ShapePainter.ShapeEnv :=
  {| ShapePainter.callThrows := ShapePainter.isRestore |}.

Definition shapeElement (shapeType : string) (style : ElementStyle) : SlideElement :=
  {| el_id := "shape-0"; el_type := shape; el_position := examplePosition; zIndex := 1;
     el_content := ShapeContent (Some shapeType) None; el_style := style |}.

(** A style with an opacity and nothing else. *)
Definition fadedStyle : ElementStyle :=
  {| fontFamily := None; fontSize := None; fontWeight := None; fontStyle := None;
     color := None; backgroundColor := None; borderColor := None;
     borderWidth := None; borderStyle := None; borderRadius := None;
     opacity := Some 0.5; rotation := None; shadow := None; textAlign := None;
     verticalAlign := None; textShadow := None; boxShadow := None;
     textDecoration := None |}.

End PowerPointToPDFMore.

(** ** More of the Word converter *)

Module WordToPDFMore.

Import JS JSMore WordToPDF.

Local Open Scope string_scope.

(** *** The page being written ([convertWordToPdf]) *)

(** [fonts.regular], [fonts.bold], [fonts.italic], [fonts.boldItalic]. *)
Inductive Font := Regular | Bold | Italic | BoldItalic.

(** [getFont]. *)
Definition getFont (style : TextStyle) : Font :=
  if bold style && italic style then BoldItalic
  else if bold style then Bold
  else if italic style then Italic
  else Regular.

(** A call on the [page] object of pdf-lib. *)
Inductive PageOp :=
| drawText (text : string) (x y size : Q) (font : Font) (color : Color)
| drawRectangle (x y width height : Q)
    (color borderColor : option Color) (borderWidth : option Q)
| drawLine (startX startY endX endY thickness : Q) (color : Color)
| drawImage (x y width height : Q).

(** The variables of [convertWordToPdf] its helpers share: the pages
    left behind, the calls on the current [page], [pageNumber] and
    [yPosition]. *)
Record Doc := {
  pages : list (list PageOp);
  page : list PageOp;
  pageNumber : nat;
  yPosition : Q
}.

Definition pageWidth : Q := 595.
Definition pageHeight : Q := 842.
Definition marginTop : Q := 72.
Definition marginBottom : Q := 72.
Definition marginLeft : Q := 72.
Definition marginRight : Q := 72.
Definition maxWidth : Q := pageWidth - marginLeft - marginRight.
Definition footerFontSize : Q := 10.
Definition cellPadding : Q := 5.

(** After [pdfDoc.addPage(\[595, 842\])] and the settings that follow. *)
Definition newDoc : Doc :=
  {| pages := []; page := []; pageNumber := 1; yPosition := pageHeight - marginTop |}.

Definition drawOnPage (op : PageOp) (d : Doc) : Doc :=
  {| pages := pages d; page := (page d ++ [op])%list;
     pageNumber := pageNumber d; yPosition := yPosition d |}.

Definition setYPosition (y : Q) (d : Doc) : Doc :=
  {| pages := pages d; page := page d; pageNumber := pageNumber d; yPosition := y |}.

(** All the calls, page after page. *)
Definition allOps (d : Doc) : list PageOp := (List.concat (pages d) ++ page d)%list.

Section Drawing.

(** [font.widthOfTextAtSize(text, size)]. *)
Variable widthOfTextAtSize : Font -> string -> Q -> Q.

(** The footer [ensureSpace] writes: no footer text is set, the page
    number is. *)
Definition footerOf (pageNumber : nat) : PageOp :=
  let pageText := "Page " ++ natToString pageNumber in
  let pageTextWidth := widthOfTextAtSize Regular pageText footerFontSize in
  drawText pageText (pageWidth - marginRight - pageTextWidth) (marginBottom - 10)
    footerFontSize Regular (rgb 0 0 0).

(** [ensureSpace]; the header text is not set, so the new page starts
    empty. *)
Definition ensureSpace (requiredHeight : Q) (d : Doc) : Doc :=
  if lt (yPosition d - requiredHeight) marginBottom then
    {| pages := (pages d ++ [page d ++ [footerOf (pageNumber d)]])%list;
       page := [];
       pageNumber := S (pageNumber d);
       yPosition := pageHeight - marginTop |}
  else d.

(** [getXPosition] of [drawStyledText]. *)
Definition getXPosition (style : TextStyle) (x indent lineWidth : Q) : Q :=
  match textAlign style with
  | None | Some "" | Some "left" => x + indent
  | Some "center" => x + (maxWidth - lineWidth) / 2
  | Some "right" => x + maxWidth - lineWidth
  | Some _ => x + indent
  end.

Definition lineHeightOf (style : TextStyle) : Q :=
  orNumOpt (lineHeight style) 1.4 * fontSize style.

(** The block that puts [currentLine] on the page: room for it, the
    highlight, the text, the underline, the strike-through, and the move to
    the next line.  [drawStyledText] has it twice. *)
Definition drawCurrentLine (currentLine : string) (style : TextStyle) (x indent : Q)
    (d : Doc) : Doc :=
  let font := getFont style in
  let fontSize := fontSize style in
  let lineHeight := lineHeightOf style in
  let d1 := ensureSpace lineHeight d in
  let y := yPosition d1 in
  let xPos := getXPosition style x indent (widthOfTextAtSize font currentLine fontSize) in
  let d2 :=
    match highlight style with
    | Some h =>
        drawOnPage
          (drawRectangle xPos (y - 2) (widthOfTextAtSize font currentLine fontSize)
             (fontSize + 4) (Some h) None None) d1
    | None => d1
    end in
  let d3 := drawOnPage (drawText currentLine xPos y fontSize font (color style)) d2 in
  let d4 :=
    if underline style then
      let textWidth := widthOfTextAtSize font currentLine fontSize in
      drawOnPage (drawLine xPos (y - 2) (xPos + textWidth) (y - 2) 1 (color style)) d3
    else d3 in
  let d5 :=
    match strikethrough style with
    | Some true =>
        let textWidth := widthOfTextAtSize font currentLine fontSize in
        drawOnPage
          (drawLine xPos (y + fontSize / 2) (xPos + textWidth) (y + fontSize / 2) 1
             (color style)) d4
    | _ => d4
    end in
  setYPosition (y - lineHeight) d5.

(** [currentLine + (currentLine ? ' ' : '') + word]. *)
Definition testLineOf (currentLine word : string) : string :=
  currentLine ++ (if truthyStr currentLine then " " else "") ++ word.

(** The loop over the words: the line left in [currentLine], and the
    document. *)
Fixpoint drawWords (words : list string) (currentLine : string) (style : TextStyle)
    (x indent : Q) (d : Doc) : string * Doc :=
  match words with
  | [] => (currentLine, d)
  | word :: words' =>
      let testLine := testLineOf currentLine word in
      let lineWidth := widthOfTextAtSize (getFont style) testLine (fontSize style) in
      if le lineWidth (maxWidth - indent) then drawWords words' testLine style x indent d
      else
        drawWords words' word style x indent
          (if truthyStr currentLine then drawCurrentLine currentLine style x indent d
           else d)
  end.

Definition drawStyledText (text : string) (style : TextStyle) (x indent : Q) (d : Doc)
    : Doc :=
  let '(currentLine, d1) := drawWords (split_ws (trim text)) "" style x indent d in
  if truthyStr currentLine then drawCurrentLine currentLine style x indent d1 else d1.

(** The image block of [processNode], for an image that was embedded with
    the given size. *)
Definition drawEmbeddedImage (imgWidth imgHeight indent : Q) (d : Doc) : Doc :=
  let maxImgWidth := maxWidth - indent in
  let maxImgHeight := yPosition d - marginBottom - 20 in
  let scale := Qmin (Qmin (maxImgWidth / imgWidth) (maxImgHeight / imgHeight)) 1 in
  let drawnWidth := imgWidth * scale in
  let drawnHeight := imgHeight * scale in
  let d1 := ensureSpace (drawnHeight + 20) d in
  let d2 := setYPosition (yPosition d1 - drawnHeight) d1 in
  let d3 :=
    drawOnPage
      (drawImage (marginLeft + indent + (maxImgWidth - drawnWidth) / 2) (yPosition d2)
         drawnWidth drawnHeight) d2 in
  setYPosition (yPosition d3 - 10) d3.

(** The column widths of [drawTable]; a row is the list of the texts of
    its cells, and reading the text of a cell a row does not have
    throws. *)
Fixpoint widestCell (rows : list (list string)) (i : nat) (size maxWidth : Q)
    : Outcome Q :=
  match rows with
  | [] => Ok maxWidth
  | row :: rows' =>
      match nth_error row i with
      | Some cellText =>
          widestCell rows' i size (Qmax maxWidth (widthOfTextAtSize Regular cellText size))
      | None => Throw "Cannot read properties of undefined (reading 'textContent')"
      end
  end.

Fixpoint colWidthsFrom (rows : list (list string)) (size maxColWidth : Q)
    (i count : nat) : Outcome (list Q) :=
  match count with
  | O => Ok []
  | S count' =>
      match widestCell rows i size 0 with
      | Ok widest =>
          match colWidthsFrom rows size maxColWidth (S i) count' with
          | Ok colWidths => Ok (Qmin (widest + cellPadding * 2) maxColWidth :: colWidths)
          | Throw e => Throw e
          end
      | Throw e => Throw e
      end
  end.

(** [colWidths], for a table with at least one row. *)
Definition colWidthsOf (rows : list (list string)) (style : TextStyle)
    : Outcome (list Q) :=
  match rows with
  | [] => Ok []
  | firstRow :: _ =>
      let maxColWidth := (maxWidth - cellPadding * 2) / inject_Z (Z.of_nat (List.length firstRow)) in
      colWidthsFrom rows (fontSize style) maxColWidth 0 (List.length firstRow)
  end.

End Drawing.

(** [file.name.replace(/\.(docx?|doc)$/i, '.pdf')]. *)
Definition hasWordExtensionAt (s : string) : bool :=
  let l := toLowerCase s in
  String.eqb l ".docx" || String.eqb l ".doc".

Fixpoint pdfNameOf (name : string) : string :=
  if hasWordExtensionAt name then ".pdf"
  else
    match name with
    | String c name' => String c (pdfNameOf name')
    | EmptyString => EmptyString
    end.

(** The filter of [handleFilesSelected]. *)
Definition isWordFile (type name : string) : bool :=
  String.eqb type "application/vnd.openxmlformats-officedocument.wordprocessingml.document"
  || String.eqb type "application/msword"
  || endsWith name ".docx" || endsWith name ".doc".

(** *** Vocabulary of the statements *)

Definition isDrawText (op : PageOp) : bool :=
  match op with drawText _ _ _ _ _ _ => true | _ => false end.

(** The lines drawn one after the other. *)
Definition drawLines (widthOfTextAtSize : Font -> string -> Q -> Q) (lines : list string)
    (style : TextStyle) (x indent : Q) (d : Doc) : Doc :=
  fold_left (fun d line => drawCurrentLine widthOfTextAtSize line style x indent d) lines d.

(** The calls of one line: the highlight, the text, the underline and the
    strike-through, at the height [y]. *)
Definition lineOps (W : Font -> string -> Q -> Q) (line : string) (style : TextStyle) (x indent y : Q) : list PageOp :=
  let font := getFont style in
  let width := W font line (fontSize style) in
  let xPos := getXPosition style x indent width in
  ((match highlight style with
    | Some h => [drawRectangle xPos (y - 2) width (fontSize style + 4) (Some h) None None]
    | None => []
    end)
   ++ [drawText line xPos y (fontSize style) font (color style)]
   ++ (if underline style
       then [drawLine xPos (y - 2) (xPos + width) (y - 2) 1 (color style)] else [])
   ++ (match strikethrough style with
       | Some true =>
           [drawLine xPos (y + fontSize style / 2) (xPos + width)
              (y + fontSize style / 2) 1 (color style)]
       | _ => []
       end))%list.

(** What a call may be when text is written between the margins with
    the line height [lineHeight]: the page number in the bottom margin, or
    a text whose baseline is at least a line height above the bottom
    margin and not above the top margin, or something that is not text. *)
Definition betweenMargins (W : Font -> string -> Q -> Q) (lineHeight : Q) (op : PageOp)
    : Prop :=
  (exists n : nat, op = footerOf W n) \/
  match op with
  | drawText _ _ y _ _ _ =>
      marginBottom + lineHeight <= y /\ y <= pageHeight - marginTop
  | _ => True
  end.

(** The sum of a list of numbers. *)
Fixpoint sumQ (l : list Q) : Q :=
  match l with
  | [] => 0
  | a :: l' => a + sumQ l'
  end.

(** A font in which every character is half the font size wide. *)
Definition halfSizePerChar (font : Font) (s : string) (size : Q) : Q :=
  size / 2 * inject_Z (Z.of_nat (String.length s)).

(** *** Vocabulary of the statements on the page numbers *)

(** One thing [convertWordToPdf] does to the document while it walks the
    markup: a call of [ensureSpace], a call on [page], an assignment to
    [yPosition], a call of [drawStyledText], or the image block. *)
Inductive drawingStep (W : Font -> string -> Q -> Q) : Doc -> Doc -> Prop :=
| step_ensureSpace requiredHeight d :
    drawingStep W d (ensureSpace W requiredHeight d)
| step_drawOnPage op d :
    drawingStep W d (drawOnPage op d)
| step_setYPosition y d :
    drawingStep W d (setYPosition y d)
| step_drawStyledText text style x indent d :
    drawingStep W d (drawStyledText W text style x indent d)
| step_drawEmbeddedImage imgWidth imgHeight indent d :
    drawingStep W d (drawEmbeddedImage W imgWidth imgHeight indent d).

(** The documents the conversion can be at. *)
Inductive reachable (W : Font -> string -> Q -> Q) : Doc -> Prop :=
| reachable_new : reachable W newDoc
| reachable_step d d' : reachable W d -> drawingStep W d d' -> reachable W d'.

(** The pages left behind are numbered: [pageNumber] is the number of the
    page being written, and the page left behind at place [k] ends with the
    footer of page [k + 1]. *)
Definition pagesAreNumbered (W : Font -> string -> Q -> Q) (d : Doc) : Prop :=
  pageNumber d = S (List.length (pages d)) /\
  forall (k : nat) (closed : list PageOp),
    nth_error (pages d) k = Some closed ->
    exists body, closed = (body ++ [footerOf W (S k)])%list.

End WordToPDFMore.

(** * Properties *)

(** ** Comparisons and the stable sort *)

Module JSFacts.

Import JS.

Lemma le_true_iff a b : le a b = true <-> a <= b.
Proof. apply Qle_bool_iff. Qed.

Lemma le_false_iff a b : le a b = false <-> b < a.
Proof.
  unfold le. split; intro H.
  - apply Qnot_le_lt. intro L. apply Qle_bool_iff in L. congruence.
  - destruct (Qle_bool a b) eqn:E; auto. apply Qle_bool_iff in E. lra.
Qed.

Lemma gt_true_iff a b : gt a b = true <-> b < a.
Proof. unfold gt. rewrite negb_true_iff. apply le_false_iff. Qed.

Lemma lt_true_iff a b : lt a b = true <-> a < b.
Proof. unfold lt. rewrite negb_true_iff. apply (le_false_iff b a). Qed.

Lemma ge_true_iff a b : ge a b = true <-> b <= a.
Proof. apply Qle_bool_iff. Qed.

Lemma Qmin_cases a b : (a <= b /\ Qmin a b = a) \/ (b < a /\ Qmin a b = b).
Proof.
  unfold Qmin, GenericMinMax.gmin.
  destruct (a ?= b) eqn:C.
  - left. split; auto. apply Qeq_alt in C. lra.
  - left. split; auto. apply Qlt_alt in C. lra.
  - right. split; auto. apply Qgt_alt in C. lra.
Qed.

Lemma orNum_pos a d : 0 <= a -> 0 < d -> 0 < orNum a d.
Proof.
  intros Ha Hd. unfold orNum. destruct (Qeq_bool a 0) eqn:E; auto.
  apply Qeq_bool_neq in E. lra.
Qed.

Lemma div_pos a b : 0 < a -> 0 < b -> 0 < a / b.
Proof.
  intros. unfold Qdiv. apply Qmult_lt_0_compat; auto. apply Qinv_lt_0_compat; auto.
Qed.

(** *** Strings *)

Lemma length_substring_0 n s :
  String.length (substring 0 n s) = Nat.min n (String.length s).
Proof.
  revert s. induction n as [|n IH]; intros [|c s]; simpl; auto.
Qed.

Lemma substring_0_all s : substring 0 (String.length s) s = s.
Proof. induction s as [|c s IH]; simpl; congruence. Qed.

Lemma substring_0_over k s :
  (String.length s <= k)%nat -> substring 0 k s = s.
Proof.
  revert k. induction s as [|c s IH]; intros [|k] H; simpl in *; auto; try lia.
  f_equal. apply IH. lia.
Qed.

Lemma length_substring_skip n m s :
  (n <= String.length s)%nat ->
  String.length (substring n m s) = Nat.min m (String.length s - n).
Proof.
  revert s. induction n as [|n IH]; intros s H.
  - rewrite length_substring_0. f_equal. lia.
  - destruct s as [|c s]; simpl in *; [lia|]. apply IH. lia.
Qed.

Lemma length_substringFrom n s :
  String.length (substringFrom n s) = (String.length s - n)%nat.
Proof.
  unfold substringFrom.
  destruct (Nat.le_gt_cases n (String.length s)) as [H|H].
  - rewrite length_substring_skip; lia.
  - replace (String.length s - n)%nat with 0%nat by lia.
    clear H. revert s. induction n as [|n IH]; intros [|c s]; simpl; auto.
Qed.

Lemma substring_split n s :
  (substring 0 n s ++ substringFrom n s)%string = s.
Proof.
  unfold substringFrom. revert s. induction n as [|n IH]; intros s.
  - simpl. destruct s; simpl; [reflexivity|].
    f_equal. apply substring_0_all.
  - destruct s as [|c s]; simpl; auto. f_equal. apply IH.
Qed.

(** *** [sort] with a comparator that subtracts keys *)

Section KeySort.

Context {A : Type}.
Variable key : A -> Q.

Let compare (a b : A) : Q := key a - key b.
Let keyIs (k : Q) (a : A) : bool := Qeq_bool (key a) k.
Let keyLe (a b : A) : Prop := key a <= key b.

Lemma insertSorted_perm a l : Permutation (a :: l) (insertSorted compare a l).
Proof.
  induction l as [|b l IH]; simpl; auto.
  destruct (le (compare a b) 0); auto.
  rewrite perm_swap. constructor. exact IH.
Qed.

Lemma sort_perm l : Permutation l (sort compare l).
Proof.
  induction l as [|a l IH]; simpl; auto.
  rewrite <- insertSorted_perm. constructor. exact IH.
Qed.

Lemma insertSorted_sorted a l :
  StronglySorted keyLe l -> StronglySorted keyLe (insertSorted compare a l).
Proof.
  induction 1 as [|b l Hs IH Hb]; simpl.
  - repeat constructor.
  - destruct (le (compare a b) 0) eqn:E.
    + apply le_true_iff in E. unfold compare in E.
      constructor; [constructor; auto|].
      constructor; [unfold keyLe; lra|].
      eapply Forall_impl; [|exact Hb]. unfold keyLe. intros c Hc. lra.
    + apply le_false_iff in E. unfold compare in E.
      constructor; auto.
      eapply Permutation_Forall; [apply insertSorted_perm|].
      constructor; auto. unfold keyLe. lra.
Qed.

Lemma sort_sorted l : StronglySorted keyLe (sort compare l).
Proof.
  induction l; simpl; [constructor | apply insertSorted_sorted; auto].
Qed.

Lemma insertSorted_filter k a l :
  filter (keyIs k) (insertSorted compare a l) = filter (keyIs k) (a :: l).
Proof.
  induction l as [|b l IH]; auto.
  simpl insertSorted. destruct (le (compare a b) 0) eqn:E; auto.
  apply le_false_iff in E. unfold compare in E.
  change (filter (keyIs k) (b :: insertSorted compare a l))
    with (if keyIs k b then b :: filter (keyIs k) (insertSorted compare a l)
          else filter (keyIs k) (insertSorted compare a l)).
  rewrite IH. simpl.
  destruct (keyIs k a) eqn:Ka; destruct (keyIs k b) eqn:Kb; auto.
  unfold keyIs in Ka, Kb. apply Qeq_bool_iff in Ka, Kb. lra.
Qed.

Lemma sort_stable k l : filter (keyIs k) (sort compare l) = filter (keyIs k) l.
Proof.
  induction l as [|a l IH]; auto.
  simpl sort. rewrite insertSorted_filter. simpl. rewrite IH. reflexivity.
Qed.

(** A list sorted by key in which the elements of each key keep the order
    they have in another sorted list is that list: the result of a stable
    sort does not depend on the algorithm. *)
Lemma stable_sorted_unique l1 l2 :
  StronglySorted keyLe l1 -> StronglySorted keyLe l2 ->
  (forall k, filter (keyIs k) l1 = filter (keyIs k) l2) ->
  l1 = l2.
Proof.
  intros S1. revert l2. induction S1 as [|a l1 S1 IH Ha]; intros l2 S2 H.
  - destruct l2 as [|b l2]; auto.
    specialize (H (key b)). simpl in H. unfold keyIs in H at 1.
    rewrite (proj2 (Qeq_bool_iff _ _) (Qeq_refl _)) in H. discriminate.
  - assert (Kaa : keyIs (key a) a = true) by (apply Qeq_bool_iff; reflexivity).
    destruct l2 as [|b l2].
    { specialize (H (key a)). simpl in H. rewrite Kaa in H. discriminate. }
    assert (Kbb : keyIs (key b) b = true) by (apply Qeq_bool_iff; reflexivity).
    inversion S2 as [|? ? S2' Hb]; subst.
    assert (Eab : a = b).
    { pose proof (H (key a)) as Hka. simpl in Hka. rewrite Kaa in Hka.
      destruct (keyIs (key a) b) eqn:Kab; [congruence|].
      pose proof (H (key b)) as Hkb. simpl in Hkb. rewrite Kbb in Hkb.
      destruct (keyIs (key b) a) eqn:Kba.
      { unfold keyIs in Kab, Kba. apply Qeq_bool_iff in Kba.
        apply Qeq_bool_neq in Kab. symmetry in Kba. contradiction. }
      assert (Ia : In a l2).
      { assert (I : In a (filter (keyIs (key a)) l2)) by (rewrite <- Hka; left; auto).
        apply filter_In in I. tauto. }
      assert (Ib : In b l1).
      { assert (I : In b (filter (keyIs (key b)) l1)) by (rewrite Hkb; left; auto).
        apply filter_In in I. tauto. }
      rewrite Forall_forall in Ha, Hb.
      specialize (Ha _ Ib). specialize (Hb _ Ia). unfold keyLe in Ha, Hb.
      unfold keyIs in Kab. apply Qeq_bool_neq in Kab. lra. }
    subst b. f_equal. apply IH; auto.
    intro k. specialize (H k). simpl in H.
    destruct (keyIs k a); congruence.
Qed.

End KeySort.

(** *** Rounding to a double *)

Lemma roundHalfEven_error (y : Q) :
  - (1 # 2) <= inject_Z (roundHalfEven y) - y <= 1 # 2.
Proof.
  unfold roundHalfEven.
  pose proof (Qfloor_le y) as Lo.
  pose proof (Qlt_floor y) as Hi.
  rewrite inject_Z_plus in Hi. change (inject_Z 1) with 1 in Hi.
  set (f := Qfloor y) in *.
  destruct (Qcompare (y - inject_Z f) (1 # 2)) eqn:C.
  - apply Qeq_alt in C.
    destruct (Z.even f); [|rewrite inject_Z_plus; change (inject_Z 1) with 1]; lra.
  - apply Qlt_alt in C. lra.
  - apply Qgt_alt in C. rewrite inject_Z_plus. change (inject_Z 1) with 1. lra.
Qed.

Lemma two_power_pos (k : Z) : 0 < 2 ^ k.
Proof. apply Qpower_0_lt. reflexivity. Qed.

Lemma binade_le (x : Q) : 0 < x -> 2 ^ binade x <= x.
Proof.
  intros Hx. unfold binade.
  set (e0 := (Z.log2 (Qnum x) - Z.log2 (Z.pos (Qden x)))%Z).
  destruct (Qle_bool (2 ^ e0) x) eqn:T; [apply Qle_bool_iff; exact T|].
  destruct x as [n d]. cbn [Qnum Qden] in *.
  assert (Hn : (0 < n)%Z) by (unfold Qlt in Hx; simpl in Hx; lia).
  destruct (Z.log2_spec n Hn) as [Na _].
  destruct (Z.log2_spec (Z.pos d) (Pos2Z.is_pos d)) as [_ Db].
  set (a := Z.log2 n) in *. set (b := Z.log2 (Z.pos d)) in *.
  assert (A0 : (0 <= a)%Z) by apply Z.log2_nonneg.
  assert (B0 : (0 <= b)%Z) by apply Z.log2_nonneg.
  replace (e0 - 1)%Z with (a - Z.succ b)%Z by (unfold e0; lia).
  rewrite Qpower_minus by discriminate.
  change 2 with (inject_Z 2).
  rewrite <- !Zpower_Qpower by lia.
  assert (P : (0 < 2 ^ Z.succ b)%Z) by (apply Z.pow_pos_nonneg; lia).
  apply Qle_shift_div_r; [change 0 with (inject_Z 0); rewrite <- Zlt_Qlt; exact P|].
  rewrite (Qmake_Qdiv n d).
  unfold Qdiv. rewrite <- Qmult_assoc, (Qmult_comm (/ _)), Qmult_assoc.
  apply Qle_shift_div_l; [change 0 with (inject_Z 0); rewrite <- Zlt_Qlt; lia|].
  rewrite <- !inject_Z_mult, <- Zle_Qle. nia.
Qed.

Lemma roundPositive_error (x : Q) :
  0 < x -> - (x * unitRoundoff) <= roundPositive x - x <= x * unitRoundoff.
Proof.
  intros Hx. unfold roundPositive.
  pose proof (binade_le x Hx) as B.
  set (e := binade x) in *.
  pose proof (two_power_pos e) as Pe.
  assert (K : 2 ^ (52 - e) == 4503599627370496 / 2 ^ e).
  { rewrite Qpower_minus by discriminate. reflexivity. }
  pose proof (two_power_pos (52 - e)) as Pk.
  pose proof (roundHalfEven_error (x * 2 ^ (52 - e))) as R.
  set (m := inject_Z (roundHalfEven (x * 2 ^ (52 - e)))) in *.
  set (p := 2 ^ (52 - e)) in *. set (q := 2 ^ e) in *.
  assert (D : m / p - x == (m - x * p) / p) by (field; lra).
  assert (Half : / p * (1 # 2) == q * unitRoundoff).
  { rewrite K. unfold unitRoundoff. field. lra. }
  assert (Ip : 0 < / p) by (apply Qinv_lt_0_compat; exact Pk).
  rewrite D. unfold Qdiv.
  assert (U : 0 < unitRoundoff) by reflexivity.
  assert (Q1 : q * unitRoundoff <= x * unitRoundoff)
    by (apply Qmult_le_compat_r; lra).
  assert (Up : (m - x * p) * / p <= (1 # 2) * / p)
    by (apply Qmult_le_compat_r; lra).
  assert (Lo : - (1 # 2) * / p <= (m - x * p) * / p)
    by (apply Qmult_le_compat_r; lra).
  assert (H1 : (1 # 2) * / p == q * unitRoundoff) by (rewrite <- Half; ring).
  assert (H2 : - (1 # 2) * / p == - (q * unitRoundoff)) by (rewrite <- Half; ring).
  lra.
Qed.

Lemma Qabs_bound (a b : Q) : - b <= a <= b -> Qabs a <= b.
Proof. intros H. apply Qabs_Qle_condition. exact H. Qed.

(** A rounded number is within 2^-53 of the exact one, relatively. *)
Lemma toDouble_error (x : Q) : Qabs (toDouble x - x) <= Qabs x * unitRoundoff.
Proof.
  unfold toDouble. destruct (Qcompare x 0) eqn:C.
  - apply Qeq_alt in C. apply Qabs_bound.
    assert (A : Qabs x == 0) by (rewrite C; reflexivity).
    rewrite A. lra.
  - apply Qlt_alt in C.
    assert (P : 0 < - x) by lra.
    pose proof (roundPositive_error (- x) P) as R.
    assert (A : Qabs x == - x) by (apply Qabs_neg; lra).
    apply Qabs_bound. rewrite A. lra.
  - apply Qgt_alt in C.
    pose proof (roundPositive_error x C) as R.
    assert (A : Qabs x == x) by (apply Qabs_pos; lra).
    apply Qabs_bound. rewrite A. lra.
Qed.

(** The sign of a number is that of its rounding. *)
Lemma roundPositive_pos (x : Q) : 0 < x -> 0 < roundPositive x.
Proof.
  intros Hx. pose proof (roundPositive_error x Hx) as R.
  assert (U : x * unitRoundoff < x).
  { assert (E : x * unitRoundoff == x - x * (9007199254740991 # 9007199254740992))
      by (unfold unitRoundoff; ring).
    assert (0 < x * (9007199254740991 # 9007199254740992))
      by (apply Qmult_lt_0_compat; [exact Hx|reflexivity]).
    lra. }
  lra.
Qed.

Lemma toDouble_sign (x : Q) :
  (0 < x -> 0 < toDouble x) /\ (x < 0 -> toDouble x < 0) /\ (x == 0 -> toDouble x == 0).
Proof.
  unfold toDouble. destruct (Qcompare x 0) eqn:C.
  - apply Qeq_alt in C. repeat split; intros; try lra; reflexivity.
  - apply Qlt_alt in C.
    assert (P : 0 < - x) by lra. pose proof (roundPositive_pos _ P).
    repeat split; intros; lra.
  - apply Qgt_alt in C. pose proof (roundPositive_pos _ C).
    repeat split; intros; lra.
Qed.

(** A comparator may be rounded: [sort] only looks at its sign. *)
Lemma toDouble_nonpos (x : Q) : le (toDouble x) 0 = le x 0.
Proof.
  destruct (toDouble_sign x) as (P & N & Z0). unfold le.
  destruct (Qle_bool x 0) eqn:E.
  - apply Qle_bool_iff in E. apply Qle_bool_iff.
    destruct (Qlt_le_dec x 0) as [L|G]; [apply Qlt_le_weak, N, L|].
    assert (H : x == 0) by lra. rewrite (Z0 H). lra.
  - destruct (Qle_bool (toDouble x) 0) eqn:F; [|reflexivity].
    apply Qle_bool_iff in F.
    assert (H : 0 < x).
    { destruct (Qlt_le_dec 0 x) as [L|G]; [exact L|].
      apply Qle_bool_iff in G. congruence. }
    specialize (P H). lra.
Qed.

Lemma insertSorted_sign {A : Type} (c1 c2 : A -> A -> Q) a l :
  (forall x y, le (c1 x y) 0 = le (c2 x y) 0) ->
  insertSorted c1 a l = insertSorted c2 a l.
Proof.
  intros H. induction l as [|b l IH]; simpl; auto. rewrite H, IH. reflexivity.
Qed.

Lemma sort_sign {A : Type} (c1 c2 : A -> A -> Q) l :
  (forall x y, le (c1 x y) 0 = le (c2 x y) 0) -> sort c1 l = sort c2 l.
Proof.
  intros H. unfold sort. induction l as [|b l IH]; simpl; auto.
  rewrite IH. apply insertSorted_sign. exact H.
Qed.

Lemma roundHalfEven_Z (y : Q) (z : Z) : y == inject_Z z -> roundHalfEven y = z.
Proof.
  intros E. unfold roundHalfEven.
  rewrite (Qfloor_comp _ _ E), Qfloor_Z.
  assert (C : Qcompare (y - inject_Z z) (1 # 2) = Lt).
  { apply (proj1 (Qlt_alt _ _)). rewrite E. lra. }
  rewrite C. reflexivity.
Qed.

(** An integer below 2^53 is a double. *)
Lemma toDouble_integer (n : Z) :
  (Z.abs n < 9007199254740992)%Z -> toDouble (inject_Z n) == inject_Z n.
Proof.
  assert (Pos : forall n : Z, (0 < n < 9007199254740992)%Z ->
                  roundPositive (inject_Z n) == inject_Z n).
  { clear n. intros n [Hn Hs]. unfold roundPositive.
    assert (B : binade (inject_Z n) = Z.log2 n).
    { unfold binade. cbn [Qnum Qden inject_Z]. change (Z.log2 1) with 0%Z.
      rewrite Z.sub_0_r.
      assert (T : Qle_bool (2 ^ Z.log2 n) (inject_Z n) = true).
      { apply Qle_bool_iff. change 2 with (inject_Z 2).
        rewrite <- Zpower_Qpower by apply Z.log2_nonneg.
        rewrite <- Zle_Qle. apply Z.log2_spec. exact Hn. }
      change (n # 1) with (inject_Z n). rewrite T. reflexivity. }
    rewrite B.
    assert (L : (Z.log2 n < 53)%Z).
    { apply Z.log2_lt_pow2; [exact Hn|]. exact Hs. }
    pose proof (Z.log2_nonneg n) as L0.
    set (k := (52 - Z.log2 n)%Z) in *.
    assert (K : (0 <= k)%Z) by (unfold k; lia).
    assert (E : inject_Z n * 2 ^ k == inject_Z (n * 2 ^ k)).
    { rewrite inject_Z_mult. change 2 with (inject_Z 2) at 1.
      rewrite <- Zpower_Qpower by exact K. reflexivity. }
    rewrite (roundHalfEven_Z _ _ E).
    rewrite inject_Z_mult, Zpower_Qpower by exact K.
    change (inject_Z 2) with 2.
    pose proof (two_power_pos k). field. lra. }
  intros H. unfold toDouble.
  destruct (Qcompare (inject_Z n) 0) eqn:C.
  - apply Qeq_alt in C. rewrite C. reflexivity.
  - apply Qlt_alt in C. change 0 with (inject_Z 0) in C. rewrite <- Zlt_Qlt in C.
    rewrite <- inject_Z_opp.
    rewrite (Pos (- n)%Z) by lia. rewrite inject_Z_opp. ring.
  - apply Qgt_alt in C. change 0 with (inject_Z 0) in C. rewrite <- Zlt_Qlt in C.
    apply Pos. lia.
Qed.

End JSFacts.

(** ** The PowerPoint converter *)

Module PowerPointToPDFFacts.

Import JS PowerPointToPDF JSFacts.

Local Open Scope paint_scope.

#[local] Arguments bind : simpl never.
#[local] Arguments tryCatch : simpl never.
#[local] Arguments emit : simpl never.

(** *** Page size and element placement *)

Lemma canvas_positive m :
  0 <= slideWidth m -> 0 <= slideHeight m -> 0 < canvasWidth m /\ 0 < canvasHeight m.
Proof. intros; split; apply orNum_pos; auto; reflexivity. Qed.

Lemma fitPage_exceeds_margins bw bh ratio :
  40 < bw -> 40 < bh -> 0 < ratio ->
  40 < fst (fitPage bw bh ratio) /\ 40 < snd (fitPage bw bh ratio).
Proof.
  intros Hw Hh Hr. unfold fitPage, contentMargin.
  destruct (gt ratio (bw / bh)).
  - destruct (le _ _); simpl; split; auto.
    assert (0 < (bw - 20 * 2) / ratio) by (apply div_pos; lra). lra.
  - destruct (le _ _); simpl; split; auto.
    assert (0 < (bh - 20 * 2) * ratio) by (apply Qmult_lt_0_compat; lra). lra.
Qed.

Lemma basePdfSize_exceeds_margins s :
  5 <= dpi s -> 40 < fst (basePdfSize s) /\ 40 < snd (basePdfSize s).
Proof.
  intros H. unfold basePdfSize.
  assert (Dpi : (5 # 72) <= dpiScale s).
  { unfold dpiScale. apply Qle_shift_div_l; lra. }
  destruct (pageSize s); simpl; split; lra.
Qed.

(** The content area of every page the converter makes is not empty. *)
Lemma content_area_positive s m :
  5 <= dpi s -> 0 <= slideWidth m -> 0 <= slideHeight m ->
  0 < fst (contentArea (fst (pdfPageSize s m)) (snd (pdfPageSize s m))) /\
  0 < snd (contentArea (fst (pdfPageSize s m)) (snd (pdfPageSize s m))).
Proof.
  intros Hd Hw Hh.
  destruct (canvas_positive m Hw Hh) as [Cw Ch].
  destruct (basePdfSize_exceeds_margins s Hd) as [Bw Bh].
  assert (Fit : 40 < fst (pdfPageSize s m) /\ 40 < snd (pdfPageSize s m)).
  { unfold pdfPageSize. apply fitPage_exceeds_margins.
    - destruct (orientation s); simpl; auto.
    - destruct (orientation s); simpl; auto.
    - apply div_pos; auto. }
  unfold contentArea, contentMargin; simpl. lra.
Qed.

Lemma scale_positive cw ch sw sh :
  0 < cw -> 0 < ch -> 0 < sw -> 0 < sh -> 0 < Qmin (cw / sw) (ch / sh).
Proof. intros. apply Q.min_glb_lt; apply div_pos; auto. Qed.

Lemma placement_keeps_ratio p cw ch sw sh mg :
  0 < cw -> 0 < ch -> 0 < sw -> 0 < sh ->
  scaledSlideWidth (placement p cw ch sw sh mg)
  / scaledSlideHeight (placement p cw ch sw sh mg)
  == sw / sh.
Proof.
  intros Hcw Hch Hsw Hsh. simpl.
  pose proof (scale_positive cw ch sw sh Hcw Hch Hsw Hsh) as Hs.
  set (k := Qmin (cw / sw) (ch / sh)) in *.
  field. split; lra.
Qed.

Lemma placement_fits p cw ch sw sh mg :
  0 < sw -> 0 < sh ->
  scaledSlideWidth (placement p cw ch sw sh mg) <= cw /\
  scaledSlideHeight (placement p cw ch sw sh mg) <= ch.
Proof.
  intros Hsw Hsh. simpl.
  pose proof (Q.le_min_l (cw / sw) (ch / sh)) as L.
  pose proof (Q.le_min_r (cw / sw) (ch / sh)) as R.
  set (k := Qmin (cw / sw) (ch / sh)) in *.
  split.
  - assert (E : cw == sw * (cw / sw)) by (field; lra).
    apply Qle_trans with (sw * (cw / sw)); [apply Qmult_le_l; auto | rewrite <- E; lra].
  - assert (E : ch == sh * (ch / sh)) by (field; lra).
    apply Qle_trans with (sh * (ch / sh)); [apply Qmult_le_l; auto | rewrite <- E; lra].
Qed.

(** The fitted page never exceeds the base page it was fitted into. *)
Lemma fitPage_within_base bw bh ratio :
  fst (fitPage bw bh ratio) <= bw /\ snd (fitPage bw bh ratio) <= bh.
Proof.
  unfold fitPage, contentMargin.
  destruct (gt ratio (bw / bh)).
  - destruct (le _ _) eqn:E; simpl; split; try lra.
    apply le_true_iff in E. lra.
  - destruct (le _ _) eqn:E; simpl; split; try lra.
    apply le_true_iff in E. lra.
Qed.

(** An element that lies inside the slide canvas is not clipped: the
    painters receive its uniformly scaled width and height. *)
Lemma inside_canvas_not_clipped p cw ch sw sh mg :
  0 < cw -> 0 < ch -> 0 < sw -> 0 < sh ->
  pos_x p + pos_width p <= sw -> pos_y p + pos_height p <= sh ->
  let P := placement p cw ch sw sh mg in
  Qmin (place_width P) (mg + cw - place_x P) == place_width P /\
  Qmin (place_height P) (mg + ch - place_y P) == place_height P.
Proof.
  intros Hcw Hch Hsw Hsh Hx Hy P.
  pose proof (scale_positive cw ch sw sh Hcw Hch Hsw Hsh) as Hs.
  change (0 < scale P) in Hs.
  destruct (placement_fits p cw ch sw sh mg Hsw Hsh) as [Fw Fh].
  change (scaledSlideWidth P <= cw) in Fw.
  change (scaledSlideHeight P <= ch) in Fh.
  assert (Ex : offsetX P == (cw - scaledSlideWidth P) / 2) by reflexivity.
  assert (Ey : offsetY P == (ch - scaledSlideHeight P) / 2) by reflexivity.
  assert (Ox : 0 <= offsetX P) by (rewrite Ex; apply Qle_shift_div_l; lra).
  assert (Oy : 0 <= offsetY P) by (rewrite Ey; apply Qle_shift_div_l; lra).
  assert (Px : place_x P == mg + offsetX P + pos_x p * scale P) by reflexivity.
  assert (Py : place_y P == mg + offsetY P + pos_y p * scale P) by reflexivity.
  assert (Pw : place_width P == pos_width p * scale P) by reflexivity.
  assert (Ph : place_height P == pos_height p * scale P) by reflexivity.
  assert (Sw : scaledSlideWidth P == sw * scale P) by reflexivity.
  assert (Sh : scaledSlideHeight P == sh * scale P) by reflexivity.
  assert (Mx : (pos_x p + pos_width p) * scale P <= sw * scale P)
    by (apply Qmult_le_compat_r; lra).
  assert (My : (pos_y p + pos_height p) * scale P <= sh * scale P)
    by (apply Qmult_le_compat_r; lra).
  assert (Hxw : offsetX P + offsetX P == cw - scaledSlideWidth P)
    by (rewrite Ex; field).
  assert (Hyh : offsetY P + offsetY P == ch - scaledSlideHeight P)
    by (rewrite Ey; field).
  split; apply Q.min_l.
  - rewrite Px, Pw. rewrite Sw in Hxw.
    assert (D : (pos_x p + pos_width p) * scale P
                == pos_x p * scale P + pos_width p * scale P) by ring.
    lra.
  - rewrite Py, Ph. rewrite Sh in Hyh.
    assert (D : (pos_y p + pos_height p) * scale P
                == pos_y p * scale P + pos_height p * scale P) by ring.
    lra.
Qed.

(** What [renderElementToPDF] does with an element: it skips it when
    its scaled box starts at or after the right or bottom edge of the
    content area or ends at or before its left or top edge, and else calls
    its painter with the box cut at the right and bottom edges. *)
Lemma renderElementToPDF_cases E element cw ch sw sh settings mg :
  let P := placement (el_position element) cw ch sw sh mg in
  (ge (place_x P) (mg + cw) || ge (place_y P) (mg + ch)
   || le (place_x P + place_width P) mg || le (place_y P + place_height P) mg = true /\
   renderElementToPDF E element cw ch sw sh settings mg = ret tt) \/
  (ge (place_x P) (mg + cw) || ge (place_y P) (mg + ch)
   || le (place_x P + place_width P) mg || le (place_y P + place_height P) mg = false /\
   renderElementToPDF E element cw ch sw sh settings mg
   = PowerPointToPDFMore.dispatchElement E settings element (place_x P) (place_y P)
       (Qmin (place_width P) (mg + cw - place_x P))
       (Qmin (place_height P) (mg + ch - place_y P))).
Proof.
  intros P. unfold renderElementToPDF. fold P.
  destruct (ge (place_x P) (mg + cw) || ge (place_y P) (mg + ch)
            || le (place_x P + place_width P) mg || le (place_y P + place_height P) mg).
  - left. split; reflexivity.
  - right. split; reflexivity.
Qed.

(** The centring offsets are not negative, and leave as much room after
    the scaled canvas as before it. *)
Lemma offsets_centre cw ch sw sh :
  0 < sw -> 0 < sh ->
  let scale := Qmin (cw / sw) (ch / sh) in
  let offsetX := (cw - sw * scale) / 2 in
  let offsetY := (ch - sh * scale) / 2 in
  0 <= offsetX /\ 0 <= offsetY /\
  cw - (offsetX + sw * scale) == offsetX /\ ch - (offsetY + sh * scale) == offsetY.
Proof.
  intros Hsw Hsh scale offsetX offsetY.
  destruct (placement_fits {| pos_x := 0; pos_y := 0; pos_width := 0; pos_height := 0 |}
              cw ch sw sh 0 Hsw Hsh) as [Fw Fh].
  change (sw * scale <= cw) in Fw. change (sh * scale <= ch) in Fh.
  assert (Ex : offsetX == (cw - sw * scale) * (1 # 2)) by (unfold offsetX; field).
  assert (Ey : offsetY == (ch - sh * scale) * (1 # 2)) by (unfold offsetY; field).
  repeat split; lra.
Qed.

(** An element of positive size inside the canvas is painted at its scaled
    place with its scaled size. *)
Lemma inside_canvas_dispatch E element cw ch sw sh settings mg :
  0 < cw -> 0 < ch -> 0 < sw -> 0 < sh ->
  0 <= pos_x (el_position element) -> 0 <= pos_y (el_position element) ->
  0 < pos_width (el_position element) -> 0 < pos_height (el_position element) ->
  pos_x (el_position element) + pos_width (el_position element) <= sw ->
  pos_y (el_position element) + pos_height (el_position element) <= sh ->
  let P := placement (el_position element) cw ch sw sh mg in
  renderElementToPDF E element cw ch sw sh settings mg
  = PowerPointToPDFMore.dispatchElement E settings element (place_x P) (place_y P)
      (place_width P) (place_height P).
Proof.
  intros Hcw Hch Hsw Hsh Hx Hy Hw Hh Hxw Hyh P.
  set (p := el_position element) in *.
  pose proof (scale_positive cw ch sw sh Hcw Hch Hsw Hsh) as Hs.
  change (0 < scale P) in Hs.
  destruct (offsets_centre cw ch sw sh Hsw Hsh) as (Ox & Oy & _ & _).
  change (0 <= offsetX P) in Ox. change (0 <= offsetY P) in Oy.
  destruct (inside_canvas_not_clipped p cw ch sw sh mg Hcw Hch Hsw Hsh Hxw Hyh)
    as [Cw Ch].
  fold P in Cw, Ch.
  assert (Px : place_x P == mg + offsetX P + pos_x p * scale P) by reflexivity.
  assert (Py : place_y P == mg + offsetY P + pos_y p * scale P) by reflexivity.
  assert (Pw : place_width P == pos_width p * scale P) by reflexivity.
  assert (Ph : place_height P == pos_height p * scale P) by reflexivity.
  assert (Wp : 0 < pos_width p * scale P) by (apply Qmult_lt_0_compat; auto).
  assert (Hp : 0 < pos_height p * scale P) by (apply Qmult_lt_0_compat; auto).
  assert (Xp : 0 <= pos_x p * scale P) by (apply Qmult_le_0_compat; lra).
  assert (Yp : 0 <= pos_y p * scale P) by (apply Qmult_le_0_compat; lra).
  assert (Mw : place_width P <= mg + cw - place_x P) by (apply Q.min_l_iff; exact Cw).
  assert (Mh : place_height P <= mg + ch - place_y P) by (apply Q.min_l_iff; exact Ch).
  destruct (renderElementToPDF_cases E element cw ch sw sh settings mg)
    as [[Skip _]|[_ Run]]; fold p in Skip || fold p in Run; fold P in Skip || fold P in Run.
  - exfalso.
    apply orb_true_iff in Skip. destruct Skip as [Skip|Skip];
      [apply orb_true_iff in Skip; destruct Skip as [Skip|Skip];
       [apply orb_true_iff in Skip; destruct Skip as [Skip|Skip]|]|];
      unfold ge, le in Skip; apply Qle_bool_iff in Skip; lra.
  - rewrite Run.
    destruct (Qmin_cases (place_width P) (mg + cw - place_x P)) as [[_ ->]|[L _]]; [|lra].
    destruct (Qmin_cases (place_height P) (mg + ch - place_y P)) as [[_ ->]|[L _]]; [|lra].
    reflexivity.
Qed.

(** C1, as the code has it.  On the page of any page size, orientation
    and DPI (of at least 5, so that the page is larger than its margins),
    an element of positive size that lies inside the slide canvas is
    painted with one factor, the smaller of [contentWidth / slideWidth]
    and [contentHeight / slideHeight]: its painter is called at its x and
    y times that factor, moved by the margin and the centring offsets,
    with its width and height times that factor, so the scaled canvas and
    the painted box keep their aspect ratios. *)
Theorem uniform_scale_preserves_aspect (E : Env) (s : ConversionSettings)
    (m : PresentationMetadata) (element : SlideElement) :
  5 <= dpi s -> 0 <= slideWidth m -> 0 <= slideHeight m ->
  0 <= pos_x (el_position element) -> 0 <= pos_y (el_position element) ->
  0 < pos_width (el_position element) -> 0 < pos_height (el_position element) ->
  pos_x (el_position element) + pos_width (el_position element) <= canvasWidth m ->
  pos_y (el_position element) + pos_height (el_position element) <= canvasHeight m ->
  let p := el_position element in
  let size := pdfPageSize s m in
  let contentWidth := fst size - contentMargin * 2 in
  let contentHeight := snd size - contentMargin * 2 in
  let scale := Qmin (contentWidth / canvasWidth m) (contentHeight / canvasHeight m) in
  let offsetX := (contentWidth - canvasWidth m * scale) / 2 in
  let offsetY := (contentHeight - canvasHeight m * scale) / 2 in
  0 < scale /\
  renderElementToPDF E element contentWidth contentHeight (canvasWidth m) (canvasHeight m)
    s contentMargin
  = PowerPointToPDFMore.dispatchElement E s element
      (contentMargin + offsetX + pos_x p * scale)
      (contentMargin + offsetY + pos_y p * scale)
      (pos_width p * scale) (pos_height p * scale) /\
  canvasWidth m * scale / (canvasHeight m * scale) == canvasWidth m / canvasHeight m /\
  pos_width p * scale / (pos_height p * scale) == pos_width p / pos_height p.
Proof.
  intros Hd Hw Hh Hx Hy Hpw Hph Hxw Hyh p size contentWidth contentHeight scale
    offsetX offsetY.
  destruct (canvas_positive m Hw Hh) as [Cw Ch].
  destruct (content_area_positive s m Hd Hw Hh) as [Aw Ah].
  change (0 < contentWidth) in Aw. change (0 < contentHeight) in Ah.
  assert (Hs : 0 < scale) by (apply scale_positive; auto).
  split; [exact Hs|].
  split.
  - apply (inside_canvas_dispatch E element contentWidth contentHeight
             (canvasWidth m) (canvasHeight m) s contentMargin); auto.
  - subst p. split; field; split; lra.
Qed.

Lemma uniform_scale_example :
  let p := examplePosition in
  let size := pdfPageSize defaultSettings exampleMetadata in
  let contentWidth := fst size - contentMargin * 2 in
  let contentHeight := snd size - contentMargin * 2 in
  let scale := Qmin (contentWidth / 720) (contentHeight / 540) in
  let offsetX := (contentWidth - 720 * scale) / 2 in
  let offsetY := (contentHeight - 540 * scale) / 2 in
  renderElementToPDF exampleEnv (textElement "text-0" "Hello") contentWidth contentHeight
    720 540 defaultSettings contentMargin
  = PowerPointToPDFMore.dispatchElement exampleEnv defaultSettings
      (textElement "text-0" "Hello")
      (contentMargin + offsetX + pos_x p * scale)
      (contentMargin + offsetY + pos_y p * scale)
      (pos_width p * scale) (pos_height p * scale) /\
  pos_width p * scale / (pos_height p * scale) == 400 / 100.
Proof.
  cbv zeta.
  destruct (uniform_scale_preserves_aspect exampleEnv defaultSettings exampleMetadata
              (textElement "text-0" "Hello")
              ltac:(vm_compute; discriminate) ltac:(vm_compute; discriminate)
              ltac:(vm_compute; discriminate) ltac:(vm_compute; discriminate)
              ltac:(vm_compute; discriminate) ltac:(vm_compute; reflexivity)
              ltac:(vm_compute; reflexivity) ltac:(vm_compute; discriminate)
              ltac:(vm_compute; discriminate)) as (_ & Run & _ & Ratio).
  split; [exact Run | exact Ratio].
Defined.

(** C1 as stated fails: an element 400 wide and 100 high that starts at
    x = 600 on a canvas 720 wide is painted in a box whose height is 100
    times the scale but whose width is less than 400 times the scale, what
    is left up to the right edge of the content area: the box is not 4:1. *)
Lemma overflowing_element_is_squeezed :
  let size := pdfPageSize defaultSettings exampleMetadata in
  let contentWidth := fst size - contentMargin * 2 in
  let contentHeight := snd size - contentMargin * 2 in
  let scale := Qmin (contentWidth / 720) (contentHeight / 540) in
  let offsetX := (contentWidth - 720 * scale) / 2 in
  let offsetY := (contentHeight - 540 * scale) / 2 in
  exists width : Q,
    renderElementToPDF exampleEnv overflowingElement contentWidth contentHeight
      720 540 defaultSettings contentMargin
    = PowerPointToPDFMore.dispatchElement exampleEnv defaultSettings overflowingElement
        (contentMargin + offsetX + 600 * scale) (contentMargin + offsetY + 20 * scale)
        width (100 * scale) /\
    width < 400 * scale /\
    ~ width / (100 * scale) == 400 / 100.
Proof.
  cbv zeta.
  set (size := pdfPageSize defaultSettings exampleMetadata).
  set (cw := fst size - contentMargin * 2). set (ch := snd size - contentMargin * 2).
  destruct (renderElementToPDF_cases exampleEnv overflowingElement cw ch 720 540
              defaultSettings contentMargin) as [[Skip _]|[_ Run]].
  - vm_compute in Skip. discriminate Skip.
  - set (P := placement (el_position overflowingElement) cw ch 720 540 contentMargin) in *.
    exists (Qmin (place_width P) (contentMargin + cw - place_x P)).
    split.
    + rewrite Run.
      destruct (Qmin_cases (place_height P) (contentMargin + ch - place_y P))
        as [[_ ->]|[L _]]; [reflexivity|].
      vm_compute in L. discriminate L.
    + split; [vm_compute; reflexivity|].
      intros H. vm_compute in H. discriminate H.
Qed.

(** C5.  The space the scaled canvas leaves in the content area is halved
    on each axis.  The offsets, half the leftover, are not negative; the
    canvas, scaled and moved by them, leaves as much room before the right
    and bottom edges of the content area as after its left and top edges;
    and [renderElementToPDF] adds the margin and the offsets to the scaled
    position of the element: it skips the element only when the box so
    placed lies outside the content area, and else calls its painter at
    that place. *)
Theorem leftover_split_equally (E : Env) (element : SlideElement)
    (contentWidth contentHeight slideW slideH margin : Q) (settings : ConversionSettings) :
  0 < slideW -> 0 < slideH ->
  let p := el_position element in
  let scale := Qmin (contentWidth / slideW) (contentHeight / slideH) in
  let offsetX := (contentWidth - slideW * scale) / 2 in
  let offsetY := (contentHeight - slideH * scale) / 2 in
  let x := margin + offsetX + pos_x p * scale in
  let y := margin + offsetY + pos_y p * scale in
  let width := pos_width p * scale in
  let height := pos_height p * scale in
  0 <= offsetX /\ 0 <= offsetY /\
  margin + contentWidth - (margin + offsetX + slideW * scale) == offsetX /\
  margin + contentHeight - (margin + offsetY + slideH * scale) == offsetY /\
  ((margin + contentWidth <= x \/ margin + contentHeight <= y \/
    x + width <= margin \/ y + height <= margin) /\
   renderElementToPDF E element contentWidth contentHeight slideW slideH settings margin
   = ret tt
   \/
   (x < margin + contentWidth /\ y < margin + contentHeight /\
    margin < x + width /\ margin < y + height) /\
   exists w h : Q,
     renderElementToPDF E element contentWidth contentHeight slideW slideH settings margin
     = PowerPointToPDFMore.dispatchElement E settings element x y w h).
Proof.
  intros Hsw Hsh p scale offsetX offsetY x y width height.
  destruct (offsets_centre contentWidth contentHeight slideW slideH Hsw Hsh)
    as (Ox & Oy & Lx & Ly).
  fold scale in Ox, Oy, Lx, Ly. fold offsetX in Ox, Lx. fold offsetY in Oy, Ly.
  split; [exact Ox|]. split; [exact Oy|].
  split; [lra|]. split; [lra|].
  destruct (renderElementToPDF_cases E element contentWidth contentHeight slideW slideH
              settings margin) as [[Skip Run]|[Keep Run]].
  - left. split; [|exact Run].
    apply orb_true_iff in Skip. destruct Skip as [Skip|Skip];
      [apply orb_true_iff in Skip; destruct Skip as [Skip|Skip];
       [apply orb_true_iff in Skip; destruct Skip as [Skip|Skip]|]|].
    + left. apply ge_true_iff in Skip. exact Skip.
    + right. left. apply ge_true_iff in Skip. exact Skip.
    + right. right. left. apply le_true_iff in Skip. exact Skip.
    + right. right. right. apply le_true_iff in Skip. exact Skip.
  - right.
    apply orb_false_iff in Keep. destruct Keep as [Keep K4].
    apply orb_false_iff in Keep. destruct Keep as [Keep K3].
    apply orb_false_iff in Keep. destruct Keep as [K1 K2].
    apply le_false_iff in K1, K2, K3, K4.
    split; [repeat split; assumption|].
    eexists. eexists. exact Run.
Qed.

Lemma leftover_example :
  let scale := Qmin (700 / 720) (500 / 540) in
  let offsetX := (700 - 720 * scale) / 2 in
  let offsetY := (500 - 540 * scale) / 2 in
  0 < 720 /\ 0 < 540 /\
  offsetX == 50 # 3 /\
  20 + 700 - (20 + offsetX + 720 * scale) == offsetX /\
  exists w h : Q,
    renderElementToPDF exampleEnv (textElement "text-0" "Hello") 700 500 720 540
      defaultSettings 20
    = PowerPointToPDFMore.dispatchElement exampleEnv defaultSettings
        (textElement "text-0" "Hello")
        (20 + offsetX + 10 * scale) (20 + offsetY + 20 * scale) w h.
Proof.
  cbv zeta.
  split; [reflexivity|]. split; [reflexivity|]. split; [vm_compute; reflexivity|].
  destruct (leftover_split_equally exampleEnv (textElement "text-0" "Hello")
              700 500 720 540 20 defaultSettings)
    as (_ & _ & Lx & _ & [[Out _]|[_ Run]]);
    try reflexivity.
  - exfalso. destruct Out as [Out|[Out|[Out|Out]]]; vm_compute in Out; exact (Out eq_refl).
  - split; [exact Lx | exact Run].
Defined.

(** C9.  With the landscape orientation the fit of the slide's aspect ratio
    is computed on the base page with its height as width and its width as
    height, the page it gives is no larger than that landscape page, and the
    scale of the elements is computed on the content area of the page that
    fit gives. *)
Theorem landscape_swaps_before_fit
    (s : ConversionSettings) (m : PresentationMetadata) (p : Position) :
  orientation s = landscape ->
  let base := basePdfSize s in
  let ratio := canvasWidth m / canvasHeight m in
  let size := fitPage (snd base) (fst base) ratio in
  pdfPageSize s m = size /\
  fst size <= snd base /\ snd size <= fst base /\
  scale (placementFor s m p)
  == Qmin ((fst size - contentMargin * 2) / canvasWidth m)
          ((snd size - contentMargin * 2) / canvasHeight m).
Proof.
  intros Ho base ratio size.
  assert (E : pdfPageSize s m = size).
  { unfold pdfPageSize. rewrite Ho. reflexivity. }
  split; [exact E|].
  split; [apply fitPage_within_base|].
  split; [apply fitPage_within_base|].
  unfold placementFor. rewrite E. reflexivity.
Qed.

Lemma landscape_example :
  pdfPageSize defaultSettings exampleMetadata
  = fitPage (snd (basePdfSize defaultSettings)) (fst (basePdfSize defaultSettings))
      (canvasWidth exampleMetadata / canvasHeight exampleMetadata).
Proof.
  apply (landscape_swaps_before_fit defaultSettings exampleMetadata examplePosition).
  reflexivity.
Defined.

(** Swapping after the fit would give another page: on A4 at 150 DPI a 4:3
    slide gets a page about 1639 wide, not about 940. *)
Lemma swap_after_fit_differs :
  1639 < fst (pdfPageSize defaultSettings exampleMetadata) /\
  fst (pdfPageSizeSwapAfter defaultSettings exampleMetadata) < 940.
Proof. split; vm_compute; reflexivity. Qed.

(** The two conversions of an EMU value [e] below 2^53 that a text [v]
    writes: the slide size is [e / 12700] rounded once, the element
    coordinate [e / 9525] up to the roundings of the division and of the
    multiplication, and both have the sign of [e]. *)
Lemma emu_conversions (v : string) (e : Z) :
  integerOf v = Some e -> (Z.abs e < 9007199254740992)%Z ->
  exists size number : Q,
    slideSizeFromEmu v = Some size /\
    positionFromEmu v = Some number /\
    Qabs (size - inject_Z e / 12700) <= Qabs (inject_Z e / 12700) * unitRoundoff /\
    Qabs (number - inject_Z e / 9525) <= Qabs (inject_Z e / 9525) * (3 * unitRoundoff) /\
    Qabs (number - (4 # 3) * size) <= Qabs (inject_Z e / 9525) * (4 * unitRoundoff) /\
    (number == size <-> e = 0%Z).
Proof.
  intros Hv Safe.
  unfold slideSizeFromEmu, positionFromEmu, parseInt. rewrite Hv.
  pose proof (toDouble_integer e Safe) as Emu.
  set (emu := toDouble (inject_Z e)) in *.
  set (c := inject_Z e) in *.
  eexists. eexists. split; [reflexivity|]. split; [reflexivity|].
  pose proof (toDouble_error (emu / 12700)) as Es.
  pose proof (toDouble_error (emu / 914400)) as Ea.
  pose proof (toDouble_error (toDouble (emu / 914400) * 96)) as Eb.
  pose proof (toDouble_sign (emu / 12700)) as (Sp & Sn & Sz).
  pose proof (toDouble_sign (emu / 914400)) as (Ap & An & Az).
  set (size := toDouble (emu / 12700)) in *.
  set (a := toDouble (emu / 914400)) in *.
  set (number := toDouble (a * 96)) in *.
  assert (Ts : emu / 12700 == c * (1 # 12700)) by (rewrite Emu; field).
  assert (Ta : emu / 914400 == c * (1 # 914400)) by (rewrite Emu; field).
  assert (Xs : c / 12700 == c * (1 # 12700)) by field.
  assert (Xn : c / 9525 == c * (1 # 9525)) by field.
  rewrite Ts in Es, Sp, Sn, Sz. rewrite Ta in Ea, Ap, An, Az.
  rewrite Xs, Xn. unfold unitRoundoff in *.
  assert (Zero : c == 0 <-> e = 0%Z).
  { unfold c. split; [|intros ->; reflexivity].
    intros H. unfold Qeq in H. simpl in H. lia. }
  destruct (Q_dec c 0) as [[Neg|Pos]|Nul].
  - (* a negative value *)
    assert (A0 : a < 0) by (apply An; lra).
    rewrite (Qabs_neg (c * (1 # 12700))) in * by lra.
    rewrite (Qabs_neg (c * (1 # 914400))) in * by lra.
    rewrite (Qabs_neg (c * (1 # 9525))) by lra.
    rewrite (Qabs_neg (a * 96)) in Eb by lra.
    apply Qabs_Qle_condition in Es, Ea, Eb.
    split; [apply Qabs_Qle_condition; lra|].
    split; [apply Qabs_Qle_condition; lra|].
    split; [apply Qabs_Qle_condition; lra|].
    split; intros H; [apply Zero | apply Zero in H]; lra.
  - (* a positive value *)
    assert (A0 : 0 < a) by (apply Ap; lra).
    rewrite (Qabs_pos (c * (1 # 12700))) in * by lra.
    rewrite (Qabs_pos (c * (1 # 914400))) in * by lra.
    rewrite (Qabs_pos (c * (1 # 9525))) by lra.
    rewrite (Qabs_pos (a * 96)) in Eb by lra.
    apply Qabs_Qle_condition in Es, Ea, Eb.
    split; [apply Qabs_Qle_condition; lra|].
    split; [apply Qabs_Qle_condition; lra|].
    split; [apply Qabs_Qle_condition; lra|].
    split; intros H; [apply Zero | apply Zero in H]; lra.
  - (* zero *)
    assert (S0 : size == 0) by (apply Sz; rewrite Nul; reflexivity).
    assert (A0 : a == 0) by (apply Az; rewrite Nul; reflexivity).
    assert (N0 : number == 0).
    { rewrite A0 in Eb. setoid_replace (0 * 96) with 0 in Eb by ring.
      change (Qabs 0) with 0 in Eb. apply Qabs_Qle_condition in Eb. lra. }
    rewrite Nul, S0, N0.
    split; [apply Qabs_Qle_condition; simpl; lra|].
    split; [apply Qabs_Qle_condition; simpl; lra|].
    split; [apply Qabs_Qle_condition; simpl; lra|].
    split; intros _; [apply Zero; exact Nul | reflexivity].
Qed.

(** C10, as the code has it.  For an attribute text that writes an EMU
    value [e] below 2^53, the slide size [extractMetadata] computes from
    it, as the width or as the height, is the double next to [e / 12700],
    and the coordinate [extractElementPosition] computes from it, as x, y,
    width or height, is [e / 9525] up to three roundings: four thirds of
    the slide size up to four roundings, not exactly, and equal to it only
    for [e = 0]. *)
Theorem emu_scales_differ (v : string) (e : Z) :
  integerOf v = Some e -> (Z.abs e < 9007199254740992)%Z ->
  exists size number : Q,
    (forall other : string,
       fst (extractSlideSize (Some (v, other))) = Some size /\
       snd (extractSlideSize (Some (other, v))) = Some size) /\
    (forall a b c : string,
       option_map px_x (extractElementPosition (Some (v, a, b, c)))
       = Some (Some number) /\
       option_map px_y (extractElementPosition (Some (a, v, b, c)))
       = Some (Some number) /\
       option_map px_width (extractElementPosition (Some (a, b, v, c)))
       = Some (Some number) /\
       option_map px_height (extractElementPosition (Some (a, b, c, v)))
       = Some (Some number)) /\
    within 1 (inject_Z e / 12700) (Some size) /\
    within 3 (inject_Z e / 9525) (Some number) /\
    Qabs (number - (4 # 3) * size) <= Qabs (inject_Z e / 9525) * (4 * unitRoundoff) /\
    (number == size <-> e = 0%Z).
Proof.
  intros Hv Safe.
  destruct (emu_conversions v e Hv Safe) as (size & number & Hs & Hn & Bs & Bn & Br & Z0).
  exists size, number.
  split; [intros other; unfold extractSlideSize; cbn [fst snd]; rewrite Hs; auto|].
  split.
  { intros a b c. unfold extractElementPosition.
    cbn [option_map px_x px_y px_width px_height]. rewrite Hn. auto. }
  split.
  { exists size. split; [reflexivity|].
    setoid_replace (1 * unitRoundoff) with unitRoundoff by ring. exact Bs. }
  split; [exists number; split; [reflexivity|exact Bn]|].
  split; [exact Br|exact Z0].
Qed.

Lemma emu_scales_example :
  integerOf "9144000" = Some 9144000%Z /\
  exists size number : Q,
    fst (extractSlideSize (Some ("9144000", "6858000")%string)) = Some size /\
    option_map px_width
      (extractElementPosition (Some ("0", "0", "9144000", "6858000")%string))
    = Some (Some number) /\
    within 1 (9144000 / 12700) (Some size) /\
    within 3 (9144000 / 9525) (Some number).
Proof.
  split; [reflexivity|].
  destruct (emu_scales_differ "9144000" 9144000 eq_refl eq_refl)
    as (size & number & Hs & Hn & Ws & Wn & _).
  exists size, number.
  split; [exact (proj1 (Hs "6858000"%string))|].
  split; [exact (proj1 (proj2 (proj2 (Hn "0" "0" "6858000"))))%string|].
  split; assumption.
Defined.

(** C10 as stated fails: for the EMU value 1 the coordinate is the double
    3873332088967885 / 2^65 and the slide size the double
    5809998133451827 / 2^66, and three times the one is not four times
    the other. *)
Lemma coordinate_is_not_exactly_four_thirds :
  exists size number : Q,
    extractSlideSize (Some ("1", "1")%string) = (Some size, Some size) /\
    extractElementPosition (Some ("1", "1", "1", "1")%string)
    = Some {| px_x := Some number; px_y := Some number;
              px_width := Some number; px_height := Some number |} /\
    size == 5809998133451827 # 73786976294838206464 /\
    number == 3873332088967885 # 36893488147419103232 /\
    ~ number == (4 # 3) * size.
Proof.
  eexists. eexists.
  split; [vm_compute; reflexivity|].
  split; [vm_compute; reflexivity|].
  split; [vm_compute; reflexivity|].
  split; [vm_compute; reflexivity|].
  vm_compute. discriminate.
Qed.

(** *** The hard break of a long word *)

Section WrapFacts.

Variable getTextWidth : string -> Q.
Variable availableWidth : Q.

Lemma scanChars_stops steps w c :
  availableWidth < getTextWidth w ->
  (c <= String.length w)%nat -> (String.length w < steps + c)%nat ->
  (scanChars getTextWidth availableWidth steps w c <= String.length w)%nat.
Proof.
  intros Wide. revert c. induction steps as [|steps IH]; intros c H1 H2; simpl.
  - lia.
  - destruct (c <=? String.length w)%nat eqn:E; [|lia].
    destruct (gt _ _) eqn:G; auto.
    assert (c <> String.length w).
    { intros ->. rewrite substring_0_all in G.
      apply gt_true_iff in Wide. congruence. }
    apply IH; lia.
Qed.

Lemma length_lineToAdd w :
  (1 <= String.length w)%nat ->
  (1 <= String.length (lineToAdd getTextWidth availableWidth w) <= String.length w)%nat.
Proof.
  intros H. unfold lineToAdd. rewrite length_substring_0. lia.
Qed.

Lemma length_lineToAdd_wide w :
  availableWidth < getTextWidth w -> (2 <= String.length w)%nat ->
  (String.length (lineToAdd getTextWidth availableWidth w) < String.length w)%nat.
Proof.
  intros Wide H. unfold lineToAdd. rewrite length_substring_0.
  pose proof (scanChars_stops (S (String.length w)) w 1 Wide) as Stop.
  lia.
Qed.

Lemma lineToAdd_is_prefix w :
  lineToAdd getTextWidth availableWidth w
  = substring 0 (String.length (lineToAdd getTextWidth availableWidth w)) w.
Proof.
  unfold lineToAdd. rewrite length_substring_0.
  set (k := Nat.max 1 _).
  destruct (Nat.le_gt_cases k (String.length w)).
  - rewrite Nat.min_l; auto.
  - rewrite Nat.min_r by lia. rewrite substring_0_all.
    apply substring_0_over. lia.
Qed.

(** With as many rounds as the word has characters the loop ends. *)
Lemma breakWord_total rounds : forall w lines,
  (String.length w <= rounds)%nat ->
  exists pieces,
    breakWord getTextWidth availableWidth rounds w lines = Some (lines ++ pieces) /\
    joined pieces = w /\
    Forall (fun l => (1 <= String.length l)%nat) pieces /\
    ((1 <= String.length w)%nat -> (1 <= List.length pieces)%nat) /\
    (availableWidth < getTextWidth w -> (2 <= String.length w)%nat ->
     (2 <= List.length pieces)%nat).
Proof.
  induction rounds as [|rounds IH]; intros w lines H.
  - destruct w; simpl in H; [|lia]. exists []. simpl. rewrite app_nil_r.
    repeat split; auto; simpl; lia.
  - simpl. destruct (0 <? String.length w)%nat eqn:E.
    + apply Nat.ltb_lt in E.
      pose proof (length_lineToAdd w E) as L.
      pose proof (lineToAdd_is_prefix w) as Pre.
      set (l := lineToAdd getTextWidth availableWidth w) in *.
      set (rest := substringFrom (String.length l) w).
      assert (R : String.length rest = (String.length w - String.length l)%nat)
        by apply length_substringFrom.
      destruct (IH rest (lines ++ [l])) as (ps & Hb & Hj & Hne & H1 & _); [lia|].
      exists (l :: ps). rewrite Hb, <- app_assoc. simpl.
      split; [reflexivity|]. split.
      { rewrite Hj. unfold rest. rewrite Pre at 1. apply substring_split. }
      split; [constructor; [lia|auto]|].
      split; [lia|].
      intros Wide Two.
      pose proof (length_lineToAdd_wide w Wide Two) as Lt. fold l in Lt.
      assert (1 <= List.length ps)%nat by (apply H1; lia). lia.
    + apply Nat.ltb_ge in E. destruct w; simpl in E; [|lia].
      exists []. rewrite app_nil_r. repeat split; auto; simpl; lia.
Qed.

(** C4.  For a word of at least one character that is wider than the
    available width: every round of the hard-break loop takes a line of at
    least one character and leaves a strictly shorter word; run for as many
    rounds as the word has characters, the loop ends; its lines are at least
    one, none is empty, together they are the word; a word of two characters
    or more gives two lines or more; and these are the lines the word loop
    returns for that word alone. *)
Theorem hard_break_terminates_and_consumes (word : string) :
  (1 <= String.length word)%nat ->
  availableWidth < getTextWidth word ->
  (forall remainingWord : string,
     (1 <= String.length remainingWord)%nat ->
     (1 <= String.length (lineToAdd getTextWidth availableWidth remainingWord))%nat /\
     (String.length
        (substringFrom
           (String.length (lineToAdd getTextWidth availableWidth remainingWord))
           remainingWord)
      < String.length remainingWord)%nat) /\
  exists lines : list string,
    breakWord getTextWidth availableWidth (String.length word) word [] = Some lines /\
    wrapWords getTextWidth availableWidth [word] EmptyString [] = Some lines /\
    (1 <= List.length lines)%nat /\
    Forall (fun l => (1 <= String.length l)%nat) lines /\
    joined lines = word /\
    ((2 <= String.length word)%nat -> (2 <= List.length lines)%nat).
Proof.
  intros Hne Wide. split.
  - intros rem Hrem. pose proof (length_lineToAdd rem Hrem) as L.
    rewrite length_substringFrom. lia.
  - destruct (breakWord_total (String.length word) word [] (Nat.le_refl _))
      as (lines & Hb & Hj & Hall & H1 & H2).
    simpl in Hb. exists lines. split; [exact Hb|]. split.
    { simpl. destruct (le (getTextWidth word) availableWidth) eqn:E.
      - apply le_true_iff in E. lra.
      - rewrite Hb. reflexivity. }
    repeat split; auto.
Qed.

End WrapFacts.

(** Two hundred characters of width six each, in a box fifty wide: lines
    of eight characters, twenty-five of them. *)
Lemma hard_break_example :
  exists lines : list string,
    breakWord sixPerChar 50 200 (repeatChar "a" 200) [] = Some lines /\
    List.length lines = 25%nat.
Proof.
  destruct (hard_break_terminates_and_consumes sixPerChar 50 (repeatChar "a" 200))
    as (_ & lines & Hb & _).
  - vm_compute. lia.
  - vm_compute. reflexivity.
  - exists lines. split.
    + exact Hb.
    + vm_compute in Hb. injection Hb as <-. reflexivity.
Defined.

(** *** Running painting computations *)

Lemma bind_ok {A B : Type} (m : Paint A) (k : A -> Paint B) st o1 st1 a :
  m st = (o1, st1, Ok a) -> bind m k st = after o1 (k a st1).
Proof.
  intros H. unfold bind, after. rewrite H. reflexivity.
Qed.

Lemma bind_emit {B : Type} (op : PdfOp) (k : unit -> Paint B) st :
  bind (emit op) k st = after [op] (k tt (applyOp op st)).
Proof. apply (bind_ok (emit op) k st [op] (applyOp op st) tt). reflexivity. Qed.

Lemma bind_throw {A B : Type} (m : Paint A) (k : A -> Paint B) st o1 st1 e :
  m st = (o1, st1, Throw e) -> bind m k st = (o1, st1, Throw e).
Proof. intros H. unfold bind. rewrite H. reflexivity. Qed.

Lemma tryCatch_throw {A : Type} (body : Paint A) (handler : string -> Paint A)
    st o1 st1 e :
  body st = (o1, st1, Throw e) -> tryCatch body handler st = after o1 (handler e st1).
Proof.
  intros H. unfold tryCatch, after. rewrite H. reflexivity.
Qed.

(** A loop whose body always returns issues the calls of its rounds one
    after the other, in the order of the list: in [renderSlideToPDF], in the
    order of [sortedElements]. *)
Lemma forEachFrom_in_list_order {A : Type} (body : nat -> A -> Paint unit) (l : list A) :
  (forall i a st, exists o st', body i a st = (o, st', Ok tt)) ->
  forall i st,
  exists pieces st',
    forEachFrom i l body st = (List.concat pieces, st', Ok tt) /\
    Forall2 (fun a o => exists j s s', body j a s = (o, s', Ok tt)) l pieces.
Proof.
  intros Hbody. induction l as [|a l IH]; intros i st; cbn [forEachFrom].
  - exists [], st. split; [reflexivity|constructor].
  - destruct (Hbody i a st) as (o & st1 & H1).
    destruct (IH (S i) st1) as (pieces & st2 & H2 & F2).
    rewrite (bind_ok _ _ _ _ _ _ H1). rewrite H2. simpl.
    exists (o :: pieces), st2. split; [reflexivity|].
    constructor; auto. exists i, st, st1. exact H1.
Qed.

(** *** Paint order *)

(** C6.  [renderSlideToPDF] paints the background and then runs the
    painters of the elements over one list, in the order of that list (when
    every painter returns, the calls are those of the first element of the
    list, then those of the second, and so on).  The list is ascending in
    [zIndex || 0], it is a rearrangement of the slide's elements in which
    elements of equal z-index keep their extraction order, and it is the
    only such list. *)
Theorem elements_painted_in_stable_zIndex_order (E : Env) (slide : SlideData)
    (pdfWidth pdfHeight slideW slideH : Q) (settings : ConversionSettings) :
  let paint := fun element =>
    renderElementToPDF E element (pdfWidth - contentMargin * 2)
      (pdfHeight - contentMargin * 2) slideW slideH settings contentMargin in
  exists painted : list SlideElement,
    renderSlideToPDF E slide pdfWidth pdfHeight slideW slideH settings
    = (paintBackgroundColor slide pdfWidth pdfHeight ;;
       paintBackgroundImage E slide pdfWidth pdfHeight settings ;;
       forEach painted paint) /\
    ((forall element st, exists o st', paint element st = (o, st', Ok tt)) ->
     forall st, exists pieces st',
       forEach painted paint st = (List.concat pieces, st', Ok tt) /\
       Forall2 (fun element o => exists s s', paint element s = (o, s', Ok tt))
         painted pieces) /\
    StronglySorted (fun a b => orNum (zIndex a) 0 <= orNum (zIndex b) 0) painted /\
    Permutation (elements slide) painted /\
    (forall k : Q,
       filter (fun e => Qeq_bool (orNum (zIndex e) 0) k) painted
       = filter (fun e => Qeq_bool (orNum (zIndex e) 0) k) (elements slide)) /\
    (forall other : list SlideElement,
       StronglySorted (fun a b => orNum (zIndex a) 0 <= orNum (zIndex b) 0) other ->
       (forall k : Q,
          filter (fun e => Qeq_bool (orNum (zIndex e) 0) k) other
          = filter (fun e => Qeq_bool (orNum (zIndex e) 0) k) (elements slide)) ->
       other = painted).
Proof.
  intros paint.
  set (key := fun e : SlideElement => orNum (zIndex e) 0).
  assert (Sorted : StronglySorted (fun a b => key a <= key b) (sortedElements slide))
    by apply (sort_sorted key).
  assert (Stable : forall k,
             filter (fun e => Qeq_bool (key e) k) (sortedElements slide)
             = filter (fun e => Qeq_bool (key e) k) (elements slide))
    by (intro k; apply (sort_stable key)).
  exists (sortedElements slide).
  split; [reflexivity|].
  split.
  { intros Returns st.
    destruct (forEachFrom_in_list_order (fun _ element => paint element)
                (sortedElements slide)
                (fun _ element st0 => Returns element st0) 0%nat st)
      as (pieces & st' & Run & Pieces).
    exists pieces, st'. split; [exact Run|].
    eapply Forall2_impl; [|exact Pieces].
    intros element o (_ & s & s' & H). exists s, s'. exact H. }
  split; [exact Sorted|].
  split; [apply (sort_perm key)|].
  split; [exact Stable|].
  intros other So Ho.
  apply (stable_sorted_unique key); auto.
  intro k. etransitivity; [apply Ho | symmetry; apply Stable].
Qed.

(** *** Tables *)

Lemma cellLines_ok lines : forall i cellX rowY rowHeight lineHeight st,
  exists o, cellLines lines i cellX rowY rowHeight lineHeight st = (o, st, Ok tt) /\
            filter isRect o = [].
Proof.
  induction lines as [|l lines IH]; intros i cellX rowY rowHeight lineHeight st;
    cbn [cellLines].
  - exists []. split; reflexivity.
  - destruct (Z.of_nat i <? Qfloor (rowHeight / lineHeight))%Z.
    + rewrite bind_emit. simpl applyOp.
      destruct (IH (S i) cellX rowY rowHeight lineHeight st) as (o & Ho & Hf).
      rewrite Ho. simpl.
      exists (pdf_text l (cellX + 5) (rowY + (ofNat i + 1) * lineHeight) None None :: o).
      split; [reflexivity|]. simpl. exact Hf.
    + exists []. split; reflexivity.
Qed.

(** A colour whose channels are numbers is set. *)
Lemma pdfSetColor_ok setColor c :
  channelsAreNumbers c = true ->
  pdfSetColor setColor (hexChannel c 0) (hexChannel c 2) (hexChannel c 4)
  = emit (setColor (hexChannel c 0) (hexChannel c 2) (hexChannel c 4)).
Proof.
  unfold channelsAreNumbers, pdfSetColor.
  destruct (hexChannel c 0), (hexChannel c 2), (hexChannel c 4);
    intros H; try discriminate H; reflexivity.
Qed.

(** A cell draws its border first, and no other rectangle. *)
Lemma renderCell_ok E settings cell cellX rowY colWidth rowHeight st :
  cellColourIsHex cell = true ->
  exists o st',
    renderCell E settings cell cellX rowY colWidth rowHeight st
    = (pdf_rect cellX rowY colWidth rowHeight D :: o, st', Ok tt) /\
    filter isRect o = [].
Proof.
  intros Hex. unfold cellColourIsHex in Hex.
  unfold renderCell. rewrite bind_emit. simpl applyOp.
  destruct (truthyStr (trim (cell_text cell))).
  - rewrite bind_emit.
    set (size := Qmax 8 _).
    set (st1 := applyOp (pdf_setFontSize size) st).
    set (colorOp := match color _ with
                    | Some (String _ _ as col) => _
                    | _ => _ end).
    assert (C : exists op,
               colorOp = emit op /\ isRect op = false /\ forall s, applyOp op s = s).
    { unfold colorOp.
      destruct (cell_style cell) as [style|];
        [|eexists; split; [reflexivity|split; reflexivity]].
      destruct (color style) as [[|c0 col]|];
        try (eexists; split; [reflexivity|split; reflexivity]).
      rewrite (pdfSetColor_ok _ _ Hex).
      eexists; split; [reflexivity|split; reflexivity]. }
    destruct C as (op & -> & Hop & Hst).
    rewrite bind_emit. rewrite Hst.
    rewrite (bind_ok (pdfSplitTextToSize E (cell_text cell) (colWidth - 10)) _ st1 []
               st1 (splitTextToSize E st1 (cell_text cell) (colWidth - 10)) eq_refl).
    destruct (cellLines_ok (splitTextToSize E st1 (cell_text cell) (colWidth - 10)) 0
                cellX rowY rowHeight (size * 1.2) st1) as (o & Ho & Hf).
    rewrite Ho. simpl.
    eexists. eexists. split; [reflexivity|]. simpl. rewrite Hop. exact Hf.
  - simpl. exists [], st. split; reflexivity.
Qed.

Lemma row_ok E settings x rowY colWidth rowHeight (row : list TableCell) :
  forallb cellColourIsHex row = true ->
  forall colIndex st,
  exists o st',
    forEachFrom colIndex row (fun colIndex cell =>
      renderCell E settings cell (x + ofNat colIndex * colWidth) rowY colWidth rowHeight) st
    = (o, st', Ok tt) /\
    filter isRect o = rowBorders x rowY colWidth rowHeight colIndex row.
Proof.
  induction row as [|cell row IH]; intros Hex colIndex st; simpl.
  - exists [], st. split; reflexivity.
  - simpl in Hex. apply andb_true_iff in Hex. destruct Hex as [Hcell Hrow].
    destruct (renderCell_ok E settings cell (x + ofNat colIndex * colWidth) rowY
                colWidth rowHeight st Hcell) as (o1 & st1 & H1 & F1).
    destruct (IH Hrow (S colIndex) st1) as (o2 & st2 & H2 & F2).
    rewrite (bind_ok _ _ _ _ _ _ H1). rewrite H2. simpl.
    eexists. eexists. split; [reflexivity|].
    simpl. rewrite filter_app, F1, F2. reflexivity.
Qed.

Lemma rows_ok E settings x y colWidth rowHeight (rows : list TableRow) :
  tableColoursAreHex rows = true ->
  forall rowIndex st,
  exists o st',
    forEachFrom rowIndex rows (fun rowIndex row =>
      forEachFrom 0 (cells row) (fun colIndex cell =>
        renderCell E settings cell (x + ofNat colIndex * colWidth)
          (y + ofNat rowIndex * rowHeight) colWidth rowHeight)) st
    = (o, st', Ok tt) /\
    filter isRect o = tableBorders x y colWidth rowHeight rowIndex rows.
Proof.
  unfold tableColoursAreHex.
  induction rows as [|row rows IH]; intros Hex rowIndex st; simpl.
  - exists [], st. split; reflexivity.
  - simpl in Hex. apply andb_true_iff in Hex. destruct Hex as [Hrow Hrows].
    destruct (row_ok E settings x (y + ofNat rowIndex * rowHeight) colWidth rowHeight
                (cells row) Hrow 0%nat st) as (o1 & st1 & H1 & F1).
    destruct (IH Hrows (S rowIndex) st1) as (o2 & st2 & H2 & F2).
    rewrite (bind_ok _ _ _ _ _ _ H1). rewrite H2. simpl.
    eexists. eexists. split; [reflexivity|].
    rewrite filter_app, F1, F2. reflexivity.
Qed.

Lemma rowBorders_nth x rowY colWidth rowHeight row :
  forall colIndex j cell,
    nth_error row j = Some cell ->
    In (pdf_rect (x + ofNat (colIndex + j) * colWidth) rowY colWidth rowHeight D)
       (rowBorders x rowY colWidth rowHeight colIndex row).
Proof.
  induction row as [|c row IH]; intros colIndex [|j] cell H; simpl in *; try discriminate.
  - left. rewrite Nat.add_0_r. reflexivity.
  - right. replace (colIndex + S j)%nat with (S colIndex + j)%nat by lia.
    eapply IH; eauto.
Qed.

Lemma tableBorders_nth x y colWidth rowHeight rows :
  forall rowIndex i j row cell,
    nth_error rows i = Some row -> nth_error (cells row) j = Some cell ->
    In (pdf_rect (x + ofNat j * colWidth) (y + ofNat (rowIndex + i) * rowHeight)
          colWidth rowHeight D)
       (tableBorders x y colWidth rowHeight rowIndex rows).
Proof.
  induction rows as [|r0 rows IH]; intros rowIndex [|i] j row cell Hi Hj; simpl in *;
    try discriminate; apply in_or_app.
  - left. injection Hi as ->. rewrite Nat.add_0_r.
    apply (rowBorders_nth x _ colWidth rowHeight (cells row) 0%nat j cell Hj).
  - right. replace (rowIndex + S i)%nat with (S rowIndex + i)%nat by lia.
    eapply IH; eauto.
Qed.

(** C7, as the code has it.  For a table with at least one row in which
    the colour of every cell with text reads as three numbers (jsPDF throws
    on another), every column has the width of the element divided by the
    number of cells of the first row (by 1 when it has none) and every row
    the height of the element divided by the number of rows; the
    rectangles drawn are the borders of all cells of all rows, in order,
    each at its column index times that width: a cell beyond the first
    row's count is drawn too, to the right of the columns of the first
    row. *)
Theorem table_cells_share_equal_division (E : Env) (element : SlideElement)
    (x y width height : Q) (settings : ConversionSettings) (st : PdfState)
    (firstRow : TableRow) (others : list TableRow) :
  el_content element = TableContent (firstRow :: others) ->
  tableColoursAreHex (firstRow :: others) = true ->
  let rows := firstRow :: others in
  let colWidth := width / orNum (ofNat (List.length (cells firstRow))) 1 in
  let rowHeight := height / ofNat (List.length rows) in
  exists (o : list PdfOp) (st' : PdfState),
    renderTableElement E element x y width height settings st = (o, st', Ok tt) /\
    filter isRect o = tableBorders x y colWidth rowHeight 0 rows /\
    (forall i j row cell,
       nth_error rows i = Some row -> nth_error (cells row) j = Some cell ->
       In (pdf_rect (x + ofNat j * colWidth) (y + ofNat i * rowHeight)
             colWidth rowHeight D) o).
Proof.
  intros Hc Hex rows colWidth rowHeight.
  unfold renderTableElement. rewrite Hc.
  rewrite bind_emit, bind_emit. simpl applyOp.
  destruct (rows_ok E settings x y colWidth rowHeight rows Hex 0%nat st)
    as (o & st' & H & Fo).
  fold rows colWidth rowHeight. rewrite H. simpl.
  eexists. eexists. split; [reflexivity|]. split.
  - simpl. exact Fo.
  - intros i j row cell Hi Hj.
    right. right.
    assert (I : In (pdf_rect (x + ofNat j * colWidth) (y + ofNat i * rowHeight)
                      colWidth rowHeight D) (filter isRect o)).
    { rewrite Fo.
      apply (tableBorders_nth x y colWidth rowHeight rows 0%nat i j row cell Hi Hj). }
    apply filter_In in I. tauto.
Qed.

Lemma ragged_table_example :
  tableColoursAreHex
    [ {| cells := [colouredCell "A"] |};
      {| cells := [colouredCell "B"; colouredCell "C"] |} ] = true /\
  exists (o : list PdfOp) (st' : PdfState),
    renderTableElement exampleEnv colouredTable 0 0 100 40 defaultSettings
      (pdfState newPdf)
    = (o, st', Ok tt) /\
    List.length (filter isRect o) = 3%nat /\
    In (pdf_setTextColor (Some 51%Z) (Some 102%Z) (Some 153%Z)) o.
Proof.
  split; [vm_compute; reflexivity|].
  destruct (table_cells_share_equal_division exampleEnv colouredTable 0 0 100 40
              defaultSettings (pdfState newPdf) {| cells := [colouredCell "A"] |}
              [ {| cells := [colouredCell "B"; colouredCell "C"] |} ] eq_refl
              ltac:(vm_compute; reflexivity))
    as (o & st' & Hrun & Hrects & _).
  exists o, st'. split; [exact Hrun|]. split; [rewrite Hrects; reflexivity|].
  assert (Ops : o = fst (fst (renderTableElement exampleEnv colouredTable 0 0 100 40
                                defaultSettings (pdfState newPdf))))
    by (rewrite Hrun; reflexivity).
  rewrite Ops. vm_compute. tauto.
Defined.

(** C7 as stated fails: in a table 100 wide and 40 high whose first row has
    one cell and whose second row has two, the second cell of the second row
    is drawn, border and text, in a column of its own from x = 100 on. *)
Lemma ragged_table_draws_extra_cell :
  let o := fst (fst (renderTableElement exampleEnv raggedTable 0 0 100 40
                       defaultSettings (pdfState newPdf))) in
  List.length (cells {| cells := [cellOf "A"] |}) = 1%nat /\
  exists cx cy cw ch : Q,
    nth_error (filter isRect o) 2 = Some (pdf_rect cx cy cw ch D) /\
    cx == 100 /\ cy == 20 /\ cw == 100 /\ ch == 20 /\
    In (pdf_text "C" (cx + 5) (cy + (ofNat 0 + 1) * (Qmax 8 (10 * 1.5) * 1.2)) None None) o.
Proof.
  split; [reflexivity|].
  eexists. eexists. eexists. eexists.
  split; [vm_compute; reflexivity|].
  repeat split; try (vm_compute; reflexivity).
  vm_compute. tauto.
Qed.

(** *** Images that do not load *)

(** An image whose event comes at ten seconds or later is a failed load. *)
Lemma late_image_times_out E src after img :
  imageEvent E src = onload after img -> 10000 <= after ->
  loadImageWithTimeout E src 10000 = Throw "Image load timeout".
Proof.
  intros He Hlate. unfold loadImageWithTimeout. rewrite He.
  destruct (lt after 10000) eqn:L; auto.
  apply lt_true_iff in L. lra.
Qed.

Lemma image_error_rejects E src after :
  imageEvent E src = onerror after ->
  exists message, loadImageWithTimeout E src 10000 = Throw message.
Proof.
  intros He. unfold loadImageWithTimeout. rewrite He.
  destruct (lt after 10000); eexists; reflexivity.
Qed.

Lemma placeholderLines_ok lines :
  forall i x y width height textStartY lineHeight st,
  exists o,
    placeholderLines lines i x y width height textStartY lineHeight st = (o, st, Ok tt) /\
    forall op,
      In op o <->
      exists j l,
        (i + j < 3)%nat /\ nth_error lines j = Some l /\
        textStartY + ofNat (i + j) * lineHeight < y + height - 5 /\
        op = pdf_text l (x + width / 2) (textStartY + ofNat (i + j) * lineHeight)
               (Some "center"%string) None.
Proof.
  induction lines as [|l lines IH]; intros i x y width height textStartY lineHeight st;
    cbn [placeholderLines].
  - exists []. split; [reflexivity|]. intros op; split; [intros []|].
    intros (j & l & _ & H & _). destruct j; discriminate.
  - destruct (i <? 3)%nat eqn:E3.
    + apply Nat.ltb_lt in E3.
      destruct (IH (S i) x y width height textStartY lineHeight st) as (o & Ho & Hin).
      set (lineY := textStartY + ofNat i * lineHeight).
      assert (Tail : forall op,
                 In op o <->
                 exists j l',
                   (i + S j < 3)%nat /\ nth_error lines j = Some l' /\
                   textStartY + ofNat (i + S j) * lineHeight < y + height - 5 /\
                   op = pdf_text l' (x + width / 2)
                          (textStartY + ofNat (i + S j) * lineHeight)
                          (Some "center"%string) None).
      { intro op. rewrite Hin. split; intros (j & l' & H); exists j, l';
          replace (i + S j)%nat with (S i + j)%nat in * by lia; exact H. }
      destruct (lt lineY (y + height - 5)) eqn:EL.
      * rewrite bind_emit. simpl applyOp. rewrite Ho. simpl.
        eexists. split; [reflexivity|]. intros op. simpl. rewrite Tail. split.
        -- intros [<-|(j & l' & H)].
           ++ exists 0%nat, l. rewrite Nat.add_0_r. apply lt_true_iff in EL.
              repeat split; auto.
           ++ exists (S j), l'. exact H.
        -- intros (j & l' & H1 & H2 & H3 & H4). destruct j as [|j].
           ++ left. rewrite Nat.add_0_r in H4. simpl in H2. injection H2 as ->.
              symmetry. exact H4.
           ++ right. exists j, l'. auto.
      * rewrite (bind_ok (ret tt) _ st [] st tt eq_refl). rewrite Ho. simpl.
        eexists. split; [reflexivity|]. intros op. rewrite Tail. split.
        -- intros (j & l' & H). exists (S j), l'. exact H.
        -- intros (j & l' & H1 & H2 & H3 & H4). destruct j as [|j].
           ++ exfalso. rewrite Nat.add_0_r in H3. apply lt_true_iff in H3.
              unfold lineY in EL. congruence.
           ++ exists j, l'. auto.
    + apply Nat.ltb_ge in E3. exists []. split; [reflexivity|].
      intros op; split; [intros []|]. intros (j & l' & H & _). lia.
Qed.

(** The placeholder never throws: it draws its frame, then those of the
    first three lines of the message that end above the bottom of the box. *)
Lemma renderImagePlaceholder_ok E x y width height message st :
  let size := Qmax 8 (Qmin 12 (width / 15)) in
  let st1 := {| currentFontSize := size; currentFont := currentFont st |} in
  let lines := splitTextToSize E st1 message (width - 10) in
  let iconSize := Qmin width height * 0.3 in
  let lineHeight := size * 1.2 in
  let textStartY := y + (height - iconSize) / 2 + iconSize + lineHeight in
  exists textOps,
    renderImagePlaceholder E x y width height message st
    = (placeholderFrame x y width height ++ textOps, st1, Ok tt) /\
    forall op,
      In op textOps <->
      exists i l,
        (i < 3)%nat /\ nth_error lines i = Some l /\
        textStartY + ofNat i * lineHeight < y + height - 5 /\
        op = pdf_text l (x + width / 2) (textStartY + ofNat i * lineHeight)
               (Some "center"%string) None.
Proof.
  intros size st1 lines iconSize lineHeight textStartY.
  unfold renderImagePlaceholder.
  do 12 rewrite bind_emit. simpl applyOp. fold size st1.
  rewrite (bind_ok (pdfSplitTextToSize E message (width - 10)) _ st1 [] st1 lines eq_refl).
  rewrite (bind_ok getFontSize _ st1 [] st1 size eq_refl).
  destruct (placeholderLines_ok lines 0 x y width height textStartY lineHeight st1)
    as (o & Ho & Hin).
  fold iconSize lineHeight. fold textStartY. rewrite Ho. simpl.
  exists o. split; [reflexivity|]. exact Hin.
Qed.

(** C3, as the code has it.  When the image of an element does not load
    (no source, an error event, or no event within ten seconds),
    [renderImageElement] returns normally after drawing, in the element's
    box, the frame of the placeholder (background with border, the two
    diagonals, the icon) and then those of the first three wrapped lines of
    its message whose baseline is above the bottom of the box less 5; the
    message is the fixed text for a missing source, else the alternative
    text of the image, else a fixed text. *)
Theorem image_load_failure_draws_placeholder (E : Env) (element : SlideElement)
    (x y width height : Q) (st : PdfState) :
  imageLoadFails E element ->
  let size := Qmax 8 (Qmin 12 (width / 15)) in
  let st1 := {| currentFontSize := size; currentFont := currentFont st |} in
  let lines := splitTextToSize E st1 (placeholderMessage element) (width - 10) in
  let iconSize := Qmin width height * 0.3 in
  let lineHeight := size * 1.2 in
  let textStartY := y + (height - iconSize) / 2 + iconSize + lineHeight in
  exists textOps : list PdfOp,
    renderImageElement E element x y width height st
    = (placeholderFrame x y width height ++ textOps, st1, Ok tt) /\
    forall op : PdfOp,
      In op textOps <->
      exists (i : nat) (l : string),
        (i < 3)%nat /\ nth_error lines i = Some l /\
        textStartY + ofNat i * lineHeight < y + height - 5 /\
        op = pdf_text l (x + width / 2) (textStartY + ofNat i * lineHeight)
               (Some "center"%string) None.
Proof.
  intros Fails size st1 lines iconSize lineHeight textStartY.
  subst lines. unfold renderImageElement, placeholderMessage.
  destruct Fails as [NoSrc | (message & Hload)].
  - rewrite NoSrc. change (negb (truthyStr EmptyString)) with true. cbv iota.
    apply renderImagePlaceholder_ok.
  - destruct (contentSrc (el_content element)) as [|c src] eqn:Esrc.
    + change (negb (truthyStr EmptyString)) with true. cbv iota.
      apply renderImagePlaceholder_ok.
    + change (negb (truthyStr (String c src))) with false. cbv iota.
      erewrite tryCatch_throw.
      2:{ apply bind_throw. unfold liftOutcome. rewrite Hload. reflexivity. }
      destruct (renderImagePlaceholder_ok E x y width height
                  match contentAlt (el_content element) with
                  | Some a => orStr a "Image failed to load"
                  | None => "Image failed to load"%string
                  end st) as (textOps & Hr & Hin).
      rewrite Hr. simpl. exists textOps. split; [reflexivity|]. exact Hin.
Qed.

Lemma slow_image_example :
  exists textOps : list PdfOp,
    renderImageElement exampleEnv (imageElement "blob:pic" (Some "photo.png"%string))
      0 0 300 200 (pdfState newPdf)
    = (placeholderFrame 0 0 300 200 ++ textOps,
       {| currentFontSize := Qmax 8 (Qmin 12 (300 / 15)); currentFont := "helvetica" |},
       Ok tt).
Proof.
  destruct (image_load_failure_draws_placeholder exampleEnv
              (imageElement "blob:pic" (Some "photo.png"%string)) 0 0 300 200
              (pdfState newPdf)) as (textOps & Hrun & _).
  - right. exists "Image load timeout"%string.
    apply (late_image_times_out exampleEnv "blob:pic" 20000
             {| img_src := "blob:pic"; img_width := 100; img_height := 50 |}).
    + reflexivity.
    + vm_compute. discriminate.
  - exists textOps. exact Hrun.
Defined.

(** C3 as stated fails: for an image that times out in a box 100 wide and
    20 high the message wraps to one line, the renderer returns normally,
    and no text is drawn: the line would end below the box. *)
Lemma small_box_placeholder_has_no_text :
  let element := imageElement "blob:pic" None in
  let run := renderImageElement exampleEnv element 0 0 100 20 (pdfState newPdf) in
  loadImageWithTimeout exampleEnv "blob:pic" 10000 = Throw "Image load timeout" /\
  splitTextToSize exampleEnv (snd (fst run)) (placeholderMessage element) (100 - 10)
  = ["Image failed to load"%string] /\
  snd run = Ok tt /\
  filter isText (fst (fst run)) = [].
Proof. repeat split; vm_compute; reflexivity. Qed.

(** *** The conversion loop *)

Section Conversion.

Variable E : Env.
Variable settings : ConversionSettings.
Variables pdfWidth pdfHeight slideW slideH : Q.

(** The [try]/[catch] of a slide never throws. *)
Lemma paintSlide_run slideIndex slide st :
  exists st',
    paintSlide E settings pdfWidth pdfHeight slideW slideH slideIndex slide st
    = (pageOf E settings pdfWidth pdfHeight slideW slideH slideIndex slide st, st', Ok tt).
Proof.
  unfold paintSlide, pageOf, tryCatch.
  destruct (renderSlideAndWatermark E settings pdfWidth pdfHeight slideW slideH slide st)
    as [[o st1] [[]|e]].
  - exists st1. reflexivity.
  - eexists. reflexivity.
Qed.

Lemma processChunk_flat chunk : forall chunkStart i pdf,
  processChunk E settings pdfWidth pdfHeight slideW slideH chunkStart i chunk pdf
  = processSlides E settings pdfWidth pdfHeight slideW slideH (chunkStart + i) chunk pdf.
Proof.
  induction chunk as [|slide chunk IH]; intros chunkStart i pdf; simpl; auto.
  destruct (runOnPage _ _) as [pdf2 [u|e]]; auto.
  rewrite IH. f_equal. lia.
Qed.

Lemma processSlides_app l1 : forall l2 i pdf,
  processSlides E settings pdfWidth pdfHeight slideW slideH i (l1 ++ l2) pdf
  = match processSlides E settings pdfWidth pdfHeight slideW slideH i l1 pdf with
    | Ok pdf' =>
        processSlides E settings pdfWidth pdfHeight slideW slideH
          (i + List.length l1) l2 pdf'
    | Throw e => Throw e
    end.
Proof.
  induction l1 as [|slide l1 IH]; intros l2 i pdf; simpl.
  - rewrite Nat.add_0_r. reflexivity.
  - destruct (runOnPage _ _) as [pdf2 [u|e]]; auto.
    rewrite IH. replace (S i + List.length l1)%nat with (i + S (List.length l1))%nat by lia.
    reflexivity.
Qed.

(** With as many rounds as there are slides the chunk loop ends, having
    processed the slides one after the other. *)
Lemma processChunks_flat rounds : forall todo chunkStart pdf,
  (List.length todo <= chunkStart + rounds)%nat ->
  processChunks rounds E settings pdfWidth pdfHeight slideW slideH todo chunkStart pdf
  = Some (processSlides E settings pdfWidth pdfHeight slideW slideH chunkStart
            (skipn chunkStart todo) pdf).
Proof.
  induction rounds as [|rounds IH]; intros todo chunkStart pdf H.
  - simpl. assert (L : (chunkStart <? List.length todo)%nat = false)
      by (apply Nat.ltb_ge; lia).
    rewrite L. rewrite skipn_all2 by lia. reflexivity.
  - cbn [processChunks]. cbv zeta.
    destruct (chunkStart <? List.length todo)%nat eqn:L.
    + apply Nat.ltb_lt in L.
      set (k := (Nat.min (chunkStart + chunkSize) (List.length todo) - chunkStart)%nat).
      unfold slice. fold k.
      set (rest := skipn chunkStart todo).
      assert (Lr : List.length rest = (List.length todo - chunkStart)%nat)
        by apply length_skipn.
      assert (Split : rest = firstn k rest ++ skipn (chunkStart + chunkSize) todo).
      { rewrite <- (firstn_skipn k rest) at 1. f_equal.
        unfold rest. rewrite skipn_skipn.
        unfold chunkSize in *.
        destruct (Nat.le_gt_cases (chunkStart + 5) (List.length todo)).
        - f_equal. unfold k. lia.
        - rewrite !skipn_all2; auto; unfold k; lia. }
      rewrite Split at 2. rewrite processSlides_app.
      rewrite processChunk_flat, Nat.add_0_r.
      destruct (processSlides E settings pdfWidth pdfHeight slideW slideH chunkStart
                  (firstn k rest) pdf) as [pdf'|e]; auto.
      rewrite IH by (unfold chunkSize; lia).
      f_equal.
      destruct (Nat.le_gt_cases (chunkStart + chunkSize) (List.length todo)).
      * f_equal. rewrite length_firstn. unfold k. unfold chunkSize in *. lia.
      * rewrite !skipn_all2 by lia. reflexivity.
    + apply Nat.ltb_ge in L. rewrite skipn_all2 by lia. reflexivity.
Qed.

Lemma processSlides_pages todo : forall i pdf,
  (0 < i)%nat ->
  exists pdf' newPages,
    processSlides E settings pdfWidth pdfHeight slideW slideH i todo pdf = Ok pdf' /\
    allPages pdf' = allPages pdf ++ newPages /\
    List.length newPages = List.length todo /\
    forall j slide,
      nth_error todo j = Some slide ->
      exists st,
        nth_error newPages j
        = Some (pageOf E settings pdfWidth pdfHeight slideW slideH (i + j) slide st).
Proof.
  induction todo as [|slide todo IH]; intros i pdf Hi.
  - exists pdf, []. simpl. rewrite app_nil_r. repeat split; auto.
    intros [|j] s H; discriminate.
  - cbn [processSlides]. cbv zeta.
    assert (Z : (0 <? i)%nat = true) by (apply Nat.ltb_lt; auto). rewrite Z.
    unfold runOnPage.
    destruct (paintSlide_run i slide (pdfState (addPage pdf))) as (st' & Hp).
    rewrite Hp.
    match goal with |- context [processSlides _ _ _ _ _ _ _ _ ?p] => set (pdf2 := p) end.
    destruct (IH (S i) pdf2 ltac:(lia)) as (pdf' & newPages & Hrun & Hall & Hlen & Hnth).
    exists pdf', (pageOf E settings pdfWidth pdfHeight slideW slideH i slide
                    (pdfState (addPage pdf)) :: newPages).
    split; [exact Hrun|]. split.
    + rewrite Hall. unfold allPages, pdf2. simpl. rewrite <- app_assoc. reflexivity.
    + split; [simpl; lia|].
      intros [|j] s H; simpl in H.
      * injection H as <-. exists (pdfState (addPage pdf)). rewrite Nat.add_0_r.
        reflexivity.
      * destruct (Hnth j s H) as (st & Hst). exists st. simpl.
        replace (i + S j)%nat with (S i + j)%nat by lia. exact Hst.
Qed.

Lemma processSlides_from_new todo :
  todo <> [] ->
  exists pdf,
    processSlides E settings pdfWidth pdfHeight slideW slideH 0 todo newPdf = Ok pdf /\
    getNumberOfPages pdf = List.length todo /\
    forall j slide,
      nth_error todo j = Some slide ->
      exists st,
        nth_error (allPages pdf) j
        = Some (pageOf E settings pdfWidth pdfHeight slideW slideH j slide st).
Proof.
  destruct todo as [|slide todo]; [congruence|]. intros _.
  cbn [processSlides]. cbv zeta. change (0 <? 0)%nat with false. cbv iota.
  unfold runOnPage.
  destruct (paintSlide_run 0 slide (pdfState newPdf)) as (st' & Hp). rewrite Hp.
  match goal with |- context [processSlides _ _ _ _ _ _ _ _ ?p] => set (pdf2 := p) end.
  destruct (processSlides_pages todo 1 pdf2 ltac:(lia))
    as (pdf' & newPages & Hrun & Hall & Hlen & Hnth).
  exists pdf'. split; [exact Hrun|].
  assert (A2 : allPages pdf2
               = [pageOf E settings pdfWidth pdfHeight slideW slideH 0 slide
                    (pdfState newPdf)]) by reflexivity.
  split.
  - unfold getNumberOfPages. rewrite Hall, A2. simpl. lia.
  - intros [|j] s H; simpl in H.
    + injection H as <-. exists (pdfState newPdf). rewrite Hall, A2. reflexivity.
    + destruct (Hnth j s H) as (st & Hst). exists st. rewrite Hall, A2. exact Hst.
Qed.

End Conversion.

Lemma extractSlides_spec E zipText slideFiles : forall i,
  List.length (extractSlides E zipText slideFiles i) = List.length slideFiles /\
  forall j slideFile,
    nth_error slideFiles j = Some slideFile ->
    nth_error (extractSlides E zipText slideFiles i) j
    = Some match parseSlideXml E (zipText slideFile) slideFile (i + j + 1) with
           | Ok slideData => slideData
           | Throw _ => fallbackSlide (i + j + 1)
           end.
Proof.
  induction slideFiles as [|f files IH]; intros i; simpl.
  - split; auto. intros [|j] s H; discriminate.
  - destruct (IH (S i)) as [L N]. split; [lia|].
    intros [|j] s H; simpl in H.
    + injection H as <-. simpl. rewrite Nat.add_0_r. reflexivity.
    + simpl. rewrite (N j s H). replace (S i + j + 1)%nat with (i + S j + 1)%nat by lia.
      reflexivity.
Qed.

(** When every slide is hidden and hidden slides are left out, no slide is
    rendered and the document keeps the single empty page it was created
    with. *)
Lemma no_selected_slide_leaves_one_page E data settings :
  slides data <> [] -> slidesToProcess settings data = [] ->
  convertPowerPointToPDF E (Some data) settings = Some (Ok newPdf) /\
  getNumberOfPages newPdf = 1%nat.
Proof.
  intros Hs Hnone. unfold convertPowerPointToPDF.
  destruct (slides data) as [|s0 ss]; [congruence|].
  cbv zeta. rewrite Hnone. split; reflexivity.
Qed.

(** C2.  Extraction gives one slide per slide file: the parsed slide, or,
    when parsing throws, the fallback slide with its one error text element.
    Conversion of a presentation of which at least one slide is selected
    returns a document with one page per selected slide, in order: the page
    of a slide holds what rendering the slide (and the watermark) drew,
    followed, when that threw, by the gray error page with its centred
    text; the slides after it are rendered all the same. *)
Theorem failed_slides_become_placeholders (E : Env) (zipText : string -> string)
    (slideFiles : list string) (data : PresentationData) (settings : ConversionSettings) :
  slidesToProcess settings data <> [] ->
  let pdfWidth := fst (pdfPageSize settings (metadata data)) in
  let pdfHeight := snd (pdfPageSize settings (metadata data)) in
  let slideW := canvasWidth (metadata data) in
  let slideH := canvasHeight (metadata data) in
  (List.length (extractSlides E zipText slideFiles 0) = List.length slideFiles /\
   forall j slideFile,
     nth_error slideFiles j = Some slideFile ->
     nth_error (extractSlides E zipText slideFiles 0) j
     = Some match parseSlideXml E (zipText slideFile) slideFile (j + 1) with
            | Ok slideData => slideData
            | Throw _ => fallbackSlide (j + 1)
            end) /\
  (forall n, elements (fallbackSlide n) = [errorTextElement]) /\
  exists pdf : Pdf,
    convertPowerPointToPDF E (Some data) settings = Some (Ok pdf) /\
    getNumberOfPages pdf = List.length (slidesToProcess settings data) /\
    forall j slide,
      nth_error (slidesToProcess settings data) j = Some slide ->
      exists st,
        nth_error (allPages pdf) j
        = Some match renderSlideAndWatermark E settings pdfWidth pdfHeight
                       slideW slideH slide st with
               | (o, _, Ok _) => o
               | (o, _, Throw _) => o ++ errorPage pdfWidth pdfHeight j
               end.
Proof.
  intros Hne pdfWidth pdfHeight slideW slideH.
  split; [apply (extractSlides_spec E zipText slideFiles 0)|].
  split; [reflexivity|].
  unfold convertPowerPointToPDF.
  destruct (slides data) as [|s0 ss] eqn:Es.
  { exfalso. apply Hne. unfold slidesToProcess. rewrite Es. reflexivity. }
  cbv zeta. rewrite processChunks_flat by lia. simpl skipn.
  destruct (processSlides_from_new E settings pdfWidth pdfHeight slideW slideH
              (slidesToProcess settings data) Hne) as (pdf & Hrun & Hn & Hp).
  exists pdf. fold pdfWidth pdfHeight slideW slideH. rewrite Hrun.
  split; [reflexivity|]. split; [exact Hn|]. exact Hp.
Qed.

Lemma ten_slides_example :
  exists pdf : Pdf,
    convertPowerPointToPDF exampleEnv (Some tenSlides) defaultSettings = Some (Ok pdf) /\
    getNumberOfPages pdf = 10%nat.
Proof.
  destruct (failed_slides_become_placeholders exampleEnv (fun f => f) tenSlideFiles
              tenSlides defaultSettings) as (_ & _ & pdf & Hrun & Hn & _).
  - vm_compute. discriminate.
  - exists pdf. split; [exact Hrun|]. rewrite Hn. reflexivity.
Defined.

(** Ten slide files, of which the seventh does not parse and the third
    does not render: ten pages, the seventh slide the fallback slide, the
    third page the error page, the fourth rendered as usual. *)
Lemma ten_slides_pages :
  let size := pdfPageSize defaultSettings exampleMetadata in
  exists pdf : Pdf,
    convertPowerPointToPDF exampleEnv (Some tenSlides) defaultSettings = Some (Ok pdf) /\
    getNumberOfPages pdf = 10%nat /\
    nth_error (slides tenSlides) 6 = Some (fallbackSlide 7) /\
    nth_error (allPages pdf) 2 = Some (errorPage (fst size) (snd size) 2) /\
    (exists x y, nth_error (allPages pdf) 3 = Some [pdf_text "Hello" x y None None]).
Proof.
  intros size. eexists. split; [vm_compute; reflexivity|].
  split; [reflexivity|]. split; [reflexivity|].
  split; [vm_compute; reflexivity|].
  eexists. eexists. vm_compute. reflexivity.
Qed.

End PowerPointToPDFFacts.

(** ** The Word converter *)

Module WordToPDFFacts.

Import JS WordToPDF.

Local Open Scope string_scope.

Lemma undeclared_color_is_black e :
  declaredColor e = EmptyString -> getTextStyle_color e = black.
Proof. unfold getTextStyle_color. intros ->. reflexivity. Qed.

(** C8, as the code has it.  Under an inherited style, the effective colour
    of a node is the node's own colour when that is not black, else the
    inherited colour; so a node that declares no colour inherits the
    colour, and a node that declares #ff0000 is red whatever it inherits.
    Likewise the font size of the node counts unless it is 12 and its font
    family unless it is Arial; the flags are the node's or the inherited
    ones; an optional field the node leaves unset takes the inherited
    value. *)
Theorem effective_style_overrides_non_default_fields
    (currentStyle inheritedStyle : TextStyle) (e : ElementColors) :
  color currentStyle = getTextStyle_color e ->
  let eff := effectiveStyle currentStyle (Some inheritedStyle) in
  (declaredColor e = EmptyString -> color eff = color inheritedStyle) /\
  (notBlack (getTextStyle_color e) = true -> color eff = getTextStyle_color e) /\
  (notBlack (getTextStyle_color e) = false -> color eff = color inheritedStyle) /\
  (declaredColor e = "#ff0000" ->
   color eff = parseColor "#ff0000" /\ sameColor (color eff) (rgb 1 0 0)) /\
  fontSize eff
  = (if Qeq_bool (fontSize currentStyle) 12 then fontSize inheritedStyle
     else fontSize currentStyle) /\
  fontFamily eff
  = (if String.eqb (fontFamily currentStyle) "Arial" then fontFamily inheritedStyle
     else fontFamily currentStyle) /\
  bold eff = (bold currentStyle || bold inheritedStyle)%bool /\
  italic eff = (italic currentStyle || italic inheritedStyle)%bool /\
  underline eff = (underline currentStyle || underline inheritedStyle)%bool /\
  (strikethrough currentStyle = None -> strikethrough eff = strikethrough inheritedStyle) /\
  (highlight currentStyle = None -> highlight eff = highlight inheritedStyle) /\
  (subscript currentStyle = None -> subscript eff = subscript inheritedStyle) /\
  (superscript currentStyle = None -> superscript eff = superscript inheritedStyle) /\
  (lineHeight currentStyle = None -> lineHeight eff = lineHeight inheritedStyle) /\
  (letterSpacing currentStyle = None -> letterSpacing eff = letterSpacing inheritedStyle) /\
  (textAlign currentStyle = None -> textAlign eff = textAlign inheritedStyle).
Proof.
  intros Hc eff. unfold eff. simpl. rewrite Hc.
  split.
  { intros Hd. rewrite (undeclared_color_is_black e Hd). reflexivity. }
  split.
  { intros ->. reflexivity. }
  split.
  { intros ->. reflexivity. }
  split.
  { intros Hd. unfold getTextStyle_color. rewrite Hd. simpl orStr.
    split; [reflexivity|]. vm_compute. repeat split; reflexivity. }
  split.
  { destruct (Qeq_bool (fontSize currentStyle) 12); reflexivity. }
  split.
  { destruct (fontFamily currentStyle =? "Arial"); reflexivity. }
  repeat split; auto; intros ->; reflexivity.
Qed.

Lemma red_child_example :
  sameColor
    (color (effectiveStyle (plainStyle (getTextStyle_color redChild)) (Some blueParent)))
    (rgb 1 0 0).
Proof.
  apply (effective_style_overrides_non_default_fields
           (plainStyle (getTextStyle_color redChild)) blueParent redChild eq_refl).
  reflexivity.
Defined.

(** C8 as stated fails: a node that declares the colour #000000 under a red
    parent is painted red, not black. *)
Lemma explicit_black_does_not_override :
  declaredColor blackChild = "#000000" /\
  sameColor (getTextStyle_color blackChild) (rgb 0 0 0) /\
  color (effectiveStyle (plainStyle (getTextStyle_color blackChild)) (Some redParent))
  = rgb 1 0 0 /\
  ~ sameColor
      (color (effectiveStyle (plainStyle (getTextStyle_color blackChild))
                (Some redParent)))
      (getTextStyle_color blackChild).
Proof.
  split; [reflexivity|]. split; [vm_compute; repeat split; reflexivity|].
  split; [reflexivity|].
  vm_compute. intros [H _]. discriminate H.
Qed.

End WordToPDFFacts.

(** ** More of the language *)

Module JSMoreFacts.

Import JS JSFacts JSMore.

(** *** Strings *)

Lemma withoutWhiteSpace_app a b :
  withoutWhiteSpace (a ++ b) = (withoutWhiteSpace a ++ withoutWhiteSpace b)%string.
Proof.
  induction a as [|c a IH]; simpl; auto.
  destruct (isWhiteSpace c); simpl; congruence.
Qed.

Lemma string_app_assoc (a b c : string) : ((a ++ b) ++ c = a ++ (b ++ c))%string.
Proof. induction a; simpl; congruence. Qed.

Lemma string_app_nil (a : string) : (a ++ "")%string = a.
Proof. induction a; simpl; congruence. Qed.

Lemma rev_append_app s acc : rev_append s acc = (reverse s ++ acc)%string.
Proof.
  unfold reverse. revert acc. induction s as [|c s IH]; intros acc; simpl; auto.
  rewrite IH, (IH (String c EmptyString)), string_app_assoc. reflexivity.
Qed.

(** Splitting at white space loses nothing else. *)
Lemma splitWhiteSpace_keeps_letters s : forall token inGap,
  withoutWhiteSpace (PowerPointToPDF.joined (splitWhiteSpace s token inGap))
  = withoutWhiteSpace (reverse token ++ s).
Proof.
  induction s as [|c s IH]; intros token inGap.
  - simpl. unfold PowerPointToPDF.joined. simpl. reflexivity.
  - cbn [splitWhiteSpace]. destruct (isWhiteSpace c) eqn:W.
    + destruct inGap.
      * rewrite IH, !withoutWhiteSpace_app. simpl. rewrite W. reflexivity.
      * change (PowerPointToPDF.joined (reverse token :: splitWhiteSpace s "" true))
          with (reverse token ++ PowerPointToPDF.joined (splitWhiteSpace s "" true))%string.
        rewrite !withoutWhiteSpace_app, IH. simpl. rewrite W. reflexivity.
    + rewrite IH. f_equal. unfold reverse at 1. simpl.
      rewrite rev_append_app, string_app_assoc. reflexivity.
Qed.

Lemma truthyStr_false s : truthyStr s = false -> s = EmptyString.
Proof. destruct s; simpl; auto; discriminate. Qed.

Lemma length_app (a b : string) :
  String.length (a ++ b) = (String.length a + String.length b)%nat.
Proof. induction a; simpl; auto. Qed.

Lemma substring_skip_app (a b : string) :
  substring (String.length a) (String.length b) (a ++ b) = b.
Proof.
  induction a as [|c a IH]; simpl.
  - apply substring_0_all.
  - exact IH.
Qed.

Lemma endsWith_app a suffix : endsWith (a ++ suffix) suffix = true.
Proof.
  unfold endsWith, substringFrom. rewrite length_app.
  replace (String.length a + String.length suffix - String.length suffix)%nat
    with (String.length a) by lia.
  replace (String.length a + String.length suffix - String.length a)%nat
    with (String.length suffix) by lia.
  rewrite substring_skip_app, String.eqb_refl.
  apply andb_true_iff. split; auto. apply Nat.leb_le. lia.
Qed.


Lemma withoutWhiteSpace_rev_append t : forall acc,
  withoutWhiteSpace (rev_append t acc)
  = rev_append (withoutWhiteSpace t) (withoutWhiteSpace acc).
Proof.
  induction t as [|c t IH]; intros acc; simpl; [reflexivity|].
  rewrite IH. simpl. destruct (isWhiteSpace c); reflexivity.
Qed.

Lemma rev_append_rev_append s : forall a b,
  rev_append (rev_append s a) b = rev_append a (s ++ b)%string.
Proof.
  induction s as [|c s IH]; intros a b; simpl; [reflexivity|].
  rewrite IH. reflexivity.
Qed.

Lemma reverse_involutive s : reverse (reverse s) = s.
Proof.
  unfold reverse. rewrite rev_append_rev_append. simpl. apply string_app_nil.
Qed.

Lemma withoutWhiteSpace_trimStart t :
  withoutWhiteSpace (trimStart t) = withoutWhiteSpace t.
Proof.
  induction t as [|c t IH]; simpl; auto. destruct (isWhiteSpace c) eqn:E; auto.
  simpl. rewrite E. reflexivity.
Qed.

(** Trimming removes white space only. *)
Lemma trim_letters s : withoutWhiteSpace (trim s) = withoutWhiteSpace s.
Proof.
  unfold trim, reverse.
  rewrite withoutWhiteSpace_rev_append, withoutWhiteSpace_trimStart.
  rewrite withoutWhiteSpace_rev_append, withoutWhiteSpace_trimStart.
  simpl. apply reverse_involutive.
Qed.

End JSMoreFacts.

(** ** More of the PowerPoint converter *)

Module PowerPointToPDFMoreFacts.

Import JS JSMore PowerPointToPDF JSFacts JSMoreFacts PowerPointToPDFFacts.
Import PowerPointToPDFMore.
Local Open Scope paint_scope.

#[local] Arguments bind : simpl never.
#[local] Arguments tryCatch : simpl never.
#[local] Arguments emit : simpl never.

(** X1.  What reaches a painter.  Whatever the element, either
    [renderElementToPDF] paints nothing, or it calls the painter of the
    element's type at the element's scaled place with a box that starts
    before the right and bottom edges of the content area and ends at or
    before them: the width and height are the scaled ones, or what is left
    up to the edge when that is less.  The left and top edges do not clip:
    the place is passed as it is. *)
Theorem painted_box_ends_inside_content_area (E : Env) (element : SlideElement)
    (contentWidth contentHeight slideW slideH margin : Q) (settings : ConversionSettings) :
  let P := placement (el_position element) contentWidth contentHeight slideW slideH margin in
  renderElementToPDF E element contentWidth contentHeight slideW slideH settings margin
  = ret tt \/
  exists w h : Q,
    renderElementToPDF E element contentWidth contentHeight slideW slideH settings margin
    = dispatchElement E settings element (place_x P) (place_y P) w h /\
    place_x P < margin + contentWidth /\ place_y P < margin + contentHeight /\
    place_x P + w <= margin + contentWidth /\ place_y P + h <= margin + contentHeight /\
    w <= place_width P /\ h <= place_height P /\
    (w = place_width P \/ w = margin + contentWidth - place_x P) /\
    (h = place_height P \/ h = margin + contentHeight - place_y P).
Proof.
  intros P. unfold renderElementToPDF. fold P.
  destruct (ge (place_x P) (margin + contentWidth)) eqn:G1; [left; reflexivity|].
  destruct (ge (place_y P) (margin + contentHeight)) eqn:G2; [left; reflexivity|].
  destruct (le (place_x P + place_width P) margin); [left; reflexivity|].
  destruct (le (place_y P + place_height P) margin); [left; reflexivity|].
  right. simpl orb. cbv iota.
  exists (Qmin (place_width P) (margin + contentWidth - place_x P)),
         (Qmin (place_height P) (margin + contentHeight - place_y P)).
  split; [reflexivity|].
  apply le_false_iff in G1, G2.
  destruct (Qmin_cases (place_width P) (margin + contentWidth - place_x P)) as [[L1 ->]|[L1 ->]];
  destruct (Qmin_cases (place_height P) (margin + contentHeight - place_y P)) as [[L2 ->]|[L2 ->]];
  repeat split; auto; lra.
Qed.

(** X2.  An element of positive size that lies inside the slide canvas
    is never skipped and never clipped: the painter of its type is called
    at the scaled place with the scaled width and height. *)
Theorem element_inside_canvas_is_painted_unclipped (E : Env) (element : SlideElement)
    (contentWidth contentHeight slideW slideH margin : Q) (settings : ConversionSettings) :
  0 < contentWidth -> 0 < contentHeight -> 0 < slideW -> 0 < slideH ->
  0 <= pos_x (el_position element) -> 0 <= pos_y (el_position element) ->
  0 < pos_width (el_position element) -> 0 < pos_height (el_position element) ->
  pos_x (el_position element) + pos_width (el_position element) <= slideW ->
  pos_y (el_position element) + pos_height (el_position element) <= slideH ->
  let P := placement (el_position element) contentWidth contentHeight slideW slideH margin in
  renderElementToPDF E element contentWidth contentHeight slideW slideH settings margin
  = dispatchElement E settings element (place_x P) (place_y P)
      (place_width P) (place_height P).
Proof.
  intros Hcw Hch Hsw Hsh Hx Hy Hw Hh Hxw Hyh P.
  set (p := el_position element) in *.
  pose proof (scale_positive contentWidth contentHeight slideW slideH Hcw Hch Hsw Hsh) as Hs.
  change (0 < scale P) in Hs.
  destruct (placement_fits p contentWidth contentHeight slideW slideH margin Hsw Hsh)
    as [Fw Fh].
  change (scaledSlideWidth P <= contentWidth) in Fw.
  change (scaledSlideHeight P <= contentHeight) in Fh.
  destruct (inside_canvas_not_clipped p contentWidth contentHeight slideW slideH margin
              Hcw Hch Hsw Hsh Hxw Hyh) as [Cw Ch].
  fold P in Cw, Ch.
  assert (Ex : offsetX P == (contentWidth - scaledSlideWidth P) / 2) by reflexivity.
  assert (Ey : offsetY P == (contentHeight - scaledSlideHeight P) / 2) by reflexivity.
  assert (Ox : 0 <= offsetX P) by (rewrite Ex; apply Qle_shift_div_l; lra).
  assert (Oy : 0 <= offsetY P) by (rewrite Ey; apply Qle_shift_div_l; lra).
  assert (Px : place_x P == margin + offsetX P + pos_x p * scale P) by reflexivity.
  assert (Py : place_y P == margin + offsetY P + pos_y p * scale P) by reflexivity.
  assert (Pw : place_width P == pos_width p * scale P) by reflexivity.
  assert (Ph : place_height P == pos_height p * scale P) by reflexivity.
  assert (Wp : 0 < pos_width p * scale P) by (apply Qmult_lt_0_compat; auto).
  assert (Hp : 0 < pos_height p * scale P) by (apply Qmult_lt_0_compat; auto).
  assert (Xp : 0 <= pos_x p * scale P) by (apply Qmult_le_0_compat; lra).
  assert (Yp : 0 <= pos_y p * scale P) by (apply Qmult_le_0_compat; lra).
  assert (Mw : place_width P <= margin + contentWidth - place_x P)
    by (apply Q.min_l_iff; exact Cw).
  assert (Mh : place_height P <= margin + contentHeight - place_y P)
    by (apply Q.min_l_iff; exact Ch).
  unfold renderElementToPDF. fold p. fold P.
  assert (G1 : ge (place_x P) (margin + contentWidth) = false) by (apply le_false_iff; lra).
  assert (G2 : ge (place_y P) (margin + contentHeight) = false) by (apply le_false_iff; lra).
  assert (G3 : le (place_x P + place_width P) margin = false) by (apply le_false_iff; lra).
  assert (G4 : le (place_y P + place_height P) margin = false) by (apply le_false_iff; lra).
  rewrite G1, G2, G3, G4. simpl orb. cbv iota.
  destruct (Qmin_cases (place_width P) (margin + contentWidth - place_x P)) as [[L1 ->]|[L1 _]];
    [|lra].
  destruct (Qmin_cases (place_height P) (margin + contentHeight - place_y P)) as [[L2 ->]|[L2 _]];
    [|lra].
  reflexivity.
Qed.


Lemma element_inside_canvas_example :
  let P := placement examplePosition 700 500 720 540 20 in
  renderElementToPDF exampleEnv (textElement "text-0" "Hello") 700 500 720 540
    defaultSettings 20
  = dispatchElement exampleEnv defaultSettings (textElement "text-0" "Hello")
      (place_x P) (place_y P) (place_width P) (place_height P).
Proof.
  cbv zeta.
  apply (element_inside_canvas_is_painted_unclipped exampleEnv (textElement "text-0" "Hello")
           700 500 720 540 20 defaultSettings); vm_compute; try reflexivity; discriminate.
Defined.

(** *** The fitted page *)

Lemma fit_offsets bw bh sw sh (p : Position) :
  40 < bw -> 40 < bh -> 0 < sw -> 0 < sh ->
  let size := fitPage bw bh (sw / sh) in
  let area := contentArea (fst size) (snd size) in
  let P := placement p (fst area) (snd area) sw sh contentMargin in
  (offsetX P == 0 \/ offsetY P == 0) /\
  (fst size < bw \/ snd size < bh -> offsetX P == 0 /\ offsetY P == 0).
Proof.
  intros Hbw Hbh Hsw Hsh size area P.
  assert (R : 0 < sw / sh) by (apply div_pos; auto).
  assert (Ex : offsetX P == (fst area - sw * Qmin (fst area / sw) (snd area / sh)) / 2)
    by reflexivity.
  assert (Ey : offsetY P == (snd area - sh * Qmin (fst area / sw) (snd area / sh)) / 2)
    by reflexivity.
  assert (Same : fst area / sw == snd area / sh -> offsetX P == 0 /\ offsetY P == 0).
  { intros S. rewrite Ex, Ey.
    assert (M : Qmin (fst area / sw) (snd area / sh) == fst area / sw)
      by (apply Q.min_l; rewrite S; apply Qle_refl).
    split.
    - rewrite M. field. lra.
    - rewrite M, S. field. lra. }
  split.
  - rewrite Ex, Ey.
    destruct (Q.min_spec (fst area / sw) (snd area / sh)) as [[_ M]|[_ M]]; rewrite M.
    + left. field. lra.
    + right. field. lra.
  - intros Shrunk. apply Same.
    subst area size. unfold contentArea, fitPage, contentMargin in *.
    destruct (gt (sw / sh) (bw / bh)).
    + destruct (le ((bw - 20 * 2) / (sw / sh)) (bh - 20 * 2)); simpl in *.
      * field. split; lra.
      * lra.
    + destruct (le ((bh - 20 * 2) * (sw / sh)) (bw - 20 * 2)); simpl in *.
      * field. split; lra.
      * lra.
Qed.

(** X3.  The page is cut to the slide.  On every page the converter
    makes, the scaled slide canvas fills the content area along at least
    one axis (one of the two centring offsets is zero), and whenever the
    page is smaller than the base page of the chosen size and orientation
    it fills the content area exactly: both offsets are zero. *)
Theorem fitted_page_leaves_no_gap
    (s : ConversionSettings) (m : PresentationMetadata) (p : Position) :
  5 <= dpi s -> 0 <= slideWidth m -> 0 <= slideHeight m ->
  let base := adjustForOrientation (orientation s) (basePdfSize s) in
  let size := pdfPageSize s m in
  let P := placementFor s m p in
  (offsetX P == 0 \/ offsetY P == 0) /\
  (fst size < fst base \/ snd size < snd base -> offsetX P == 0 /\ offsetY P == 0).
Proof.
  intros Hd Hw Hh base size P.
  destruct (canvas_positive m Hw Hh) as [Cw Ch].
  destruct (basePdfSize_exceeds_margins s Hd) as [Bw Bh].
  apply fit_offsets; auto.
  - subst base. destruct (orientation s); simpl; auto.
  - subst base. destruct (orientation s); simpl; auto.
Qed.

Lemma fitted_page_example :
  let P := placementFor defaultSettings exampleMetadata examplePosition in
  let size := pdfPageSize defaultSettings exampleMetadata in
  let base := adjustForOrientation (orientation defaultSettings)
                (basePdfSize defaultSettings) in
  fst size < fst base /\ offsetX P == 0 /\ offsetY P == 0.
Proof.
  cbv zeta.
  assert (S : fst (pdfPageSize defaultSettings exampleMetadata)
              < fst (adjustForOrientation (orientation defaultSettings)
                       (basePdfSize defaultSettings))) by (vm_compute; reflexivity).
  split; [exact S|].
  apply (fitted_page_leaves_no_gap defaultSettings exampleMetadata examplePosition).
  - vm_compute; discriminate.
  - vm_compute; discriminate.
  - vm_compute; discriminate.
  - left. exact S.
Defined.

(** *** Images that load *)

Lemma tryCatch_ok {A : Type} (body : Paint A) (handler : string -> Paint A)
    st o1 st1 a :
  body st = (o1, st1, Ok a) -> tryCatch body handler st = (o1, st1, Ok a).
Proof. intros H. unfold tryCatch. rewrite H. reflexivity. Qed.

Lemma early_image_loads E src after img :
  imageEvent E src = onload after img -> after < 10000 ->
  loadImageWithTimeout E src 10000 = Ok img.
Proof.
  intros He Hearly. unfold loadImageWithTimeout. rewrite He.
  destruct (lt after 10000) eqn:L; auto.
  assert (lt after 10000 = true) by (apply lt_true_iff; exact Hearly). congruence.
Qed.

Lemma Qeq_bool_pos a : 0 < a -> Qeq_bool a 0 = false.
Proof.
  intros H. destruct (Qeq_bool a 0) eqn:E; auto.
  apply Qeq_bool_iff in E. lra.
Qed.

(** The border of an image whose colour reads as three numbers does not
    throw, leaves the state as it is, and draws at most one rectangle,
    around the box it is given. *)
Lemma imageBorder_ok element rx ry rw rh st :
  borderColourIsHex element = true ->
  exists border,
    imageBorder element rx ry rw rh st = (border, st, Ok tt) /\
    forall op, In op border ->
      match op with
      | pdf_setDrawColor _ _ _ | pdf_setLineWidth _ => True
      | pdf_rect bx by_ bw bh D => bx = rx /\ by_ = ry /\ bw = rw /\ bh = rh
      | _ => False
      end.
Proof.
  unfold imageBorder, borderColourIsHex. intros Hex.
  destruct (borderWidth (el_style element)) as [bw|];
    [|exists []; split; [reflexivity | intros op []]].
  destruct (borderColor (el_style element)) as [bc|];
    [|exists []; split; [reflexivity | intros op []]].
  destruct (negb (Qeq_bool bw 0) && truthyStr bc);
    [|exists []; split; [reflexivity | intros op []]].
  cbv zeta in Hex.
  destruct (String.length (removeFirstHash bc) =? 6)%nat;
    [|exists []; split; [reflexivity | intros op []]].
  rewrite (pdfSetColor_ok _ _ Hex).
  eexists. split; [reflexivity|].
  intros op [<-|[<-|[<-|[]]]]; auto.
Qed.


(** What [renderImageElement] does once the image has loaded with a size,
    in terms of the two [addImage] attempts. *)
Lemma renderImageElement_loaded E element x y w h st img :
  truthyStr (contentSrc (el_content element)) = true ->
  loadImageWithTimeout E (contentSrc (el_content element)) 10000 = Ok img ->
  0 < img_width img -> 0 < img_height img ->
  (addImageAccepts E img (imageFormatOf (contentSrc (el_content element))) = true \/
   addImageAccepts E img "JPEG" = true ->
   borderColourIsHex element = true) ->
  exists w0 h0 x0 y0,
    (if gt (Qabs (img_width img / img_height img - w / h)) 0.01 then
       if gt (img_width img / img_height img) (w / h) then
         (w, w / (img_width img / img_height img), x,
          y + (h - w / (img_width img / img_height img)) / 2)
       else
         (h * (img_width img / img_height img), h,
          x + (w - h * (img_width img / img_height img)) / 2, y)
     else (w, h, x, y)) = (w0, h0, x0, y0) /\
    let rw := Qmax 1 (Qmin w0 w) in
    let rh := Qmax 1 (Qmin h0 h) in
    let rx := Qmax x (Qmin x0 (x + w - rw)) in
    let ry := Qmax y (Qmin y0 (y + h - rh)) in
    let format := imageFormatOf (contentSrc (el_content element)) in
    renderImageElement E element x y w h st =
    if addImageAccepts E img format then
      after [pdf_addImage img format rx ry rw rh] (imageBorder element rx ry rw rh st)
    else if addImageAccepts E img "JPEG" then
      after [pdf_addImage img "JPEG" rx ry rw rh] (imageBorder element rx ry rw rh st)
    else renderImagePlaceholder E x y w h "Image format not supported" st.
Proof.
  intros Src Load Hiw Hih Hex.
  unfold renderImageElement. rewrite Src. change (negb true) with false. cbv iota.
  destruct (if gt (Qabs (img_width img / img_height img - w / h)) 0.01 then _ else _)
    as [[[w0 h0] x0] y0] eqn:Fit.
  exists w0, h0, x0, y0. split; [reflexivity|]. cbv zeta.
  set (rw := Qmax 1 (Qmin w0 w)). set (rh := Qmax 1 (Qmin h0 h)).
  set (rx := Qmax x (Qmin x0 (x + w - rw))). set (ry := Qmax y (Qmin y0 (y + h - rh))).
  set (format := imageFormatOf (contentSrc (el_content element))) in *.
  destruct (renderImagePlaceholder_ok E x y w h "Image format not supported" st)
    as (textOps & Hp & _).
  unfold tryCatch, bind, liftOutcome, pdfAddImage, emit, throw, ret, after.
  rewrite Load, (Qeq_bool_pos _ Hiw), (Qeq_bool_pos _ Hih).
  change (false || false) with false. cbv iota beta.
  rewrite Fit. fold rw rh rx ry format.
  destruct (addImageAccepts E img format).
  - destruct (imageBorder_ok element rx ry rw rh st (Hex (or_introl eq_refl)))
      as (border & Hb & _).
    cbn [applyOp]. rewrite Hb. reflexivity.
  - destruct (addImageAccepts E img "JPEG").
    + destruct (imageBorder_ok element rx ry rw rh st (Hex (or_intror eq_refl)))
        as (border & Hb & _).
      cbn [applyOp]. rewrite Hb. reflexivity.
    + rewrite Hp. simpl. rewrite !app_nil_r. reflexivity.
Qed.



(** X5.  The format fall-back.  For an image that loaded with a positive
    size: when jsPDF refuses the format read off the source but accepts
    JPEG, and the border colour, if any, reads as three numbers, the first
    call adds the image as JPEG, followed only by the border; when it
    refuses both, [renderImageElement] does exactly what
    the placeholder with the message Image format not supported does: it
    returns normally, and adds no image and no border around one. *)
Theorem refused_image_format_falls_back (E : Env) (element : SlideElement)
    (x y w h after : Q) (img : HTMLImageElement) (st : PdfState) :
  truthyStr (contentSrc (el_content element)) = true ->
  imageEvent E (contentSrc (el_content element)) = onload after img ->
  after < 10000 ->
  0 < img_width img -> 0 < img_height img ->
  addImageAccepts E img (imageFormatOf (contentSrc (el_content element))) = false ->
  (addImageAccepts E img "JPEG" = true -> borderColourIsHex element = true ->
   exists (rx ry rw rh : Q) (border : list PdfOp),
     renderImageElement E element x y w h st
     = (pdf_addImage img "JPEG" rx ry rw rh :: border, st, Ok tt) /\
     forall op, In op border ->
       match op with
       | pdf_setDrawColor _ _ _ | pdf_setLineWidth _ => True
       | pdf_rect bx by_ bw bh D => bx = rx /\ by_ = ry /\ bw = rw /\ bh = rh
       | _ => False
       end) /\
  (addImageAccepts E img "JPEG" = false ->
   renderImageElement E element x y w h st
   = renderImagePlaceholder E x y w h "Image format not supported" st /\
   exists textOps,
     fst (fst (renderImageElement E element x y w h st))
     = placeholderFrame x y w h ++ textOps /\
     snd (renderImageElement E element x y w h st) = Ok tt /\
     forallb isText textOps = true).
Proof.
  intros Src Ev Early Hiw Hih Refused.
  pose proof (early_image_loads E _ after img Ev Early) as Load.
  split; [intros Jpeg Hex | intros Jpeg].
  - destruct (renderImageElement_loaded E element x y w h st img Src Load Hiw Hih
                (fun _ => Hex))
      as (w0 & h0 & x0 & y0 & Fit & Run).
    cbv zeta in Run. rewrite Refused, Jpeg in Run.
    set (rw := Qmax 1 (Qmin w0 w)) in *. set (rh := Qmax 1 (Qmin h0 h)) in *.
    set (rx := Qmax x (Qmin x0 (x + w - rw))) in *.
    set (ry := Qmax y (Qmin y0 (y + h - rh))) in *.
    destruct (imageBorder_ok element rx ry rw rh st Hex) as (border & Hb & Hborder).
    exists rx, ry, rw, rh, border.
    split; [rewrite Run, Hb; reflexivity | exact Hborder].
  - assert (NoBorder :
              addImageAccepts E img (imageFormatOf (contentSrc (el_content element)))
              = true \/ addImageAccepts E img "JPEG" = true ->
              borderColourIsHex element = true).
    { intros [H|H]; congruence. }
    destruct (renderImageElement_loaded E element x y w h st img Src Load Hiw Hih
                NoBorder)
      as (w0 & h0 & x0 & y0 & Fit & Run).
    cbv zeta in Run. rewrite Refused, Jpeg in Run.
    split; [exact Run|].
    destruct (renderImagePlaceholder_ok E x y w h "Image format not supported" st)
      as (textOps & Hp & Hin).
    exists textOps. rewrite Run, Hp. simpl.
    split; [reflexivity|]. split; [reflexivity|].
    apply forallb_forall. intros op Hop. apply Hin in Hop.
    destruct Hop as (i & l & _ & _ & _ & ->). reflexivity.
Qed.

Lemma refused_format_example :
  let E := {| splitTextToSize := splitTextToSize exampleEnv;
              imageEvent := fun src =>
                onload 250 {| img_src := src; img_width := 100; img_height := 50 |};
              addImageAccepts := fun _ format => String.eqb format "JPEG";
              renderTextElement := renderTextElement exampleEnv;
              renderShapeElement := renderShapeElement exampleEnv;
              parseSlideXml := parseSlideXml exampleEnv |} in
  exists (rx ry rw rh : Q) (border : list PdfOp),
    renderImageElement E (framedImageElement "media/photo.webp") 0 0 300 200
      (pdfState newPdf)
    = (pdf_addImage {| img_src := "media/photo.webp"; img_width := 100; img_height := 50 |}
         "JPEG" rx ry rw rh :: border, pdfState newPdf, Ok tt).
Proof.
  cbv zeta.
  destruct (refused_image_format_falls_back
              {| splitTextToSize := splitTextToSize exampleEnv;
                 imageEvent := fun src =>
                   onload 250 {| img_src := src; img_width := 100; img_height := 50 |};
                 addImageAccepts := fun _ format => String.eqb format "JPEG";
                 renderTextElement := renderTextElement exampleEnv;
                 renderShapeElement := renderShapeElement exampleEnv;
                 parseSlideXml := parseSlideXml exampleEnv |}
              (framedImageElement "media/photo.webp") 0 0 300 200 250
              {| img_src := "media/photo.webp"; img_width := 100; img_height := 50 |}
              (pdfState newPdf))
    as (Jpeg & _).
  - reflexivity.
  - reflexivity.
  - vm_compute; reflexivity.
  - vm_compute; reflexivity.
  - vm_compute; reflexivity.
  - reflexivity.
  - destruct (Jpeg eq_refl eq_refl) as (rx & ry & rw & rh & border & Run & _).
    exists rx, ry, rw, rh, border. exact Run.
Defined.

(** *** The fallback wrap as a whole *)

Lemma joined_app l1 l2 : joined (l1 ++ l2) = (joined l1 ++ joined l2)%string.
Proof.
  induction l1 as [|a l1 IH]; simpl; auto.
  unfold joined in *. simpl. rewrite IH. symmetry. apply string_app_assoc.
Qed.

Section WrapWholeFacts.

Variable getTextWidth : string -> Q.
Variable availableWidth : Q.

Let fits (l : string) : Prop := getTextWidth l <= availableWidth.

(** Every count the inner loop went past measured within the width. *)
Lemma scanChars_passed steps w : forall c k,
  (c <= k)%nat -> (k < scanChars getTextWidth availableWidth steps w c)%nat ->
  fits (substring 0 k w).
Proof.
  induction steps as [|steps IH]; intros c k H1 H2; simpl in H2.
  - lia.
  - destruct (c <=? String.length w)%nat; [|lia].
    destruct (gt (getTextWidth (substring 0 c w)) availableWidth) eqn:G; [lia|].
    destruct (Nat.eq_dec k c) as [->|Ne].
    + unfold gt in G. apply negb_false_iff in G. apply Qle_bool_iff in G. exact G.
    + apply (IH (S c)); auto. lia.
Qed.

Lemma lineToAdd_fits w :
  (1 <= String.length w)%nat ->
  fits (lineToAdd getTextWidth availableWidth w) \/
  String.length (lineToAdd getTextWidth availableWidth w) = 1%nat.
Proof.
  intros Hw. unfold lineToAdd.
  set (c := scanChars getTextWidth availableWidth (S (String.length w)) w 1).
  destruct (Nat.le_gt_cases c 1) as [Small|Big].
  - right. rewrite length_substring_0. lia.
  - left. replace (Nat.max 1 (c - 1)) with (c - 1)%nat by lia.
    apply (scanChars_passed (S (String.length w)) w 1); [lia|]. fold c. lia.
Qed.

Lemma breakWord_pieces rounds : forall w lines,
  (String.length w <= rounds)%nat ->
  exists pieces,
    breakWord getTextWidth availableWidth rounds w lines = Some (lines ++ pieces) /\
    joined pieces = w /\
    Forall (fun l => fits l \/ String.length l = 1%nat) pieces.
Proof.
  induction rounds as [|rounds IH]; intros w lines H.
  - destruct w; simpl in H; [|lia]. exists []. simpl. rewrite app_nil_r. auto.
  - simpl. destruct (0 <? String.length w)%nat eqn:E.
    + apply Nat.ltb_lt in E.
      pose proof (length_lineToAdd getTextWidth availableWidth w E) as L.
      pose proof (lineToAdd_is_prefix getTextWidth availableWidth w) as Pre.
      pose proof (lineToAdd_fits w E) as Fit.
      set (l := lineToAdd getTextWidth availableWidth w) in *.
      set (rest := substringFrom (String.length l) w).
      assert (R : String.length rest = (String.length w - String.length l)%nat)
        by apply length_substringFrom.
      destruct (IH rest (lines ++ [l])) as (ps & Hb & Hj & Hall); [lia|].
      exists (l :: ps). rewrite Hb, <- app_assoc. simpl.
      split; [reflexivity|]. split.
      * rewrite Hj. unfold rest. rewrite Pre at 1. apply substring_split.
      * constructor; auto.
    + apply Nat.ltb_ge in E. destruct w; simpl in E; [|lia].
      exists []. rewrite app_nil_r. auto.
Qed.

Variable allWords : list string.

Let good (l : string) : Prop := fits l \/ In l allWords \/ String.length l = 1%nat.

Lemma wrapWords_spec words : forall currentLine lines,
  incl words allWords ->
  Forall good lines ->
  (currentLine = EmptyString \/ fits currentLine \/ In currentLine allWords) ->
  exists out,
    wrapWords getTextWidth availableWidth words currentLine lines = Some out /\
    Forall good out /\
    withoutWhiteSpace (joined out)
    = withoutWhiteSpace (joined lines ++ currentLine ++ joined words).
Proof.
  induction words as [|word words IH]; intros cur lines Hin Hlines Hcur.
  - simpl. destruct (truthyStr cur) eqn:T.
    + eexists. split; [reflexivity|]. split.
      * apply Forall_app. split; auto. constructor; auto.
        destruct Hcur as [->|[F|I]]; [discriminate| |]; unfold good; auto.
      * rewrite joined_app.
        change (joined [cur]) with (cur ++ "")%string.
        change (joined []) with ""%string. reflexivity.
    + apply truthyStr_false in T. subst cur.
      eexists. split; [reflexivity|]. split; auto.
      change (joined []) with ""%string. simpl. rewrite string_app_nil. reflexivity.
  - assert (Hin' : incl words allWords) by (intros a Ha; apply Hin; right; exact Ha).
    assert (Hw : In word allWords) by (apply Hin; left; reflexivity).
    cbn [wrapWords].
    change (joined (word :: words)) with (word ++ joined words)%string.
    destruct (le (getTextWidth (if truthyStr cur then (cur ++ " " ++ word)%string else word))
                availableWidth) eqn:Fit.
    + apply le_true_iff in Fit.
      destruct (IH (if truthyStr cur then (cur ++ " " ++ word)%string else word) lines
                  Hin' Hlines) as (out & Hrun & Hgood & Hkeep); [right; left; exact Fit|].
      exists out. split; [exact Hrun|]. split; [exact Hgood|].
      rewrite Hkeep. destruct (truthyStr cur) eqn:T.
      * rewrite !withoutWhiteSpace_app.
        change (withoutWhiteSpace " ") with EmptyString.
        change ("" ++ withoutWhiteSpace word)%string with (withoutWhiteSpace word).
        rewrite string_app_assoc. reflexivity.
      * apply truthyStr_false in T. subst cur. reflexivity.
    + destruct (truthyStr cur) eqn:T.
      * destruct (IH word (lines ++ [cur]) Hin') as (out & Hrun & Hgood & Hkeep).
        { apply Forall_app. split; auto. constructor; auto.
          destruct Hcur as [->|[F|I]]; [discriminate| |]; unfold good; auto. }
        { right; right; exact Hw. }
        exists out. split; [exact Hrun|]. split; [exact Hgood|].
        rewrite Hkeep, joined_app.
        change (joined [cur]) with (cur ++ "")%string.
        rewrite string_app_nil, string_app_assoc. reflexivity.
      * apply truthyStr_false in T. subst cur.
        destruct (breakWord_pieces (String.length word) word lines (Nat.le_refl _))
          as (pieces & Hb & Hj & Hall).
        rewrite Hb.
        destruct (IH EmptyString (lines ++ pieces) Hin') as (out & Hrun & Hgood & Hkeep).
        { apply Forall_app. split; auto.
          eapply Forall_impl; [|exact Hall]. intros l [F|L]; unfold good; auto. }
        { left; reflexivity. }
        exists out. split; [exact Hrun|]. split; [exact Hgood|].
        rewrite Hkeep, joined_app, Hj. simpl. rewrite string_app_assoc. reflexivity.
Qed.

End WrapWholeFacts.

(** X6.  The fallback wrap of [renderTextElement], for every text, every
    measuring function and every width: it ends and returns its lines; the
    lines hold the characters of the text other than white space, all of
    them, once, in their order; and a line that does not fit the available
    width is either a single character or a whole word of the text. *)
Theorem fallback_wrap_keeps_the_text (getTextWidth : string -> Q) (availableWidth : Q)
    (content : string) :
  exists lines : list string,
    wrapFallback getTextWidth availableWidth content = Some lines /\
    withoutWhiteSpace (joined lines) = withoutWhiteSpace content /\
    Forall (fun l => getTextWidth l <= availableWidth \/
                     In l (split_ws content) \/
                     String.length l = 1%nat) lines.
Proof.
  unfold wrapFallback.
  destruct (wrapWords_spec getTextWidth availableWidth (split_ws content)
              (split_ws content) EmptyString [])
    as (out & Hrun & Hgood & Hkeep).
  - apply incl_refl.
  - constructor.
  - left; reflexivity.
  - exists out. split; [exact Hrun|]. split; [|exact Hgood].
    rewrite Hkeep. simpl. unfold split_ws. rewrite splitWhiteSpace_keeps_letters.
    reflexivity.
Qed.

(** X7.  The hard break is tried only on a word that starts its line.  A
    word that does not fit after a non-empty line closes that line and
    becomes the next line whole, whatever its own width: it is not broken. *)
Theorem word_after_a_line_is_not_broken (getTextWidth : string -> Q)
    (availableWidth : Q) (first second : string) :
  first <> EmptyString -> second <> EmptyString ->
  getTextWidth first <= availableWidth ->
  availableWidth < getTextWidth (first ++ " " ++ second)%string ->
  wrapWords getTextWidth availableWidth [first; second] EmptyString []
  = Some [first; second].
Proof.
  intros H1 H2 Fit Over.
  cbn [wrapWords]. change (truthyStr EmptyString) with false. cbv iota.
  apply le_true_iff in Fit. rewrite Fit.
  destruct first as [|c first]; [congruence|].
  change (truthyStr (String c first)) with true. cbv iota.
  apply le_false_iff in Over. rewrite Over.
  destruct second as [|d second]; [congruence|]. reflexivity.
Qed.

Lemma word_after_a_line_example :
  50 < sixPerChar (repeatChar "a" 200) /\
  wrapWords sixPerChar 50 ["a"%string; repeatChar "a" 200] EmptyString []
  = Some ["a"%string; repeatChar "a" 200].
Proof.
  split; [vm_compute; reflexivity|].
  apply (word_after_a_line_is_not_broken sixPerChar 50 "a" (repeatChar "a" 200)).
  - discriminate.
  - discriminate.
  - vm_compute; discriminate.
  - vm_compute; reflexivity.
Defined.

(** *** The order of the slide files *)

Lemma digit_char k :
  (k < 10)%nat ->
  let c := ascii_of_nat (48 + k) in
  digitIn 10 c = Some (Z.of_nat k) /\ isDecimalDigit c = true /\
  isWhiteSpace c = false /\ c <> "-"%char /\ c <> "+"%char.
Proof.
  intros H.
  do 10 (destruct k as [|k]; [vm_compute; repeat split; discriminate|]).
  lia.
Qed.

(** The decimal digits of [n], as [natToString] writes them, read back. *)
Lemma digitsOf_spec fuel : forall n acc,
  (n < fuel)%nat ->
  exists c ds,
    digitsOf fuel n acc = (String c ds ++ acc)%string /\
    allDecimalDigits (String c ds) = true /\
    isWhiteSpace c = false /\ c <> "-"%char /\ c <> "+"%char /\
    forall rest,
      readDigits 10 (String c ds ++ rest) None
      = readDigits 10 rest (Some (Z.of_nat n)).
Proof.
  induction fuel as [|fuel IH]; intros n acc H; [lia|].
  cbn [digitsOf].
  assert (M : (n mod 10 < 10)%nat) by (apply Nat.mod_upper_bound; lia).
  destruct (digit_char (n mod 10) M) as (Dv & Dd & Dw & Dm & Dp).
  set (d := ascii_of_nat (48 + n mod 10)) in *. clearbody d.
  destruct (n <? 10)%nat eqn:Small.
  - apply Nat.ltb_lt in Small. rewrite Nat.mod_small in Dv by exact Small.
    exists d, EmptyString. simpl. rewrite Dd, Dv.
    repeat split; auto.
  - apply Nat.ltb_ge in Small.
    assert (Hdiv : (n / 10 < fuel)%nat).
    { pose proof (Nat.div_lt n 10). lia. }
    destruct (IH (n / 10)%nat (String d acc) Hdiv) as (c & ds & Hrun & Hall & Hw & Hm & Hp & Hval).
    exists c, (ds ++ String d EmptyString)%string.
    split; [rewrite Hrun; simpl; rewrite string_app_assoc; reflexivity|].
    split.
    { simpl in *. apply andb_prop in Hall. destruct Hall as [Hc Hds]. rewrite Hc. simpl.
      clear - Hds Dd. induction ds as [|e ds IHds]; simpl in *.
      - rewrite Dd. reflexivity.
      - apply andb_prop in Hds. destruct Hds as [He Hds]. rewrite He. simpl. auto. }
    repeat split; auto.
    intros rest.
    change (String c (ds ++ String d "") ++ rest)%string
      with (String c ((ds ++ String d "") ++ rest))%string.
    rewrite string_app_assoc.
    change (String c (ds ++ String d "" ++ rest))%string
      with (String c ds ++ String d rest)%string.
    rewrite Hval. cbn [readDigits]. rewrite Dv. f_equal. f_equal.
    pose proof (Nat.div_mod_eq n 10) as Hn. lia.
Qed.

Lemma natToString_spec n :
  exists c ds,
    natToString n = String c ds /\
    allDecimalDigits (String c ds) = true /\
    parseIntRadix 10 (String c ds) = Some (Z.of_nat n).
Proof.
  destruct (digitsOf_spec (S n) n EmptyString (Nat.lt_succ_diag_r n))
    as (c & ds & Hrun & Hall & Hw & Hm & Hp & Hval).
  exists c, ds. unfold natToString. rewrite Hrun, string_app_nil.
  split; [reflexivity|]. split; [exact Hall|].
  unfold parseIntRadix. cbn [trimStart]. rewrite Hw.
  assert (Plain : match String c ds with
                  | String "-" s' => (true, s')
                  | String "+" s' => (false, s')
                  | _ => (false, String c ds)
                  end = (false, String c ds)).
  { destruct c as [[] [] [] [] [] [] [] []]; try reflexivity; congruence. }
  rewrite Plain. change (10 =? 16)%Z with false. cbv iota.
  specialize (Hval EmptyString). rewrite string_app_nil in Hval. rewrite Hval.
  reflexivity.
Qed.

Lemma leadingDigits_app ds rest :
  allDecimalDigits ds = true ->
  leadingDigits (ds ++ String "." rest) = (ds, String "." rest).
Proof.
  induction ds as [|c ds IH]; intros H; simpl in *.
  - reflexivity.
  - apply andb_prop in H. destruct H as [Hc Hds]. rewrite Hc, (IH Hds). reflexivity.
Qed.

Lemma matchSlideNumber_skip c t :
  matchSlideNumberAt (String c t) = None ->
  matchSlideNumber (String c t) = matchSlideNumber t.
Proof.
  intros H.
  change (matchSlideNumber (String c t))
    with (match matchSlideNumberAt (String c t) with
          | Some digits => Some digits
          | None => matchSlideNumber t
          end).
  rewrite H. reflexivity.
Qed.

Lemma matchSlideNumberAt_slide t :
  matchSlideNumberAt ("slide" ++ t)
  = let '(digits, rest) := leadingDigits t in
    if truthyStr digits && String.eqb rest ".xml" then Some digits else None.
Proof.
  unfold matchSlideNumberAt.
  assert (Pre : prefix "slide" ("slide" ++ t) = true) by (destruct t; reflexivity).
  rewrite Pre.
  assert (Sub : substringFrom 5 ("slide" ++ t) = t).
  { unfold substringFrom.
    change (String.length ("slide" ++ t)) with (5 + String.length t)%nat.
    replace (5 + String.length t - 5)%nat with (String.length t) by lia.
    apply (substring_skip_app "slide" t). }
  rewrite Sub. reflexivity.
Qed.

Lemma matchSlideNumber_in_slides t :
  matchSlideNumber ("ppt/slides/" ++ t) = matchSlideNumber t.
Proof.
  change ("ppt/slides/" ++ t)%string
    with (String "p" (String "p" (String "t" (String "/"
            (String "s" (String "l" (String "i" (String "d" (String "e"
               (String "s" (String "/" t))))))))))).
  do 4 (rewrite matchSlideNumber_skip by reflexivity).
  rewrite matchSlideNumber_skip
    by exact (matchSlideNumberAt_slide (String "s" (String "/" t))).
  do 6 (rewrite matchSlideNumber_skip by reflexivity).
  reflexivity.
Qed.

(** A text of decimal digits is read in base 10. *)
Lemma integerOf_decimal c ds :
  allDecimalDigits (String c ds) = true ->
  integerOf (String c ds) = parseIntRadix 10 (String c ds).
Proof.
  intros Hall. cbn [allDecimalDigits] in Hall.
  apply andb_prop in Hall. destruct Hall as [Hc Hds].
  assert (Hw : isWhiteSpace c = false /\ c <> "-"%char /\ c <> "+"%char).
  { destruct c as [[] [] [] [] [] [] [] []]; vm_compute in Hc; try discriminate Hc;
      (split; [reflexivity|]; split; discriminate). }
  destruct Hw as (Hw & Hm & Hp).
  unfold integerOf. cbv zeta. cbn [trimStart]. rewrite Hw.
  assert (Plain : match String c ds with
                  | String "-" s' => s'
                  | String "+" s' => s'
                  | _ => String c ds
                  end = String c ds).
  { destruct c as [[] [] [] [] [] [] [] []]; try reflexivity; congruence. }
  rewrite Plain.
  assert (NoPrefix : forall p, (p = "x" \/ p = "X")%char ->
            prefix (String "0" (String p "")) (String c ds) = false).
  { intros p Hx. destruct ds as [|c2 ds]; cbn [prefix];
      (destruct (ascii_dec "0" c); [|reflexivity]); [reflexivity|].
    destruct (ascii_dec p c2) as [<-|]; [|reflexivity].
    cbn [allDecimalDigits] in Hds. apply andb_prop in Hds. destruct Hds as [H2 _].
    destruct Hx as [->| ->]; vm_compute in H2; discriminate. }
  change "0x"%string with (String "0" (String "x" "")).
  change "0X"%string with (String "0" (String "X" "")).
  rewrite (NoPrefix "x"%char), (NoPrefix "X"%char) by auto. reflexivity.
Qed.

(** The number PowerPoint puts in the name of a slide file is the number
    the sort reads back, rounded to a double. *)
Lemma slidePath_number n :
  isSlideFile (slidePath n) = true /\
  slideNumber (slidePath n) = Some (toDouble (inject_Z (Z.of_nat n))).
Proof.
  destruct (natToString_spec n) as (c & ds & Hs & Hall & Hval).
  unfold slidePath. rewrite Hs. split.
  - unfold isSlideFile. apply andb_true_iff. split.
    + reflexivity.
    + rewrite <- string_app_assoc. apply endsWith_app.
  - unfold slideNumber, slideDigits, parseInt.
    rewrite <- (integerOf_decimal c ds Hall) in Hval.
    set (digits := String c ds) in *.
    assert (Hm : matchSlideNumber ("ppt/slides/slide" ++ digits ++ ".xml") = Some digits).
    { change ("ppt/slides/slide" ++ digits ++ ".xml")%string
        with ("ppt/slides/" ++ ("slide" ++ digits ++ ".xml"))%string.
      rewrite matchSlideNumber_in_slides.
      change (matchSlideNumber ("slide" ++ digits ++ ".xml"))
        with (match matchSlideNumberAt ("slide" ++ digits ++ ".xml") with
              | Some d => Some d
              | None => matchSlideNumber ("lide" ++ digits ++ ".xml")
              end).
      rewrite matchSlideNumberAt_slide.
      rewrite (leadingDigits_app digits "xml" Hall). reflexivity. }
    rewrite Hm. change (orStr digits "0") with digits. rewrite Hval. reflexivity.
Qed.

Lemma decimal_digit_value c :
  isDecimalDigit c = true ->
  isWhiteSpace c = false /\ c <> "-"%char /\ c <> "+"%char /\
  exists d, digitIn 10 c = Some d /\ (0 <= d)%Z.
Proof.
  destruct c as [[] [] [] [] [] [] [] []]; vm_compute; intros H;
    try discriminate H;
    (split; [reflexivity|]; split; [discriminate|]; split; [discriminate|]);
    eexists; (split; [reflexivity|]); discriminate.
Qed.

Lemma readDigits_digits ds : forall a,
  allDecimalDigits ds = true -> (0 <= a)%Z ->
  exists v, readDigits 10 ds (Some a) = Some v /\ (0 <= v)%Z.
Proof.
  induction ds as [|c ds IH]; intros a Hall Ha.
  - exists a. split; [reflexivity | exact Ha].
  - cbn [allDecimalDigits] in Hall. apply andb_prop in Hall. destruct Hall as [Hc Hds].
    destruct (decimal_digit_value c Hc) as (_ & _ & _ & d & Hd & Hpos).
    cbn [readDigits]. rewrite Hd. apply IH; auto. lia.
Qed.

Lemma parseInt_digits c ds :
  allDecimalDigits (String c ds) = true ->
  exists v, parseIntRadix 10 (String c ds) = Some v /\ (0 <= v)%Z.
Proof.
  intros Hall. cbn [allDecimalDigits] in Hall.
  apply andb_prop in Hall. destruct Hall as [Hc Hds].
  destruct (decimal_digit_value c Hc) as (Hw & Hm & Hp & d & Hd & Hpos).
  unfold parseIntRadix. cbn [trimStart]. rewrite Hw.
  assert (Plain : match String c ds with
                  | String "-" s' => (true, s')
                  | String "+" s' => (false, s')
                  | _ => (false, String c ds)
                  end = (false, String c ds)).
  { destruct c as [[] [] [] [] [] [] [] []]; try reflexivity; congruence. }
  rewrite Plain. change (10 =? 16)%Z with false. cbv iota.
  cbn [readDigits]. rewrite Hd.
  destruct (readDigits_digits ds d Hds Hpos) as (v & Hv & Hv0).
  rewrite Hv. exists v. split; [reflexivity | exact Hv0].
Qed.

Lemma leadingDigits_digits s :
  allDecimalDigits (fst (leadingDigits s)) = true.
Proof.
  induction s as [|c s IH]; simpl; auto.
  destruct (isDecimalDigit c) eqn:E; [|reflexivity].
  destruct (leadingDigits s) as [d r]. simpl in *. rewrite E, IH. reflexivity.
Qed.

Lemma matchSlideNumberAt_digits s digits :
  matchSlideNumberAt s = Some digits ->
  truthyStr digits = true /\ allDecimalDigits digits = true.
Proof.
  unfold matchSlideNumberAt. destruct (prefix "slide" s); [|discriminate].
  pose proof (leadingDigits_digits (substringFrom 5 s)) as Hall.
  destruct (leadingDigits (substringFrom 5 s)) as [d r]. simpl in Hall.
  destruct (truthyStr d) eqn:T; simpl; [|discriminate].
  destruct (String.eqb r ".xml"); [|discriminate].
  intros H. injection H as <-. auto.
Qed.

Lemma matchSlideNumber_digits s : forall digits,
  matchSlideNumber s = Some digits ->
  truthyStr digits = true /\ allDecimalDigits digits = true.
Proof.
  induction s as [|c s IH]; intros digits.
  - cbn [matchSlideNumber].
    destruct (matchSlideNumberAt EmptyString) eqn:E; [|discriminate].
    intros H. injection H as <-. exact (matchSlideNumberAt_digits _ _ E).
  - cbn [matchSlideNumber].
    destruct (matchSlideNumberAt (String c s)) eqn:E.
    + intros H. injection H as <-. exact (matchSlideNumberAt_digits _ _ E).
    + apply IH.
Qed.

(** The number read off a file name is never NaN, and never negative: it
    is the double next to the integer its digits write. *)
Lemma slideNumber_total filename :
  exists n,
    (0 <= n)%Z /\ integerOf (slideDigits filename) = Some n /\
    slideNumber filename = Some (toDouble (inject_Z n)).
Proof.
  unfold slideNumber, slideDigits, parseInt.
  destruct (matchSlideNumber filename) as [digits|] eqn:M.
  - destruct (matchSlideNumber_digits _ _ M) as [T Hall].
    destruct digits as [|c ds]; [discriminate|].
    change (orStr (String c ds) "0") with (String c ds).
    rewrite (integerOf_decimal c ds Hall).
    destruct (parseInt_digits c ds Hall) as (v & -> & Hv).
    exists v. auto.
  - exists 0%Z. split; [lia|]. split; reflexivity.
Qed.

Lemma compareSlideFiles_sign a b :
  le (compareSlideFiles a b) 0 = le (slideKey a - slideKey b) 0.
Proof.
  unfold compareSlideFiles, slideKey.
  destruct (slideNumber_total a) as (x & _ & _ & ->).
  destruct (slideNumber_total b) as (y & _ & _ & ->).
  apply toDouble_nonpos.
Qed.

(** X8.  The slide files of an archive, whatever the order of its
    entries, when the numbers in the names of its entries have at most 20
    significant digits: [slideFiles]
    holds exactly the entries named ppt/slides/slide....xml, each as often
    as the archive lists it, in ascending order of the double [parseInt]
    reads off the name (10 after 2, not before), entries of equal double
    in the archive's order.  That double is never NaN: it is the double
    next to the integer the digits write, so for the name PowerPoint gives
    slide [n] it is [n] when [n] is below 2^53, while the names of the
    slides 2^53 + 1 and 2^53 give the same double and stay in the
    archive's order. *)
Theorem slide_files_are_sorted_by_number (filenames : list string) :
  forallb atMostTwentyDigits filenames = true ->
  Permutation (filter isSlideFile filenames) (slideFilesOf filenames) /\
  StronglySorted (fun a b => slideKey a <= slideKey b) (slideFilesOf filenames) /\
  (forall k : Q,
     filter (fun a => Qeq_bool (slideKey a) k) (slideFilesOf filenames)
     = filter (fun a => Qeq_bool (slideKey a) k) (filter isSlideFile filenames)) /\
  (forall a : string, exists n : Z,
     (0 <= n)%Z /\ integerOf (slideDigits a) = Some n /\
     slideNumber a = Some (toDouble (inject_Z n))) /\
  (forall n : nat,
     isSlideFile (slidePath n) = true /\
     ((Z.of_nat n < 9007199254740992)%Z ->
      slideKey (slidePath n) == inject_Z (Z.of_nat n))) /\
  slideKey "ppt/slides/slide9007199254740993.xml"
  == slideKey "ppt/slides/slide9007199254740992.xml".
Proof.
  intros _. unfold slideFilesOf.
  rewrite (sort_sign compareSlideFiles (fun a b => slideKey a - slideKey b)
             _ compareSlideFiles_sign).
  split; [apply (sort_perm slideKey)|].
  split; [exact (sort_sorted slideKey (filter isSlideFile filenames))|].
  split; [intros k; exact (sort_stable slideKey k (filter isSlideFile filenames))|].
  split; [exact slideNumber_total|].
  split; [|vm_compute; reflexivity].
  intros n. destruct (slidePath_number n) as [Hf Hn].
  split; [exact Hf|]. intros Small. unfold slideKey. rewrite Hn.
  apply toDouble_integer. lia.
Qed.

Lemma slide_files_example :
  forallb atMostTwentyDigits exampleEntries = true /\
  slideFilesOf exampleEntries
  = [ "ppt/slides/slide2.xml"; "ppt/slides/slide10.xml";
      "ppt/slides/slide9007199254740993.xml";
      "ppt/slides/slide9007199254740992.xml" ]%string /\
  StronglySorted (fun a b => slideKey a <= slideKey b) (slideFilesOf exampleEntries).
Proof.
  split; [vm_compute; reflexivity|].
  split; [vm_compute; reflexivity|].
  exact (proj1 (proj2 (slide_files_are_sorted_by_number exampleEntries
                         ltac:(vm_compute; reflexivity)))).
Defined.

(** *** The numbering of the extracted elements *)

Lemma extractTextElementsFrom_numbered textBoxes : forall start,
  numberedFrom "text" text start (extractTextElementsFrom start textBoxes).
Proof.
  induction textBoxes as [|textBox rest IH]; intros start k e.
  - destruct k; discriminate.
  - cbn [extractTextElementsFrom].
    destruct (box_position textBox) as [position|]; [|apply IH].
    destruct (negb (truthyStr (trim (box_text textBox)))); [apply IH|].
    destruct k as [|k].
    + intros H. injection H as <-. rewrite Nat.add_0_r. auto.
    + cbn [nth_error]. intros H. destruct (IH (S start) k e H) as (Hid & Hz & Ht).
      rewrite Nat.add_succ_r. auto.
Qed.

Lemma extractImageElementsFrom_numbered relTarget mediaMap images : forall start,
  numberedFrom "image" image start
    (extractImageElementsFrom relTarget mediaMap start images).
Proof.
  induction images as [|picture rest IH]; intros start k e.
  - destruct k; discriminate.
  - cbn [extractImageElementsFrom].
    destruct (pic_position picture) as [position|]; [|apply IH].
    destruct (pic_embed picture) as [relId|]; [|apply IH].
    destruct (relTarget relId) as [target|]; [|apply IH].
    destruct (mediaMap target) as [imageSrc|]; [|apply IH].
    destruct (truthyStr imageSrc); [|apply IH].
    destruct k as [|k].
    + intros H. injection H as <-. rewrite Nat.add_0_r. auto.
    + cbn [nth_error]. intros H. destruct (IH (S start) k e H) as (Hid & Hz & Ht).
      rewrite Nat.add_succ_r. auto.
Qed.

Lemma extractShapeElementsFrom_numbered shapes : forall start,
  numberedFrom "shape" shape start (extractShapeElementsFrom start shapes).
Proof.
  induction shapes as [|sp rest IH]; intros start k e.
  - destruct k; discriminate.
  - cbn [extractShapeElementsFrom].
    destruct (shape_position sp) as [position|]; [|apply IH].
    destruct k as [|k].
    + intros H. injection H as <-. rewrite Nat.add_0_r. auto.
    + cbn [nth_error]. intros H. destruct (IH (S start) k e H) as (Hid & Hz & Ht).
      rewrite Nat.add_succ_r. auto.
Qed.

Lemma extractTableElementsFrom_numbered tables : forall start,
  numberedFrom "table" table start (extractTableElementsFrom start tables).
Proof.
  induction tables as [|frame rest IH]; intros start k e.
  - destruct k; discriminate.
  - cbn [extractTableElementsFrom].
    destruct (frame_position frame) as [position|]; [|apply IH].
    destruct k as [|k].
    + intros H. injection H as <-. rewrite Nat.add_0_r. auto.
    + cbn [nth_error]. intros H. destruct (IH (S start) k e H) as (Hid & Hz & Ht).
      rewrite Nat.add_succ_r. auto.
Qed.

Lemma extractTextElementsFrom_kept textBoxes : forall start,
  map (fun e => (el_position e, el_content e)) (extractTextElementsFrom start textBoxes)
  = flat_map (fun textBox =>
      match box_position textBox with
      | Some position =>
          if truthyStr (trim (box_text textBox))
          then [(position, TextContent (box_text textBox) (Some (box_style textBox)))]
          else []
      | None => []
      end) textBoxes.
Proof.
  induction textBoxes as [|textBox rest IH]; intros start; [reflexivity|].
  cbn [extractTextElementsFrom flat_map].
  destruct (box_position textBox) as [position|]; [|apply IH].
  destruct (truthyStr (trim (box_text textBox))); simpl; [|apply IH].
  rewrite IH. reflexivity.
Qed.

Lemma extractImageElementsFrom_kept relTarget mediaMap images : forall start,
  map (fun e => (el_position e, el_content e))
    (extractImageElementsFrom relTarget mediaMap start images)
  = flat_map (fun picture =>
      match pic_position picture, pic_embed picture with
      | Some position, Some relId =>
          match relTarget relId with
          | Some target =>
              match mediaMap target with
              | Some (String c src) =>
                  [(position, ImageContent (String c src) (Some target))]
              | _ => []
              end
          | None => []
          end
      | _, _ => []
      end) images.
Proof.
  induction images as [|picture rest IH]; intros start; [reflexivity|].
  cbn [extractImageElementsFrom flat_map].
  destruct (pic_position picture) as [position|]; [|apply IH].
  destruct (pic_embed picture) as [relId|]; [|apply IH].
  destruct (relTarget relId) as [target|]; [|apply IH].
  destruct (mediaMap target) as [[|c src]|]; simpl; try apply IH.
  rewrite IH. reflexivity.
Qed.

(** X9.  The extractors of [parseSlideXml] number what they keep, not
    what they find: in the list each returns, the element at place [k]
    has the id kind-k and the z-index [k + 1], with no gap where a match
    was dropped; and the numbering starts again for each kind.  A text
    box is kept when it has a position and its text is not blank, a
    picture when it has a position, an embed id, a relationship target
    and a non-empty entry in the media map for that target; what is kept
    keeps the order of the matches. *)
Theorem extracted_elements_are_numbered_without_gaps
    (relTarget mediaMap : string -> option string)
    (textBoxes : list TextBoxMatch) (images : list PictureMatch)
    (shapes : list ShapeMatch) (tables : list TableMatch) :
  numberedFrom "text" text 0 (extractTextElements textBoxes) /\
  numberedFrom "image" image 0 (extractImageElements relTarget mediaMap images) /\
  numberedFrom "shape" shape 0 (extractShapeElements shapes) /\
  numberedFrom "table" table 0 (extractTableElements tables) /\
  map (fun e => (el_position e, el_content e)) (extractTextElements textBoxes)
  = flat_map (fun textBox =>
      match box_position textBox with
      | Some position =>
          if truthyStr (trim (box_text textBox))
          then [(position, TextContent (box_text textBox) (Some (box_style textBox)))]
          else []
      | None => []
      end) textBoxes /\
  map (fun e => (el_position e, el_content e))
    (extractImageElements relTarget mediaMap images)
  = flat_map (fun picture =>
      match pic_position picture, pic_embed picture with
      | Some position, Some relId =>
          match relTarget relId with
          | Some target =>
              match mediaMap target with
              | Some (String c src) =>
                  [(position, ImageContent (String c src) (Some target))]
              | _ => []
              end
          | None => []
          end
      | _, _ => []
      end) images.
Proof.
  split; [apply extractTextElementsFrom_numbered|].
  split; [apply extractImageElementsFrom_numbered|].
  split; [apply extractShapeElementsFrom_numbered|].
  split; [apply extractTableElementsFrom_numbered|].
  split; [apply extractTextElementsFrom_kept | apply extractImageElementsFrom_kept].
Qed.

(** *** The order in which the extracted elements are painted *)

Lemma StronglySorted_app {A : Type} (R : A -> A -> Prop) l1 l2 :
  StronglySorted R l1 -> StronglySorted R l2 ->
  (forall a b, In a l1 -> In b l2 -> R a b) ->
  StronglySorted R (l1 ++ l2).
Proof.
  intros S1 S2 H. induction S1 as [|a l1 S1 IH Hall]; simpl; auto.
  constructor.
  - apply IH. intros x y Hx Hy. apply H; [right|]; auto.
  - apply Forall_app. split; auto.
    apply Forall_forall. intros b Hb. apply H; [left|]; auto.
Qed.

Lemma filter_flat_map {A B : Type} (f : B -> bool) (g : A -> list B) l :
  filter f (flat_map g l) = flat_map (fun a => filter f (g a)) l.
Proof.
  induction l as [|a l IH]; simpl; auto. rewrite filter_app, IH. reflexivity.
Qed.

Lemma concat_as_flat_map {A : Type} (l : list (list A)) :
  List.concat l = flat_map (fun g => g) l.
Proof. induction l as [|g l IH]; simpl; congruence. Qed.

Lemma flat_map_nil {A B : Type} (l : list A) :
  flat_map (fun _ : A => @nil B) l = [].
Proof. induction l; simpl; auto. Qed.

Lemma flat_map_ext_in {A B : Type} (f g : A -> list B) l :
  (forall a, In a l -> f a = g a) -> flat_map f l = flat_map g l.
Proof.
  intros H. induction l as [|a l IH]; simpl; auto.
  rewrite H by (left; reflexivity). rewrite IH; auto.
  intros b Hb. apply H. right. exact Hb.
Qed.

Lemma indexOf_spec k q : ofNat (S k) == q <-> indexOf q = Some k.
Proof.
  unfold indexOf, ofNat. split.
  - intros E.
    assert (F : Qfloor q = Z.of_nat (S k)) by (rewrite <- E; apply Qfloor_Z).
    rewrite F, Nat2Z.id.
    assert (T : Qeq_bool q (inject_Z (Z.of_nat (S k))) = true)
      by (apply Qeq_bool_iff; symmetry; exact E).
    rewrite T. simpl. rewrite Nat.sub_0_r. reflexivity.
  - destruct (Qeq_bool q (inject_Z (Z.of_nat (Z.to_nat (Qfloor q))))) eqn:T; [|discriminate].
    destruct (0 <? Z.to_nat (Qfloor q))%nat eqn:P; [|discriminate].
    cbn [andb]. intros H. injection H as <-.
    apply Qeq_bool_iff in T. apply Nat.ltb_lt in P.
    replace (S (Z.to_nat (Qfloor q) - 1)) with (Z.to_nat (Qfloor q)) by lia.
    symmetry. exact T.
Qed.

Section RoundRobinFacts.

Context {A : Type}.
Variable key : A -> Q.

Let keyIs (q : Q) (a : A) : bool := Qeq_bool (key a) q.
Let keyLe (a b : A) : Prop := key a <= key b.

(** The element at place [i] has the key [start + i + 1]. *)
Let indexedFrom (start : nat) (g : list A) : Prop :=
  forall i e, nth_error g i = Some e -> key e == ofNat (S (start + i)).

Lemma keyIs_index q e k :
  key e == ofNat (S k) ->
  keyIs q e = match indexOf q with Some k' => (k' =? k)%nat | None => false end.
Proof.
  intros E. unfold keyIs.
  destruct (indexOf q) as [k'|] eqn:I.
  - apply indexOf_spec in I.
    destruct (k' =? k)%nat eqn:Eq.
    + apply Nat.eqb_eq in Eq. subst k'. apply Qeq_bool_iff. rewrite E. exact I.
    + destruct (Qeq_bool (key e) q) eqn:T; auto.
      apply Qeq_bool_iff in T. apply Nat.eqb_neq in Eq. exfalso. apply Eq.
      assert (X : ofNat (S k') == ofNat (S k)) by (rewrite I, <- T, E; reflexivity).
      unfold ofNat in X. apply eq_sym in X || idtac.
      unfold Qeq in X. simpl in X. lia.
  - destruct (Qeq_bool (key e) q) eqn:T; auto.
    apply Qeq_bool_iff in T.
    assert (X : indexOf q = Some k) by (apply indexOf_spec; rewrite <- E; exact T).
    congruence.
Qed.

Lemma filter_indexed q g : forall start,
  indexedFrom start g ->
  filter (keyIs q) g
  = match indexOf q with
    | Some k => if (start <=? k)%nat then pick (k - start) g else []
    | None => []
    end.
Proof.
  induction g as [|e g IH]; intros start Hg.
  - simpl. destruct (indexOf q) as [k|]; auto.
    destruct (start <=? k)%nat; auto. unfold pick. destruct (k - start)%nat; reflexivity.
  - assert (He : key e == ofNat (S start)).
    { rewrite <- (Nat.add_0_r start) at 1. apply (Hg 0%nat e). reflexivity. }
    assert (Hg' : indexedFrom (S start) g).
    { intros i x Hx. rewrite Nat.add_succ_l, <- Nat.add_succ_r. apply Hg. exact Hx. }
    cbn [filter]. rewrite (keyIs_index q e start He), (IH (S start) Hg').
    destruct (indexOf q) as [k|]; auto.
    destruct (k =? start)%nat eqn:Eq.
    + apply Nat.eqb_eq in Eq. subst k.
      rewrite Nat.leb_refl, Nat.sub_diag.
      replace (S start <=? start)%nat with false by (symmetry; apply Nat.leb_gt; lia).
      reflexivity.
    + apply Nat.eqb_neq in Eq.
      destruct (start <=? k)%nat eqn:L.
      * apply Nat.leb_le in L.
        replace (S start <=? k)%nat with true by (symmetry; apply Nat.leb_le; lia).
        replace (k - start)%nat with (S (k - S start)) by lia. reflexivity.
      * apply Nat.leb_gt in L.
        replace (S start <=? k)%nat with false by (symmetry; apply Nat.leb_gt; lia).
        reflexivity.
Qed.

Variable groups : list (list A).
Hypothesis groups_indexed : Forall (indexedFrom 0) groups.

Let row (k : nat) : list A := flat_map (pick k) groups.

Lemma row_keys k e : In e (row k) -> key e == ofNat (S k).
Proof.
  unfold row. intros H. apply in_flat_map in H. destruct H as (g & Hg & He).
  unfold pick in He. destruct (nth_error g k) as [x|] eqn:N; [|destruct He].
  destruct He as [<-|[]].
  rewrite Forall_forall in groups_indexed.
  apply (groups_indexed g Hg k x N).
Qed.

Lemma row_beyond k :
  (fold_right Nat.max 0%nat (map (@List.length A) groups) <= k)%nat -> row k = [].
Proof.
  unfold row. clear groups_indexed. induction groups as [|g gs IH]; simpl; auto.
  intros H. rewrite IH by lia.
  unfold pick. replace (nth_error g k) with (@None A); auto.
  symmetry. apply nth_error_None. lia.
Qed.

Lemma filter_row q k :
  filter (keyIs q) (row k)
  = match indexOf q with
    | Some k' => if (k' =? k)%nat then row k else []
    | None => []
    end.
Proof.
  assert (G : forall l, (forall e, In e l -> key e == ofNat (S k)) ->
              filter (keyIs q) l
              = match indexOf q with
                | Some k' => if (k' =? k)%nat then l else []
                | None => []
                end).
  { induction l as [|e l IH]; intros Hl.
    - simpl. destruct (indexOf q) as [k'|]; auto. destruct (k' =? k)%nat; auto.
    - cbn [filter]. rewrite (keyIs_index q e k) by (apply Hl; left; reflexivity).
      rewrite IH by (intros x Hx; apply Hl; right; exact Hx).
      destruct (indexOf q) as [k'|]; auto. destruct (k' =? k)%nat; auto. }
  apply G. apply row_keys.
Qed.

Lemma flat_map_single (F : nat -> list A) k0 n : forall start,
  flat_map (fun k => if (k0 =? k)%nat then F k else []) (seq start n)
  = if ((start <=? k0) && (k0 <? start + n))%nat then F k0 else [].
Proof.
  induction n as [|n IH]; intros start.
  - simpl. replace ((start <=? k0) && (k0 <? start + 0))%nat with false; auto.
    symmetry. apply andb_false_iff.
    destruct (Nat.le_gt_cases start k0); [right; apply Nat.ltb_ge | left; apply Nat.leb_gt]; lia.
  - cbn [seq flat_map]. rewrite IH.
    destruct (Nat.eq_dec k0 start) as [->|E].
    + rewrite Nat.eqb_refl.
      assert (C1 : ((start <=? start) && (start <? start + S n))%nat = true)
        by (apply andb_true_iff; split; [apply Nat.leb_le | apply Nat.ltb_lt]; lia).
      assert (C2 : ((S start <=? start) && (start <? S start + n))%nat = false)
        by (apply andb_false_iff; left; apply Nat.leb_gt; lia).
      rewrite C1, C2. apply app_nil_r.
    + assert (N : (k0 =? start)%nat = false) by (apply Nat.eqb_neq; exact E).
      rewrite N. cbn [app].
      assert (C : ((S start <=? k0) && (k0 <? S start + n))%nat
                  = ((start <=? k0) && (k0 <? start + S n))%nat).
      { apply Bool.eq_iff_eq_true.
        rewrite !andb_true_iff, !Nat.leb_le, !Nat.ltb_lt. lia. }
      rewrite C. reflexivity.
Qed.

Lemma rows_sorted n : forall start,
  StronglySorted keyLe (flat_map row (seq start n)) /\
  forall e, In e (flat_map row (seq start n)) ->
    exists k, (start <= k)%nat /\ key e == ofNat (S k).
Proof.
  induction n as [|n IH]; intros start.
  - simpl. split; [constructor | intros e []].
  - cbn [seq flat_map]. destruct (IH (S start)) as [S2 K2]. split.
    + apply StronglySorted_app; auto.
      * assert (G : forall l, (forall e, In e l -> key e == ofNat (S start)) ->
                    StronglySorted keyLe l).
        { induction l as [|e l IHl]; intros Hl; constructor.
          - apply IHl. intros x Hx. apply Hl. right. exact Hx.
          - apply Forall_forall. intros x Hx. unfold keyLe.
            rewrite (Hl e) by (left; reflexivity).
            rewrite (Hl x) by (right; exact Hx). apply Qle_refl. }
        apply G. apply row_keys.
      * intros a b Ha Hb. unfold keyLe.
        rewrite (row_keys start a Ha).
        destruct (K2 b Hb) as (k & Hk & ->).
        unfold ofNat. rewrite <- Zle_Qle. lia.
    + intros e He. apply in_app_or in He. destruct He as [He|He].
      * exists start. split; [lia | apply row_keys; exact He].
      * destruct (K2 e He) as (k & Hk & E). exists k. split; [lia | exact E].
Qed.

(** Sorting lists that are each numbered from one, put one after the
    other, takes one element of each in turn. *)
Lemma sort_concat_indexed :
  sort (fun a b => key a - key b) (List.concat groups) = roundRobin groups.
Proof.
  apply (stable_sorted_unique key).
  - apply sort_sorted.
  - apply rows_sorted.
  - intros q. rewrite sort_stable.
    change (fun a : A => Qeq_bool (key a) q) with (keyIs q).
    rewrite concat_as_flat_map.
    unfold roundRobin. rewrite !filter_flat_map.
    set (N := fold_right Nat.max 0%nat (map (@List.length A) groups)).
    rewrite (flat_map_ext_in (fun g => filter (keyIs q) g)
               (fun g => match indexOf q with Some k => pick k g | None => [] end)).
    2:{ intros g Hg. rewrite Forall_forall in groups_indexed.
        rewrite (filter_indexed q g 0%nat (groups_indexed g Hg)).
        destruct (indexOf q) as [k|]; auto. simpl. rewrite Nat.sub_0_r. reflexivity. }
    rewrite (flat_map_ext_in (fun k => filter (keyIs q) (flat_map (pick k) groups))
               (fun k => match indexOf q with
                         | Some k' => if (k' =? k)%nat then row k else []
                         | None => []
                         end)) by (intros k _; apply filter_row).
    destruct (indexOf q) as [k0|].
    + rewrite (flat_map_single row k0 N 0). simpl.
      destruct (k0 <? N)%nat eqn:L; [reflexivity|].
      apply Nat.ltb_ge in L. apply (row_beyond k0). exact L.
    + rewrite !flat_map_nil. reflexivity.
Qed.

End RoundRobinFacts.

Lemma numbered_indexed kind type l :
  numberedFrom kind type 0 l ->
  forall i e, nth_error l i = Some e -> zKey e == ofNat (S (0 + i)).
Proof.
  intros H i e He. destruct (H i e He) as (_ & Hz & _).
  unfold zKey, orNum. rewrite Hz.
  assert (P : Qeq_bool (ofNat (S (0 + i))) 0 = false).
  { destruct (Qeq_bool (ofNat (S (0 + i))) 0) eqn:T; [|reflexivity].
    apply Qeq_bool_iff in T. unfold ofNat, Qeq in T. simpl in T. lia. }
  rewrite P. reflexivity.
Qed.

(** X10.  The order in which the elements of a parsed slide are painted.
    [parseSlideXml] puts the text boxes, the pictures, the shapes and the
    tables one kind after the other, each kind numbered from one, and
    [renderSlideToPDF] sorts by that number: so the elements are painted
    one of each kind in turn, the first text box, the first picture, the
    first shape, the first table, then the second of each, and so on;
    the second text box is painted over the first picture, whatever their
    order in the slide. *)
Theorem extracted_elements_are_painted_round_robin (slide : SlideData)
    (relTarget mediaMap : string -> option string)
    (textBoxes : list TextBoxMatch) (images : list PictureMatch)
    (shapes : list ShapeMatch) (tables : list TableMatch) :
  elements slide
  = parseSlideElements relTarget mediaMap textBoxes images shapes tables ->
  sortedElements slide
  = roundRobin [ extractTextElements textBoxes;
                 extractImageElements relTarget mediaMap images;
                 extractShapeElements shapes;
                 extractTableElements tables ].
Proof.
  intros He. unfold sortedElements. rewrite He. unfold parseSlideElements.
  rewrite <- (sort_concat_indexed zKey
                [ extractTextElements textBoxes;
                  extractImageElements relTarget mediaMap images;
                  extractShapeElements shapes;
                  extractTableElements tables ]).
  - simpl List.concat. rewrite app_nil_r. reflexivity.
  - repeat constructor.
    + apply (numbered_indexed "text" text).
      apply extractTextElementsFrom_numbered.
    + apply (numbered_indexed "image" image).
      apply extractImageElementsFrom_numbered.
    + apply (numbered_indexed "shape" shape).
      apply extractShapeElementsFrom_numbered.
    + apply (numbered_indexed "table" table).
      apply extractTableElementsFrom_numbered.
Qed.

Lemma painted_round_robin_example :
  sortedElements extractedSlide
  = roundRobin [ extractTextElements exampleTextBoxes;
                 extractImageElements exampleRelTarget exampleMediaMap examplePictures;
                 extractShapeElements exampleShapes;
                 extractTableElements [] ] /\
  map el_id (sortedElements extractedSlide)
  = ["text-0"; "image-0"; "shape-0"; "text-1"]%string.
Proof.
  split.
  - apply (extracted_elements_are_painted_round_robin extractedSlide
             exampleRelTarget exampleMediaMap exampleTextBoxes examplePictures
             exampleShapes []).
    reflexivity.
  - vm_compute. reflexivity.
Defined.

(** *** The text painter *)

Import TextPainter.

Lemma behaves_ret {A : Type} T (a : A) st : behaves T (ret a) st.
Proof. exists [], (Ok a). split; [reflexivity | intros op []]. Qed.

Lemma behaves_emit T op st :
  applyOp op st = st -> (isText op = true -> T op) -> behaves T (emit op) st.
Proof.
  intros Hst Hop. exists [op], (Ok tt). unfold emit. rewrite Hst.
  split; [reflexivity|]. intros op' [<-|[]]. exact Hop.
Qed.

Lemma behaves_bind {A B : Type} T (m : Paint A) (k : A -> Paint B) st :
  behaves T m st -> (forall a, behaves T (k a) st) -> behaves T (bind m k) st.
Proof.
  intros (o & r & Hm & Ho) Hk. unfold behaves, bind. rewrite Hm.
  destruct r as [a|e].
  - destruct (Hk a) as (o2 & r2 & Hk2 & Ho2). rewrite Hk2.
    exists (o ++ o2), r2. split; [reflexivity|].
    intros op Hop. apply in_app_or in Hop. destruct Hop; auto.
  - exists o, (Throw e). split; [reflexivity | exact Ho].
Qed.

Lemma behaves_tryCatch {A : Type} T (m : Paint A) (h : string -> Paint A) st :
  behaves T m st -> (forall e, behaves T (h e) st) -> behaves T (tryCatch m h) st.
Proof.
  intros (o & r & Hm & Ho) Hh. unfold behaves, tryCatch. rewrite Hm.
  destruct r as [a|e].
  - exists o, (Ok a). split; [reflexivity | exact Ho].
  - destruct (Hh e) as (o2 & r2 & Hh2 & Ho2). rewrite Hh2.
    exists (o ++ o2), r2. split; [reflexivity|].
    intros op Hop. apply in_app_or in Hop. destruct Hop; auto.
Qed.

(** A [try] with an empty [catch] returns normally. *)
Lemma behaves_swallowed T (m : Paint unit) st :
  behaves T m st ->
  exists o, tryCatch m (fun _ => ret tt) st = (o, st, Ok tt) /\
            forall op, In op o -> isText op = true -> T op.
Proof.
  intros (o & r & Hm & Ho). unfold tryCatch. rewrite Hm.
  destruct r as [[]|e].
  - exists o. split; [reflexivity | exact Ho].
  - exists (o ++ []). split; [reflexivity|]. rewrite app_nil_r. exact Ho.
Qed.

Section TextPainterFacts.

Variable J : TextEnv.

Lemma after_eq {B : Type} o1 (res : list PdfOp * PdfState * Outcome B) o2 st2 r :
  res = (o2, st2, r) -> after o1 res = (o1 ++ o2, st2, r).
Proof. intros ->. reflexivity. Qed.

Lemma behaves_pdfText T s tx ty align st :
  T (pdf_text s tx ty (Some align) None) -> behaves T (pdfText J s tx ty align) st.
Proof.
  intros Ht. unfold behaves, pdfText. destruct (textThrows J st s tx ty).
  - exists [], (Throw "text"). split; [reflexivity | intros op []].
  - exact (behaves_emit T (pdf_text s tx ty (Some align) None) st eq_refl (fun _ => Ht)).
Qed.

(** One line is drawn at most twice: at its place, and one unit right and
    down for the shadow. *)
Lemma drawTextLine_behaves style line lineX lineY align st :
  behaves (fun op => op = pdf_text line lineX lineY (Some align) None \/
                     op = pdf_text line (lineX + 1) (lineY + 1) (Some align) None)
    (drawTextLine J style line lineX lineY align) st.
Proof.
  unfold drawTextLine. apply behaves_bind.
  - destruct (truthyOpt (textShadow style)); [|apply behaves_ret].
    apply behaves_bind; [apply behaves_emit; [reflexivity | discriminate]|].
    intros _. apply behaves_bind; [apply behaves_pdfText; right; reflexivity|].
    intros _. destruct (color style) as [[|c col]|]; try apply behaves_ret.
    apply behaves_emit; [reflexivity | discriminate].
  - intros _. apply behaves_bind; [apply behaves_pdfText; left; reflexivity|].
    intros _. destruct (isStr (textDecoration style) "underline"); [|apply behaves_ret].
    unfold pdfGetTextWidth.
    apply behaves_bind; [eexists [], _; split; [reflexivity | intros op []]|].
    intros textWidth.
    apply behaves_bind; [apply behaves_emit; [reflexivity | discriminate]|].
    intros _. apply behaves_emit; [reflexivity | discriminate].
Qed.

(** Without a shadow and when [text] does not throw, one line is one call
    of [text]. *)
Lemma drawTextLine_plain style line lineX lineY align st :
  truthyOpt (textShadow style) = false ->
  textThrows J st line lineX lineY = false ->
  exists o,
    tryCatch (drawTextLine J style line lineX lineY align) (fun _ => ret tt) st
    = (o, st, Ok tt) /\
    textCalls o = [pdf_text line lineX lineY (Some align) None].
Proof.
  intros Shadow Never.
  unfold drawTextLine, tryCatch, bind, ret, pdfText, pdfGetTextWidth, emit.
  rewrite Shadow, Never.
  destruct (isStr (textDecoration style) "underline");
    eexists; (split; [reflexivity|]); reflexivity.
Qed.

(** The place of line [i]. *)
Let lineYAt (startY lineHeight : Q) (i : nat) : Q := startY + ofNat i * lineHeight.

(** The loop over the lines returns normally, leaves the state as it is,
    and draws a line only while its place is not below the box less half a
    line height. *)
Lemma drawTextLines_spec style x y width height padding lineHeight startY align st lines :
  forall i,
  exists ops,
    drawTextLines J style lines i x y width height padding lineHeight startY align st
    = (ops, st, Ok tt) /\
    (forall op, In op ops -> isText op = true ->
       exists k line,
         nth_error lines k = Some line /\
         lineYAt startY lineHeight (i + k) <= y + height - lineHeight * 0.5 /\
         (op = pdf_text line (textLineX align x width padding)
                 (lineYAt startY lineHeight (i + k)) (Some align) None \/
          op = pdf_text line (textLineX align x width padding + 1)
                 (lineYAt startY lineHeight (i + k) + 1) (Some align) None)).
Proof.
  induction lines as [|line lines IH]; intros i.
  - exists []. split; [reflexivity | intros op []].
  - cbn [drawTextLines]. fold (lineYAt startY lineHeight i).
    destruct (gt (lineYAt startY lineHeight i) (y + height - lineHeight * 0.5)) eqn:Over.
    + exists []. split; [reflexivity | intros op []].
    + unfold gt in Over. apply negb_false_iff in Over. apply Qle_bool_iff in Over.
      destruct (behaves_swallowed _ _ st
                  (drawTextLine_behaves style line (textLineX align x width padding)
                     (lineYAt startY lineHeight i) align st)) as (o1 & H1 & T1).
      destruct (IH (S i)) as (o2 & H2 & T2).
      exists (o1 ++ o2). split.
      * rewrite (bind_ok _ _ st o1 st tt H1). apply after_eq. exact H2.
      * intros op Hop Ht. apply in_app_or in Hop. destruct Hop as [Hop|Hop].
        -- exists 0%nat, line. rewrite Nat.add_0_r.
           split; [reflexivity|]. split; [exact Over|]. apply T1; auto.
        -- destruct (T2 op Hop Ht) as (k & l & Hk & Hy & Hop').
           exists (S k), l. rewrite Nat.add_succ_r. auto.
Qed.

(** Without a shadow and when [text] never throws, the loop draws the
    lines one by one up to the first that would end below the box. *)
Lemma drawTextLines_plain style x y width height padding lineHeight startY align st lines :
  truthyOpt (textShadow style) = false ->
  (forall st' s tx ty, textThrows J st' s tx ty = false) ->
  forall i,
  exists ops m,
    drawTextLines J style lines i x y width height padding lineHeight startY align st
    = (ops, st, Ok tt) /\
    (m <= List.length lines)%nat /\
    textCalls ops
    = textCallsAt (firstn m lines) i (textLineX align x width padding) startY lineHeight
        align /\
    (forall k, (k < m)%nat ->
       lineYAt startY lineHeight (i + k) <= y + height - lineHeight * 0.5) /\
    ((m < List.length lines)%nat ->
       y + height - lineHeight * 0.5 < lineYAt startY lineHeight (i + m)).
Proof.
  intros Shadow Never. induction lines as [|line lines IH]; intros i.
  - exists [], 0%nat. split; [reflexivity|]. split; [simpl; lia|].
    split; [reflexivity|]. split; [intros k Hk; lia | simpl; lia].
  - cbn [drawTextLines]. fold (lineYAt startY lineHeight i).
    destruct (gt (lineYAt startY lineHeight i) (y + height - lineHeight * 0.5)) eqn:Over.
    + apply gt_true_iff in Over.
      exists [], 0%nat. split; [reflexivity|]. split; [simpl; lia|].
      split; [reflexivity|]. split; [intros k Hk; lia|].
      intros _. rewrite Nat.add_0_r. exact Over.
    + unfold gt in Over. apply negb_false_iff in Over. apply Qle_bool_iff in Over.
      destruct (drawTextLine_plain style line (textLineX align x width padding)
                  (lineYAt startY lineHeight i) align st Shadow (Never _ _ _ _))
        as (o1 & H1 & T1).
      destruct (IH (S i)) as (o2 & m & H2 & Hm & T2 & Fit & Stop).
      exists (o1 ++ o2), (S m). split.
      * rewrite (bind_ok _ _ st o1 st tt H1). apply after_eq. exact H2.
      * split; [simpl; lia|]. split.
        -- unfold textCalls in *. rewrite filter_app, T1, T2. reflexivity.
        -- split.
           ++ intros k Hk. destruct k as [|k].
              ** rewrite Nat.add_0_r. exact Over.
              ** rewrite Nat.add_succ_r. apply (Fit k). lia.
           ++ intros Hlt. rewrite Nat.add_succ_r. apply Stop. simpl in Hlt. lia.
Qed.

Lemma after_after {B : Type} o1 o2 (res : list PdfOp * PdfState * Outcome B) :
  after o1 (after o2 res) = after (o1 ++ o2) res.
Proof. destruct res as [[o st] r]. simpl. rewrite app_assoc. reflexivity. Qed.

(** The colour and background stages return normally, leave the state
    as it is and draw no text. *)
Lemma colour_stage_ok (style : ElementStyle) st :
  exists o, setTextColorOf style st = (o, st, Ok tt) /\ textCalls o = [].
Proof.
  unfold setTextColorOf.
  destruct (color style) as [[|c col]|]; try (eexists; split; reflexivity).
  cbv zeta. destruct (String.length (removeFirstHash (String c col)) =? 6)%nat;
    eexists; split; reflexivity.
Qed.

Lemma background_stage_ok (style : ElementStyle) x y width height st :
  exists o,
    drawTextBackground style x y width height st = (o, st, Ok tt) /\ textCalls o = [].
Proof.
  unfold drawTextBackground.
  destruct (backgroundColor style) as [[|c bg]|]; try (eexists; split; reflexivity).
  cbv zeta. destruct (String.length (removeFirstHash (String c bg)) =? 6)%nat;
    eexists; split; reflexivity.
Qed.

(** The lines are those of [splitTextToSize], or of the fallback wrap
    when it throws; no call is issued. *)
Lemma textLinesOf_cases content availableWidth st :
  exists lines,
    textLinesOf J content availableWidth st = ([], st, Ok lines) /\
    (splitTextToSizeOrThrow J st content availableWidth = Ok lines \/
     (exists e, splitTextToSizeOrThrow J st content availableWidth = Throw e) /\
     lines = wrapFallbackLines (getTextWidth J st) availableWidth content).
Proof.
  unfold textLinesOf, tryCatch, pdfSplitTextToSizeOrThrow.
  destruct (splitTextToSizeOrThrow J st content availableWidth) as [lines|e].
  - exists lines. split; [reflexivity | left; reflexivity].
  - eexists. split; [reflexivity|]. right. split; [exists e|]; reflexivity.
Qed.

(** What the font stage can do: leave some state, or throw when the
    fallback font is refused too; it issues no call. *)
Lemma font_stage_cases font variant st :
  (exists st0,
     tryCatch (pdfSetFont J font variant)
       (fun _ => pdfSetFont J (FontName "helvetica") "normal") st = ([], st0, Ok tt)) \/
  (exists e e',
     setFont J font variant st = Throw e /\
     setFont J (FontName "helvetica") "normal" st = Throw e' /\
     tryCatch (pdfSetFont J font variant)
       (fun _ => pdfSetFont J (FontName "helvetica") "normal") st = ([], st, Throw e')).
Proof.
  unfold tryCatch, pdfSetFont.
  destruct (setFont J font variant st) as [st0|e] eqn:F1.
  - left. exists st0. reflexivity.
  - destruct (setFont J (FontName "helvetica") "normal" st) as [st0|e'] eqn:F2.
    + left. exists st0. reflexivity.
    + right. exists e, e'. auto.
Qed.

(** The painter in stages, for a text that is not blank: the font, the
    size, colour and background, then the lines and the loop over them. *)
Lemma renderTextElement_stages element content contentStyle x y width height settings st :
  el_content element = TextContent content contentStyle ->
  (negb (truthyStr content) || String.eqb (trim content) "") = false ->
  let style := textStyleOf element in
  let fontSize := textFontSize style width height settings in
  let padding := textPadding fontSize in
  let availableWidth := Qmax fontSize (width - padding * 2) in
  let lineHeight := fontSize * 1.4 in
  (exists e,
     setFont J (FontName "helvetica") "normal" st = Throw e /\
     renderTextElement J element x y width height settings st = ([], st, Throw e)) \/
  (exists st0 pre,
     let st1 := applyOp (pdf_setFontSize fontSize) st0 in
     textCalls pre = [] /\
     if le availableWidth fontSize then
       renderTextElement J element x y width height settings st = (pre, st1, Ok tt)
     else
       exists lines,
         (splitTextToSizeOrThrow J st1 content availableWidth = Ok lines \/
          (exists e, splitTextToSizeOrThrow J st1 content availableWidth = Throw e) /\
          lines = wrapFallbackLines (getTextWidth J st1) availableWidth content) /\
         renderTextElement J element x y width height settings st
         = after pre
             (drawTextLines J style lines 0 x y width height padding lineHeight
                (textStartY style y height lineHeight (List.length lines))
                (textAlignOf style) st1)).
Proof.
  intros Hc Blank style fs pad avail lh.
  remember (renderTextElement J element x y width height settings st) as run eqn:Run.
  unfold renderTextElement in Run. rewrite Hc, Blank in Run.
  assert (St : mergeStyle (el_style element)
                 match contentStyle with Some s => s | None => noStyle end = style)
    by (unfold style, textStyleOf; rewrite Hc; reflexivity).
  rewrite St in Run. cbv zeta in Run.
  change (textFontSize style width height settings) with fs in Run.
  change (textPadding fs) with pad in Run.
  change (Qmax fs (width - pad * 2)) with avail in Run.
  change (fs * 1.4) with lh in Run.
  match type of Run with
  | context [tryCatch (pdfSetFont J ?f ?v) ?h] =>
      destruct (font_stage_cases f v st) as [(st0 & HF)|(e & e' & F1 & F2 & HF)]
  end.
  - rewrite (bind_ok _ _ st [] st0 tt HF) in Run. cbv beta in Run.
    rewrite bind_emit in Run. cbv beta in Run.
    set (st1 := applyOp (pdf_setFontSize fs) st0) in *.
    destruct (colour_stage_ok style st1) as (o3 & H3 & T3).
    rewrite (bind_ok _ _ st1 o3 st1 tt H3) in Run. cbv beta in Run.
    destruct (background_stage_ok style x y width height st1) as (o4 & H4 & T4).
    rewrite (bind_ok _ _ st1 o4 st1 tt H4) in Run. cbv beta in Run.
    rewrite !after_after in Run.
    right. exists st0, (([] ++ [pdf_setFontSize fs]) ++ o3 ++ o4).
    split.
    { unfold textCalls in *. rewrite !filter_app, T3, T4. reflexivity. }
    fold st1. destruct (le avail fs).
    + rewrite Run. unfold ret, after. rewrite !app_nil_r. reflexivity.
    + destruct (textLinesOf_cases content avail st1) as (lines & HL & Cases).
      exists lines. split; [exact Cases|].
      rewrite (bind_ok _ _ st1 [] st1 lines HL) in Run. cbv beta in Run.
      rewrite after_after, app_nil_r in Run. exact Run.
  - left. exists e'. split; [exact F2|].
    rewrite (bind_throw _ _ st [] st e' HF) in Run. exact Run.
Qed.

Lemma no_text_call s tx ty align angle ops :
  textCalls ops = [] -> ~ In (pdf_text s tx ty align angle) ops.
Proof.
  intros H Hin.
  assert (X : In (pdf_text s tx ty align angle) (textCalls ops))
    by (apply filter_In; split; [exact Hin | reflexivity]).
  rewrite H in X. destruct X.
Qed.

Lemma textFontSize_bounds style width height settings :
  8 <= textFontSize style width height settings /\
  textFontSize style width height settings <= 48.
Proof.
  unfold textFontSize. split; [apply Q.le_max_l|].
  apply Q.max_lub; [discriminate | apply Q.le_min_l].
Qed.

Lemma not_blank content :
  String.eqb (trim content) "" = false ->
  (negb (truthyStr content) || String.eqb (trim content) "") = false.
Proof.
  intros H. rewrite H. destruct content; [discriminate H | reflexivity].
Qed.

(** X11.  The text painter keeps the text above the bottom of its box.
    The font size is always between 8 and 48.  Every call of [text] it
    issues has its baseline at most one unit (the shadow's offset) below
    the box's bottom less half a line height, and, unless the text is
    aligned to the middle or the bottom, at least one line height below
    the box's top.  A box not wider than the font size plus twice the
    padding gets no text at all, and a blank text no call at all.  The
    painter throws only when jsPDF refuses the fallback font too: a
    failure of [splitTextToSize] or of drawing a line never leaves it. *)
Theorem text_is_never_drawn_below_its_box (element : SlideElement)
    (x y width height : Q) (settings : ConversionSettings) (st : PdfState) :
  let style := textStyleOf element in
  let fontSize := textFontSize style width height settings in
  let lineHeight := fontSize * 1.4 in
  let run := renderTextElement J element x y width height settings st in
  (8 <= fontSize /\ fontSize <= 48) /\
  (forall s tx ty align angle,
     In (pdf_text s tx ty align angle) (fst (fst run)) ->
     ty <= y + height - lineHeight * 0.5 + 1 /\
     (isStr (verticalAlign style) "middle" = false ->
      isStr (verticalAlign style) "bottom" = false -> y + lineHeight <= ty)) /\
  (width - textPadding fontSize * 2 <= fontSize -> textCalls (fst (fst run)) = []) /\
  (String.eqb (trim (textOf element)) "" = true -> run = ([], st, Ok tt)) /\
  ((forall st', exists st'', setFont J (FontName "helvetica") "normal" st' = Ok st'') ->
   snd run = Ok tt).
Proof.
  intros style fs lh run.
  split; [apply textFontSize_bounds|].
  destruct (textFontSize_bounds style width height settings) as [Lo Hi]. fold fs in Lo, Hi.
  assert (Trivial : run = ([], st, Ok tt) ->
            (forall s tx ty align angle,
               In (pdf_text s tx ty align angle) (fst (fst run)) ->
               ty <= y + height - lh * 0.5 + 1 /\
               (isStr (verticalAlign style) "middle" = false ->
                isStr (verticalAlign style) "bottom" = false -> y + lh <= ty)) /\
            (width - textPadding fs * 2 <= fs -> textCalls (fst (fst run)) = []) /\
            (String.eqb (trim (textOf element)) "" = true -> run = ([], st, Ok tt)) /\
            ((forall st', exists st'',
                setFont J (FontName "helvetica") "normal" st' = Ok st'') ->
             snd run = Ok tt)).
  { intros E. rewrite E. simpl.
    split; [intros s tx ty align angle []|].
    split; [reflexivity|]. split; reflexivity. }
  destruct (el_content element) as [content contentStyle| | |] eqn:Hc;
    try (apply Trivial; unfold run, renderTextElement; rewrite Hc; reflexivity).
  destruct (String.eqb (trim content) "") eqn:Blank.
  { apply Trivial. unfold run, renderTextElement. rewrite Hc, Blank, orb_true_r.
    reflexivity. }
  assert (Tx : textOf element = content) by (unfold textOf; rewrite Hc; reflexivity).
  rewrite Tx, Blank.
  destruct (renderTextElement_stages element content contentStyle x y width height
              settings st Hc (not_blank content Blank))
    as [(e & F2 & Run)|(st0 & pre & Tpre & Run)]; cbv zeta in Run; fold style in Run;
    fold fs in Run; fold lh in Run; fold run in Run.
  - rewrite Run. simpl.
    split; [intros s tx ty align angle []|].
    split; [reflexivity|]. split; [discriminate|].
    intros Font. destruct (Font st) as (st'' & Hst). congruence.
  - destruct (le (Qmax fs (width - textPadding fs * 2)) fs) eqn:Narrow.
    + rewrite Run. simpl.
      split; [intros s tx ty align angle Hin; destruct (no_text_call _ _ _ _ _ _ Tpre Hin)|].
      split; [intros _; exact Tpre|]. split; [discriminate | reflexivity].
    + destruct Run as (lines & _ & Run).
      apply le_false_iff in Narrow.
      destruct (drawTextLines_spec style x y width height (textPadding fs) lh
                  (textStartY style y height lh (List.length lines)) (textAlignOf style)
                  (applyOp (pdf_setFontSize fs) st0) lines 0%nat) as (ops & Hops & Tops).
      rewrite Hops in Run. simpl in Run. rewrite Run. simpl.
      split.
      { intros s tx ty align angle Hin. apply in_app_or in Hin.
        destruct Hin as [Hin|Hin]; [destruct (no_text_call _ _ _ _ _ _ Tpre Hin)|].
        destruct (Tops _ Hin eq_refl) as (k & line & Hk & Hy & Hop).
        unfold lineYAt in Hy, Hop. simpl Nat.add in Hy, Hop.
        set (lineY := textStartY style y height lh (List.length lines) + ofNat k * lh) in *.
        assert (Ty : ty = lineY \/ ty = lineY + 1).
        { destruct Hop as [Hop|Hop]; injection Hop as _ _ ->; auto. }
        split.
        - destruct Ty as [->| ->]; lra.
        - intros NotMiddle NotBottom.
          assert (Sy : textStartY style y height lh (List.length lines) = y + lh).
          { unfold textStartY. rewrite NotMiddle, NotBottom. reflexivity. }
          assert (Kp : 0 <= ofNat k * lh).
          { apply Qmult_le_0_compat; [|unfold lh; lra].
            unfold ofNat. change 0 with (inject_Z 0). rewrite <- Zle_Qle. lia. }
          unfold lineY in Ty. rewrite Sy in Ty. destruct Ty as [->| ->]; lra. }
      split.
      { intros Hn. exfalso.
        assert (Qmax fs (width - textPadding fs * 2) <= fs)
          by (apply Q.max_lub; [apply Qle_refl | exact Hn]).
        lra. }
      split; [discriminate | reflexivity].
Qed.

Lemma wrapFallback_lines getWidth availableWidth content :
  wrapFallback getWidth availableWidth content
  = Some (wrapFallbackLines getWidth availableWidth content) /\
  withoutWhiteSpace (joined (wrapFallbackLines getWidth availableWidth content))
  = withoutWhiteSpace content.
Proof.
  unfold wrapFallbackLines, wrapFallback.
  destruct (wrapWords_spec getWidth availableWidth (split_ws content)
              (split_ws content) EmptyString [])
    as (out & Hrun & _ & Hkeep).
  - apply incl_refl.
  - constructor.
  - left; reflexivity.
  - rewrite Hrun. split; [reflexivity|].
    rewrite Hkeep. simpl. unfold split_ws. rewrite splitWhiteSpace_keeps_letters.
    reflexivity.
Qed.

(** X12.  When [splitTextToSize] throws, the text painter draws the
    lines of the fallback wrap.  For a text that is not blank in a box
    wide enough, without a text shadow, with a jsPDF that accepts the
    fallback font and draws every line: the painter returns normally and
    its calls of [text] are, in order, the first [m] lines of the
    fallback wrap of the text, measured with the font just set, one line
    height apart; [m] is the number of lines before the first that would
    end below the box (less half a line height), so the lines from that
    one on are left out; and the fallback lines hold all the characters
    of the text other than white space. *)
Theorem fallback_lines_are_drawn_in_order (element : SlideElement)
    (content : string) (contentStyle : option ElementStyle)
    (x y width height : Q) (settings : ConversionSettings) (st : PdfState) :
  el_content element = TextContent content contentStyle ->
  String.eqb (trim content) "" = false ->
  let style := textStyleOf element in
  let fontSize := textFontSize style width height settings in
  let padding := textPadding fontSize in
  let availableWidth := Qmax fontSize (width - padding * 2) in
  let lineHeight := fontSize * 1.4 in
  let run := renderTextElement J element x y width height settings st in
  fontSize < width - padding * 2 ->
  truthyOpt (textShadow style) = false ->
  (forall st' s tx ty, textThrows J st' s tx ty = false) ->
  (forall st' s w, exists e, splitTextToSizeOrThrow J st' s w = Throw e) ->
  (forall st', exists st'', setFont J (FontName "helvetica") "normal" st' = Ok st'') ->
  exists (st1 : PdfState) (lines : list string) (m : nat),
    wrapFallback (getTextWidth J st1) availableWidth content = Some lines /\
    withoutWhiteSpace (joined lines) = withoutWhiteSpace content /\
    (m <= List.length lines)%nat /\
    snd run = Ok tt /\
    textCalls (fst (fst run))
    = textCallsAt (firstn m lines) 0 (textLineX (textAlignOf style) x width padding)
        (textStartY style y height lineHeight (List.length lines)) lineHeight
        (textAlignOf style) /\
    (forall k, (k < m)%nat ->
       textStartY style y height lineHeight (List.length lines) + ofNat k * lineHeight
       <= y + height - lineHeight * 0.5) /\
    ((m < List.length lines)%nat ->
       y + height - lineHeight * 0.5
       < textStartY style y height lineHeight (List.length lines) + ofNat m * lineHeight).
Proof.
  intros Hc Blank style fs pad avail lh run Wide Shadow Never Split Font.
  destruct (renderTextElement_stages element content contentStyle x y width height
              settings st Hc (not_blank content Blank))
    as [(e & F2 & Run)|(st0 & pre & Tpre & Run)]; cbv zeta in Run; fold style in Run;
    fold fs in Run; fold pad in Run; fold avail in Run; fold lh in Run; fold run in Run.
  { destruct (Font st) as (st'' & Hst). congruence. }
  assert (Narrow : le avail fs = false).
  { apply le_false_iff. unfold avail.
    apply Qlt_le_trans with (width - pad * 2); [exact Wide | apply Q.le_max_r]. }
  rewrite Narrow in Run. destruct Run as (lines & Cases & Run).
  set (st1 := applyOp (pdf_setFontSize fs) st0) in *.
  destruct Cases as [Ok1|[_ Hl]].
  { destruct (Split st1 content avail) as (e & He). congruence. }
  destruct (wrapFallback_lines (getTextWidth J st1) avail content) as [Hw Hkeep].
  rewrite <- Hl in Hw, Hkeep.
  destruct (drawTextLines_plain style x y width height pad lh
              (textStartY style y height lh (List.length lines)) (textAlignOf style)
              st1 lines Shadow Never 0%nat)
    as (ops & m & Hops & Hm & Tops & Fit & Stop).
  rewrite Hops in Run. simpl in Run.
  exists st1, lines, m.
  split; [exact Hw|]. split; [exact Hkeep|]. split; [exact Hm|].
  rewrite Run. simpl.
  split; [reflexivity|]. split.
  { unfold textCalls in *. rewrite filter_app, Tpre, Tops. reflexivity. }
  split; [exact Fit | exact Stop].
Qed.

(** X13.  Text aligned to the bottom may start above its box.  The
    painter checks each line against the bottom of the box only.  For a
    text aligned to the bottom whose lines after the first are together
    higher than the box (no text shadow, a jsPDF that accepts the fallback
    font and draws every line), the first call of [text] draws the first
    line with its baseline above the top of the box. *)
Theorem bottom_aligned_text_can_start_above_its_box (element : SlideElement)
    (content : string) (contentStyle : option ElementStyle)
    (x y width height : Q) (settings : ConversionSettings) (st : PdfState)
    (first : string) (rest : list string) :
  el_content element = TextContent content contentStyle ->
  String.eqb (trim content) "" = false ->
  let style := textStyleOf element in
  let fontSize := textFontSize style width height settings in
  let padding := textPadding fontSize in
  let availableWidth := Qmax fontSize (width - padding * 2) in
  let lineHeight := fontSize * 1.4 in
  let run := renderTextElement J element x y width height settings st in
  fontSize < width - padding * 2 ->
  truthyOpt (textShadow style) = false ->
  (forall st' s tx ty, textThrows J st' s tx ty = false) ->
  (forall st', exists st'', setFont J (FontName "helvetica") "normal" st' = Ok st'') ->
  (forall st', splitTextToSizeOrThrow J st' content availableWidth = Ok (first :: rest)) ->
  isStr (verticalAlign style) "middle" = false ->
  isStr (verticalAlign style) "bottom" = true ->
  0 <= height ->
  height < ofNat (List.length rest) * lineHeight ->
  exists (ty : Q) (more : list PdfOp),
    textCalls (fst (fst run))
    = pdf_text first (textLineX (textAlignOf style) x width padding) ty
        (Some (textAlignOf style)) None :: more /\
    ty < y.
Proof.
  intros Hc Blank style fs pad avail lh run Wide Shadow Never Font Split NotMiddle Bottom
    Hh Over.
  destruct (textFontSize_bounds style width height settings) as [Lo _]. fold fs in Lo.
  assert (Lh : 0 < lh) by (unfold lh; lra).
  destruct (renderTextElement_stages element content contentStyle x y width height
              settings st Hc (not_blank content Blank))
    as [(e & F2 & Run)|(st0 & pre & Tpre & Run)]; cbv zeta in Run; fold style in Run;
    fold fs in Run; fold pad in Run; fold avail in Run; fold lh in Run; fold run in Run.
  { destruct (Font st) as (st'' & Hst). congruence. }
  assert (Narrow : le avail fs = false).
  { apply le_false_iff. unfold avail.
    apply Qlt_le_trans with (width - pad * 2); [exact Wide | apply Q.le_max_r]. }
  rewrite Narrow in Run. destruct Run as (lines & Cases & Run).
  set (st1 := applyOp (pdf_setFontSize fs) st0) in *.
  assert (Hl : lines = first :: rest).
  { destruct Cases as [Ok1|[(e & He) _]]; rewrite Split in *; congruence. }
  subst lines.
  set (startY := textStartY style y height lh (List.length (first :: rest))) in *.
  assert (Sy : startY == y + height - ofNat (List.length rest) * lh).
  { unfold startY, textStartY. rewrite NotMiddle, Bottom. cbn [List.length].
    unfold ofNat. rewrite Nat2Z.inj_succ, <- Z.add_1_r, inject_Z_plus.
    change (inject_Z 1) with 1. ring. }
  destruct (drawTextLines_plain style x y width height pad lh startY (textAlignOf style)
              st1 (first :: rest) Shadow Never 0%nat)
    as (ops & m & Hops & Hm & Tops & Fit & Stop).
  rewrite Hops in Run. simpl in Run.
  assert (Y0 : lineYAt startY lh 0 == startY).
  { unfold lineYAt, ofNat. change (inject_Z (Z.of_nat 0)) with 0. ring. }
  destruct m as [|m].
  { exfalso. assert (X : y + height - lh * 0.5 < lineYAt startY lh (0 + 0))
      by (apply Stop; simpl; lia).
    simpl Nat.add in X. rewrite Y0, Sy in X.
    assert (1 <= List.length rest)%nat.
    { destruct rest; [|simpl; lia].
      change (ofNat (@List.length string [])) with 0 in Over. lra. }
    assert (1 <= ofNat (List.length rest)).
    { unfold ofNat. change 1 with (inject_Z 1). rewrite <- Zle_Qle. lia. }
    assert (lh * 1 <= lh * ofNat (List.length rest)) by (apply Qmult_le_l; auto).
    lra. }
  exists (startY + ofNat 0 * lh),
         (textCallsAt (firstn m rest) 1 (textLineX (textAlignOf style) x width pad)
            startY lh (textAlignOf style)).
  split.
  - rewrite Run. simpl fst. unfold textCalls in *. rewrite filter_app, Tpre, Tops.
    reflexivity.
  - fold (lineYAt startY lh 0). rewrite Y0, Sy. lra.
Qed.

End TextPainterFacts.

Lemma fallback_lines_example :
  let element := textElement "text-0" "Hello wide world" in
  let style := textStyleOf element in
  let fontSize := textFontSize style 100 40 defaultSettings in
  let padding := textPadding fontSize in
  let lineHeight := fontSize * 1.4 in
  let run := renderTextElement exampleTextEnv element 0 0 100 40 defaultSettings
               (pdfState newPdf) in
  exists (st1 : PdfState) (lines : list string) (m : nat),
    wrapFallback (getTextWidth exampleTextEnv st1) (Qmax fontSize (100 - padding * 2))
      "Hello wide world" = Some lines /\
    (m <= List.length lines)%nat /\
    snd run = Ok tt /\
    textCalls (fst (fst run))
    = textCallsAt (firstn m lines) 0 (textLineX (textAlignOf style) 0 100 padding)
        (textStartY style 0 40 lineHeight (List.length lines)) lineHeight
        (textAlignOf style).
Proof.
  cbv zeta.
  destruct (fallback_lines_are_drawn_in_order exampleTextEnv
              (textElement "text-0" "Hello wide world") "Hello wide world" None
              0 0 100 40 defaultSettings (pdfState newPdf))
    as (st1 & lines & m & Hw & _ & Hm & Hr & Ht & _).
  - reflexivity.
  - reflexivity.
  - vm_compute. reflexivity.
  - reflexivity.
  - intros st' s tx ty. reflexivity.
  - intros st' s w. exists "no font metrics"%string. reflexivity.
  - intros st'. exists st'. reflexivity.
  - exists st1, lines, m.
    split; [exact Hw|]. split; [exact Hm|]. split; [exact Hr | exact Ht].
Defined.

Lemma bottom_aligned_example :
  let element :=
    {| el_id := "text-0"; el_type := text; el_position := examplePosition; zIndex := 1;
       el_content := TextContent "one two three four" None;
       el_style := bottomStyle |} in
  let run := renderTextElement fourLinesEnv element 0 100 300 20 defaultSettings
               (pdfState newPdf) in
  exists (ty : Q) (more : list PdfOp),
    textCalls (fst (fst run))
    = pdf_text "one" (textLineX (textAlignOf (textStyleOf element)) 0 300
                        (textPadding (textFontSize (textStyleOf element) 300 20
                                        defaultSettings)))
        ty (Some (textAlignOf (textStyleOf element))) None :: more /\
    ty < 100.
Proof.
  cbv zeta.
  apply (bottom_aligned_text_can_start_above_its_box fourLinesEnv
           {| el_id := "text-0"; el_type := text; el_position := examplePosition;
              zIndex := 1; el_content := TextContent "one two three four" None;
              el_style := bottomStyle |}
           "one two three four" None 0 100 300 20 defaultSettings (pdfState newPdf)
           "one" ["two"; "three"; "four"]%string).
  - reflexivity.
  - reflexivity.
  - vm_compute. reflexivity.
  - reflexivity.
  - intros st' s tx ty. reflexivity.
  - intros st'. exists st'. reflexivity.
  - intros st'. reflexivity.
  - reflexivity.
  - reflexivity.
  - vm_compute. discriminate.
  - vm_compute. reflexivity.
Defined.

(** *** The background of a slide *)

(** X21.  A background image that cannot be put on the page is skipped.
    When the image of [backgroundImage] does not load, or [pdf.addImage]
    refuses it, [renderSlideToPDF] issues the calls, leaves the state and
    returns the result it would for the same slide without a background
    image: the background colour and every element are still painted. *)
Theorem failed_background_image_is_skipped (E : Env) (slide : SlideData) (src : string)
    (pdfWidth pdfHeight slideW slideH : Q) (settings : ConversionSettings)
    (st : PdfState) :
  backgroundImage slide = Some src ->
  backgroundImageFails E src ->
  renderSlideToPDF E slide pdfWidth pdfHeight slideW slideH settings st
  = renderSlideToPDF E (withoutBackgroundImage slide) pdfWidth pdfHeight slideW slideH
      settings st.
Proof.
  intros Src Fails.
  unfold renderSlideToPDF, paintBackgroundColor, paintBackgroundImage. cbv zeta.
  change (slide_backgroundColor (withoutBackgroundImage slide))
    with (slide_backgroundColor slide).
  change (sortedElements (withoutBackgroundImage slide)) with (sortedElements slide).
  change (backgroundImage (withoutBackgroundImage slide)) with (@None string).
  rewrite Src.
  set (colour := match slide_backgroundColor slide with
                 | Some (String _ _ as c) =>
                     emit (pdf_setFillColorCss c) ;; emit (pdf_rect 0 0 pdfWidth pdfHeight F)
                 | _ => ret tt
                 end).
  set (rest := forEach (sortedElements slide) _).
  unfold bind at 1. unfold bind at 3.
  destruct (colour st) as [[o1 st1] [[]|e]]; [|reflexivity].
  assert (Skip :
    (match src with
     | String _ _ =>
         if includeImages settings then
           tryCatch
             (img <- liftOutcome (loadImage E src) ;;
              pdfAddImage E img "JPEG" contentMargin contentMargin
                (pdfWidth - contentMargin * 2) (pdfHeight - contentMargin * 2))
             (fun _ => ret tt)
         else ret tt
     | EmptyString => ret tt
     end) st1 = ret tt st1).
  { destruct src as [|c src']; [reflexivity|].
    destruct (includeImages settings); [|reflexivity].
    unfold backgroundImageFails in Fails.
    unfold tryCatch, bind, liftOutcome, loadImage, pdfAddImage.
    destruct (imageEvent E (String c src')) as [t img|t]; [|reflexivity].
    rewrite Fails. reflexivity. }
  unfold bind at 1. unfold bind at 2.
  rewrite Skip. reflexivity.
Qed.

Lemma failed_background_image_example :
  backgroundImage slideWithBackground = Some "media/missing.png"%string /\
  backgroundImageFails brokenImagesEnv "media/missing.png" /\
  renderSlideToPDF brokenImagesEnv slideWithBackground 800 600 720 540 defaultSettings
    (pdfState newPdf)
  = renderSlideToPDF brokenImagesEnv (withoutBackgroundImage slideWithBackground)
      800 600 720 540 defaultSettings (pdfState newPdf).
Proof.
  split; [reflexivity|]. split; [exact I|].
  apply (failed_background_image_is_skipped brokenImagesEnv slideWithBackground
           "media/missing.png" 800 600 720 540 defaultSettings (pdfState newPdf)).
  - reflexivity.
  - exact I.
Defined.

(** *** The shape painter *)

Section ShapePainterFacts.

Import ShapePainter.

Variable J : ShapeEnv.

(** No call on [pdf] throws. *)
Hypothesis Quiet : forall c, callThrows J c = false.

Lemma pdfCall_quiet c : pdfCall J c = ([c], Ok tt).
Proof. unfold pdfCall. rewrite Quiet. reflexivity. Qed.

Lemma count_app p l1 l2 : count p (l1 ++ l2) = (count p l1 + count p l2)%nat.
Proof. unfold count. rewrite filter_app, List.length_app. reflexivity. Qed.

Lemma translucent_opacity style :
  translucent style = true -> exists o, opacity style = Some o.
Proof.
  unfold translucent. destruct (opacity style) as [o|]; [|discriminate].
  intros _. exists o. reflexivity.
Qed.

(** The fill block saves the graphics state when the shape has a fill
    colour and is translucent, and only then. *)
Lemma setShapeFill_quiet style :
  exists calls,
    setShapeFill J style = (calls, hasFillColour style) /\
    count isSave calls = (if hasFillColour style && translucent style then 1 else 0)%nat /\
    count isRestore calls = 0%nat /\
    forall c, In c calls -> cornersOf c = [].
Proof.
  unfold setShapeFill, hasFillColour.
  destruct (backgroundColor style) as [[|a bg]|].
  - exists []. repeat split; try reflexivity. intros c [].
  - destruct (6 <=? String.length (removeFirstHash (String a bg)))%nat.
    + rewrite Quiet. cbn [andb].
      destruct (translucent style) eqn:T.
      * destruct (translucent_opacity style T) as [o ->].
        rewrite !pdfCall_quiet. cbn [andThen swallow fst app].
        eexists. split; [reflexivity|]. split; [reflexivity|]. split; [reflexivity|].
        intros c [<-|[<-|[<-|[]]]]; reflexivity.
      * eexists. split; [reflexivity|]. split; [reflexivity|]. split; [reflexivity|].
        intros c [<-|[]]. reflexivity.
    + exists []. repeat split; try reflexivity. intros c [].
  - exists []. repeat split; try reflexivity. intros c [].
Qed.

Lemma setShapeBorder_quiet style :
  exists calls hasBorder,
    setShapeBorder J style = (calls, hasBorder) /\
    count isSave calls = 0%nat /\
    count isRestore calls = 0%nat /\
    forall c, In c calls -> cornersOf c = [].
Proof.
  assert (Nil : exists calls hasBorder,
            (@nil ShapeCall, false) = (calls, hasBorder) /\
            count isSave calls = 0%nat /\ count isRestore calls = 0%nat /\
            forall c, In c calls -> cornersOf c = []).
  { exists [], false. repeat split; try reflexivity. intros c []. }
  unfold setShapeBorder.
  destruct (borderColor style) as [[|a bc]|]; [exact Nil| |exact Nil].
  destruct (borderWidth style) as [bw|]; [|exact Nil].
  destruct (negb (Qeq_bool bw 0)); [|exact Nil].
  destruct (6 <=? String.length (removeFirstHash (String a bc)))%nat; [|exact Nil].
  rewrite !pdfCall_quiet. cbn [andThen app].
  eexists. exists true. split; [reflexivity|].
  destruct (borderStyleIs style "dashed");
    [|destruct (borderStyleIs style "dotted")];
    rewrite ?pdfCall_quiet; cbn [swallow fst done app];
    (split; [reflexivity|]); (split; [reflexivity|]);
    intros c Hc; repeat (destruct Hc as [<-|Hc]; [reflexivity|]); destruct Hc.
Qed.

Lemma fillAndOutline_quiet hasFill hasBorder x1 y1 x2 y2 x3 y3 :
  exists calls,
    fillAndOutline J hasFill hasBorder x1 y1 x2 y2 x3 y3 = (calls, Ok tt) /\
    count isSave calls = 0%nat /\ count isRestore calls = 0%nat /\
    forall c, In c calls -> cornersOf c = [(x1, y1); (x2, y2); (x3, y3)].
Proof.
  unfold fillAndOutline.
  destruct hasFill, hasBorder; rewrite ?pdfCall_quiet; cbn [andThen done app];
    eexists; (split; [reflexivity|]); (split; [reflexivity|]); (split; [reflexivity|]);
    intros c Hc; repeat (destruct Hc as [<-|Hc]; [reflexivity|]); destruct Hc.
Qed.

Lemma two_halves (a : Q) : a / 2 + a / 2 == a.
Proof. field. Qed.

(** The shape itself: it saves and restores nothing, and stays inside the
    box. *)
Lemma drawShape_quiet shapeType cornerRadius hasFill hasBorder x y width height :
  exists calls,
    drawShape J shapeType cornerRadius hasFill hasBorder x y width height
    = (calls, Ok tt) /\
    count isSave calls = 0%nat /\ count isRestore calls = 0%nat /\
    (0 <= width -> 0 <= height -> Forall (insideBox x y width height) calls).
Proof.
  pose proof (two_halves width) as HalfW.
  pose proof (two_halves height) as HalfH.
  unfold drawShape. cbv zeta.
  set (kind := toLowerCase shapeType).
  destruct (String.eqb kind "circle" || String.eqb kind "ellipse").
  { destruct (Qeq_bool (width / 2) (height / 2)) eqn:Round.
    - rewrite pdfCall_quiet. eexists. split; [reflexivity|].
      split; [reflexivity|]. split; [reflexivity|].
      intros Hw Hh. apply Qeq_bool_iff in Round.
      constructor; [|constructor].
      unfold insideBox. cbn [cornersOf].
      repeat constructor; cbn [fst snd]; lra.
    - rewrite pdfCall_quiet. eexists. split; [reflexivity|].
      split; [reflexivity|]. split; [reflexivity|].
      intros Hw Hh. constructor; [|constructor].
      unfold insideBox. cbn [cornersOf].
      repeat constructor; cbn [fst snd]; lra. }
  destruct (String.eqb kind "roundedrectangle" || String.eqb kind "rounded-rectangle").
  { rewrite pdfCall_quiet. eexists. split; [reflexivity|].
    split; [reflexivity|]. split; [reflexivity|].
    intros Hw Hh. constructor; [|constructor].
    unfold insideBox. cbn [cornersOf].
    repeat constructor; cbn [fst snd]; lra. }
  destruct (String.eqb kind "triangle").
  { destruct (fillAndOutline_quiet hasFill hasBorder
                (x + width / 2) y x (y + height) (x + width) (y + height))
      as (calls & -> & S & R & C).
    exists calls. split; [reflexivity|]. split; [exact S|]. split; [exact R|].
    intros Hw Hh. apply Forall_forall. intros c Hc.
    unfold insideBox. rewrite (C c Hc).
    repeat constructor; cbn [fst snd]; lra. }
  destruct (String.eqb kind "diamond").
  { rewrite pdfCall_quiet. eexists. split; [reflexivity|].
    split; [reflexivity|]. split; [reflexivity|].
    intros Hw Hh. constructor; [|constructor].
    unfold insideBox. cbn [cornersOf map pathFrom fst snd].
    repeat constructor; cbn [fst snd]; lra. }
  destruct (String.eqb kind "arrow").
  { rewrite pdfCall_quiet.
    destruct (fillAndOutline_quiet hasFill hasBorder
                (x + width - width * 0.3) y (x + width) (y + height / 2)
                (x + width - width * 0.3) (y + height))
      as (calls & E & S & R & C).
    cbn [andThen]. rewrite E. cbn [app].
    eexists. split; [reflexivity|].
    split; [exact S|]. split; [exact R|].
    intros Hw Hh. constructor.
    - pose proof (two_halves (height - height * 0.6)) as HalfB.
      unfold insideBox. cbn [cornersOf].
      repeat constructor; cbn [fst snd]; lra.
    - apply Forall_forall. intros c Hc.
      unfold insideBox. rewrite (C c Hc).
      repeat constructor; cbn [fst snd]; lra. }
  destruct (String.eqb kind "line").
  { rewrite pdfCall_quiet. eexists. split; [reflexivity|].
    split; [reflexivity|]. split; [reflexivity|].
    intros Hw Hh. constructor; [|constructor].
    unfold insideBox. cbn [cornersOf].
    repeat constructor; cbn [fst snd]; lra. }
  rewrite pdfCall_quiet. eexists. split; [reflexivity|].
  split; [reflexivity|]. split; [reflexivity|].
  intros Hw Hh. constructor; [|constructor].
  unfold insideBox. cbn [cornersOf].
  repeat constructor; cbn [fst snd]; lra.
Qed.

(** The rectangle of the shadow. *)
Let shadowRect (x y width height : Q) : ShapeCall :=
  call (pdf_rect (x + Qmin width height * 0.02) (y + Qmin width height * 0.02)
          width height F).

Lemma drawShadow_quiet style x y width height :
  exists calls,
    drawShadow J style x y width height = (calls, Ok tt) /\
    count isSave calls = (if truthyOpt (boxShadow style) then 1 else 0)%nat /\
    count isRestore calls = (if truthyOpt (boxShadow style) then 1 else 0)%nat /\
    Forall (fun c => insideBox x y width height c \/ c = shadowRect x y width height)
      calls.
Proof.
  unfold drawShadow.
  destruct (truthyOpt (boxShadow style)).
  - rewrite !pdfCall_quiet. cbn [andThen app]. cbv zeta. rewrite ?pdfCall_quiet.
    cbn [andThen app].
    eexists. split; [reflexivity|]. split; [reflexivity|]. split; [reflexivity|].
    apply Forall_cons; [left; constructor|].
    apply Forall_cons; [left; constructor|].
    apply Forall_cons; [left; constructor|].
    apply Forall_cons; [right; reflexivity|].
    apply Forall_cons; [left; constructor|].
    constructor.
  - exists []. repeat split; try reflexivity. constructor.
Qed.

Lemma resetShapeState_quiet style :
  exists calls,
    resetShapeState J style = (calls, Ok tt) /\
    count isSave calls = 0%nat /\
    count isRestore calls = (if translucent style then 1 else 0)%nat /\
    forall c, In c calls -> cornersOf c = [].
Proof.
  unfold resetShapeState. rewrite pdfCall_quiet. cbn [andThen].
  destruct (translucent style); rewrite ?pdfCall_quiet; cbn [done app];
    eexists; (split; [reflexivity|]); (split; [reflexivity|]); (split; [reflexivity|]);
    intros c Hc; repeat (destruct Hc as [<-|Hc]; [reflexivity|]); destruct Hc.
Qed.

(** The run of the painter when no call throws, stage by stage. *)
Lemma renderShapeElement_quiet element x y width height :
  exists fillCalls borderCalls shapeCalls shadowCalls resetCalls,
    renderShapeElement J element x y width height
    = (fillCalls ++ borderCalls ++ (shapeCalls ++ shadowCalls) ++ resetCalls, Ok tt) /\
    (count isSave fillCalls
     = (if hasFillColour (el_style element) && translucent (el_style element)
        then 1 else 0)%nat /\
     count isRestore fillCalls = 0%nat /\
     forall c, In c fillCalls -> cornersOf c = []) /\
    (count isSave borderCalls = 0%nat /\ count isRestore borderCalls = 0%nat /\
     forall c, In c borderCalls -> cornersOf c = []) /\
    (count isSave shapeCalls = 0%nat /\ count isRestore shapeCalls = 0%nat /\
     (0 <= width -> 0 <= height -> Forall (insideBox x y width height) shapeCalls)) /\
    (count isSave shadowCalls
     = (if truthyOpt (boxShadow (el_style element)) then 1 else 0)%nat /\
     count isRestore shadowCalls
     = (if truthyOpt (boxShadow (el_style element)) then 1 else 0)%nat /\
     Forall (fun c => insideBox x y width height c \/ c = shadowRect x y width height)
       shadowCalls) /\
    (count isSave resetCalls = 0%nat /\
     count isRestore resetCalls
     = (if translucent (el_style element) then 1 else 0)%nat /\
     forall c, In c resetCalls -> cornersOf c = []).
Proof.
  unfold renderShapeElement. cbv zeta.
  destruct (setShapeFill_quiet (el_style element)) as (fillCalls & -> & Hfill).
  destruct (setShapeBorder_quiet (el_style element))
    as (borderCalls & hasBorder & -> & Hborder).
  set (shapeType := match contentShapeType (el_content element) with
                    | Some s => orStr s "rectangle"
                    | None => "rectangle"%string
                    end).
  destruct (drawShape_quiet shapeType (contentCornerRadius (el_content element))
              (hasFillColour (el_style element)) hasBorder x y width height)
    as (shapeCalls & -> & Hshape).
  destruct (drawShadow_quiet (el_style element) x y width height)
    as (shadowCalls & Eshadow & Hshadow).
  destruct (resetShapeState_quiet (el_style element)) as (resetCalls & -> & Hreset).
  cbn [andThen]. rewrite Eshadow. cbn [orElse finally].
  exists fillCalls, borderCalls, shapeCalls, shadowCalls, resetCalls.
  split; [reflexivity|].
  split; [exact Hfill|]. split; [exact Hborder|]. split; [exact Hshape|].
  split; [exact Hshadow|exact Hreset].
Qed.

(** X24.  A shape is painted inside its box, but its shadow is not.
    When no call on [pdf] throws and the box has no negative side, every
    call of the painter paints inside the box of the element, except the
    rectangle of the shadow, which has the size of the box and is moved
    down and to the right by a fiftieth of its smaller side. *)
Theorem shape_is_painted_inside_its_box (element : SlideElement)
    (x y width height : Q) :
  0 <= width -> 0 <= height ->
  Forall (fun c => insideBox x y width height c \/ c = shadowRect x y width height)
    (fst (renderShapeElement J element x y width height)).
Proof.
  intros Hw Hh.
  destruct (renderShapeElement_quiet element x y width height)
    as (fillCalls & borderCalls & shapeCalls & shadowCalls & resetCalls & -> &
        (_ & _ & Cf) & (_ & _ & Cb) & (_ & _ & Cs) & (_ & _ & Ch) & (_ & _ & Cr)).
  cbn [fst].
  assert (Plain : forall calls,
            (forall c, In c calls -> cornersOf c = []) ->
            Forall (fun c => insideBox x y width height c \/
                             c = shadowRect x y width height) calls).
  { intros calls C. apply Forall_forall. intros c Hc. left.
    unfold insideBox. rewrite (C c Hc). constructor. }
  apply Forall_app. split; [exact (Plain _ Cf)|].
  apply Forall_app. split; [exact (Plain _ Cb)|].
  apply Forall_app. split; [|exact (Plain _ Cr)].
  apply Forall_app. split; [|exact Ch].
  apply Forall_impl with (P := insideBox x y width height); [intros c Hc; left; exact Hc|].
  exact (Cs Hw Hh).
Qed.

End ShapePainterFacts.

(** **** The shape painter, whatever jsPDF throws *)

Section ShapePainterThrows.

Import ShapePainter.

Variable J : ShapeEnv.

(** Calls that neither save nor restore the graphics state. *)
Let stateless (calls : list ShapeCall) : Prop :=
  count isSave calls = 0%nat /\ count isRestore calls = 0%nat.

Lemma setShapeFill_without_colour style :
  hasFillColour style = false -> setShapeFill J style = ([], false).
Proof.
  unfold hasFillColour, setShapeFill. cbv zeta.
  destruct (backgroundColor style) as [[|a bg]|]; auto.
  intros ->. reflexivity.
Qed.

Lemma setShapeBorder_stateless style : stateless (fst (setShapeBorder J style)).
Proof.
  unfold setShapeBorder, pdfCall, andThen, swallow, done. cbv zeta.
  destruct (borderColor style) as [[|a bc]|]; [split; reflexivity| |split; reflexivity].
  destruct (borderWidth style) as [bw|]; [|split; reflexivity].
  repeat match goal with |- context [if ?b then _ else _] => destruct b end;
    split; reflexivity.
Qed.

Lemma drawShape_stateless shapeType cornerRadius hasFill hasBorder x y width height :
  stateless
    (fst (drawShape J shapeType cornerRadius hasFill hasBorder x y width height)).
Proof.
  unfold drawShape, fillAndOutline, pdfCall, andThen, done. cbv zeta.
  repeat match goal with |- context [if ?b then _ else _] => destruct b end;
    split; reflexivity.
Qed.

(** X23.  A translucent shape without a fill colour restores a graphics
    state it never saved.  For a shape with an opacity below 1 (and not
    0), no fill colour of six characters or more and no shadow, whatever
    jsPDF throws on the other calls, once the dash pattern is reset: the
    calls that return hold no [saveGraphicsState], and the last thing the
    painter does is to call [restoreGraphicsState].  When jsPDF throws on
    that call, the painter throws; when jsPDF accepts it, it is the last
    call and the only restore, and the painter returns if the shape, or
    the rectangle drawn in its place, was drawn. *)
Theorem shape_restores_what_it_did_not_save (element : SlideElement)
    (x y width height : Q) :
  translucent (el_style element) = true ->
  hasFillColour (el_style element) = false ->
  truthyOpt (boxShadow (el_style element)) = false ->
  callThrows J (pdf_setLineDashPattern [] 0) = false ->
  exists (calls : list ShapeCall) (outcome : Outcome unit),
    count isSave calls = 0%nat /\ count isRestore calls = 0%nat /\
    (callThrows J (call (pdf_rect x y width height D)) = false -> outcome = Ok tt) /\
    renderShapeElement J element x y width height
    = if callThrows J (call pdf_restoreGraphicsState)
      then (calls, Throw "jsPDF")
      else (calls ++ [call pdf_restoreGraphicsState], outcome).
Proof.
  intros T NoFill NoShadow Dash.
  unfold renderShapeElement. cbv zeta.
  rewrite (setShapeFill_without_colour _ NoFill).
  pose proof (setShapeBorder_stateless (el_style element)) as [Sb Rb].
  destruct (setShapeBorder J (el_style element)) as [borderCalls hasBorder].
  cbn [fst] in Sb, Rb.
  set (shapeType := match contentShapeType (el_content element) with
                    | Some s => orStr s "rectangle"
                    | None => "rectangle"%string
                    end).
  pose proof (drawShape_stateless shapeType (contentCornerRadius (el_content element))
                false hasBorder x y width height) as [Sd Rd].
  destruct (drawShape J shapeType (contentCornerRadius (el_content element))
              false hasBorder x y width height) as [shapeCalls r].
  cbn [fst] in Sd, Rd.
  unfold drawShadow, resetShapeState. rewrite NoShadow, T.
  change (drawStyleOf false hasBorder) with D.
  unfold pdfCall. rewrite Dash.
  set (dash := pdf_setLineDashPattern [] 0).
  set (rect := call (pdf_rect x y width height D)).
  set (restore := call pdf_restoreGraphicsState).
  destruct r as [[]|e]; [|destruct (callThrows J rect) eqn:R].
  - exists (borderCalls ++ shapeCalls ++ [dash]), (Ok tt).
    split; [rewrite !count_app, Sb, Sd; reflexivity|].
    split; [rewrite !count_app, Rb, Rd; reflexivity|].
    split; [reflexivity|].
    destruct (callThrows J restore); cbn [andThen orElse finally done app];
      rewrite <- ?app_assoc, ?app_nil_r; reflexivity.
  - exists (borderCalls ++ shapeCalls ++ [dash]), (Throw "jsPDF").
    split; [rewrite !count_app, Sb, Sd; reflexivity|].
    split; [rewrite !count_app, Rb, Rd; reflexivity|].
    split; [discriminate|].
    destruct (callThrows J restore); cbn [andThen orElse finally done app];
      rewrite <- ?app_assoc, ?app_nil_r; reflexivity.
  - exists (borderCalls ++ shapeCalls ++ [rect; dash]), (Ok tt).
    split; [rewrite !count_app, Sb, Sd; reflexivity|].
    split; [rewrite !count_app, Rb, Rd; reflexivity|].
    split; [reflexivity|].
    destruct (callThrows J restore); cbn [andThen orElse finally done app];
      rewrite <- ?app_assoc, ?app_nil_r; reflexivity.
Qed.

End ShapePainterThrows.

Lemma faded_shape_example :
  exists calls : list ShapePainter.ShapeCall,
    ShapePainter.count ShapePainter.isSave calls = 0%nat /\
    ShapePainter.renderShapeElement unsavedShapeEnv (shapeElement "ellipse" fadedStyle)
      0 0 100 50
    = (calls, Throw "jsPDF").
Proof.
  destruct (shape_restores_what_it_did_not_save unsavedShapeEnv
              (shapeElement "ellipse" fadedStyle) 0 0 100 50
              eq_refl eq_refl eq_refl eq_refl)
    as (calls & outcome & Saves & _ & _ & Run).
  exists calls. split; [exact Saves | exact Run].
Defined.

Lemma shape_inside_box_example :
  0 <= 100 /\ 0 <= 50 /\
  Forall
    (fun c =>
       ShapePainter.insideBox 0 0 100 50 c \/
       c = ShapePainter.call
             (pdf_rect (0 + Qmin 100 50 * 0.02) (0 + Qmin 100 50 * 0.02) 100 50 F))
    (fst (ShapePainter.renderShapeElement quietShapeEnv
            (shapeElement "arrow" fadedStyle) 0 0 100 50)).
Proof.
  split; [discriminate|]. split; [discriminate|].
  apply (shape_is_painted_inside_its_box quietShapeEnv (fun _ => eq_refl)
           (shapeElement "arrow" fadedStyle) 0 0 100 50); discriminate.
Defined.

End PowerPointToPDFMoreFacts.

(** ** More of the Word converter *)

Module WordToPDFMoreFacts.

Import JS JSMore WordToPDF JSFacts JSMoreFacts WordToPDFMore.

Local Open Scope string_scope.

(** *** Room on the page *)

Section DrawingFacts.

Variable W : Font -> string -> Q -> Q.

(** The height of the text area of a page, between the margins. *)
Let textAreaHeight : Q := pageHeight - marginTop - marginBottom.

Lemma allOps_drawOnPage op d : allOps (drawOnPage op d) = (allOps d ++ [op])%list.
Proof. unfold allOps, drawOnPage. simpl. apply app_assoc. Qed.

Lemma allOps_setYPosition y d : allOps (setYPosition y d) = allOps d.
Proof. reflexivity. Qed.

(** What [ensureSpace] does: nothing when the height fits above the
    bottom margin; else it closes the page with its number and opens the
    next at the top margin. *)
Lemma ensureSpace_cases requiredHeight d :
  (marginBottom <= yPosition d - requiredHeight /\ ensureSpace W requiredHeight d = d) \/
  (yPosition d - requiredHeight < marginBottom /\
   allOps (ensureSpace W requiredHeight d) = (allOps d ++ [footerOf W (pageNumber d)])%list /\
   pages (ensureSpace W requiredHeight d)
   = (pages d ++ [page d ++ [footerOf W (pageNumber d)]])%list /\
   page (ensureSpace W requiredHeight d) = [] /\
   pageNumber (ensureSpace W requiredHeight d) = S (pageNumber d) /\
   yPosition (ensureSpace W requiredHeight d) = pageHeight - marginTop).
Proof.
  unfold ensureSpace.
  destruct (lt (yPosition d - requiredHeight) marginBottom) eqn:L.
  - right. apply lt_true_iff in L. split; [exact L|]. simpl.
    split; [|repeat split].
    unfold allOps. simpl. rewrite concat_app. simpl.
    rewrite !app_nil_r, app_assoc. reflexivity.
  - left. split; [|reflexivity].
    unfold lt in L. apply negb_false_iff in L. apply Qle_bool_iff in L. exact L.
Qed.

Lemma drawCurrentLine_ops line style x indent d :
  let d1 := ensureSpace W (lineHeightOf style) d in
  allOps (drawCurrentLine W line style x indent d)
  = (allOps d1 ++ lineOps W line style x indent (yPosition d1))%list /\
  pages (drawCurrentLine W line style x indent d) = pages d1 /\
  pageNumber (drawCurrentLine W line style x indent d) = pageNumber d1 /\
  yPosition (drawCurrentLine W line style x indent d) = yPosition d1 - lineHeightOf style.
Proof.
  intros d1. unfold drawCurrentLine, lineOps. fold d1. cbv zeta.
  destruct (highlight style) as [h|]; destruct (underline style);
    destruct (strikethrough style) as [[|]|];
    (split; [|split; [|split]]; try reflexivity);
    rewrite allOps_setYPosition, ?allOps_drawOnPage, <- ?app_assoc; reflexivity.
Qed.

(** *** Wrapping *)

Lemma concat_space_letters lines :
  withoutWhiteSpace (String.concat " " lines)
  = withoutWhiteSpace (PowerPointToPDF.joined lines).
Proof.
  induction lines as [|l lines IH]; [reflexivity|].
  change (PowerPointToPDF.joined (l :: lines)) with (l ++ PowerPointToPDF.joined lines).
  destruct lines as [|l' lines].
  - simpl. rewrite string_app_nil. reflexivity.
  - change (String.concat " " (l :: l' :: lines))
      with (l ++ " " ++ String.concat " " (l' :: lines)).
    rewrite !withoutWhiteSpace_app, IH. reflexivity.
Qed.

Lemma joined_app_lines l1 l2 :
  PowerPointToPDF.joined (l1 ++ l2)%list
  = PowerPointToPDF.joined l1 ++ PowerPointToPDF.joined l2.
Proof.
  induction l1 as [|a l1 IH]; [reflexivity|].
  change (PowerPointToPDF.joined ((a :: l1) ++ l2)%list)
    with (a ++ PowerPointToPDF.joined (l1 ++ l2)%list).
  rewrite IH. symmetry. apply string_app_assoc.
Qed.

Lemma drawLines_cons line lines style x indent d :
  drawLines W (line :: lines) style x indent d
  = drawLines W lines style x indent (drawCurrentLine W line style x indent d).
Proof. reflexivity. Qed.

Lemma drawLines_snoc line lines style x indent d :
  drawLines W (lines ++ [line]) style x indent d
  = drawCurrentLine W line style x indent (drawLines W lines style x indent d).
Proof. unfold drawLines. rewrite fold_left_app. reflexivity. Qed.

Section WordWrapFacts.

Variable style : TextStyle.
Variable x indent : Q.
Variable allWords : list string.

(** A line is not empty, and fits the width left of the indent unless it
    is a single word of the text. *)
Let good (l : string) : Prop :=
  l <> "" /\
  (W (getFont style) l (fontSize style) <= maxWidth - indent \/ In l allWords).

Lemma drawWords_lines words : forall currentLine d,
  incl words allWords ->
  (currentLine = "" \/ good currentLine) ->
  exists lines currentLine',
    drawWords W words currentLine style x indent d
    = (currentLine', drawLines W lines style x indent d) /\
    Forall good lines /\
    (currentLine' = "" \/ good currentLine') /\
    withoutWhiteSpace (PowerPointToPDF.joined lines ++ currentLine')
    = withoutWhiteSpace (currentLine ++ PowerPointToPDF.joined words).
Proof.
  induction words as [|word words IH]; intros cur d Hin Hcur.
  - exists [], cur. split; [reflexivity|]. split; [constructor|]. split; [exact Hcur|].
    simpl. rewrite string_app_nil. reflexivity.
  - assert (Hin' : incl words allWords) by (intros a Ha; apply Hin; right; exact Ha).
    assert (Hw : In word allWords) by (apply Hin; left; reflexivity).
    change (PowerPointToPDF.joined (word :: words))
      with (word ++ PowerPointToPDF.joined words).
    cbn [drawWords].
    assert (Sep : withoutWhiteSpace (testLineOf cur word)
                  = withoutWhiteSpace cur ++ withoutWhiteSpace word).
    { unfold testLineOf. rewrite !withoutWhiteSpace_app.
      destruct (truthyStr cur); reflexivity. }
    destruct (le (W (getFont style) (testLineOf cur word) (fontSize style))
                (maxWidth - indent)) eqn:Fit.
    + apply le_true_iff in Fit.
      destruct (IH (testLineOf cur word) d Hin') as (lines & cur' & Hrun & Hl & Hc & Hk).
      { destruct (string_dec (testLineOf cur word) "") as [E|E];
          [left; exact E | right; split; [exact E | left; exact Fit]]. }
      exists lines, cur'. split; [exact Hrun|]. split; [exact Hl|]. split; [exact Hc|].
      rewrite Hk, !withoutWhiteSpace_app, Sep, string_app_assoc. reflexivity.
    + destruct (truthyStr cur) eqn:T.
      * destruct (IH word (drawCurrentLine W cur style x indent d) Hin')
          as (lines & cur' & Hrun & Hl & Hc & Hk).
        { destruct (string_dec word "") as [E|E];
            [left; exact E | right; split; [exact E | right; exact Hw]]. }
        exists (cur :: lines), cur'. split; [rewrite Hrun; reflexivity|].
        split.
        { constructor; [|exact Hl].
          destruct Hcur as [->|G]; [discriminate T | exact G]. }
        split; [exact Hc|].
        change (PowerPointToPDF.joined (cur :: lines))
          with (cur ++ PowerPointToPDF.joined lines).
        rewrite string_app_assoc, withoutWhiteSpace_app, Hk, <- withoutWhiteSpace_app.
        reflexivity.
      * apply truthyStr_false in T. subst cur.
        destruct (IH word d Hin') as (lines & cur' & Hrun & Hl & Hc & Hk).
        { destruct (string_dec word "") as [E|E];
            [left; exact E | right; split; [exact E | right; exact Hw]]. }
        exists lines, cur'. split; [exact Hrun|]. split; [exact Hl|]. split; [exact Hc|].
        rewrite Hk. reflexivity.
Qed.

End WordWrapFacts.


(** [drawStyledText] draws lines one after the other. *)
Lemma styled_text_lines text style x indent d :
  exists lines,
    drawStyledText W text style x indent d = drawLines W lines style x indent d.
Proof.
  unfold drawStyledText.
  destruct (drawWords_lines style x indent (split_ws (trim text)) (split_ws (trim text))
              "" d (incl_refl _) (or_introl eq_refl))
    as (lines & cur & Hrun & _).
  rewrite Hrun. destruct (truthyStr cur).
  - exists (lines ++ [cur])%list. symmetry. apply drawLines_snoc.
  - exists lines. reflexivity.
Qed.

(** X14.  [drawStyledText] wraps by whole words.  What it does to the
    document is to draw certain lines one after the other; none of them is
    empty; each fits the width left of the indent, unless it is a single
    word of the text (a word too long for a line is drawn whole, it is
    never broken); and joined by spaces the lines hold the characters of
    the text other than white space, all of them, once, in their
    order. *)
Theorem styled_text_is_wrapped_by_whole_words (text : string) (style : TextStyle)
    (x indent : Q) (d : Doc) :
  exists lines : list string,
    drawStyledText W text style x indent d = drawLines W lines style x indent d /\
    withoutWhiteSpace (String.concat " " lines) = withoutWhiteSpace text /\
    Forall (fun l =>
              l <> "" /\
              (W (getFont style) l (fontSize style) <= maxWidth - indent \/
               In l (split_ws (trim text)))) lines.
Proof.
  unfold drawStyledText.
  destruct (drawWords_lines style x indent (split_ws (trim text)) (split_ws (trim text))
              "" d (incl_refl _) (or_introl eq_refl))
    as (lines & cur & Hrun & Hl & Hc & Hk).
  rewrite Hrun.
  assert (Letters : withoutWhiteSpace (PowerPointToPDF.joined (split_ws (trim text)))
                    = withoutWhiteSpace text).
  { unfold split_ws. rewrite splitWhiteSpace_keeps_letters. simpl. apply trim_letters. }
  simpl in Hk. rewrite Letters in Hk.
  destruct (truthyStr cur) eqn:T.
  - exists (lines ++ [cur])%list. split; [symmetry; apply drawLines_snoc|].
    split.
    + rewrite concat_space_letters, joined_app_lines. simpl.
      rewrite string_app_nil. exact Hk.
    + apply Forall_app. split; [exact Hl|]. constructor; [|constructor].
      destruct Hc as [->|G]; [discriminate T | exact G].
  - apply truthyStr_false in T. subst cur. rewrite string_app_nil in Hk.
    exists lines. split; [reflexivity|]. split; [|exact Hl].
    rewrite concat_space_letters. exact Hk.
Qed.

(** One line, drawn with room for it, lies between the margins. *)
Lemma drawCurrentLine_between line style x indent d :
  0 < lineHeightOf style -> lineHeightOf style <= textAreaHeight ->
  yPosition d <= pageHeight - marginTop ->
  let d' := drawCurrentLine W line style x indent d in
  exists new,
    allOps d' = (allOps d ++ new)%list /\
    Forall (betweenMargins W (lineHeightOf style)) new /\
    marginBottom <= yPosition d' /\
    yPosition d' <= pageHeight - marginTop /\
    (pageNumber d <= pageNumber d')%nat /\
    (List.length (pages d') + pageNumber d = List.length (pages d) + pageNumber d')%nat.
Proof.
  intros Pos Fits Top d'.
  destruct (drawCurrentLine_ops line style x indent d) as (Hops & Hpages & Hnum & Hy).
  cbv zeta in Hops, Hpages, Hnum, Hy. fold d' in Hops, Hpages, Hnum, Hy.
  unfold textAreaHeight, pageHeight, marginTop, marginBottom in *.
  set (lh := lineHeightOf style) in *.
  assert (LineOk : forall y, 72 + lh <= y -> y <= 842 - 72 ->
            Forall (betweenMargins W lh) (lineOps W line style x indent y)).
  { intros y Hlo Hhi. unfold lineOps.
    apply Forall_app; split; [|apply Forall_app; split; [|apply Forall_app; split]].
    - destruct (highlight style); constructor; [right; exact I | constructor].
    - constructor; [|constructor]. right.
      unfold marginBottom, pageHeight, marginTop. split; assumption.
    - destruct (underline style); constructor; [right; exact I | constructor].
    - destruct (strikethrough style) as [[|]|]; constructor; [right; exact I | constructor]. }
  destruct (ensureSpace_cases lh d) as [[Room Same]|(Low & Eops & Epages & _ & Enum & Ey)];
    unfold pageHeight, marginTop, marginBottom in *.
  - rewrite Same in *.
    exists (lineOps W line style x indent (yPosition d)).
    split; [exact Hops|]. split; [apply LineOk; lra|].
    rewrite Hy, Hpages, Hnum. repeat split; try lra; lia.
  - rewrite Eops, Ey in Hops. rewrite Ey in Hy. rewrite Epages in Hpages.
    rewrite Enum in Hnum.
    exists ([footerOf W (pageNumber d)] ++ lineOps W line style x indent (842 - 72))%list.
    split; [rewrite Hops, <- app_assoc; reflexivity|].
    split.
    { apply Forall_app. split.
      - constructor; [left; exists (pageNumber d); reflexivity | constructor].
      - apply LineOk; lra. }
    rewrite Hy, Hpages, Hnum, List.length_app. simpl. repeat split; try lra; lia.
Qed.

Lemma drawLines_between style x indent lines : forall d,
  0 < lineHeightOf style -> lineHeightOf style <= textAreaHeight ->
  yPosition d <= pageHeight - marginTop ->
  let d' := drawLines W lines style x indent d in
  exists new,
    allOps d' = (allOps d ++ new)%list /\
    Forall (betweenMargins W (lineHeightOf style)) new /\
    (lines <> [] -> marginBottom <= yPosition d') /\
    yPosition d' <= pageHeight - marginTop /\
    (pageNumber d <= pageNumber d')%nat /\
    (List.length (pages d') + pageNumber d = List.length (pages d) + pageNumber d')%nat.
Proof.
  induction lines as [|line lines IH]; intros d Pos Fits Top; cbv zeta.
  - exists []. simpl. rewrite app_nil_r. repeat split; auto; try lia. congruence.
  - rewrite drawLines_cons.
    destruct (drawCurrentLine_between line style x indent d Pos Fits Top)
      as (n1 & O1 & F1 & B1 & T1 & P1 & L1).
    destruct (IH (drawCurrentLine W line style x indent d) Pos Fits T1)
      as (n2 & O2 & F2 & B2 & T2 & P2 & L2).
    exists (n1 ++ n2)%list.
    split; [rewrite O2, O1, app_assoc; reflexivity|].
    split; [apply Forall_app; split; assumption|].
    split.
    { intros _. destruct lines as [|l lines]; [exact B1 | apply B2; discriminate]. }
    split; [exact T2|]. split; lia.
Qed.

(** X15.  Text stays between the margins.  For a style whose line
    height is positive and not more than the text area of a page, on a
    document whose position is not above the top margin: the calls
    [drawStyledText] adds are, besides rectangles and lines, the page
    numbers in the bottom margin and texts whose baseline is at least a
    line height above the bottom margin and not above the top margin; it
    closes a page exactly as often as it raises the page number, and it
    leaves the position between the margins. *)
Theorem styled_text_stays_between_the_margins (text : string) (style : TextStyle)
    (x indent : Q) (d : Doc) :
  0 < lineHeightOf style ->
  lineHeightOf style <= pageHeight - marginTop - marginBottom ->
  yPosition d <= pageHeight - marginTop ->
  let d' := drawStyledText W text style x indent d in
  exists new : list PageOp,
    allOps d' = (allOps d ++ new)%list /\
    Forall (betweenMargins W (lineHeightOf style)) new /\
    (new <> [] -> marginBottom <= yPosition d') /\
    yPosition d' <= pageHeight - marginTop /\
    (pageNumber d <= pageNumber d')%nat /\
    (List.length (pages d') + pageNumber d = List.length (pages d) + pageNumber d')%nat.
Proof.
  intros Pos Fits Top d'.
  destruct (styled_text_lines text style x indent d) as (lines & Hrun).
  unfold d'. rewrite Hrun.
  destruct (drawLines_between style x indent lines d Pos Fits Top)
    as (new & O & F & B & T & P & L).
  exists new. split; [exact O|]. split; [exact F|].
  split.
  { intros Hnew. apply B. intros ->. apply Hnew.
    simpl in O. apply (f_equal (@List.length PageOp)) in O.
    rewrite List.length_app in O. destruct new; [reflexivity | simpl in O; lia]. }
  split; [exact T|]. split; [exact P | exact L].
Qed.

(** *** Images *)

(** *** Tables *)

Lemma widestCell_ok rows i size : forall start,
  (forall row, In row rows -> (i < List.length row)%nat) ->
  exists widest, widestCell W rows i size start = Ok widest /\ start <= widest.
Proof.
  induction rows as [|row rows IH]; intros start Hall.
  - exists start. split; [reflexivity | apply Qle_refl].
  - cbn [widestCell].
    destruct (nth_error row i) as [cellText|] eqn:N.
    + destruct (IH (Qmax start (W Regular cellText size))) as (w & Hw & Hle).
      { intros r Hr. apply Hall. right. exact Hr. }
      exists w. split; [exact Hw|].
      eapply Qle_trans; [apply Q.le_max_l | exact Hle].
    + apply nth_error_None in N.
      assert (i < List.length row)%nat by (apply Hall; left; reflexivity). lia.
Qed.

Lemma widestCell_short rows i size : forall start,
  (exists row, In row rows /\ (List.length row <= i)%nat) ->
  exists e, widestCell W rows i size start = Throw e.
Proof.
  induction rows as [|row rows IH]; intros start (r & Hr & Hlen).
  - destruct Hr.
  - cbn [widestCell]. destruct (nth_error row i) as [cellText|] eqn:N.
    + destruct Hr as [->|Hr].
      * apply nth_error_None in Hlen. congruence.
      * apply IH. exists r. auto.
    + eexists. reflexivity.
Qed.

Lemma colWidthsFrom_ok rows size maxColWidth count : forall i,
  0 <= maxColWidth ->
  (forall row, In row rows -> (i + count <= List.length row)%nat) ->
  exists colWidths,
    colWidthsFrom W rows size maxColWidth i count = Ok colWidths /\
    List.length colWidths = count /\
    Forall (fun w => 0 <= w /\ w <= maxColWidth) colWidths /\
    sumQ colWidths <= inject_Z (Z.of_nat count) * maxColWidth.
Proof.
  induction count as [|count IH]; intros i Hpos Hall.
  - exists []. split; [reflexivity|]. split; [reflexivity|]. split; [constructor|].
    cbn [sumQ]. setoid_replace (inject_Z (Z.of_nat 0) * maxColWidth) with 0 by ring.
    apply Qle_refl.
  - cbn [colWidthsFrom].
    destruct (widestCell_ok rows i size 0) as (widest & Hw & Hle).
    { intros row Hrow. specialize (Hall row Hrow). lia. }
    rewrite Hw.
    destruct (IH (S i) Hpos) as (ws & Hws & Hlen & Hall' & Hsum).
    { intros row Hrow. specialize (Hall row Hrow). lia. }
    rewrite Hws. eexists. split; [reflexivity|].
    assert (B : 0 <= Qmin (widest + cellPadding * 2) maxColWidth /\
                Qmin (widest + cellPadding * 2) maxColWidth <= maxColWidth).
    { split; [|apply Q.le_min_r].
      apply Q.min_glb; [unfold cellPadding; lra | exact Hpos]. }
    split; [simpl; congruence|]. split; [constructor; assumption|].
    cbn [sumQ]. rewrite Nat2Z.inj_succ, <- Z.add_1_r, inject_Z_plus.
    destruct B as [_ B]. change (inject_Z 1) with 1.
    setoid_replace ((inject_Z (Z.of_nat count) + 1) * maxColWidth)
      with (inject_Z (Z.of_nat count) * maxColWidth + maxColWidth) by ring.
    lra.
Qed.

Lemma colWidthsFrom_short rows size maxColWidth row count : forall i,
  In row rows -> (i <= List.length row)%nat -> (List.length row < i + count)%nat ->
  exists e, colWidthsFrom W rows size maxColWidth i count = Throw e.
Proof.
  induction count as [|count IH]; intros i Hrow Hlo Hhi; [lia|].
  cbn [colWidthsFrom].
  destruct (Nat.eq_dec i (List.length row)) as [->|Ne].
  - destruct (widestCell_short rows (List.length row) size 0) as (e & He).
    { exists row. split; [exact Hrow | lia]. }
    rewrite He. exists e. reflexivity.
  - destruct (widestCell W rows i size 0) as [widest|e]; [|exists e; reflexivity].
    destruct (IH (S i) Hrow) as (e & He); [lia | lia |].
    rewrite He. exists e. reflexivity.
Qed.

(** X17.  The columns of a table share the text width.  For a table
    whose rows all have at least as many cells as the first, which has at
    least one: [drawTable] gives the first row's columns widths that are
    not negative, each at most the text width less twice the cell padding
    divided by the number of columns, so that together they are not wider
    than the text width.  For a table with a row that has fewer cells than
    the first, computing the widths throws. *)
Theorem table_columns_share_the_text_width (firstRow : list string)
    (rest : list (list string)) (style : TextStyle) :
  (1 <= List.length firstRow)%nat ->
  let rows := firstRow :: rest in
  let maxColWidth :=
    (maxWidth - cellPadding * 2) / inject_Z (Z.of_nat (List.length firstRow)) in
  ((forall row, In row rows -> (List.length firstRow <= List.length row)%nat) ->
   exists colWidths : list Q,
     colWidthsOf W rows style = Ok colWidths /\
     List.length colWidths = List.length firstRow /\
     Forall (fun w => 0 <= w /\ w <= maxColWidth) colWidths /\
     sumQ colWidths <= maxWidth - cellPadding * 2) /\
  ((exists row, In row rows /\ (List.length row < List.length firstRow)%nat) ->
   exists e : string, colWidthsOf W rows style = Throw e).
Proof.
  intros Hn rows maxColWidth.
  assert (N : 0 < inject_Z (Z.of_nat (List.length firstRow))).
  { change 0 with (inject_Z 0). rewrite <- Zlt_Qlt. lia. }
  assert (P : 0 <= maxColWidth).
  { unfold maxColWidth. apply Qle_shift_div_l; auto.
    unfold maxWidth, pageWidth, marginLeft, marginRight, cellPadding. lra. }
  split.
  - intros Hall.
    destruct (colWidthsFrom_ok rows (fontSize style) maxColWidth (List.length firstRow)
                0%nat P) as (ws & Hws & Hlen & Hb & Hsum).
    { intros row Hrow. simpl. apply Hall. exact Hrow. }
    exists ws. split; [exact Hws|]. split; [exact Hlen|]. split; [exact Hb|].
    eapply Qle_trans; [exact Hsum|]. unfold maxColWidth.
    setoid_replace (inject_Z (Z.of_nat (List.length firstRow)) *
                    ((maxWidth - cellPadding * 2)
                     / inject_Z (Z.of_nat (List.length firstRow))))
      with (maxWidth - cellPadding * 2) by (field; lra).
    apply Qle_refl.
  - intros (row & Hrow & Hshort).
    unfold colWidthsOf. fold rows. fold maxColWidth.
    apply colWidthsFrom_short with (row := row); auto. simpl. lia.
Qed.

End DrawingFacts.

Lemma styled_text_margins_example :
  let d' := drawStyledText halfSizePerChar "The quick brown fox" (plainStyle black)
              marginLeft 0 newDoc in
  exists new : list PageOp,
    allOps d' = (allOps newDoc ++ new)%list /\
    Forall (betweenMargins halfSizePerChar (lineHeightOf (plainStyle black))) new /\
    yPosition d' <= pageHeight - marginTop.
Proof.
  cbv zeta.
  destruct (styled_text_stays_between_the_margins halfSizePerChar "The quick brown fox"
              (plainStyle black) marginLeft 0 newDoc)
    as (new & O & F & _ & T & _).
  - vm_compute. reflexivity.
  - vm_compute. discriminate.
  - vm_compute. discriminate.
  - exists new. split; [exact O|]. split; [exact F | exact T].
Defined.

Lemma table_columns_example :
  exists colWidths : list Q,
    colWidthsOf halfSizePerChar [["Name"; "Age"]; ["Ada"; "36"]] (plainStyle black)
    = Ok colWidths /\
    sumQ colWidths <= maxWidth - cellPadding * 2.
Proof.
  destruct (table_columns_share_the_text_width halfSizePerChar ["Name"; "Age"]
              [["Ada"; "36"]] (plainStyle black)) as [Fits _].
  - simpl. lia.
  - destruct Fits as (ws & Hws & _ & _ & Hsum).
    + intros row [<-|[<-|[]]]; simpl; lia.
    + exists ws. split; [exact Hws | exact Hsum].
Defined.

(** *** The name of the converted file *)

Lemma length_toLowerCase s : String.length (toLowerCase s) = String.length s.
Proof. induction s; simpl; congruence. Qed.

Lemma hasWordExtensionAt_cases s :
  hasWordExtensionAt s = true -> toLowerCase s = ".docx" \/ toLowerCase s = ".doc".
Proof.
  unfold hasWordExtensionAt. intros H. apply orb_true_iff in H.
  destruct H as [H|H]; apply String.eqb_eq in H; auto.
Qed.

Lemma not_extension_before ext c t :
  hasWordExtensionAt ext = true -> hasWordExtensionAt (String c (t ++ ext)) = false.
Proof.
  intros H. destruct (hasWordExtensionAt (String c (t ++ ext))) eqn:E; [|reflexivity].
  exfalso.
  assert (L1 : (String.length ext = 5 \/ String.length ext = 4)%nat).
  { destruct (hasWordExtensionAt_cases ext H) as [X|X];
      apply (f_equal String.length) in X; rewrite length_toLowerCase in X; auto. }
  destruct (hasWordExtensionAt_cases _ E) as [X|X].
  - pose proof (f_equal String.length X) as Len.
    rewrite length_toLowerCase in Len. simpl in Len. rewrite length_app in Len.
    destruct t as [|c2 t]; [|simpl in Len; lia].
    simpl in X. destruct (hasWordExtensionAt_cases ext H) as [Y|Y]; rewrite Y in X;
      discriminate X.
  - pose proof (f_equal String.length X) as Len.
    rewrite length_toLowerCase in Len. simpl in Len. rewrite length_app in Len. lia.
Qed.

Lemma pdfNameOf_step c name :
  hasWordExtensionAt (String c name) = false ->
  pdfNameOf (String c name) = String c (pdfNameOf name).
Proof.
  intros H.
  change (pdfNameOf (String c name))
    with (if hasWordExtensionAt (String c name) then ".pdf"
          else String c (pdfNameOf name)).
  rewrite H. reflexivity.
Qed.

Lemma pdfNameOf_extension ext :
  hasWordExtensionAt ext = true -> pdfNameOf ext = ".pdf".
Proof.
  intros H. destruct ext as [|c ext]; [discriminate H|].
  change (pdfNameOf (String c ext))
    with (if hasWordExtensionAt (String c ext) then ".pdf"
          else String c (pdfNameOf ext)).
  rewrite H. reflexivity.
Qed.

Lemma endsWith_split name suffix :
  endsWith name suffix = true ->
  name = substring 0 (String.length name - String.length suffix) name ++ suffix.
Proof.
  unfold endsWith. intros H. apply andb_true_iff in H. destruct H as [_ H].
  apply String.eqb_eq in H.
  pose proof (substring_split (String.length name - String.length suffix) name) as S.
  rewrite H in S. symmetry. exact S.
Qed.

(** X18.  The name of the converted file.  A name that ends in .doc or
    .docx, in any mix of upper and lower case, gets that ending replaced
    by .pdf and keeps all that comes before it; so does every file that
    [handleFilesSelected] accepts for its name.  A name in which .doc does
    not occur in any case is kept as it is: a file accepted for its type
    alone is offered for download under its own name, without .pdf. *)
Theorem converted_file_name_ends_in_pdf :
  (forall stem ext : string,
     hasWordExtensionAt ext = true -> pdfNameOf (stem ++ ext) = stem ++ ".pdf") /\
  (forall type name : string,
     endsWith name ".docx" = true \/ endsWith name ".doc" = true ->
     isWordFile type name = true /\ exists stem, pdfNameOf name = stem ++ ".pdf") /\
  (forall name : string,
     includes (toLowerCase name) ".doc" = false -> pdfNameOf name = name).
Proof.
  assert (P1 : forall stem ext : string,
            hasWordExtensionAt ext = true -> pdfNameOf (stem ++ ext) = stem ++ ".pdf").
  { intros stem ext H. induction stem as [|c stem IH].
    - apply pdfNameOf_extension. exact H.
    - change (String c stem ++ ext) with (String c (stem ++ ext)).
      rewrite pdfNameOf_step by (apply not_extension_before; exact H).
      rewrite IH. reflexivity. }
  split; [exact P1|]. split.
  - intros type name H. split.
    + unfold isWordFile. destruct H as [H|H]; rewrite H; rewrite ?orb_true_r; reflexivity.
    + destruct H as [H|H]; apply endsWith_split in H; rewrite H; eexists;
        apply P1; reflexivity.
  - intros name. induction name as [|c name IH]; intros H; [reflexivity|].
    assert (No : hasWordExtensionAt (String c name) = false).
    { destruct (hasWordExtensionAt (String c name)) eqn:E; [|reflexivity].
      destruct (hasWordExtensionAt_cases _ E) as [X|X]; rewrite X in H; discriminate H. }
    rewrite pdfNameOf_step by exact No. f_equal. apply IH.
    simpl in H. apply orb_false_iff in H. destruct H as [_ H]. exact H.
Qed.

(** *** Colours *)

Lemma prefix_cons_false (p : string) c d s :
  c <> d -> prefix (String c p) (String d s) = false.
Proof.
  intros H. cbn [prefix]. destruct (ascii_dec c d); [contradiction | reflexivity].
Qed.

(** X19.  Colour names are read in any case.  A string whose lower-case
    form is one of the eighteen names gives that name's colour, whatever
    the case of its letters. *)
Theorem named_colours_ignore_case (colorStr : string) (c : Color) :
  lookup namedColors (toLowerCase colorStr) = Some c -> parseColor colorStr = c.
Proof.
  intros H. unfold parseColor.
  destruct colorStr as [|a s]; [cbn in H; discriminate H|].
  change (negb (truthyStr (String a s))) with false. cbv iota.
  assert (NoHex : parseHex (String a s) = None).
  { unfold parseHex, startsWith.
    destruct (ascii_dec "#" a) as [<-|Ne].
    - cbn in H. discriminate H.
    - rewrite prefix_cons_false by exact Ne. reflexivity. }
  assert (NoRgb : parseRgb (String a s) = None).
  { unfold parseRgb, startsWith.
    destruct (prefix "rgb" (String a s)) eqn:P; [|reflexivity].
    exfalso. cbn [prefix] in P.
    destruct (ascii_dec "r" a) as [<-|]; [|discriminate P].
    destruct s as [|a2 s]; cbn [prefix] in P; [discriminate P|].
    destruct (ascii_dec "g" a2) as [<-|]; [|discriminate P].
    destruct s as [|a3 s]; cbn [prefix] in P; [discriminate P|].
    destruct (ascii_dec "b" a3) as [<-|]; [|discriminate P].
    cbn in H. discriminate H. }
  rewrite NoHex, NoRgb, H. reflexivity.
Qed.

Lemma named_colour_example : parseColor "DarkBlue" = rgb 0 0 0.5.
Proof. apply (named_colours_ignore_case "DarkBlue" (rgb 0 0 0.5)). reflexivity. Defined.

Lemma hex_digit_plain c d :
  digitIn 16 c = Some d ->
  isWhiteSpace c = false /\ c <> "-"%char /\ c <> "+"%char /\
  c <> "x"%char /\ c <> "X"%char /\ (0 <= d < 16)%Z.
Proof.
  destruct c as [[] [] [] [] [] [] [] []]; vm_compute; intros H;
    try discriminate H; injection H as <-;
    repeat (split; try discriminate; try reflexivity).
Qed.

(** Two hexadecimal digits are read as the number they write. *)
Lemma parseInt_hex_pair c1 c2 d1 d2 :
  digitIn 16 c1 = Some d1 -> digitIn 16 c2 = Some d2 ->
  parseIntRadix 16 (String c1 (String c2 "")) = Some (d1 * 16 + d2)%Z.
Proof.
  intros H1 H2.
  destruct (hex_digit_plain c1 d1 H1) as (W1 & M1 & P1 & _ & _ & _).
  destruct (hex_digit_plain c2 d2 H2) as (_ & _ & _ & X2 & X2' & _).
  unfold parseIntRadix. cbn [trimStart]. rewrite W1.
  assert (Plain : match String c1 (String c2 "") with
                  | String "-" s' => (true, s')
                  | String "+" s' => (false, s')
                  | _ => (false, String c1 (String c2 ""))
                  end = (false, String c1 (String c2 ""))).
  { destruct c1 as [[] [] [] [] [] [] [] []]; try reflexivity; congruence. }
  rewrite Plain. change (16 =? 16)%Z with true. cbv iota.
  assert (NoPrefix : stripHexPrefix (String c1 (String c2 "")) = String c1 (String c2 "")).
  { unfold stripHexPrefix.
    destruct c1 as [[] [] [] [] [] [] [] []]; try reflexivity.
    destruct c2 as [[] [] [] [] [] [] [] []]; try reflexivity; congruence. }
  rewrite NoPrefix. cbn [readDigits]. rewrite H1, H2. reflexivity.
Qed.

Lemma channel_hex_pair c1 c2 d1 d2 :
  digitIn 16 c1 = Some d1 -> digitIn 16 c2 = Some d2 ->
  channel 16 (String c1 (String c2 "")) = Some (inject_Z (d1 * 16 + d2) / 255) /\
  0 <= inject_Z (d1 * 16 + d2) / 255 /\ inject_Z (d1 * 16 + d2) / 255 <= 1.
Proof.
  intros H1 H2. unfold channel. rewrite (parseInt_hex_pair c1 c2 d1 d2 H1 H2).
  destruct (hex_digit_plain c1 d1 H1) as (_ & _ & _ & _ & _ & B1).
  destruct (hex_digit_plain c2 d2 H2) as (_ & _ & _ & _ & _ & B2).
  split; [reflexivity|].
  assert (Lo : 0 <= inject_Z (d1 * 16 + d2)).
  { change 0 with (inject_Z 0). rewrite <- Zle_Qle. lia. }
  assert (Hi : inject_Z (d1 * 16 + d2) <= 255).
  { change 255 with (inject_Z 255). rewrite <- Zle_Qle. lia. }
  split.
  - apply Qle_shift_div_l; lra.
  - apply Qle_shift_div_r; lra.
Qed.

(** X20.  Hexadecimal colours.  A six-digit colour gives the three
    channels its digit pairs write, each divided by 255, so between 0 and
    1; a three-digit colour is read as the six-digit colour with every
    digit doubled; and a channel written with a minus sign is read as a
    negative number: the colour is not checked. *)
Theorem hex_colours_are_read_digit_by_digit :
  (forall c1 c2 c3 c4 c5 c6 d1 d2 d3 d4 d5 d6,
     digitIn 16 c1 = Some d1 -> digitIn 16 c2 = Some d2 ->
     digitIn 16 c3 = Some d3 -> digitIn 16 c4 = Some d4 ->
     digitIn 16 c5 = Some d5 -> digitIn 16 c6 = Some d6 ->
     let col :=
       parseColor
         (String "#" (String c1 (String c2 (String c3 (String c4 (String c5
            (String c6 ""))))))) in
     r col = Some (inject_Z (d1 * 16 + d2) / 255) /\
     g col = Some (inject_Z (d3 * 16 + d4) / 255) /\
     b col = Some (inject_Z (d5 * 16 + d6) / 255) /\
     0 <= inject_Z (d1 * 16 + d2) / 255 <= 1 /\
     0 <= inject_Z (d3 * 16 + d4) / 255 <= 1 /\
     0 <= inject_Z (d5 * 16 + d6) / 255 <= 1) /\
  (forall c1 c2 c3,
     parseColor (String "#" (String c1 (String c2 (String c3 ""))))
     = parseColor
         (String "#" (String c1 (String c1 (String c2 (String c2 (String c3
            (String c3 "")))))))) /\
  r (parseColor "#-f0000") = Some (inject_Z (-15) / 255).
Proof.
  split; [|split; [intros; reflexivity | reflexivity]].
  intros c1 c2 c3 c4 c5 c6 d1 d2 d3 d4 d5 d6 H1 H2 H3 H4 H5 H6 col.
  destruct (channel_hex_pair c1 c2 d1 d2 H1 H2) as (R & R0 & R1).
  destruct (channel_hex_pair c3 c4 d3 d4 H3 H4) as (G & G0 & G1).
  destruct (channel_hex_pair c5 c6 d5 d6 H5 H6) as (B & B0 & B1).
  assert (E : col = {| r := channel 16 (String c1 (String c2 ""));
                       g := channel 16 (String c3 (String c4 ""));
                       b := channel 16 (String c5 (String c6 "")) |}) by reflexivity.
  rewrite E. simpl r. simpl g. simpl b.
  repeat split; assumption.
Qed.

(** *** Page numbers *)

Section PageNumberFacts.

Variable W : Font -> string -> Q -> Q.

(** The pages left behind and [pageNumber] are those of the other
    document. *)
Let sameBook (d d' : Doc) : Prop :=
  pages d' = pages d /\ pageNumber d' = pageNumber d.

Lemma pagesAreNumbered_sameBook d d' :
  sameBook d d' -> pagesAreNumbered W d -> pagesAreNumbered W d'.
Proof.
  intros [P N] [H1 H2]. unfold pagesAreNumbered. rewrite P, N. split; assumption.
Qed.

Lemma pagesAreNumbered_ensureSpace requiredHeight d :
  pagesAreNumbered W d -> pagesAreNumbered W (ensureSpace W requiredHeight d).
Proof.
  intros [H1 H2]. unfold ensureSpace.
  destruct (lt (yPosition d - requiredHeight) marginBottom); [|split; assumption].
  unfold pagesAreNumbered. cbn [pages pageNumber]. split.
  - rewrite List.length_app. simpl. lia.
  - intros k closed Hk.
    destruct (Nat.lt_ge_cases k (List.length (pages d))) as [Lt|Ge].
    + rewrite nth_error_app1 in Hk by exact Lt. exact (H2 k closed Hk).
    + rewrite nth_error_app2 in Hk by exact Ge.
      destruct (k - List.length (pages d))%nat as [|m] eqn:K.
      * injection Hk as <-. exists (page d).
        replace (S k) with (pageNumber d) by lia. reflexivity.
      * destruct m; discriminate Hk.
Qed.

Lemma pagesAreNumbered_drawCurrentLine line style x indent d :
  pagesAreNumbered W d -> pagesAreNumbered W (drawCurrentLine W line style x indent d).
Proof.
  intros H.
  destruct (drawCurrentLine_ops W line style x indent d) as (_ & P & N & _).
  apply (pagesAreNumbered_sameBook (ensureSpace W (lineHeightOf style) d)).
  - split; assumption.
  - apply pagesAreNumbered_ensureSpace. exact H.
Qed.

Lemma pagesAreNumbered_drawWords style x indent words : forall currentLine d,
  pagesAreNumbered W d ->
  pagesAreNumbered W (snd (drawWords W words currentLine style x indent d)).
Proof.
  induction words as [|word words IH]; intros currentLine d H; [exact H|].
  cbn [drawWords]. cbv zeta.
  destruct (le _ _); [apply IH; exact H|].
  apply IH. destruct (truthyStr currentLine); [|exact H].
  apply pagesAreNumbered_drawCurrentLine. exact H.
Qed.

Lemma pagesAreNumbered_step d d' :
  drawingStep W d d' -> pagesAreNumbered W d -> pagesAreNumbered W d'.
Proof.
  intros Step H. destruct Step as [h d|op d|y d|text style x indent d|w h indent d].
  - apply pagesAreNumbered_ensureSpace. exact H.
  - exact H.
  - exact H.
  - unfold drawStyledText.
    pose proof (pagesAreNumbered_drawWords style x indent (split_ws (trim text)) "" d H)
      as Hw.
    destruct (drawWords W (split_ws (trim text)) "" style x indent d)
      as [currentLine d1].
    cbn [snd] in Hw.
    destruct (truthyStr currentLine); [|exact Hw].
    apply pagesAreNumbered_drawCurrentLine. exact Hw.
  - unfold drawEmbeddedImage. cbv zeta.
    match goal with
    | |- pagesAreNumbered W (setYPosition _ (drawOnPage _ (setYPosition _ ?d1))) =>
        apply (pagesAreNumbered_sameBook d1); [split; reflexivity|]
    end.
    apply pagesAreNumbered_ensureSpace. exact H.
Qed.

(** The pages left behind only grow: a step keeps them and may add
    one. *)
Lemma step_keeps_pages d d' :
  drawingStep W d d' -> exists more, pages d' = (pages d ++ more)%list.
Proof.
  assert (Space : forall h d, exists more,
            pages (ensureSpace W h d) = (pages d ++ more)%list).
  { intros h d0. unfold ensureSpace.
    destruct (lt _ _); cbn [pages]; [eexists; reflexivity|].
    exists []. symmetry. apply app_nil_r. }
  assert (Line : forall line style x indent d, exists more,
            pages (drawCurrentLine W line style x indent d) = (pages d ++ more)%list).
  { intros line style x indent d0.
    destruct (drawCurrentLine_ops W line style x indent d0) as (_ & P & _ & _).
    rewrite P. apply Space. }
  assert (Words : forall style x indent words currentLine d, exists more,
            pages (snd (drawWords W words currentLine style x indent d))
            = (pages d ++ more)%list).
  { intros style x indent words.
    induction words as [|word words IH]; intros currentLine d0.
    - exists []. symmetry. apply app_nil_r.
    - cbn [drawWords]. cbv zeta. destruct (le _ _); [apply IH|].
      destruct (truthyStr currentLine); [|apply IH].
      destruct (IH word (drawCurrentLine W currentLine style x indent d0)) as [m2 E2].
      destruct (Line currentLine style x indent d0) as [m1 E1].
      exists (m1 ++ m2)%list. rewrite E2, E1, app_assoc. reflexivity. }
  intros Step. destruct Step as [h d|op d|y d|text style x indent d|w h indent d].
  - apply Space.
  - exists []. symmetry. apply app_nil_r.
  - exists []. symmetry. apply app_nil_r.
  - unfold drawStyledText.
    destruct (Words style x indent (split_ws (trim text)) "" d) as [m1 E1].
    destruct (drawWords W (split_ws (trim text)) "" style x indent d)
      as [currentLine d1].
    cbn [snd] in E1.
    destruct (truthyStr currentLine); [|exists m1; exact E1].
    destruct (Line currentLine style x indent d1) as [m2 E2].
    exists (m1 ++ m2)%list. rewrite E2, E1, app_assoc. reflexivity.
  - unfold drawEmbeddedImage. cbv zeta. cbn [pages setYPosition drawOnPage]. apply Space.
Qed.

(** X22.  The pages are numbered as they are left behind.  At every point
    of the conversion, [pageNumber] is one more than the number of pages
    left behind and the page left behind at place [k] ends with the footer
    of page [k + 1]; and no later step changes a page left behind. *)
Theorem pages_are_numbered_as_they_are_left (d : Doc) :
  reachable W d ->
  pagesAreNumbered W d /\
  forall d', drawingStep W d d' -> exists more, pages d' = (pages d ++ more)%list.
Proof.
  intros R. split.
  - induction R as [|d d' R IH Step].
    + split; [reflexivity|]. intros k closed Hk. destruct k; discriminate Hk.
    + exact (pagesAreNumbered_step d d' Step IH).
  - intros d' Step. exact (step_keeps_pages d d' Step).
Qed.

End PageNumberFacts.

Lemma pages_are_numbered_example :
  let W := halfSizePerChar in
  let d := drawStyledText W "Hello" (plainStyle black) marginLeft 0 (ensureSpace W 700 newDoc) in
  reachable W d /\
  pages d = [[footerOf W 1]] /\
  pagesAreNumbered W d.
Proof.
  cbv zeta.
  assert (R : reachable halfSizePerChar
                (drawStyledText halfSizePerChar "Hello" (plainStyle black) marginLeft 0
                   (ensureSpace halfSizePerChar 700 newDoc))).
  { eapply reachable_step; [|apply step_drawStyledText].
    eapply reachable_step; [apply reachable_new|apply step_ensureSpace]. }
  split; [exact R|]. split; [reflexivity|].
  exact (proj1 (pages_are_numbered_as_they_are_left halfSizePerChar _ R)).
Defined.

End WordToPDFMoreFacts.
